(* ===== verification/_CoqProject ===== *)
-Q . S2P
Prelude.v
Struct.v
PyText.v
Json.v
Schema.v
JsonText.v
Base64.v
Protocol.v
Core.v
Memory.v
Mailbox.v
Workload.v
RuntimeState.v
Diagnostics.v
Timeout.v
Filesystem.v
RequestChannel.v
ServiceClient.v
WorkloadClient.v
Ownership.v
Broker.v
Rpc.v
Telemetry.v
Console.v
Transport.v
Evidence.v
Shell.v
Remote.v
WebApi.v
WebTypes.v
Http.v
StartWorkload.v
Cli.v
Package.v
StatusTool.v
Build.v
Regex.v
DocCheck.v
Symbols.v
Omf.v
Lab.v
Layout.v
Fixtures.v
Experiments.v
Session.v
Commands.v
Monitor.v
Preserve.v
Finite.v
Verdict.v
Bench.v
Attached.v
