(* ===== verification/Prelude.v ===== *)
(** * RP86 Host runtime: a verification development

    ** The program

    [pi86-rp2350] runs a physical 8086-class processor (Intel 8086 or NEC V30)
    on an RP2350 board.  The Host side, in Python, talks to the board over USB:
    64-byte records over HID carry requests and replies, a CDC serial stream
    carries text evidence.  One Host process owns the device ([session.py]) and
    serves other tools through a local broker; a shell, a Web API and a network
    gateway sit on top.  Beside it, [src/tools/ia16_lab] runs processor workloads
    in an emulator and reads the linker's files.  This development models the
    Host runtime under [src/host] and the laboratory; the firmware and the
    processor workloads themselves are not modelled.

    ** Parts, files and correspondence

    - [Prelude]: exceptions and results, byte slices, machine-width integers, the
      request counter, bursts of records, byte-addressed memory, tactics.
    - [Struct], [PyText], [Json], [Base64]: the parts of Python's library the
      runtime uses ([struct], text and number formatting and parsing, UTF-8,
      JSON values, base64), and the exception-state monad [io].  [JsonText]:
      [json.dumps] and [json.loads] on octets; [Schema]: types of documents.
    - [Protocol] (protocol.py): [Message], [NativeServiceWitness], the codecs and
      every constant.  [Core] (core.py, calculator.py, constants.py): HID framing,
      reply validation, heartbeat statistics, calculator payloads.
    - [Memory], [Mailbox], [Workload], [RuntimeState], [Diagnostics], [Timeout],
      [Filesystem] (the modules of the same names): requests, replies and files
      of each service and the Host's view of the execution state.
    - [RequestChannel] (request_channel.py): the exchange over HID; HIDAPI, the
      clock and the CDC service are the class [HidWorld].
    - [ServiceClient] (service_client.py) and [WorkloadClient]
      (workload_client.py): services over an abstract exchange, the class
      [RequestExchange]; the device contracts [SramService] and [FlashService].
    - [Ownership] (device_ownership.py): the lock file, over an operating system
      with locks and crashes.  [Broker] (broker.py, device.py): the request
      handler, queues, audit and life cycle of the broker; a publication is two
      steps, as the session's thread copies the audit under the lock and stores
      the snapshot after it.  [Rpc] (the rest of
      broker.py): the remote call and its line protocol, the registry, discovery,
      clients, start and stop, and telemetry datagrams.
    - [Telemetry] (freertos_system.py): the RAM-backed witnesses and the seqlock
      read over a publishing processor (the class [Publication]).
    - [Console] (console.py), [Shell] (shell_commands.py), [Evidence]
      (session_evidence.py): the CDC display stream, the line editor, the redraw,
      the panel and the styles of events (the Rich library is the class
      [RichLibrary]); command table, [shlex], history and completion; the evidence
      of a session.
    - [Remote] (apps/remote/rp86_remote.py): exclusive ownership by one browser
      and the request gate.  [WebApi] (apps/web/rp86_web_api.py,
      rp86_web_view.py): the routes and the runtime owner; [WebTypes]: the types of
      its answers.  [Http] (rp86_web.py, the rest of rp86_remote.py and
      apps/cli/rp86.py): requests and responses of both servers, octet by octet,
      their programs, and the gateway put on top of the Web API, with a thread for
      each request (a POST is two steps, [post_enter] under the lock of the session
      and [post_call] after it) and the recovery thread that a GET may start.
    - [Transport] (transport.py): CDC requests with their markers, runtime control
      over HID, the opening of a device and port selection.  [StartWorkload] (start_workload.py): the
      deployment of one workload through the owner, over the class [StartWorld].
      [Cli] (cli.py): the dispatch of every mode, over the class [CliWorld].
      [Package] (scripts/package_workload.py), [StatusTool]
      (tools/diagnostics/freertos_status.py), [Build] (scripts/build.py) and
      [DocCheck] (scripts/check_docs.py): the packager, the telemetry command, the
      build driver and the documentation check (on ASCII documents).
    - [Session] (the state of session.py, its exchange over HID or through the
      broker of the owner, and what it prints), [Commands] (every shell command
      and the Host candidates of a completion), [Monitor] (the opening, start-up,
      one turn of the loop with the line editor, native probes, the regression,
      the summary and the exit code).  [Preserve] holds the invariants every
      command and turn preserves, [Finite] shows that no loop of a session is cut
      short, [Verdict] has the theorems on whole sessions,
      [Bench] a concrete device and sessions that run on it; [Attached] composes
      the session of an owner with one that is attached to it.
    - [Regex]: Python's backtracking matcher on a syntax of patterns, with a
      declarative semantics.  [Symbols] (symbols.py), [Omf] (omf.py), [Lab]
      (loader.py, trace.py, machine.py, cli.py of the laboratory; the Unicorn
      emulator is the class [Emulator], its documented memory and register laws
      [Faithful]), [Layout] (the freertos75_*_layout.py modules), [Fixtures] (the
      experiments freertos75_*fixture.py and freertos75_tick_interleave.py),
      [Experiments] (the main functions of these modules and
      freertos75_probe.py, with the reports they print).

    ** How the code is translated

    A Python function is a Rocq function of the same name (a suffix or prefix
    where names would clash); an object is a record and a method takes and
    returns it.  A call that can raise returns [result]; the payload of an
    exception is the text [str(exc)].  [struct.error] is [StructError] and not a
    [ValueError], as in Python.  Code that acts on the outside world is in the
    monad [io W], which keeps the state reached when an exception is raised; what
    the outside world does is a type class over [W] and is left open, so that the
    theorems hold for every device, clock, terminal or operating system that the
    class admits.  Integers are unbounded as in Python; a width appears where the
    code masks or packs.  Text is UTF-8 octets; [int], [lower] and [strip] are
    those of ASCII text.  A [while] loop whose end depends on the outside takes
    fuel and returns [None] when it runs out: the theorems either show that
    enough fuel gives the result ([exchange_terminates], [read_file_complete],
    [line_editor_sound], [regression_terminates]) or follow the runs that return.
    In the session the loops of a turn are wrapped in [in_time]: one that runs out
    of fuel is noted in the field [s_starved], which is no variable of the code,
    and ends the run with [OutOfFuel], which is no exception of Python and which
    nothing catches.  [Finite] shows that this does not happen when the fuel
    exceeds the answers the device and the owner's broker still give, the timeout
    of an exchange or control in milliseconds and 52 more (the final drain takes
    50 ms), and the controls clients still queue: every turn of such a loop uses up
    an answer, a control or a millisecond.  Loops over data are
    structural or get the length of the data as fuel, which each turn consumes.

    ** What the theorems show

    - Codecs: records, witnesses, status payloads, manifests and workload files
      are encoded and decoded without loss; what is accepted is exactly what is
      well formed ([message_round_trip], [witness_codec], [hid_framing],
      [status_payload_codec], [validated_spec], [workload_file_codec],
      [calculator_payload_safe]).
    - Replies: a reply is accepted exactly when it answers the request
      ([validate_device_reply_spec], [parse_memory_read_spec],
      [diagnostics_accepted], [timeout_status_accepted]), the exchange returns
      only such replies, returns the first one that comes in time and always
      ends ([exchange_reply_genuine], [exchange_first_answer],
      [exchange_terminates], for a device that sends finitely many reports).
    - Transfers: uploads, memory writes, file writes and mailbox commits are
      reassembled by a device that follows the protocol into exactly the data
      that was sent ([upload_reassembles], [memory_write_replay],
      [filesystem_write_transaction], [mailbox_commit_atomic]); the clients built
      on them are sound and complete over a conforming device
      ([memory_client_round_trip], [read_file_sound], [read_file_complete],
      [transact_outcome]).
    - Sharing: at most one owner holds a device ([ownership_exclusive]); every
      reachable broker is well formed, answers each connection at most once and
      mirrors its audit in the snapshot except for entries that overtook a
      publication ([broker_invariant], [broker_rpc_transparent],
      [audit_provenance]); a remote call carries request and answer over the socket
      without loss, for answers of at most 16 KiB and one octet
      ([rpc_round_trip], over [json_read_back] and [dump_bytes_no_newline]),
      discovery reports exactly the registered brokers that answer
      ([discover_exact]) and a broker starts only as the device's owner
      ([broker_start_ownership]); the
      gateway lets only the owner of the session through ([remote_exclusive], for
      requests one after the other), and while the session is held only the owner's
      POSTs send records, whichever way the threads of the requests interleave
      ([gateway_device_exclusive]); the runtime a server held when it was closed has
      ended when it returns ([programs_end], where [Children] says what [poll] and
      [wait] mean).
    - Observation: a telemetry snapshot is of one instant ([telemetry_coherent]),
      the console does not depend on how the stream is cut ([cdc_chunking]), the
      line editor and the history keep their state sound ([line_editor_sound],
      [history_browse]), the shell parses what was typed ([shell_parse]),
      evidence is grounded ([evidence_provenance]), and the Web API reports only
      what the device accepted or sent ([web_upload_complete],
      [web_memory_genuine]); its answers are well typed ([web_answers_typed]) and
      reach the client as they were meant ([responses_delivered]).
    - Sessions: an exit with the pass code is certified by what the device sent
      ([pass_exit_certified]), a regression ends by its timeout and none of its
      turns hangs ([regression_terminates]; [flooded_drain] is the device that it
      excludes), exit code, summary and evidence agree
      ([exit_matches_summary]), the request counter stays in its range
      ([session_counter_bounds]), the terminal is given back however a session ends
      ([terminal_given_back]).  A session attached to an owner leaves the device
      alone ([attached_leaves_device]) and sees, through the broker, exactly the
      replies the owner read ([attached_exchange_transparent]).  A deployment that passes sent exactly what it
      should ([start_pass_certified]); the command line leaves a device alone that
      has an owner, and its one-shot commands pass only when confirmed
      ([cli_defers], [cli_pass_certified]); a package holds what its description
      asks for ([package_described]), a progress check that passes is certified by
      the telemetry ([progress_certified]); the trees the build driver removes are
      the staging and build directories, neither the repository itself nor the root
      of a file system ([build_removals]; one above the repository is not refused,
      [clean_removes_parent]), and it passes only when every step did
      ([build_pass_certified]), the documentation check passes exactly the trees
      its rules allow ([doc_check_certified], [broken_link_fails]); CDC and HID controls report what the device
      answered ([status_request_block], [runtime_control_decided],
      [cdc_acknowledged], [port_selection]).
    - Laboratory: the pattern matcher agrees with its semantics
      ([match_re_sound], [match_re_complete], [match_rep_longest]); objects and
      maps are read as they were written ([omf_reader], [wlink_map_round_trip]),
      contributions do not overlap ([contributions_disjoint]), the bases, symbols
      and predicted addresses of a layout are those of the map and the objects
      ([port_layout_certified]), addresses resolve to the
      closest symbol ([resolve_closest], [span_clear]); the trace is bounded
      ([trace_bounded]), an interrupt whose frame does not pass the end of the stack
      segment is entered as the processor does ([interrupt_entered];
      [interrupt_frame_wraps] is the other case), a bounded run stops at the first arrival
      ([run_until_first]), the prepared lists are well formed
      ([ready_topology_ring]) and an experiment that reports success has its
      evidence ([missing_evidence_exact], [experiments_certified]).
    - Behaviour at the edges is stated as it is: [upload_sequence_overflow],
      [read_directory_may_loop], and the lemmas [filesystem_sequence_zero],
      [posix_eof_spins], [non_ascii_token], [unhashable_action],
      [interrupt_frame_wraps], [clean_removes_parent], [hid_open_failure_escapes], [contribution_class_clash],
      [unidentified_probe_raises], [stale_probe_event], [blank_target_escapes],
      [malformed_registry], [long_audit_hides], [registry_collision], [overtaken],
      [released_in_flight], [stranger_reboots], [flooded_drain], [surrogate_owner_locks],
      [captured_output_unsent], [local_post_unhandled], [orphaned_runtime],
      [empty_token_completion].

    ** What is not modelled

    The text of the two HTML pages (constants with scripts that run in the
    browser), and of [http.server] all but the responses (sockets, the parsing of
    requests, failed writes); [argparse], which delivers the parsed arguments; the
    event loop of the broker's asyncio server (its handlers are steps); Python's
    limits on the nesting of JSON and on the digits of integers; a Control-C at
    another place than where a session looks at the keyboard; failures of the
    terminal and of writes to standard output.  Libraries (pyserial, hidapi, Rich,
    Unicorn, pathlib) are classes.  A step of the thread models is what a lock or
    an event loop keeps together (the broker's handlers, the two halves of a
    publication, the methods of [PublicSession], a call of the API, whose records
    [request_lock] keeps together); a whole run of the recovery thread is one step
    too, as it sends no record.  A child process that a daemon thread starts after
    the server was closed is not covered by [programs_end].  Imports,
    docstrings and re-exports have no counterpart. *)

From stdpp Require Export base sets list strings pretty gmap.
From coqutil Require Export Byte.
From coqutil Require Export LittleEndianList.
From Stdlib Require Export ZArith Lia ZifyBool ZifyNat.

#[export] Set Default Goal Selector "!".

Declare Scope py_scope.
Delimit Scope py_scope with py.
Global Open Scope Z_scope.

(** ** Exceptions and results

    A Python callable either returns or raises.  [exn] has one constructor per
    exception class the modelled code raises or catches; the payload is the
    text [str(exc)].  [StructError] is [struct.error], which is a subclass of
    [Exception] and {e not} of [ValueError]. *)

Inductive exn :=
| ValueError (msg : string)
| RuntimeError (msg : string)
| OSError (msg : string)
| KeyError (msg : string)
| TypeError (msg : string)
| IndexError
| StructError
| AttributeError
| AssertionError
| SystemExit (msg : string)
| OverflowError (msg : string)
| ChildTimeout    (** [subprocess.TimeoutExpired] of a wait *)
| OutOfFuel.      (** no exception of Python: a loop was cut short, see the header *)

#[global] Instance exn_eq_dec : EqDecision exn.
Proof. solve_decision. Defined.

Inductive result (A : Type) :=
| Ok (a : A)
| Raise (e : exn).
Arguments Ok {A} a.
Arguments Raise {A} e.

#[global] Instance result_eq_dec {A} `{EqDecision A} : EqDecision (result A).
Proof. solve_decision. Defined.

#[global] Instance result_ret : MRet result := λ A a, Ok a.
#[global] Instance result_bind : MBind result := λ A B f m,
  match m with Ok a => f a | Raise e => Raise e end.

Definition is_ok {A} (r : result A) : bool :=
  match r with Ok _ => true | Raise _ => false end.

(** ** Sequences of bytes and integers *)

Abbreviation bytes := (list byte).

#[global] Instance byte_eq_dec : EqDecision byte := Byte.byte_eq_dec.

(** [len(x)] *)
Definition len {A} (l : list A) : Z := Z.of_nat (length l).

(** [x[a:b]] and [x[a:]] for indices that are not negative *)
Definition slice {A} (a b : Z) (l : list A) : list A :=
  take (Z.to_nat b - Z.to_nat a) (drop (Z.to_nat a) l).
Definition slice_from {A} (a : Z) (l : list A) : list A := drop (Z.to_nat a) l.

(** [x[i]] for an index that is not negative *)
Definition item {A} (i : Z) (l : list A) : result A :=
  match l !! Z.to_nat i with Some x => Ok x | None => Raise IndexError end.

(** [x in (a, b, ...)] on integers and on strings *)
Definition z_in (x : Z) (l : list Z) : bool := existsb (Z.eqb x) l.
Definition str_in (x : string) (l : list string) : bool := existsb (String.eqb x) l.

(** [d.get(k)] on a dict with integer or string keys *)
Definition z_get {A} (k : Z) (d : list (Z * A)) : option A :=
  option_map snd (find (λ p, Z.eqb k p.1) d).
Definition str_get {A} (k : string) (d : list (string * A)) : option A :=
  option_map snd (find (λ p, String.eqb k p.1) d).

(** A [bytes] literal *)
Definition lit (s : string) : bytes := String.list_byte_of_string s.

(** [b == c] on [bytes] *)
Definition bytes_eqb (b c : bytes) : bool := bool_decide (b = c).

(** [b.startswith(p)] on [bytes] *)
Fixpoint starts_with (p b : bytes) : bool :=
  match p, b with
  | [], _ => true
  | x :: p, y :: b => Byte.eqb x y && starts_with p b
  | _ :: _, [] => false
  end.

(** [int.from_bytes(b, "little")] *)
Definition from_bytes_le (b : bytes) : Z := le_combine b.

(** The truth value of an integer ([if x:]) and of [x & mask] *)
Definition truthy (z : Z) : bool := negb (z =? 0).
Definition has_bit (x mask : Z) : bool := truthy (Z.land x mask).

(** [(sequence + 1) & 0xFFFFFFFF or 1]: the request counter never yields 0. *)
Definition mask32 (z : Z) : Z := Z.land z 0xFFFFFFFF.
Definition or_one (z : Z) : Z := if z =? 0 then 1 else z.
Definition next_seq (s : Z) : Z := or_one (mask32 (s + 1)).

(** Machine-width ranges *)
Definition in_width (bits z : Z) : bool := (0 <=? z) && (z <? 2 ^ bits).
Abbreviation u8 z := (in_width 8 z = true).
Abbreviation u16 z := (in_width 16 z = true).
Abbreviation u32 z := (in_width 32 z = true).

(** ** Tactics *)

(** Inversion of [... = Ok _] through guards, binds and matches. *)
Lemma bind_ok {A B} (m : result A) (f : A → result B) b :
  m ≫= f = Ok b ↔ ∃ a, m = Ok a ∧ f a = Ok b.
Proof. destruct m; cbn; naive_solver. Qed.

Lemma bind_raise {A B} (m : result A) (f : A → result B) e :
  m ≫= f = Raise e ↔ m = Raise e ∨ ∃ a, m = Ok a ∧ f a = Raise e.
Proof. destruct m; cbn; naive_solver. Qed.

Ltac py_step :=
  match goal with
  | H : Ok _ = Ok _ |- _ => injection H as H; simplify_eq
  | H : Raise _ = Ok _ |- _ => discriminate H
  | H : Ok _ = Raise _ |- _ => discriminate H
  | H : mbind _ _ = Ok _ |- _ =>
      apply bind_ok in H; destruct H as (? & ? & ?)
  | H : (if ?b then Raise _ else _) = Ok _ |- _ =>
      destruct b eqn:?; [discriminate H|]
  | H : (if ?b then _ else Raise _) = Ok _ |- _ =>
      destruct b eqn:?; [|discriminate H]
  | H : (match ?m with Ok _ => _ | Raise _ => Raise _ end) = Ok _ |- _ =>
      destruct m eqn:?; [|discriminate H]
  | H : (match ?m with Some _ => _ | None => Raise _ end) = Ok _ |- _ =>
      destruct m eqn:?; [|discriminate H]
  | H : (let '(_, _) := ?p in _) = Ok _ |- _ =>
      first [is_var p; destruct p | destruct p eqn:?]
  | H : (let 'tt := ?u in _) = Ok _ |- _ => destruct u
  | H : _ ∧ _ |- _ => destruct H
  | H : orb _ _ = false |- _ => apply orb_false_elim in H
  | H : andb _ _ = true |- _ => apply andb_prop in H
  | H : negb _ = true |- _ => apply negb_true_iff in H
  | H : negb _ = false |- _ => apply negb_false_iff in H
  | H : bool_decide _ = true |- _ => apply bool_decide_eq_true in H
  | H : bool_decide _ = false |- _ => apply bool_decide_eq_false in H
  | H : String.eqb _ _ = true |- _ => apply String.eqb_eq in H; subst
  end.
Ltac py_inv := repeat py_step.

(** Drive a goal [f x = Ok _] forward: close every guard with the facts at hand. *)
Ltac guard_false :=
  match goal with
  | |- context [if ?b then _ else _] =>
      let E := fresh "E" in
      assert (b = false) as E by (first [lia | assumption | done]);
      rewrite E; clear E
  end.
Ltac guard_true :=
  match goal with
  | |- context [if ?b then _ else _] =>
      let E := fresh "E" in
      assert (b = true) as E by (first [lia | assumption | done]);
      rewrite E; clear E
  end.

Create HintDb rp86.
Create Rewrite HintDb rp86_len.
#[export] Hint Unfold len slice slice_from : rp86.

(** ** Generic lemmas *)

Lemma len_nonneg {A} (l : list A) : 0 <= len l.
Proof. unfold len; lia. Qed.
#[export] Hint Resolve len_nonneg : rp86.

Lemma len_app {A} (l k : list A) : len (l ++ k) = len l + len k.
Proof. unfold len; rewrite length_app; lia. Qed.
Lemma len_nil {A} : len (@nil A) = 0.
Proof. reflexivity. Qed.
Lemma len_cons {A} (x : A) l : len (x :: l) = 1 + len l.
Proof. unfold len; cbn [length]; lia. Qed.
Lemma len_zero {A} (l : list A) : len l = 0 → l = [].
Proof. destruct l; [done|]. rewrite len_cons. pose proof (len_nonneg l). lia. Qed.

Lemma len_pos_ne {A} (l : list A) : 0 < len l → l ≠ [].
Proof. by intros ? ->. Qed.
Lemma len_ne_pos {A} (l : list A) : l ≠ [] → 0 < len l.
Proof. destruct l as [|x l]; [done|]. intros _. rewrite len_cons. pose proof (len_nonneg l). lia. Qed.

Lemma len_slice {A} a b (l : list A) :
  0 <= a → a <= b → b <= len l → len (slice a b l) = b - a.
Proof. unfold len, slice. rewrite length_take, length_drop. lia. Qed.

Lemma len_slice_from {A} a (l : list A) :
  0 <= a → a <= len l → len (slice_from a l) = len l - a.
Proof. unfold len, slice_from. rewrite length_drop. lia. Qed.

Lemma slice_app_l {A} b (l k : list A) : b = len l → slice 0 b (l ++ k) = l.
Proof.
  intros ->. unfold slice, len. rewrite Nat2Z.id. cbn.
  rewrite Nat.sub_0_r. apply take_app_length.
Qed.

Lemma slice_from_app {A} b (l k : list A) : b = len l → slice_from b (l ++ k) = k.
Proof. intros ->. unfold slice_from, len. rewrite Nat2Z.id. apply drop_app_length. Qed.

(** A slice behind a prefix, and the whole list as a slice *)
Lemma slice_after {A} n b (l k : list A) : len l = n → slice n (n + b) (l ++ k) = slice 0 b k.
Proof.
  intros <-. pose proof (len_nonneg l). unfold slice, len in *. rewrite Nat2Z.id, drop_app_length.
  cbn [drop]. f_equal. lia.
Qed.
Lemma slice_all {A} b (l : list A) : len l <= b → slice 0 b l = l.
Proof. intros. unfold slice, len in *. cbn [drop]. apply take_ge. lia. Qed.

(** A field inside a record *)
Lemma slice_field {A} a b (pre x post : list A) :
  len pre = a → len x = b - a → slice a b (pre ++ x ++ post) = x.
Proof.
  intros Ha Hb. replace b with (a + (b - a)) by lia. rewrite slice_after by done.
  by apply slice_app_l.
Qed.
Lemma item_field {A} i (pre : list A) x post :
  0 <= i → len pre = i → item i (pre ++ x :: post) = Ok x.
Proof.
  intros Hi Hl. unfold item, len in *. rewrite lookup_app_r by lia.
  by replace (Z.to_nat i - length pre)%nat with 0%nat by lia.
Qed.

Lemma slice_split {A} b (l : list A) : slice 0 b l ++ slice_from b l = l.
Proof. unfold slice, slice_from. cbn. rewrite Nat.sub_0_r. apply take_drop. Qed.

Lemma bytes_eqb_eq b c : bytes_eqb b c = true ↔ b = c.
Proof. unfold bytes_eqb. by rewrite bool_decide_eq_true. Qed.
Lemma bytes_eqb_refl b : bytes_eqb b b = true.
Proof. by apply bytes_eqb_eq. Qed.

Lemma starts_with_app p b : starts_with p (p ++ b) = true.
Proof.
  induction p as [|x p IH]; cbn; [done|]. rewrite IH.
  assert (Byte.eqb x x = true) as -> by (by apply Byte.byte_dec_lb). done.
Qed.

Lemma z_in_spec x l : z_in x l = true ↔ x ∈ l.
Proof.
  unfold z_in. rewrite existsb_exists. setoid_rewrite Z.eqb_eq.
  rewrite list_elem_of_In. naive_solver.
Qed.

(** Masks and ranges *)
Lemma mask32_range z : 0 <= mask32 z < 2 ^ 32.
Proof.
  unfold mask32. change 0xFFFFFFFF with (Z.ones 32).
  rewrite Z.land_ones by lia. apply Z.mod_pos_bound. lia.
Qed.
Lemma mask32_id z : u32 z → mask32 z = z.
Proof.
  unfold in_width, mask32. intros.
  change 0xFFFFFFFF with (Z.ones 32). rewrite Z.land_ones by lia.
  apply Z.mod_small. lia.
Qed.

(** [x & (1 << k)] is the bit [k]. *)
Lemma has_bit_testbit x k mask : 0 <= k → mask = 2 ^ k → has_bit x mask = Z.testbit x k.
Proof.
  intros Hk ->. unfold has_bit, truthy. destruct (Z.testbit x k) eqn:Hb.
  - apply negb_true_iff, Z.eqb_neq. intros H0.
    assert (Z.testbit (Z.land x (2 ^ k)) k = false) as H by (by rewrite H0, Z.bits_0).
    rewrite Z.land_spec, Hb, Z.pow2_bits_true in H by lia. done.
  - apply negb_false_iff, Z.eqb_eq. apply Z.bits_inj'. intros n Hn.
    rewrite Z.land_spec, Z.bits_0, Z.pow2_bits_eqb by lia.
    destruct (k =? n) eqn:E; [|by rewrite andb_false_r]. apply Z.eqb_eq in E as <-. by rewrite Hb.
Qed.

(** [x & ~(2^k - 1) == 0] bounds [x]. *)
Lemma land_lnot_ones x k : 0 <= k → Z.land x (Z.lnot (Z.ones k)) = 0 ↔ 0 <= x < 2 ^ k.
Proof.
  intros Hk. rewrite <- Z.ldiff_land, Z.ldiff_ones_r, Z.shiftl_eq_0_iff, Z.shiftr_div_pow2 by lia.
  pose proof (Z.pow_pos_nonneg 2 k ltac:(lia) Hk). rewrite Z.div_small_iff by lia. lia.
Qed.

Lemma lxor_u32 a b : u32 a → u32 b → u32 (Z.lxor a b).
Proof.
  assert (∀ z, u32 z ↔ Z.land z (Z.ones 32) = z) as Hw.
  { intros z. unfold in_width. rewrite Z.land_ones by lia. split; [intros; apply Z.mod_small; lia|].
    intros E. pose proof (Z.mod_pos_bound z (2 ^ 32) ltac:(lia)). lia. }
  rewrite !Hw. intros Ha Hb. rewrite <- Ha at 2. rewrite <- Hb at 2.
  apply Z.bits_inj'. intros n Hn. rewrite !Z.land_spec, !Z.lxor_spec, !Z.land_spec.
  by destruct (Z.testbit a n), (Z.testbit b n), (Z.testbit (Z.ones 32) n).
Qed.

(** The request counter stays a non-zero 32-bit value. *)
Lemma next_seq_range s : 1 <= next_seq s < 2 ^ 32.
Proof.
  unfold next_seq, or_one. pose proof (mask32_range (s + 1)).
  destruct (_ =? 0) eqn:?; lia.
Qed.
Lemma next_seq_u32 s : u32 (next_seq s).
Proof. unfold in_width. pose proof (next_seq_range s). lia. Qed.
Lemma next_seq_lt s : 0 <= s < 2 ^ 32 - 1 → next_seq s = s + 1.
Proof.
  intros. unfold next_seq, or_one. rewrite mask32_id by (unfold in_width; lia).
  destruct (_ =? 0) eqn:?; lia.
Qed.
Lemma next_seq_max : next_seq (2 ^ 32 - 1) = 1.
Proof. reflexivity. Qed.
#[export] Hint Resolve next_seq_range next_seq_u32 : rp86.

(** The number of non-zero sequences before a repetition: [next_seq] is injective
    on its own range, so two records of one burst never share a sequence. *)
Lemma next_seq_inj s t :
  1 <= s < 2 ^ 32 → 1 <= t < 2 ^ 32 → next_seq s = next_seq t → s = t.
Proof.
  intros Hs Ht.
  destruct (decide (s = 2 ^ 32 - 1)) as [->|]; destruct (decide (t = 2 ^ 32 - 1)) as [->|];
    [done| | |]; rewrite ?next_seq_max; rewrite ?next_seq_lt by lia; lia.
Qed.

(** ** Bursts of records

    [chain step s l]: the values of [l] are [s], [step s], [step (step s)], ... *)
Fixpoint chain (step : Z → Z) (s : Z) (l : list Z) : bool :=
  match l with
  | [] => true
  | x :: l => (x =? s) && chain step (step s) l
  end.

(** The value that follows the last one of a burst that starts at [s] *)
Definition chain_next (step : Z → Z) (s : Z) (l : list Z) : Z :=
  match last l with Some x => step x | None => s end.

Lemma chain_app step s l k :
  chain step s l = true → chain step (chain_next step s l) k = true →
  chain step s (l ++ k) = true.
Proof.
  revert s. induction l as [|x l IH]; intros s; [done|]. cbn [chain app].
  intros H Hk. apply andb_prop in H as [Hx Hl]. apply Z.eqb_eq in Hx as ->.
  rewrite Z.eqb_refl. cbn [andb]. apply IH; [done|].
  destruct l as [|y l]; [done|]. revert Hk. unfold chain_next.
  rewrite last_cons. destruct (last (y :: l)) eqn:E; [done|]. by apply last_None in E.
Qed.

(** A burst that simply counts *)
Lemma chain_next_succ s l :
  chain Z.succ s l = true → chain_next Z.succ s l = s + len l.
Proof.
  revert s. induction l as [|x l IH]; intros s; cbn [chain]; [rewrite len_nil; cbn; lia|].
  intros H. apply andb_prop in H as [Hx Hl]. apply Z.eqb_eq in Hx as ->.
  specialize (IH _ Hl). rewrite len_cons. unfold chain_next in *. rewrite last_cons.
  destruct (last l) eqn:E; [lia|]. apply last_None in E as ->. rewrite len_nil. lia.
Qed.

Lemma chain_succ_u32 s l :
  0 <= s → s + len l <= 2 ^ 32 → chain Z.succ s l = true → Forall (λ x, u32 x) l.
Proof.
  revert s. induction l as [|x l IH]; intros s; cbn [chain]; [constructor|].
  rewrite len_cons. pose proof (len_nonneg l). intros Hs Hl Hx.
  apply andb_prop in Hx as [Hx Hc]. apply Z.eqb_eq in Hx as ->.
  constructor; [unfold in_width; lia|]. apply (IH (Z.succ s)); [lia|lia|done].
Qed.

Lemma chain_u32 s l :
  u32 s → chain next_seq s l = true → Forall (λ x, u32 x) l.
Proof.
  revert s. induction l as [|x l IH]; intros s Hs; cbn [chain]; [constructor|].
  intros H. apply andb_prop in H as [Hx Hl]. apply Z.eqb_eq in Hx as ->.
  constructor; [done|]. apply (IH (next_seq s)); [apply next_seq_u32|done].
Qed.

(** The chunk a transfer loop takes at its current offset *)
Lemma slice_chunk {A} (done rest : list A) n m :
  0 <= n → m = len done + n →
  slice (len done) m (done ++ rest) = take (Z.to_nat n) rest.
Proof.
  intros Hn ->. unfold slice, len. rewrite Nat2Z.id, drop_app_length.
  f_equal. lia.
Qed.

Lemma len_take_le {A} n (l : list A) : len (take n l) <= Z.of_nat n.
Proof. unfold len. rewrite length_take. lia. Qed.

Lemma len_take_pos {A} n (l : list A) : (0 < n)%nat → l ≠ [] → 0 < len (take n l).
Proof. destruct n, l; cbn; [lia|lia|done|]. intros _ _. rewrite len_cons. pose proof (len_nonneg (take n l)). lia. Qed.

(** One turn of a transfer loop: what is left after a chunk *)
Lemma take_drop_len {A} n (l : list A) : len l = len (take n l) + len (drop n l).
Proof. by rewrite <- len_app, take_drop. Qed.

Lemma forallb_take {A} (p : A → bool) n l : forallb p l = true → forallb p (take n l) = true.
Proof. rewrite <- (take_drop n l) at 1. rewrite forallb_app. intros H. by py_inv. Qed.

(** ** Byte-addressed memory *)

Abbreviation memory := (gmap Z byte).

Fixpoint write_mem (address : Z) (data : bytes) (m : memory) : memory :=
  match data with
  | [] => m
  | x :: data => write_mem (address + 1) data (<[address := x]> m)
  end.

Fixpoint read_mem (address : Z) (n : nat) (m : memory) : option bytes :=
  match n with
  | O => Some []
  | S n =>
      match m !! address, read_mem (address + 1) n m with
      | Some x, Some l => Some (x :: l)
      | _, _ => None
      end
  end.

Lemma write_mem_app address d e m :
  write_mem address (d ++ e) m = write_mem (address + len d) e (write_mem address d m).
Proof.
  revert address m. induction d as [|x d IH]; intros address m; cbn [write_mem app].
  - by rewrite len_nil, Z.add_0_r.
  - rewrite IH, len_cons. f_equal. lia.
Qed.

Lemma write_mem_outside address data m x :
  x < address ∨ address + len data <= x → write_mem address data m !! x = m !! x.
Proof.
  revert address m. induction data as [|y data IH]; intros address m; cbn [write_mem]; [done|].
  rewrite len_cons. pose proof (len_nonneg data). intros Hx. rewrite IH by lia.
  apply lookup_insert_ne. lia.
Qed.

Lemma read_mem_outside a n address data m :
  a + Z.of_nat n <= address ∨ address + len data <= a →
  read_mem a n (write_mem address data m) = read_mem a n m.
Proof.
  revert a. induction n as [|n IH]; intros a Hx; cbn [read_mem]; [done|].
  rewrite write_mem_outside by lia. by rewrite IH by lia.
Qed.

(** Reading back what was written *)
Lemma read_write_mem address data m :
  read_mem address (length data) (write_mem address data m) = Some data.
Proof.
  revert address m. induction data as [|x data IH]; intros address m; cbn [read_mem length write_mem];
    [done|].
  rewrite write_mem_outside by lia. rewrite lookup_insert_eq, IH. done.
Qed.

Lemma read_mem_app a n k m d e :
  read_mem a n m = Some d → read_mem (a + Z.of_nat n) k m = Some e →
  read_mem a (n + k) m = Some (d ++ e).
Proof.
  revert a d. induction n as [|n IH]; intros a d; cbn [read_mem Nat.add].
  - intros [= <-]. by rewrite Z.add_0_r.
  - destruct (m !! a); [|done]. destruct (read_mem (a + 1) n m) eqn:Hr; [|done].
    intros [= <-] He. rewrite (IH _ _ Hr); [done|]. by replace (a + 1 + Z.of_nat n) with (a + Z.of_nat (S n)) by lia.
Qed.

Lemma read_mem_split a n k m data :
  read_mem a (n + k) m = Some data →
  ∃ d e, data = d ++ e ∧ read_mem a n m = Some d ∧ read_mem (a + Z.of_nat n) k m = Some e
    ∧ length d = n.
Proof.
  revert a data. induction n as [|n IH]; intros a data; cbn [Nat.add read_mem].
  { intros Hr. exists [], data. rewrite Z.add_0_r. done. }
  destruct (m !! a) as [x|]; [|done]. destruct (read_mem (a + 1) (n + k) m) as [l|] eqn:E; [|done].
  intros [= <-]. destruct (IH _ _ E) as (d & e & -> & Hd & He & Hl).
  exists (x :: d), e. rewrite Hd. split; [done|]. split; [done|]. split; [|cbn; lia].
  by replace (a + Z.of_nat (S n)) with (a + 1 + Z.of_nat n) by lia.
Qed.

Lemma read_mem_length a n m data : read_mem a n m = Some data → length data = n.
Proof.
  revert a data. induction n as [|n IH]; intros a data; cbn [read_mem]; [by intros [= <-]|].
  destruct (m !! a); [|done]. destruct (read_mem (a + 1) n m) eqn:E; [|done].
  intros [= <-]. cbn. by rewrite (IH _ _ E).
Qed.
