(* ===== verification/Struct.v ===== *)
(** * Python's [struct] module on little-endian formats

    The Host runtime declares every wire format as a [struct.Struct("<...")].
    A format is a list of fields; [fvals fmt] is the type of the tuple that
    [pack] takes and [unpack] returns, so a call with the wrong number or kind
    of arguments is not expressible (the source never makes one).  [pack]
    raises [struct.error] when an integer does not fit its width; a ["ns"]
    field pads with zeros or truncates.  Generic round trips are proved once,
    for every format. *)

From S2P Require Import Prelude.

Inductive field :=
| FB            (** B: unsigned 8 bits *)
| FH            (** H: unsigned 16 bits *)
| FI            (** I: unsigned 32 bits *)
| FQ            (** Q: unsigned 64 bits *)
| Fx (n : nat)  (** nx: n pad bytes, no value *)
| Fs (n : nat). (** ns: n raw bytes *)

Definition fwidth (f : field) : nat :=
  match f with FB => 1 | FH => 2 | FI => 4 | FQ => 8 | Fx n => n | Fs n => n end.

(** [Struct(fmt).size] *)
Fixpoint calcsize (fmt : list field) : nat :=
  match fmt with [] => 0 | f :: fmt => fwidth f + calcsize fmt end%nat.

(** The tuple of values of a format *)
Fixpoint fvals (fmt : list field) : Type :=
  match fmt with
  | [] => unit
  | Fx _ :: fmt => fvals fmt
  | Fs _ :: fmt => bytes * fvals fmt
  | _ :: fmt => Z * fvals fmt
  end.

(** What [pack] accepts *)
Fixpoint fits (fmt : list field) : fvals fmt → bool :=
  match fmt with
  | [] => λ _, true
  | Fx _ :: fmt => fits fmt
  | Fs _ :: fmt => λ vs, fits fmt vs.2
  | FB :: fmt => λ vs, in_width 8 vs.1 && fits fmt vs.2
  | FH :: fmt => λ vs, in_width 16 vs.1 && fits fmt vs.2
  | FI :: fmt => λ vs, in_width 32 vs.1 && fits fmt vs.2
  | FQ :: fmt => λ vs, in_width 64 vs.1 && fits fmt vs.2
  end.

(** [ns] on packing: truncate, then pad with zeros *)
Definition pad_to (n : nat) (b : bytes) : bytes :=
  take n b ++ replicate (n - length b) Byte.x00.

Fixpoint pack_bytes (fmt : list field) : fvals fmt → bytes :=
  match fmt with
  | [] => λ _, []
  | Fx n :: fmt => λ vs, replicate n Byte.x00 ++ pack_bytes fmt vs
  | Fs n :: fmt => λ vs, pad_to n vs.1 ++ pack_bytes fmt vs.2
  | FB :: fmt => λ vs, le_split 1 vs.1 ++ pack_bytes fmt vs.2
  | FH :: fmt => λ vs, le_split 2 vs.1 ++ pack_bytes fmt vs.2
  | FI :: fmt => λ vs, le_split 4 vs.1 ++ pack_bytes fmt vs.2
  | FQ :: fmt => λ vs, le_split 8 vs.1 ++ pack_bytes fmt vs.2
  end.

(** [struct.pack(fmt, *vs)] *)
Definition pack (fmt : list field) (vs : fvals fmt) : result bytes :=
  if fits fmt vs then Ok (pack_bytes fmt vs) else Raise StructError.

Fixpoint unpack_bytes (fmt : list field) (b : bytes) : fvals fmt :=
  match fmt with
  | [] => tt
  | Fx n :: fmt => unpack_bytes fmt (drop n b)
  | Fs n :: fmt => (take n b, unpack_bytes fmt (drop n b))
  | FB :: fmt => (le_combine (take 1 b), unpack_bytes fmt (drop 1 b))
  | FH :: fmt => (le_combine (take 2 b), unpack_bytes fmt (drop 2 b))
  | FI :: fmt => (le_combine (take 4 b), unpack_bytes fmt (drop 4 b))
  | FQ :: fmt => (le_combine (take 8 b), unpack_bytes fmt (drop 8 b))
  end.

(** [struct.unpack(fmt, b)]: the buffer must have the size of the format. *)
Definition unpack (fmt : list field) (b : bytes) : result (fvals fmt) :=
  if (length b =? calcsize fmt)%nat then Ok (unpack_bytes fmt b) else Raise StructError.

(** [struct.unpack_from(fmt, b, offset)]: the buffer may be longer. *)
Definition unpack_from (fmt : list field) (b : bytes) (offset : nat) : result (fvals fmt) :=
  if (offset + calcsize fmt <=? length b)%nat
  then Ok (unpack_bytes fmt (drop offset b)) else Raise StructError.

(** ** Round trips *)

(** The tuple read back: integers as they are, raw fields padded. *)
Fixpoint normal (fmt : list field) : fvals fmt → fvals fmt :=
  match fmt with
  | [] => λ _, tt
  | Fx _ :: fmt => normal fmt
  | Fs n :: fmt => λ vs, (pad_to n vs.1, normal fmt vs.2)
  | FB :: fmt | FH :: fmt | FI :: fmt | FQ :: fmt => λ vs, (vs.1, normal fmt vs.2)
  end.

Definition no_pads (fmt : list field) : bool :=
  forallb (λ f, match f with Fx _ => false | _ => true end) fmt.

Lemma length_pad_to n b : length (pad_to n b) = n.
Proof. unfold pad_to. rewrite length_app, length_take, length_replicate. lia. Qed.

Lemma pad_to_exact n b : length b = n → pad_to n b = b.
Proof.
  intros <-. unfold pad_to. rewrite Nat.sub_diag, take_ge by lia. apply app_nil_r.
Qed.

Lemma pad_to_short n b :
  (length b ≤ n)%nat → pad_to n b = b ++ replicate (n - length b) Byte.x00.
Proof. intros. unfold pad_to. by rewrite take_ge by lia. Qed.

Lemma length_pack_bytes fmt vs : length (pack_bytes fmt vs) = calcsize fmt.
Proof.
  induction fmt as [|[] fmt IH]; cbn [pack_bytes calcsize fwidth]; [done|..];
    rewrite length_app, IH, ?length_le_split, ?length_replicate, ?length_pad_to; lia.
Qed.

Lemma len_pack_bytes fmt vs : len (pack_bytes fmt vs) = Z.of_nat (calcsize fmt).
Proof. unfold len. by rewrite length_pack_bytes. Qed.

Lemma pack_length fmt vs b : pack fmt vs = Ok b → length b = calcsize fmt.
Proof. unfold pack. intros. py_inv. apply length_pack_bytes. Qed.

Lemma le_round n z : 0 <= z < 2 ^ (8 * Z.of_nat n) → le_combine (le_split n z) = z.
Proof.
  intros. rewrite le_combine_split. apply Z.mod_small.
  replace (Z.of_nat n * 8) with (8 * Z.of_nat n) by lia. done.
Qed.

Lemma unpack_bytes_pack fmt (vs : fvals fmt) rest :
  fits fmt vs = true → unpack_bytes fmt (pack_bytes fmt vs ++ rest) = normal fmt vs.
Proof.
  induction fmt as [|[] fmt IH]; cbn [pack_bytes unpack_bytes fits normal];
    [done|..]; intros Hf; try (apply andb_prop in Hf as [Hw Hf]);
    rewrite <- ?app_assoc;
    rewrite ?take_app_length', ?drop_app_length'
      by (rewrite ?length_le_split, ?length_replicate, ?length_pad_to; reflexivity);
    rewrite ?IH by done; try done;
    rewrite le_round by (unfold in_width in Hw; lia); done.
Qed.

(** Reading back what was packed, even when more bytes follow. *)
Lemma unpack_pack fmt vs b :
  pack fmt vs = Ok b → unpack fmt b = Ok (normal fmt vs).
Proof.
  intros Hp. unfold unpack. rewrite (pack_length _ _ _ Hp), Nat.eqb_refl.
  unfold pack in Hp. py_inv.
  by rewrite <- (app_nil_r (pack_bytes fmt vs)), unpack_bytes_pack.
Qed.

Lemma unpack_from_pack fmt vs b pre rest n :
  pack fmt vs = Ok b → n = length pre →
  unpack_from fmt (pre ++ b ++ rest) n = Ok (normal fmt vs).
Proof.
  intros Hp ->. unfold unpack_from. pose proof (pack_length _ _ _ Hp) as Hl.
  rewrite !length_app, Hl, (proj2 (Nat.leb_le _ _)) by lia.
  unfold pack in Hp. py_inv. rewrite drop_app_length. by rewrite unpack_bytes_pack.
Qed.

Lemma le_split_1 z : le_split 1 z = [byte.of_Z z].
Proof. reflexivity. Qed.

Lemma le_unround n b :
  (n ≤ length b)%nat → le_split n (le_combine (take n b)) = take n b.
Proof. intros. apply split_le_combine'. rewrite length_take. lia. Qed.

Lemma le_range n b :
  (n ≤ length b)%nat → 0 <= le_combine (take n b) < 2 ^ (8 * Z.of_nat n).
Proof.
  intros. pose proof (le_combine_bound (take n b)) as Hb.
  rewrite length_take in Hb. by rewrite Nat.min_l in Hb by lia.
Qed.

(** What [unpack] yields always fits: decoded integers are in range. *)
Lemma unpack_bytes_fits fmt b :
  (calcsize fmt ≤ length b)%nat → fits fmt (unpack_bytes fmt b) = true.
Proof.
  revert b. induction fmt as [|[] fmt IH]; intros b; cbn [calcsize fwidth unpack_bytes fits];
    [done|..]; intros Hl; cbn [fst snd];
    rewrite IH by (rewrite length_drop; lia); try done;
    rewrite andb_true_r; unfold in_width;
    match goal with |- context [le_combine (take ?n b)] =>
      pose proof (le_range n b ltac:(lia)) end; lia.
Qed.

Lemma pack_unpack_bytes fmt b :
  no_pads fmt = true → length b = calcsize fmt →
  pack_bytes fmt (unpack_bytes fmt b) = b.
Proof.
  revert b. induction fmt as [|[] fmt IH]; intros b;
    cbn [calcsize fwidth unpack_bytes pack_bytes no_pads forallb]; intros Hn Hl;
    try (by destruct b); try done;
    cbn [fst snd]; rewrite IH by (rewrite ?length_drop; (done || lia));
    rewrite ?le_unround by lia;
    rewrite ?pad_to_exact by (rewrite length_take; lia); apply take_drop.
Qed.

(** A format without pad bytes is a bijection between tuples and buffers. *)
Lemma pack_unpack fmt b vs :
  no_pads fmt = true → unpack fmt b = Ok vs → pack fmt vs = Ok b.
Proof.
  unfold unpack, pack. intros Hn Hu. py_inv.
  rewrite unpack_bytes_fits by lia. by rewrite pack_unpack_bytes by lia.
Qed.

Lemma unpack_bytes_normal fmt b :
  (calcsize fmt ≤ length b)%nat → normal fmt (unpack_bytes fmt b) = unpack_bytes fmt b.
Proof.
  revert b. induction fmt as [|[] fmt IH]; intros b; cbn [calcsize fwidth unpack_bytes normal];
    [done|..]; intros Hl; cbn [fst snd];
    rewrite ?IH by (rewrite length_drop; lia);
    rewrite ?pad_to_exact by (rewrite length_take; lia); done.
Qed.

(** All that a successful [unpack] says of the tuple it returns. *)
Lemma unpack_inv fmt b vs :
  no_pads fmt = true → unpack fmt b = Ok vs →
  b = pack_bytes fmt vs ∧ fits fmt vs = true ∧ normal fmt vs = vs.
Proof.
  intros Hn Hu. pose proof (pack_unpack _ _ _ Hn Hu) as Hp.
  unfold pack in Hp. unfold unpack in Hu. py_inv.
  split; [done|]. split; [done|]. rewrite <- Hu. apply unpack_bytes_normal. lia.
Qed.

Lemma unpack_ok fmt b :
  length b = calcsize fmt → unpack fmt b = Ok (unpack_bytes fmt b).
Proof. intros Hl. unfold unpack. by rewrite Hl, Nat.eqb_refl. Qed.

Lemma unpack_bytes_take fmt b n :
  (calcsize fmt ≤ n)%nat → unpack_bytes fmt (take n b) = unpack_bytes fmt b.
Proof.
  revert b n. induction fmt as [|[] fmt IH]; intros b m; cbn [calcsize fwidth unpack_bytes];
    [done|..]; intros Hl;
    rewrite skipn_firstn_comm, IH by lia; rewrite ?take_take, ?Nat.min_l by lia; done.
Qed.

(** The same for [unpack_from] at offset 0, with the bytes that follow. *)
Lemma unpack_from_inv fmt b vs :
  no_pads fmt = true → unpack_from fmt b 0 = Ok vs →
  b = pack_bytes fmt vs ++ drop (calcsize fmt) b ∧ fits fmt vs = true ∧ normal fmt vs = vs.
Proof.
  intros Hn Hu. unfold unpack_from in Hu. py_inv.
  destruct (unpack_inv fmt (take (calcsize fmt) b) (unpack_bytes fmt b) Hn) as (Hb & ? & ?).
  { rewrite unpack_ok; [by rewrite unpack_bytes_take|]. rewrite length_take. lia. }
  rewrite drop_0. split; [|done]. rewrite <- Hb. by rewrite take_drop.
Qed.


Lemma unpack_from_ok fmt b n :
  (n + calcsize fmt ≤ length b)%nat →
  unpack_from fmt b n = Ok (unpack_bytes fmt (drop n b)).
Proof. intros. unfold unpack_from. by rewrite (proj2 (Nat.leb_le _ _)). Qed.

Lemma unpack_from_fits fmt b n vs : unpack_from fmt b n = Ok vs → fits fmt vs = true.
Proof.
  unfold unpack_from. destruct (_ <=? _)%nat eqn:E; [|done]. intros H.
  assert (unpack_bytes fmt (drop n b) = vs) as <- by congruence.
  apply unpack_bytes_fits. rewrite length_drop. lia.
Qed.

Lemma pack_ok fmt vs : fits fmt vs = true → pack fmt vs = Ok (pack_bytes fmt vs).
Proof. unfold pack. by intros ->. Qed.

Lemma pack_overflow fmt vs : fits fmt vs = false → pack fmt vs = Raise StructError.
Proof. unfold pack. by intros ->. Qed.

#[export] Hint Rewrite length_pack_bytes length_pad_to : rp86_len.
#[export] Hint Resolve unpack_bytes_fits : rp86.
#[global] Opaque le_split le_combine.
