(* ===== verification/PyText.v ===== *)
(** * Python text: strings, number formatting and parsing, UTF-8

    A Python [str] is represented by its UTF-8 octets, as a Rocq [string].
    The functions below are the parts of the language the Host runtime uses:
    f-string integer formats, [repr], [lower], [startswith]/[endswith],
    [int(text, base)] and [bytes.decode("utf-8", errors="replace")].  [int] and
    [lower] are those of ASCII text: the source compares the results with ASCII
    names and the domain of the theorems says so where it matters. *)

From S2P Require Import Prelude.
From Stdlib Require Import Ascii.

(** ** Octets of a string *)

Definition encode_utf8 (s : string) : bytes := String.list_byte_of_string s.
Definition of_octets (b : bytes) : string := String.string_of_list_byte b.

Lemma of_octets_encode s : of_octets (encode_utf8 s) = s.
Proof. apply String.string_of_list_byte_of_string. Qed.
Lemma encode_of_octets b : encode_utf8 (of_octets b) = b.
Proof. apply String.list_byte_of_string_of_list_byte. Qed.

Abbreviation ascii_list := String.list_ascii_of_string.
Lemma ascii_list_app a b : ascii_list (a +:+ b) = ascii_list a ++ ascii_list b.
Proof.
  induction a as [|c a IH]; [done|].
  change (String c a +:+ b) with (String c (a +:+ b)). cbn [String.list_ascii_of_string app]. by rewrite IH.
Qed.
Lemma encode_app a b : encode_utf8 (a +:+ b) = encode_utf8 a ++ encode_utf8 b.
Proof. unfold encode_utf8, String.list_byte_of_string. by rewrite ascii_list_app, map_app. Qed.

Lemma string_of_list_app a b :
  String.string_of_list_ascii (a ++ b) = String.string_of_list_ascii a +:+ String.string_of_list_ascii b.
Proof. induction a as [|c a IH]; [done|]. cbn. by rewrite IH. Qed.
Lemma of_octets_app a b : of_octets (a ++ b) = of_octets a +:+ of_octets b.
Proof. unfold of_octets, String.string_of_list_byte. by rewrite map_app, string_of_list_app. Qed.

(** [a.startswith(p)], [a.endswith(p)] *)
Definition str_starts (p s : string) : bool := String.prefix p s.
Definition str_ends (p s : string) : bool :=
  let n := String.length s in let k := String.length p in
  (k <=? n)%nat && String.eqb (String.substring (n - k) k s) p.

(** ** Formatting of integers *)

(** [f"{z}"] *)
Definition dec (z : Z) : string := pretty z.

Definition hex_digit (upper : bool) (d : Z) : ascii :=
  ascii_of_N (Z.to_N (if d <? 10 then 48 + d else (if upper then 55 else 87) + d)).

(** The digits of a non-negative number, at least one, most significant first. *)
Fixpoint hex_digits (upper : bool) (fuel : nat) (z : Z) (acc : string) : string :=
  match fuel with
  | O => acc
  | S fuel =>
      let acc := String (hex_digit upper (z mod 16)) acc in
      if z / 16 =? 0 then acc else hex_digits upper fuel (z / 16) acc
  end.

Fixpoint zeros (n : nat) : string :=
  match n with O => EmptyString | S n => String "0" (zeros n) end.

(** [f"{z:03d}"] of a number that is not negative *)
Definition dec3 (z : Z) : string := zeros (3 - String.length (dec z)) +:+ dec z.

(** [f"{z:0nX}"]: the fuel is the bit length, which bounds the digit count. *)
Definition hex_upper (n : nat) (z : Z) : string :=
  let digits := hex_digits true (S (Z.to_nat (Z.log2 (Z.abs z)))) (Z.abs z) EmptyString in
  let sign := if z <? 0 then "-"%string else EmptyString in
  sign +:+ zeros (n - String.length sign - String.length digits) +:+ digits.

(** [b.hex()] *)
Definition hex_of_byte (b : byte) : string :=
  String (hex_digit false (byte.unsigned b / 16))
    (String (hex_digit false (byte.unsigned b mod 16)) EmptyString).
Definition bytes_hex (b : bytes) : string :=
  foldr (λ x s, hex_of_byte x +:+ s) EmptyString b.

Definition is_space (c : ascii) : bool :=
  let n := N_of_ascii c in (n =? 32)%N || ((9 <=? n)%N && (n <=? 13)%N).

(** Whitespace of a [str]: [str.isspace] also holds of the four separators
    U+001C to U+001F. *)
Definition str_space (c : ascii) : bool :=
  let n := N_of_ascii c in is_space c || ((28 <=? n)%N && (n <=? 31)%N).

(** [bytes.fromhex(s)]: pairs of digits, ASCII whitespace between the pairs *)
Definition hex_value (c : ascii) : option Z :=
  let n := Z.of_N (N_of_ascii c) in
  if (48 <=? n) && (n <=? 57) then Some (n - 48)
  else if (97 <=? n) && (n <=? 102) then Some (n - 87)
  else if (65 <=? n) && (n <=? 70) then Some (n - 55)
  else None.

Fixpoint bytes_fromhex (s : string) : option bytes :=
  match s with
  | EmptyString => Some []
  | String a rest =>
      if is_space a then bytes_fromhex rest
      else match rest with
           | String b s =>
               match hex_value a, hex_value b, bytes_fromhex s with
               | Some h, Some l, Some r => Some (byte.of_Z (16 * h + l) :: r)
               | _, _, _ => None
               end
           | EmptyString => None
           end
  end.

(** [repr(text)] *)
Definition has_char (c : ascii) (s : string) : bool :=
  existsb (Ascii.eqb c) (String.list_ascii_of_string s).

Definition single_quote : ascii := ascii_of_N 39.
Definition double_quote : ascii := ascii_of_N 34.
Definition backslash : ascii := ascii_of_N 92.

Definition repr_char (quote c : ascii) : string :=
  let n := Z.of_N (N_of_ascii c) in
  if Ascii.eqb c quote || Ascii.eqb c backslash then String backslash (String c EmptyString)
  else if n =? 10 then String backslash "n"
  else if n =? 13 then String backslash "r"
  else if n =? 9 then String backslash "t"
  else if (n <? 32) || (n =? 127) then
    String backslash (String "x" (String (hex_digit false (n / 16))
                                   (String (hex_digit false (n mod 16)) EmptyString)))
  else String c EmptyString.

Definition py_repr (s : string) : string :=
  let quote := if has_char single_quote s && negb (has_char double_quote s)
               then double_quote else single_quote in
  String quote (foldr (λ c r, repr_char quote c +:+ r) (String quote EmptyString)
                  (String.list_ascii_of_string s)).

(** [repr(b)] of bytes: octets outside ASCII are escaped too. *)
Definition repr_octet (quote c : ascii) : string :=
  let n := Z.of_N (N_of_ascii c) in
  if 127 <? n then
    String backslash (String "x" (String (hex_digit false (n / 16))
                                   (String (hex_digit false (n mod 16)) EmptyString)))
  else repr_char quote c.

Definition bytes_repr (b : bytes) : string :=
  let s := of_octets b in
  let quote := if has_char single_quote s && negb (has_char double_quote s)
               then double_quote else single_quote in
  String "b" (String quote (foldr (λ c r, repr_octet quote c +:+ r)
     (String quote EmptyString) (String.list_ascii_of_string s))).

(** [s.lower()] *)
Definition lower_char (c : ascii) : ascii :=
  let n := N_of_ascii c in
  if (65 <=? n)%N && (n <=? 90)%N then ascii_of_N (n + 32) else c.
Fixpoint str_lower (s : string) : string :=
  match s with EmptyString => EmptyString | String c s => String (lower_char c) (str_lower s) end.

(** [sep.join(items)] *)
Fixpoint str_join (sep : string) (l : list string) : string :=
  match l with
  | [] => EmptyString
  | [x] => x
  | x :: l => x +:+ sep +:+ str_join sep l
  end.

Definition newline : string := String "010" EmptyString.

(** [s or default] *)
Definition str_or (s d : string) : string :=
  match s with EmptyString => d | _ => s end.

(** ** [int(text, base)] *)

Fixpoint skip_spaces (l : list ascii) : list ascii :=
  match l with c :: l' => if str_space c then skip_spaces l' else l | [] => [] end.

(** [s.strip()] of ASCII text *)
Definition str_strip (s : string) : string :=
  String.string_of_list_ascii (reverse (skip_spaces (reverse (skip_spaces (ascii_list s))))).

Definition digit_value (c : ascii) : Z :=
  let n := Z.of_N (N_of_ascii c) in
  if (48 <=? n) && (n <=? 57) then n - 48
  else if (97 <=? n) && (n <=? 122) then n - 87
  else if (65 <=? n) && (n <=? 90) then n - 55
  else 37.

(** Digits with single underscores between them: value, digit count, the rest. *)
Fixpoint scan_digits (base : Z) (l : list ascii) (acc : Z) (count : nat) (after_digit : bool)
  : option (Z * nat * list ascii) :=
  match l with
  | c :: l' =>
      if digit_value c <? base then
        scan_digits base l' (acc * base + digit_value c) (S count) true
      else if Ascii.eqb c "_" then
        if after_digit then scan_digits base l' acc count false else None
      else if after_digit then Some (acc, count, l) else None
  | [] => if after_digit then Some (acc, count, []) else None
  end.

Definition char_is (lower upper c : ascii) : bool := Ascii.eqb c lower || Ascii.eqb c upper.

(** The base the literal announces when [base] is 0, and whether a leading
    zero obliges the value to be zero. *)
Definition choose_base (base : Z) (l : list ascii) : Z * bool :=
  if base =? 0 then
    match l with
    | "0"%char :: c :: _ =>
        if char_is "x" "X" c then (16, false)
        else if char_is "o" "O" c then (8, false)
        else if char_is "b" "B" c then (2, false)
        else (10, true)
    | ["0"%char] => (10, true)
    | _ => (10, false)
    end
  else (base, false).

Definition skip_prefix (base : Z) (l : list ascii) : list ascii :=
  match l with
  | "0"%char :: c :: l' =>
      if ((base =? 16) && char_is "x" "X" c) || ((base =? 8) && char_is "o" "O" c)
         || ((base =? 2) && char_is "b" "B" c)
      then match l' with "_"%char :: l'' => l'' | _ => l' end
      else l
  | _ => l
  end.

Definition int_digit_limit : nat := 4300.

Definition int_of_chars (base : Z) (l : list ascii) : option Z :=
  let l := skip_spaces l in
  let '(neg, l) := match l with
                   | "-"%char :: l => (true, l)
                   | "+"%char :: l => (false, l)
                   | _ => (false, l)
                   end in
  let '(base, zero_only) := choose_base base l in
  let l := skip_prefix base l in
  match scan_digits base l 0 0 false with
  | Some (v, count, rest) =>
      if zero_only && negb (v =? 0) then None
      else if (base =? 10) && (int_digit_limit <? count)%nat then None
      else match skip_spaces rest with
           | [] => Some (if neg then - v else v)
           | _ :: _ => None
           end
  | None => None
  end.

Fixpoint str_take (n : nat) (s : string) : string :=
  match n, s with
  | S n, String c s => String c (str_take n s)
  | _, _ => EmptyString
  end.

Definition py_int (base : Z) (s : string) : result Z :=
  match int_of_chars base (String.list_ascii_of_string s) with
  | Some v => Ok v
  | None => Raise (ValueError ("invalid literal for int() with base " +:+ dec base +:+ ": "
                               +:+ str_take 200 (py_repr s)))
  end.

(** ** [bytes.decode("utf-8", errors="replace")]

    Each maximal ill-formed subpart becomes one U+FFFD. *)

Definition replacement : bytes := [Byte.xef; Byte.xbf; Byte.xbd].

(** For a lead octet: how many continuation octets, and the range of the first. *)
Definition utf8_lead (b : Z) : option (nat * Z * Z) :=
  if (0xC2 <=? b) && (b <=? 0xDF) then Some (1%nat, 0x80, 0xBF)
  else if b =? 0xE0 then Some (2%nat, 0xA0, 0xBF)
  else if (0xE1 <=? b) && (b <=? 0xEC) then Some (2%nat, 0x80, 0xBF)
  else if b =? 0xED then Some (2%nat, 0x80, 0x9F)
  else if (0xEE <=? b) && (b <=? 0xEF) then Some (2%nat, 0x80, 0xBF)
  else if b =? 0xF0 then Some (3%nat, 0x90, 0xBF)
  else if (0xF1 <=? b) && (b <=? 0xF3) then Some (3%nat, 0x80, 0xBF)
  else if b =? 0xF4 then Some (3%nat, 0x80, 0x8F)
  else None.

(** The pending sequence: its octets so far, how many octets are missing and
    the range of the next one. *)
Fixpoint utf8_run (pending : bytes) (missing : nat) (lo hi : Z) (l : bytes) : bytes :=
  match l with
  | [] => match missing with O => [] | S _ => replacement end
  | x :: l =>
      let b := byte.unsigned x in
      let start :=
        if b <? 0x80 then x :: utf8_run [] 0 0 0 l
        else match utf8_lead b with
             | Some (n, lo', hi') => utf8_run [x] n lo' hi' l
             | None => replacement ++ utf8_run [] 0 0 0 l
             end in
      match missing with
      | O => start
      | S missing =>
          if (lo <=? b) && (b <=? hi) then
            match missing with
            | O => (pending ++ [x]) ++ utf8_run [] 0 0 0 l
            | S _ => utf8_run (pending ++ [x]) missing 0x80 0xBF l
            end
          else replacement ++ start
      end
  end.

Definition decode_utf8_replace (b : bytes) : string := of_octets (utf8_run [] 0 0 0 b).

(** [bytes.decode("ascii", errors="replace")] *)
Definition decode_ascii_replace (b : bytes) : string :=
  of_octets (b ≫= λ x, if byte.unsigned x <? 0x80 then [x] else replacement).

(** ** Facts *)

Definition ascii_only (b : bytes) : bool := forallb (λ x, byte.unsigned x <? 0x80) b.

Lemma utf8_run_ascii b : ascii_only b = true → utf8_run [] 0 0 0 b = b.
Proof.
  unfold ascii_only. induction b as [|x b IH]; [done|]. cbn [utf8_run forallb].
  intros. py_inv. match goal with H : (_ <? _) = true |- _ => rewrite H end.
  by rewrite IH.
Qed.

(** Decoding ASCII text gives that text back. *)
Lemma decode_utf8_replace_ascii s :
  ascii_only (encode_utf8 s) = true → decode_utf8_replace (encode_utf8 s) = s.
Proof. intros. unfold decode_utf8_replace. by rewrite utf8_run_ascii, of_octets_encode. Qed.

Lemma str_starts_app p s : str_starts p (p +:+ s) = true.
Proof.
  unfold str_starts. induction p as [|c p IH]; [by destruct s|].
  change (String c p +:+ s) with (String c (p +:+ s)). cbn [String.prefix].
  destruct (ascii_dec c c); [exact IH | congruence].
Qed.

(** Hexadecimal text is a faithful transport of bytes ([hex] / [fromhex]). *)
Lemma fromhex_byte x s :
  bytes_fromhex (hex_of_byte x +:+ s) = option_map (cons x) (bytes_fromhex s).
Proof.
  assert (is_space (hex_digit false (byte.unsigned x / 16)) = false
          ∧ hex_value (hex_digit false (byte.unsigned x / 16)) = Some (byte.unsigned x / 16)
          ∧ hex_value (hex_digit false (byte.unsigned x mod 16)) = Some (byte.unsigned x mod 16)
          ∧ byte.of_Z (16 * (byte.unsigned x / 16) + byte.unsigned x mod 16) = x)
    as (Hs & Hh & Hl & Hb) by (destruct x; vm_compute; repeat split).
  unfold hex_of_byte.
  match goal with |- bytes_fromhex (String ?a (String ?b EmptyString) +:+ s) = _ =>
    change (String a (String b EmptyString) +:+ s) with (String a (String b s)) end.
  cbn [bytes_fromhex]. rewrite Hs, Hh, Hl, Hb. by destruct (bytes_fromhex s).
Qed.
Lemma fromhex_hex b : bytes_fromhex (bytes_hex b) = Some b.
Proof.
  induction b as [|x b IH]; [done|].
  change (bytes_hex (x :: b)) with (hex_of_byte x +:+ bytes_hex b).
  by rewrite fromhex_byte, IH.
Qed.

(** Samples of the parser and the printers *)
Example int_samples :
  [py_int 0 "0x10"; py_int 0 " 12_3 "; py_int 16 "f000"; py_int 0 "00"; py_int 0 "-7"]
  = [Ok 16; Ok 123; Ok 61440; Ok 0; Ok (-7)].
Proof. vm_compute. reflexivity. Qed.
Example int_rejects :
  [is_ok (py_int 0 "010"); is_ok (py_int 0 "1__0"); is_ok (py_int 16 "g"); is_ok (py_int 0 "");
   is_ok (py_int 0 "0x"); is_ok (py_int 10 "_1"); is_ok (py_int 10 "1_")]
  = repeat false 7.
Proof. vm_compute. reflexivity. Qed.
Example int_message :
  py_int 16 "zz" = Raise (ValueError "invalid literal for int() with base 16: 'zz'").
Proof. vm_compute. reflexivity. Qed.
Example hex_samples : [hex_upper 4 0xBEEF; hex_upper 5 0x1F; hex_upper 2 0; hex_upper 1 0x123]
  = ["BEEF"; "0001F"; "00"; "123"]%string.
Proof. vm_compute. reflexivity. Qed.
Example utf8_samples :
  utf8_run [] 0 0 0 [Byte.x41; Byte.xe2; Byte.x82; Byte.x41; Byte.xff]
  = [Byte.x41] ++ replacement ++ [Byte.x41] ++ replacement.
Proof. vm_compute. reflexivity. Qed.

(** [text.split(sep, 1)] for a one-character separator: [None] when it is absent *)
Fixpoint str_split_once (sep : ascii) (s : string) : option (string * string) :=
  match s with
  | EmptyString => None
  | String c s =>
      if Ascii.eqb c sep then Some (EmptyString, s)
      else match str_split_once sep s with
           | Some (a, b) => Some (String c a, b)
           | None => None
           end
  end.

(** [try: ... except ValueError as exc: raise ValueError(text) from exc] *)
Definition on_value_error {A} (m : result A) (text : string) : result A :=
  match m with Raise (ValueError _) => Raise (ValueError text) | _ => m end.

(** [p in s] on [str] *)
Fixpoint str_contains (p s : string) : bool :=
  str_starts p s || match s with EmptyString => false | String _ s => str_contains p s end.

Lemma py_int_error base s e : py_int base s = Raise e → ∃ msg, e = ValueError msg.
Proof. unfold py_int. case_match; naive_solver. Qed.

(** The UTF-8 octets of a code point, and the code points of well-formed UTF-8 *)
Definition utf8_char (c : Z) : bytes :=
  if c <? 0x80 then [byte.of_Z c]
  else if c <? 0x800 then [byte.of_Z (0xC0 + c / 64); byte.of_Z (0x80 + c mod 64)]
  else if c <? 0x10000 then
    [byte.of_Z (0xE0 + c / 4096); byte.of_Z (0x80 + c / 64 mod 64); byte.of_Z (0x80 + c mod 64)]
  else [byte.of_Z (0xF0 + c / 262144); byte.of_Z (0x80 + c / 4096 mod 64);
        byte.of_Z (0x80 + c / 64 mod 64); byte.of_Z (0x80 + c mod 64)].
Fixpoint utf8_points (l : list Z) : list Z :=
  match l with
  | [] => []
  | a :: l =>
      if a <? 0x80 then a :: utf8_points l
      else match l with
           | [] => []
           | b :: l =>
               if a <? 0xE0 then (64 * (a - 0xC0) + (b - 0x80)) :: utf8_points l
               else match l with
                    | [] => []
                    | c :: l =>
                        if a <? 0xF0 then (4096 * (a - 0xE0) + 64 * (b - 0x80) + (c - 0x80)) :: utf8_points l
                        else match l with
                             | [] => []
                             | d :: l => (262144 * (a - 0xF0) + 4096 * (b - 0x80) + 64 * (c - 0x80) + (d - 0x80))
                                         :: utf8_points l
                             end
                    end
           end
  end.

Lemma byte_of_Z_unsigned z : 0 <= z < 256 → byte.unsigned (byte.of_Z z) = z.
Proof. intros. rewrite byte.unsigned_of_Z. apply Z.mod_small. lia. Qed.

Lemma utf8_points_char c l :
  0 <= c < 0x110000 → utf8_points (map byte.unsigned (utf8_char c) ++ l) = c :: utf8_points l.
Proof.
  intros Hc. unfold utf8_char.
  pose proof (Z.div_mod c 64 ltac:(lia)). pose proof (Z.mod_pos_bound c 64 ltac:(lia)).
  pose proof (Z.div_mod (c / 64) 64 ltac:(lia)). pose proof (Z.mod_pos_bound (c / 64) 64 ltac:(lia)).
  assert (c / 4096 = c / 64 / 64) as H4 by (rewrite Z.div_div by lia; done).
  pose proof (Z.div_mod (c / 4096) 64 ltac:(lia)). pose proof (Z.mod_pos_bound (c / 4096) 64 ltac:(lia)).
  assert (c / 262144 = c / 4096 / 64) as H26 by (rewrite Z.div_div by lia; done).
  destruct (Z.ltb_spec c 0x80); [|destruct (Z.ltb_spec c 0x800); [|destruct (Z.ltb_spec c 0x10000)]];
    cbn [map app]; rewrite !byte_of_Z_unsigned by lia; cbn [utf8_points];
    repeat match goal with |- context [?a <? ?b] => destruct (Z.ltb_spec a b); [lia || idtac|lia || idtac] end;
    f_equal; lia.
Qed.

(** ASCII stays as it is, and every other octet is outside ASCII. *)
Lemma utf8_char_octets c :
  0 <= c < 0x110000 → Forall (λ x, byte.unsigned x = c ∨ 128 <= byte.unsigned x) (utf8_char c).
Proof.
  intros Hc. unfold utf8_char.
  pose proof (Z.mod_pos_bound c 64 ltac:(lia)). pose proof (Z.mod_pos_bound (c / 64) 64 ltac:(lia)).
  pose proof (Z.mod_pos_bound (c / 4096) 64 ltac:(lia)).
  assert (0 <= c / 64 ∧ 0 <= c / 4096 ∧ 0 <= c / 262144 < 8)
    by (split_and!; try (apply Z.div_pos; lia); apply Z.div_lt_upper_bound; lia).
  pose proof (Z.div_le_mono c 0x7FF 64 ltac:(lia)). pose proof (Z.div_le_mono c 0xFFFF 4096 ltac:(lia)).
  destruct (Z.ltb_spec c 0x80); [|destruct (Z.ltb_spec c 0x800); [|destruct (Z.ltb_spec c 0x10000)]];
    repeat first [apply Forall_nil_2|apply Forall_cons_2]; rewrite byte_of_Z_unsigned; lia.
Qed.

(** How the octets of a well-formed sequence are taken *)
Lemma utf8_lead_two b : 0xC2 <= b <= 0xDF → utf8_lead b = Some (1%nat, 0x80, 0xBF).
Proof.
  intros Hb. unfold utf8_lead. by rewrite (proj2 (Z.leb_le _ _) (proj1 Hb)), (proj2 (Z.leb_le _ _) (proj2 Hb)).
Qed.
Lemma utf8_lead_more b :
  0xE0 <= b <= 0xF4 →
  utf8_lead b = Some (if b <? 0xF0 then 2%nat else 3%nat,
    if b =? 0xE0 then 0xA0 else if b =? 0xF0 then 0x90 else 0x80,
    if b =? 0xED then 0x9F else if b =? 0xF4 then 0x8F else 0xBF).
Proof.
  intros Hb. assert (b ∈ seqZ 0xE0 21) as Hin by (apply elem_of_seqZ; lia). clear Hb. revert b Hin.
  apply Forall_forall. repeat (apply Forall_cons_2 || apply Forall_nil_2); reflexivity.
Qed.
Lemma utf8_run_next pending lo hi x l n :
  lo <= byte.unsigned x <= hi →
  utf8_run pending (S (S n)) lo hi (x :: l) = utf8_run (pending ++ [x]) (S n) 0x80 0xBF l.
Proof.
  intros Hx. cbn [utf8_run]. by rewrite (proj2 (Z.leb_le _ _) (proj1 Hx)), (proj2 (Z.leb_le _ _) (proj2 Hx)).
Qed.
Lemma utf8_run_last pending lo hi x l :
  lo <= byte.unsigned x <= hi →
  utf8_run pending 1 lo hi (x :: l) = pending ++ x :: utf8_run [] 0 0 0 l.
Proof.
  intros Hx. cbn [utf8_run]. rewrite (proj2 (Z.leb_le _ _) (proj1 Hx)), (proj2 (Z.leb_le _ _) (proj2 Hx)).
  cbn [andb]. by rewrite <- app_assoc.
Qed.
Lemma utf8_run_lead x l n lo hi :
  128 <= byte.unsigned x → utf8_lead (byte.unsigned x) = Some (n, lo, hi) →
  utf8_run [] 0 0 0 (x :: l) = utf8_run [x] n lo hi l.
Proof. intros Hx Hl. cbn [utf8_run]. by rewrite (proj2 (Z.ltb_ge _ _) Hx), Hl. Qed.

(** The octets of a character outside the surrogates are well formed. *)
Lemma utf8_run_char c l :
  0 <= c < 0xD800 ∨ 0xE000 <= c < 0x110000 →
  utf8_run [] 0 0 0 (utf8_char c ++ l) = utf8_char c ++ utf8_run [] 0 0 0 l.
Proof.
  intros Hc. unfold utf8_char.
  pose proof (Z.div_mod c 64 ltac:(lia)). pose proof (Z.mod_pos_bound c 64 ltac:(lia)).
  pose proof (Z.div_mod (c / 64) 64 ltac:(lia)). pose proof (Z.mod_pos_bound (c / 64) 64 ltac:(lia)).
  assert (c / 4096 = c / 64 / 64) as H4 by (rewrite Z.div_div by lia; done).
  pose proof (Z.div_mod (c / 4096) 64 ltac:(lia)). pose proof (Z.mod_pos_bound (c / 4096) 64 ltac:(lia)).
  assert (c / 262144 = c / 4096 / 64) as H26 by (rewrite Z.div_div by lia; done).
  destruct (Z.ltb_spec c 0x80); [|destruct (Z.ltb_spec c 0x800); [|destruct (Z.ltb_spec c 0x10000)]]; cbn [app].
  - cbn [utf8_run]. rewrite byte_of_Z_unsigned by lia. by rewrite (proj2 (Z.ltb_lt c 0x80)).
  - erewrite utf8_run_lead; [|rewrite byte_of_Z_unsigned; lia|apply utf8_lead_two; rewrite byte_of_Z_unsigned; lia].
    by rewrite utf8_run_last by (rewrite byte_of_Z_unsigned; lia).
  - erewrite utf8_run_lead; [|rewrite byte_of_Z_unsigned; lia|apply utf8_lead_more; rewrite byte_of_Z_unsigned; lia].
    rewrite !byte_of_Z_unsigned by lia. rewrite (proj2 (Z.ltb_lt _ 0xF0)) by lia.
    rewrite utf8_run_next.
    + by rewrite utf8_run_last by (rewrite byte_of_Z_unsigned; lia).
    + rewrite byte_of_Z_unsigned by lia. split; repeat case_match; lia.
  - erewrite utf8_run_lead; [|rewrite byte_of_Z_unsigned; lia|apply utf8_lead_more; rewrite byte_of_Z_unsigned; lia].
    rewrite !byte_of_Z_unsigned by lia. rewrite (proj2 (Z.ltb_ge _ 0xF0)) by lia.
    rewrite utf8_run_next.
    + rewrite utf8_run_next by (rewrite byte_of_Z_unsigned; lia).
      by rewrite utf8_run_last by (rewrite byte_of_Z_unsigned; lia).
    + rewrite byte_of_Z_unsigned by lia. split; repeat case_match; lia.
Qed.
Lemma utf8_run_flat points :
  Forall (λ c, 0 <= c < 0xD800 ∨ 0xE000 <= c < 0x110000) points →
  utf8_run [] 0 0 0 (points ≫= utf8_char) = points ≫= utf8_char.
Proof.
  induction 1 as [|c points Hc _ IH]; [done|]. rewrite bind_cons. by rewrite utf8_run_char, IH.
Qed.

(** ** Characters *)

(** The characters after the first that are not [q]: [strip(q)] from one side *)
Fixpoint skip_char (q : ascii) (l : list ascii) : list ascii :=
  match l with c :: l' => if Ascii.eqb c q then skip_char q l' else l | [] => [] end.

(** [s.upper()] of ASCII text *)
Definition char_upper (c : ascii) : ascii :=
  let n := Ascii.nat_of_ascii c in
  if ((97 <=? n) && (n <=? 122))%nat then Ascii.ascii_of_nat (n - 32) else c.
Fixpoint str_upper (s : string) : string :=
  match s with EmptyString => EmptyString | String c s => String (char_upper c) (str_upper s) end.

(** ** Lines *)

(** Line breaks are LF, CR, CR LF, VT, FF, the separators U+001C to U+001E,
    U+0085, U+2028 and U+2029; the octets of the one at the front, 0 for none *)
Definition break_length (b : list Z) : nat :=
  match b with
  | 13 :: 10 :: _ => 2
  | 0xC2 :: 0x85 :: _ => 2
  | 0xE2 :: 0x80 :: d :: _ => if (d =? 0xA8) || (d =? 0xA9) then 3 else 0
  | c :: _ => if ((10 <=? c) && (c <=? 13)) || ((28 <=? c) && (c <=? 30)) then 1 else 0
  | [] => 0
  end.
(** [text.splitlines()], on UTF-8 *)
Fixpoint split_breaks (fuel : nat) (line b : bytes) : list bytes :=
  match fuel, b with
  | S fuel, x :: b' =>
      match break_length (map byte.unsigned b) with
      | O => split_breaks fuel (line ++ [x]) b'
      | n => line :: split_breaks fuel [] (drop n b)
      end
  | _, _ => match line with [] => [] | _ => [line] end
  end.
Definition splitlines (b : bytes) : list bytes := split_breaks (length b) [] b.
