(* ===== verification/Json.v ===== *)
(** * JSON values and the exception-state monad

    [json] is the value type of the documents the Host builds and parses (a
    Python dict with string keys is an association list in insertion order).
    [io W] is the monad of code that acts on a world [W] and may raise: the
    state survives an exception, as Python's mutations do. *)

From S2P Require Import Prelude PyText.
From Stdlib Require Import SpecFloat.

Inductive json :=
| JNull
| JBool (b : bool)
| JInt (z : Z)
| JFloat (x : spec_float)
| JStr (s : string)
| JList (l : list json)
| JObj (fields : list (string * json))
| JBytes (b : bytes).                  (** in a document, but not in JSON *)

(** A dict *)
Abbreviation document := (list (string * json)).

(** Truth value, as in [x or default] *)
Definition jtruthy (j : json) : bool :=
  match j with
  | JNull => false
  | JBool b => b
  | JInt z => truthy z
  | JFloat (S754_zero _) => false
  | JFloat _ => true
  | JStr s => match s with EmptyString => false | _ => true end
  | JList l => match l with [] => false | _ => true end
  | JObj d => match d with [] => false | _ => true end
  | JBytes b => match b with [] => false | _ => true end
  end.

(** [str(x)] and [repr(x)]; the text of a float is given by [float_repr]. *)
Section text.
Context (float_repr : spec_float → string).

Fixpoint jrepr (j : json) : string :=
  match j with
  | JNull => "None"
  | JBool true => "True"
  | JBool false => "False"
  | JInt z => dec z
  | JFloat x => float_repr x
  | JStr s => py_repr s
  | JList l => "[" +:+ str_join ", " (map jrepr l) +:+ "]"
  | JObj d => "{" +:+ str_join ", " (map (λ '(k, v), py_repr k +:+ ": " +:+ jrepr v) d) +:+ "}"
  | JBytes b => bytes_repr b
  end.

Definition jstr (j : json) : string := match j with JStr s => s | _ => jrepr j end.
End text.

(** [type(x).__name__] *)
Definition type_name (j : json) : string :=
  match j with
  | JNull => "NoneType" | JBool _ => "bool" | JInt _ => "int" | JFloat _ => "float"
  | JStr _ => "str" | JList _ => "list" | JObj _ => "dict" | JBytes _ => "bytes"
  end.

(** [int(x)] *)
Definition float_trunc (x : spec_float) : option Z :=
  match x with
  | S754_zero _ => Some 0
  | S754_finite s m e =>
      let v := if 0 <=? e then Zpos m * 2 ^ e else Zpos m / 2 ^ (- e) in
      Some (if s then - v else v)
  | _ => None
  end.

Definition jint (j : json) : result Z :=
  match j with
  | JBool b => Ok (if b then 1 else 0)
  | JInt z => Ok z
  | JFloat x => match float_trunc x with
                | Some z => Ok z
                | None => match x with
                          | S754_nan => Raise (ValueError "cannot convert float NaN to integer")
                          | _ => Raise (OverflowError "cannot convert float infinity to integer")
                          end
                end
  | JStr s => py_int 10 s
  | JBytes b => match py_int 10 (of_octets b) with
                | Ok z => Ok z
                | Raise _ => Raise (ValueError ("invalid literal for int() with base 10: " +:+ bytes_repr b))
                end
  | _ => Raise (TypeError ("int() argument must be a string, a bytes-like object or a real number, not "
                           +:+ py_repr (type_name j)))
  end.

(** [document[key]] *)
Definition jitem (key : string) (d : list (string * json)) : result json :=
  match str_get key d with Some v => Ok v | None => Raise (KeyError (py_repr key)) end.

(** [document.get(key)] and [document[key] = value] *)
Definition jget (key : string) (d : list (string * json)) : json := default JNull (str_get key d).
Fixpoint jset (key : string) (v : json) (d : list (string * json)) : list (string * json) :=
  match d with
  | [] => [(key, v)]
  | (k, x) :: d => if String.eqb k key then (k, v) :: d else (k, x) :: jset key v d
  end.

(** [a == b] on documents whose dicts list their keys in the same order *)
Definition float_eqb (x y : spec_float) : bool :=
  match x, y with
  | S754_zero _, S754_zero _ => true
  | S754_infinity a, S754_infinity b => Bool.eqb a b
  | S754_finite a m e, S754_finite b n f => Bool.eqb a b && Pos.eqb m n && (e =? f)
  | _, _ => false
  end.

Fixpoint json_eqb (a b : json) : bool :=
  let fix list_eqb (l k : list json) : bool :=
    match l, k with
    | [], [] => true
    | x :: l, y :: k => json_eqb x y && list_eqb l k
    | _, _ => false
    end in
  let fix obj_eqb (l k : list (string * json)) : bool :=
    match l, k with
    | [], [] => true
    | (i, x) :: l, (j, y) :: k => String.eqb i j && json_eqb x y && obj_eqb l k
    | _, _ => false
    end in
  match a, b with
  | JNull, JNull => true
  | JBool x, JBool y => Bool.eqb x y
  | JInt x, JInt y => x =? y
  | JFloat x, JFloat y => float_eqb x y
  | JStr x, JStr y => String.eqb x y
  | JList l, JList k => list_eqb l k
  | JObj l, JObj k => obj_eqb l k
  | JBytes x, JBytes y => bytes_eqb x y
  | _, _ => false
  end.

(** [x if x is not None else null] *)
Definition jopt {A} (f : A → json) (o : option A) : json :=
  match o with Some a => f a | None => JNull end.

Lemma str_get_jset_eq key v d : str_get key (jset key v d) = Some v.
Proof.
  unfold str_get. induction d as [|[k x] d IH]; cbn.
  - by rewrite String.eqb_refl.
  - destruct (String.eqb k key) eqn:E; cbn.
    + apply String.eqb_eq in E as ->. by rewrite String.eqb_refl.
    + rewrite String.eqb_sym, E. exact IH.
Qed.

Lemma str_get_jset_ne key key' v d :
  key ≠ key' → str_get key (jset key' v d) = str_get key d.
Proof.
  intros Hne. unfold str_get. induction d as [|[k x] d IH]; cbn.
  - by rewrite (proj2 (String.eqb_neq _ _) Hne).
  - destruct (String.eqb k key') eqn:E; cbn.
    + apply String.eqb_eq in E as ->. by rewrite (proj2 (String.eqb_neq _ _) Hne).
    + by destruct (String.eqb key k).
Qed.

(** ** Code that acts on a world *)

Definition io (W A : Type) : Type := W → W * result A.

#[global] Instance io_ret {W} : MRet (io W) := λ A a w, (w, Ok a).
#[global] Instance io_bind {W} : MBind (io W) := λ A B f m w,
  match m w with
  | (w, Ok a) => f a w
  | (w, Raise e) => (w, Raise e)
  end.

Definition raise {W A} (e : exn) : io W A := λ w, (w, Raise e).
Definition lift {W A} (r : result A) : io W A := λ w, (w, r).
Definition modify {W} (f : W → W) : io W unit := λ w, (f w, Ok tt).
Definition gets {W A} (f : W → A) : io W A := λ w, (w, Ok (f w)).

(** [try: m except ValueError as exc: handler(str(exc))] *)
Definition catch_value_error {W A} (m : io W A) (handler : string → io W A) : io W A := λ w,
  match m w with
  | (w, Raise (ValueError text)) => handler text w
  | r => r
  end.

(** [try: m except OSError as exc: handler(str(exc))] *)
Definition catch_os_error {W A} (m : io W A) (handler : string → io W A) : io W A := λ w,
  match m w with
  | (w, Raise (OSError text)) => handler text w
  | r => r
  end.

(** [try: m except CLASSES as exc: handler(str(exc))] *)
Definition catch_classes {W A} (classes : exn → option string) (m : io W A) (handler : string → io W A) : io W A := λ w,
  match m w with
  | (w, Raise e) => match classes e with Some text => handler text w | None => (w, Raise e) end
  | r => r
  end.
Definition runtime_error (e : exn) : option string :=
  match e with RuntimeError text => Some text | _ => None end.
Definition os_runtime_error (e : exn) : option string :=
  match e with OSError text | RuntimeError text => Some text | _ => None end.
Definition os_runtime_value_error (e : exn) : option string :=
  match e with OSError text | RuntimeError text | ValueError text => Some text | _ => None end.
Definition exchange_error (e : exn) : option string :=
  match e with OSError text | RuntimeError text | ValueError text | KeyError text => Some text | _ => None end.

(** [try: m finally: f] *)
Definition finally {W A} (m : io W A) (f : W → W) : io W A := λ w,
  let '(w, r) := m w in (f w, r).

(** The same on a pure computation *)
Definition try_value {A B} (m : result A) (handler : string → result B) (k : A → result B) : result B :=
  match m with
  | Ok a => k a
  | Raise (ValueError text) => handler text
  | Raise e => Raise e
  end.

Lemma io_bind_ok {W A B} (m : io W A) (f : A → io W B) w w' b :
  (m ≫= f) w = (w', Ok b) ↔ ∃ w1 a, m w = (w1, Ok a) ∧ f a w1 = (w', Ok b).
Proof.
  unfold mbind, io_bind. destruct (m w) as [w1 [a|e]]; naive_solver.
Qed.

Lemma catch_ok {W A} classes (m : io W A) handler s s' a :
  catch_classes classes m handler s = (s', Ok a) →
  m s = (s', Ok a) ∨ ∃ s1 e text, m s = (s1, Raise e) ∧ classes e = Some text ∧ handler text s1 = (s', Ok a).
Proof.
  unfold catch_classes. destruct (m s) as [s1 [b|e]]; [by left|].
  destruct (classes e) as [text|] eqn:E; [|done]. intros. right. by exists s1, e, text.
Qed.

(** Inversion of a run that returned *)
Ltac io_step :=
  match goal with
  | H : mbind _ _ _ = (_, Ok _) |- _ =>
      apply io_bind_ok in H; destruct H as (? & ? & ? & ?)
  | H : mret _ _ = (_, Ok _) |- _ => unfold mret, io_ret in H; simplify_eq
  | H : lift _ _ = (_, Ok _) |- _ => unfold lift in H; simplify_eq
  | H : raise _ _ = (_, Ok _) |- _ => discriminate H
  | H : modify _ _ = (_, Ok _) |- _ => unfold modify in H; simplify_eq
  | H : gets _ _ = (_, Ok _) |- _ => unfold gets in H; simplify_eq
  end.
Ltac io_inv := repeat io_step.

(** ** Rules for runs that leave something alone *)

Section spares.
Context {W : Type} (R : W → W → Prop) `{!PreOrder R}.

Definition spares {A} (m : io W A) : Prop := ∀ w, R w (m w).1.

Lemma spares_pure {A} (f : W → result A) : spares (λ w, (w, f w)).
Proof. intros w. cbn. reflexivity. Qed.
Lemma spares_bind {A B} (m : io W A) (k : A → io W B) : spares m → (∀ a, spares (k a)) → spares (m ≫= k).
Proof.
  intros Hm Hk w. unfold mbind, io_bind. specialize (Hm w). destruct (m w) as [w1 [a|e]]; [|done].
  cbn in Hm. by etrans; [|apply Hk].
Qed.
Lemma spares_catch {A} classes (m : io W A) handler :
  spares m → (∀ text, spares (handler text)) → spares (catch_classes classes m handler).
Proof.
  intros Hm Hk w. unfold catch_classes. specialize (Hm w). destruct (m w) as [w1 [a|e]]; [done|].
  destruct (classes e); [|done]. cbn in Hm. by etrans; [|apply Hk].
Qed.
End spares.

Create HintDb spares.
#[export] Hint Extern 1 (spares _ _) => apply spares_pure; typeclasses eauto : spares.

(** One rule per construct of the monad, then the known operations *)
Ltac spare_step :=
  match goal with
  | |- spares _ (_ ≫= _) => apply spares_bind; [typeclasses eauto| |intros ?]
  | |- spares _ (catch_classes _ _ _) => apply spares_catch; [typeclasses eauto| |intros ?]
  | |- spares _ (match ?x with _ => _ end) => destruct x
  | |- spares _ _ => solve [eauto 2 with spares]
  end.
Ltac spare := repeat spare_step.
