(* ===== verification/Schema.v ===== *)
(** * Types of documents

    A type describes a JSON document: the exact fields of an object in their
    order, with [TIs] for a truth value that is known.  [conforms] decides it.
    [yields] is the rule for what a computation returns, whatever the outside
    does; the tactic [typed] goes through a computation with it. *)

From S2P Require Import Prelude PyText Json.

Inductive ty :=
| TAny
| TNull
| TIs (b : bool)
| TInt
| TFloat
| TStr
| TBytes
| TList (t : ty)
| TObj (fields : list (string * ty))
| TDict
| TOr (a b : ty).

Fixpoint conforms (t : ty) (j : json) : bool :=
  let fix fields_conform (fs : list (string * ty)) (d : list (string * json)) : bool :=
    match fs, d with
    | [], [] => true
    | (k, t) :: fs, (k', v) :: d => String.eqb k k' && conforms t v && fields_conform fs d
    | _, _ => false
    end in
  match t, j with
  | TAny, _ | TNull, JNull | TInt, JInt _ | TFloat, JFloat _ | TStr, JStr _ | TBytes, JBytes _ | TDict, JObj _ => true
  | TIs b, JBool b' => Bool.eqb b b'
  | TList t, JList l => forallb (conforms t) l
  | TObj fs, JObj d => fields_conform fs d
  | TOr a b, j => conforms a j || conforms b j
  | _, _ => false
  end.

Definition TOption (t : ty) : ty := TOr TNull t.
Definition TBool : ty := TOr (TIs true) (TIs false).

Lemma conforms_fields fs d :
  conforms (TObj fs) (JObj d) = true ↔ Forall2 (λ f x, f.1 = x.1 ∧ conforms f.2 x.2 = true) fs d.
Proof.
  cbn [conforms]. split.
  - revert d. induction fs as [|[k t] fs IH]; intros [|[k' v] d]; try done.
    rewrite !andb_true_iff. intros [[->%String.eqb_eq Hv] Hd]. constructor; [done|by apply IH].
  - induction 1 as [|[k t] [k' v] fs d [Hk Hv] _ IH]; [done|]. cbn in Hk, Hv. subst k'. by rewrite String.eqb_refl, Hv, IH.
Qed.

Lemma conforms_str l : forallb (conforms TStr) (map JStr l) = true.
Proof. by induction l. Qed.

(** What a document of a type with a known [ok] says *)
Lemma conforms_ok b fs d : conforms (TObj (("ok"%string, TIs b) :: fs)) (JObj d) = true → jitem "ok" d = Ok (JBool b).
Proof.
  rewrite conforms_fields. intros Hd. inversion Hd as [|f [k v] ? ? [Hk Hv] _]; subst. cbn in Hk, Hv. subst k.
  destruct v; try discriminate Hv. cbn in Hv. apply eqb_prop in Hv as ->. done.
Qed.

(** ** What a computation returns *)

Section yields.
Context {W : Type}.

Definition yields {A} (P : A → Prop) (m : io W A) : Prop := ∀ s s' a, m s = (s', Ok a) → P a.

Lemma yields_ret {A} (P : A → Prop) a : P a → yields P (mret a).
Proof. intros Ha s s' b. unfold mret, io_ret. congruence. Qed.
Lemma yields_raise {A} (P : A → Prop) e : yields P (raise e).
Proof. intros s s' a. discriminate. Qed.
Lemma yields_lift {A} (P : A → Prop) r : (∀ a, r = Ok a → P a) → yields P (lift r).
Proof. intros Hr s s' a. unfold lift. intros [= _ E]. auto. Qed.
Lemma yields_bind {A B} (Q : A → Prop) (P : B → Prop) (m : io W A) k :
  yields Q m → (∀ a, Q a → yields P (k a)) → yields P (m ≫= k).
Proof. intros Hm Hk s s' b Hr. io_step. eapply Hk; [by eapply Hm|done]. Qed.
Lemma yields_any {A B} (P : B → Prop) (m : io W A) k : (∀ a, yields P (k a)) → yields P (m ≫= k).
Proof. intros Hk. by apply (yields_bind (λ _, True)). Qed.
Lemma yields_catch {A} (P : A → Prop) classes (m : io W A) handler :
  yields P m → (∀ text, yields P (handler text)) → yields P (catch_classes classes m handler).
Proof.
  intros Hm Hh s s' a Hr. apply catch_ok in Hr as [Hr|(s1 & e & text & _ & _ & Hr)]; [by eapply Hm|by eapply Hh].
Qed.
Lemma yields_mono {A} (Q P : A → Prop) (m : io W A) : yields Q m → (∀ a, Q a → P a) → yields P m.
Proof. intros Hm Hp s s' a Hr. by eapply Hp, Hm. Qed.
End yields.

Create HintDb typed.

Lemma yields_bind_lift {W A B} (P : B → Prop) r (k : A → io W B) : (∀ a, r = Ok a → yields P (k a)) → yields P (lift r ≫= k).
Proof. intros Hk. apply (yields_bind (λ a, r = Ok a)); [by apply yields_lift|exact Hk]. Qed.

(** One construct; a bind whose first part has a known type is left to the hints *)
Ltac typed_step :=
  match goal with
  | |- yields _ (mret _) => apply yields_ret
  | |- yields _ (raise _) => apply yields_raise
  | |- yields _ _ => solve [eauto 2 with typed]
  | |- yields _ (lift _) => apply yields_lift; intros ? ?
  | |- yields _ (lift _ ≫= _) => apply yields_bind_lift; intros ? ?
  | |- yields _ (_ ≫= _) => first [eapply yields_bind; [solve [eauto 1 with typed]|cbn beta; intros ? ?]
                                  |apply yields_any; intros ?]
  | |- yields _ (catch_classes _ _ _) => apply yields_catch; [|intros ?]
  | |- yields _ (match ?x with _ => _ end) => destruct x eqn:?
  end.
Ltac typed := repeat typed_step.
