(* ===== verification/JsonText.v ===== *)
(** * The text of JSON documents ([json.dumps] and [json.loads])

    The writer escapes everything outside printable ASCII, as [ensure_ascii]
    does; a style gives the blanks it puts between items.  The reader is the one
    of Python's library: whitespace, escapes with surrogate pairs, integers,
    floats and the constants [NaN] and [Infinity]; a repeated key keeps its place
    and takes the last value.  [repr] and [float] of floats are the class
    [FloatText].  The nesting limit of the interpreter is outside the model.

    The theorem is that a document that is written is read back, whatever the
    style; the lemmas of the line protocol follow from it. *)

From S2P Require Import Prelude PyText Json.
From Stdlib Require Import Ascii SpecFloat.

Abbreviation text := (list ascii).
Abbreviation string_of := String.string_of_list_ascii.

Class FloatText := {
  float_text : spec_float → string;         (** [repr(x)] *)
  float_value : string → spec_float;        (** [float(text)] *)
}.

(** ** Writing *)

Definition char_of (z : Z) : ascii := ascii_of_N (Z.to_N z).
Definition escaped (c : ascii) : text := [backslash; c].
Definition hex4 (z : Z) : text :=
  map (hex_digit false) [z / 4096 mod 16; z / 256 mod 16; z / 16 mod 16; z mod 16].
Definition escape_u (z : Z) : text := escaped "u" ++ hex4 z.

Definition escape_point (c : Z) : text :=
  if c =? 34 then escaped double_quote
  else if c =? 92 then escaped backslash
  else if c =? 10 then escaped "n"
  else if c =? 13 then escaped "r"
  else if c =? 9 then escaped "t"
  else if c =? 12 then escaped "f"
  else if c =? 8 then escaped "b"
  else if (32 <=? c) && (c <=? 126) then [char_of c]
  else if c <? 0x10000 then escape_u c
  else escape_u (0xD800 + (c - 0x10000) / 1024) ++ escape_u (0xDC00 + (c - 0x10000) mod 1024).

(** [ensure_ascii=False] escapes only what it must. *)
Definition keep_point (c : Z) : text :=
  if (c =? 34) || (c =? 92) || (c <? 32) then escape_point c else ascii_list (of_octets (utf8_char c)).

Definition points_of (s : string) : list Z := utf8_points (map byte.unsigned (encode_utf8 s)).
Definition dump_string (ensure_ascii : bool) (s : string) : text :=
  double_quote :: (points_of s ≫= if ensure_ascii then escape_point else keep_point) ++ [double_quote].

(** The blanks a writer puts after a bracket or before the closing one, at a
    level of nesting, after a comma and after a colon, and [ensure_ascii] *)
Record style := mkStyle { st_break : nat → text; st_item : text; st_key : text; st_ascii : bool }.
(** [separators=(",", ":")], the default, [ensure_ascii=False] and [indent=2] *)
Definition compact : style := mkStyle (λ _, []) [] [] true.
Definition spaced : style := mkStyle (λ _, []) [" "%char] [" "%char] true.
Definition verbatim : style := mkStyle (λ _, []) [" "%char] [" "%char] false.
Definition indented : style := mkStyle (λ level, "010"%char :: replicate (2 * level) " "%char) [] [" "%char] true.

Fixpoint text_join (sep : text) (l : list text) : text :=
  match l with
  | [] => []
  | [x] => x
  | x :: l => x ++ sep ++ text_join sep l
  end.

Section dumps.
Context `{FloatText} (st : style).

Definition dump_float (x : spec_float) : text :=
  match x with
  | S754_nan => ascii_list "NaN"
  | S754_infinity false => ascii_list "Infinity"
  | S754_infinity true => ascii_list "-Infinity"
  | _ => ascii_list (float_text x)
  end.

Definition bracket (opening closing : ascii) (level : nat) (items : list text) : text :=
  match items with
  | [] => [opening; closing]
  | _ => opening :: st_break st (S level)
         ++ text_join (","%char :: st_item st ++ st_break st (S level)) items ++ st_break st level ++ [closing]
  end.

Fixpoint dump (level : nat) (j : json) : text :=
  match j with
  | JNull => ascii_list "null"
  | JBool b => ascii_list (if b then "true" else "false")
  | JInt z => ascii_list (dec z)
  | JFloat x => dump_float x
  | JStr s => dump_string (st_ascii st) s
  | JList l => bracket "[" "]" level (map (dump (S level)) l)
  | JObj d => bracket "{" "}" level (map (λ '(k, v), dump_string (st_ascii st) k ++ ":"%char :: st_key st ++ dump (S level) v) d)
  | JBytes _ => []
  end.

(** [json.dumps(j)], where [j] has no bytes *)
Definition json_dumps (j : json) : string := string_of (dump 0 j).

Fixpoint serialisable (j : json) : bool :=
  match j with
  | JBytes _ => false
  | JList l => forallb serialisable l
  | JObj d => forallb (λ '(_, v), serialisable v) d
  | _ => true
  end.
(** [json.dumps(j).encode("utf-8")]: bytes have no text, and a surrogate has no
    octets; [complain] is the text of the [UnicodeEncodeError]. *)
Definition json_encode (complain : bytes → string) (j : json) : result bytes :=
  if negb (serialisable j) then Raise (TypeError "Object of type bytes is not JSON serializable") else
  let raw := encode_utf8 (json_dumps j) in
  if bytes_eqb (utf8_run [] 0 0 0 raw) raw then Ok raw else Raise (ValueError (complain raw)).
End dumps.

(** ** Reading *)

Definition json_space (c : ascii) : bool :=
  let n := N_of_ascii c in ((n =? 32) || (n =? 9) || (n =? 10) || (n =? 13))%N.
Fixpoint skip_ws (l : text) : text :=
  match l with c :: l' => if json_space c then skip_ws l' else l | [] => [] end.

Definition hex4_value (a b c d : ascii) : option Z :=
  match hex_value a, hex_value b, hex_value c, hex_value d with
  | Some a, Some b, Some c, Some d => Some (4096 * a + 256 * b + 16 * c + d)
  | _, _, _, _ => None
  end.

Definition simple_escape (c : ascii) : option ascii :=
  if Ascii.eqb c double_quote || Ascii.eqb c backslash || Ascii.eqb c "/" then Some c
  else if Ascii.eqb c "b" then Some "008"%char
  else if Ascii.eqb c "f" then Some "012"%char
  else if Ascii.eqb c "n" then Some "010"%char
  else if Ascii.eqb c "r" then Some "013"%char
  else if Ascii.eqb c "t" then Some "009"%char
  else None.

(** The octets of a code point, and in front of a string that was read *)
Definition point_chars (c : Z) : text := ascii_list (of_octets (utf8_char c)).
Definition with_chars (w : text) (m : option (text * text)) : option (text * text) :=
  match m with Some (s, rest) => Some (w ++ s, rest) | None => None end.
Definition surrogate (low : Z) (u : Z) : bool := (low <=? u) && (u <=? low + 0x3FF).

(** A string after its opening quote: its octets, and what follows *)
Fixpoint scan_string (l : text) : option (text * text) :=
  match l with
  | [] => None
  | c :: l =>
      if Ascii.eqb c double_quote then Some ([], l)
      else if Ascii.eqb c backslash then
        match l with
        | [] => None
        | e :: l =>
            if Ascii.eqb e "u" then
              match l with
              | a :: b :: c :: d :: l =>
                  match hex4_value a b c d with
                  | None => None
                  | Some u =>
                      let alone := with_chars (point_chars u) (scan_string l) in
                      if surrogate 0xD800 u then
                        match l with
                        | s :: v :: a :: b :: c :: d :: l =>
                            if Ascii.eqb s backslash && Ascii.eqb v "u" then
                              match hex4_value a b c d with
                              | Some w =>
                                  if surrogate 0xDC00 w
                                  then with_chars (point_chars (0x10000 + 1024 * (u - 0xD800) + (w - 0xDC00))) (scan_string l)
                                  else alone
                              | None => None
                              end
                            else alone
                        | _ => alone
                        end
                      else alone
                  end
              | _ => None
              end
            else match simple_escape e with
                 | Some c => with_chars [c] (scan_string l)
                 | None => None
                 end
        end
      else if (N_of_ascii c <? 32)%N then None
      else with_chars [c] (scan_string l)
  end.

(** Numbers: a sign, digits without a leading zero, a fraction and an exponent;
    the last two are optional *)
Definition is_digit (c : ascii) : bool := let n := N_of_ascii c in ((48 <=? n) && (n <=? 57))%N.
Fixpoint span_digits (l : text) : text * text :=
  match l with
  | c :: l' => if is_digit c then let '(ds, rest) := span_digits l' in (c :: ds, rest) else ([], l)
  | [] => ([], [])
  end.
Definition scan_int (l : text) : option (text * text) :=
  match l with
  | c :: l' => if Ascii.eqb c "0" then Some ([c], l')
               else if is_digit c then Some (span_digits l) else None
  | [] => None
  end.
Definition scan_fraction (l : text) : text * text :=
  match l with
  | c :: l' => if Ascii.eqb c "."
               then match span_digits l' with ([], _) => ([], l) | (ds, rest) => (c :: ds, rest) end
               else ([], l)
  | [] => ([], [])
  end.
Definition scan_exp (l : text) : text * text :=
  match l with
  | c :: l' =>
      if char_is "e" "E" c then
        let '(sign, l'') := match l' with
                            | s :: l'' => if char_is "-" "+" s then ([s], l'') else ([], l')
                            | [] => ([], [])
                            end in
        match span_digits l'' with ([], _) => ([], l) | (ds, rest) => (c :: sign ++ ds, rest) end
      else ([], l)
  | [] => ([], [])
  end.
(** The integer part, the rest of the number and what follows *)
Definition scan_unsigned (l : text) : option (text * text * text) :=
  match scan_int l with
  | None => None
  | Some (int, l) =>
      let '(frac, l) := scan_fraction l in
      let '(exp, l) := scan_exp l in
      Some (int, frac ++ exp, l)
  end.
Definition scan_number (l : text) : option (text * text * text) :=
  match l with
  | c :: l' =>
      if Ascii.eqb c "-"
      then match scan_unsigned l' with Some (int, more, rest) => Some (c :: int, more, rest) | None => None end
      else scan_unsigned l
  | [] => None
  end.

Definition strip_word (word : string) (l : text) : option text :=
  let w := ascii_list word in if bool_decide (take (length w) l = w) then Some (drop (length w) l) else None.

Section loads.
Context `{FloatText}.

Definition scan_constant (l : text) : option (json * text) :=
  let try word j k := match strip_word word l with Some rest => Some (j, rest) | None => k end in
  try "null"%string JNull (try "true"%string (JBool true) (try "false"%string (JBool false)
    (try "NaN"%string (JFloat S754_nan) (try "Infinity"%string (JFloat (S754_infinity false))
      (try "-Infinity"%string (JFloat (S754_infinity true)) None))))).

Definition scan_numeral (l : text) : option (json * text) :=
  match scan_number l with
  | None => None
  | Some (int, [], rest) =>
      match int_of_chars 10 int with Some z => Some (JInt z, rest) | None => None end
  | Some (int, more, rest) => Some (JFloat (float_value (string_of (int ++ more))), rest)
  end.

(** The order of the alternatives is that of the source of [json]; the fuel is
    spent by each value, item and member, which take at least one character
    between two of them. *)
Fixpoint scan_value (fuel : nat) (l : text) : option (json * text) :=
  match fuel with
  | O => None
  | S fuel =>
      match l with
      | [] => None
      | c :: l' =>
          if Ascii.eqb c double_quote then
            match scan_string l' with Some (s, rest) => Some (JStr (string_of s), rest) | None => None end
          else if Ascii.eqb c "{" then
            match skip_ws l' with
            | c :: rest => if Ascii.eqb c "}" then Some (JObj [], rest) else scan_members fuel [] (c :: rest)
            | [] => None
            end
          else if Ascii.eqb c "[" then
            match skip_ws l' with
            | c :: rest => if Ascii.eqb c "]" then Some (JList [], rest) else scan_items fuel [] (c :: rest)
            | [] => None
            end
          else match scan_constant l with Some x => Some x | None => scan_numeral l end
      end
  end
with scan_items (fuel : nat) (items : list json) (l : text) : option (json * text) :=
  match fuel with
  | O => None
  | S fuel =>
      match scan_value fuel l with
      | None => None
      | Some (v, rest) =>
          match skip_ws rest with
          | c :: rest =>
              if Ascii.eqb c "," then scan_items fuel (items ++ [v]) (skip_ws rest)
              else if Ascii.eqb c "]" then Some (JList (items ++ [v]), rest) else None
          | [] => None
          end
      end
  end
with scan_members (fuel : nat) (fields : list (string * json)) (l : text) : option (json * text) :=
  match fuel with
  | O => None
  | S fuel =>
      match l with
      | [] => None
      | c :: l =>
          if Ascii.eqb c double_quote then
            match scan_string l with
            | None => None
            | Some (key, rest) =>
                match skip_ws rest with
                | c :: rest =>
                    if Ascii.eqb c ":" then
                      match scan_value fuel (skip_ws rest) with
                      | None => None
                      | Some (v, rest) =>
                          let fields := jset (string_of key) v fields in
                          match skip_ws rest with
                          | c :: rest =>
                              if Ascii.eqb c "," then scan_members fuel fields (skip_ws rest)
                              else if Ascii.eqb c "}" then Some (JObj fields, rest) else None
                          | [] => None
                          end
                      end
                    else None
                | [] => None
                end
            end
          else None
      end
  end.

Definition json_scan (l : text) : option json :=
  match scan_value (2 * length l + 2) (skip_ws l) with
  | Some (j, rest) => match skip_ws rest with [] => Some j | _ => None end
  | None => None
  end.

(** [json.loads(line.decode("utf-8"))]; [complain] is the text of the
    [UnicodeDecodeError] or [JSONDecodeError], which are [ValueError]s *)
Definition json_loads (complain : bytes → string) (line : bytes) : result json :=
  if negb (bytes_eqb (utf8_run [] 0 0 0 line) line) then Raise (ValueError (complain line)) else
  match json_scan (ascii_list (of_octets line)) with
  | Some j => Ok j
  | None => Raise (ValueError (complain line))
  end.
End loads.

(** ** Strings are read back *)

Definition scalar (c : Z) : Prop := 0 <= c < 0xD800 ∨ 0xE000 <= c < 0x110000.
(** A string of code points, as Python's strings that can be encoded *)
Definition encodable (s : string) : Prop := ∃ points, Forall scalar points ∧ s = of_octets (points ≫= utf8_char).

Lemma points_flat points : Forall scalar points → utf8_points (map byte.unsigned (points ≫= utf8_char)) = points.
Proof.
  induction 1 as [|c points Hc Hp IH]; [done|]. rewrite !bind_cons. rewrite map_app, utf8_points_char, IH; [done|].
  destruct Hc; lia.
Qed.

Lemma encodable_points s : encodable s → Forall scalar (points_of s) ∧ s = of_octets (points_of s ≫= utf8_char).
Proof.
  intros (points & Hp & ->). unfold points_of. rewrite encode_of_octets, points_flat by done. done.
Qed.

Lemma hex_digit_value d : 0 <= d < 16 → hex_value (hex_digit false d) = Some d.
Proof.
  intros Hd. assert (d ∈ seqZ 0 16) as Hin by (apply elem_of_seqZ; lia).
  assert (Forall (λ d, hex_value (hex_digit false d) = Some d) (seqZ 0 16)) as Hall by (repeat constructor).
  rewrite Forall_forall in Hall. by apply Hall.
Qed.

Lemma hex4_round z a b c d : 0 <= z < 0x10000 → hex4 z = [a; b; c; d] → hex4_value a b c d = Some z.
Proof.
  unfold hex4. cbn [map]. intros Hz [= <- <- <- <-]. unfold hex4_value.
  rewrite !hex_digit_value by (apply Z.mod_pos_bound; lia). f_equal.
  pose proof (Z.div_mod z 16 ltac:(lia)). pose proof (Z.div_mod (z / 16) 16 ltac:(lia)).
  pose proof (Z.div_mod (z / 256) 16 ltac:(lia)).
  assert (z / 256 = z / 16 / 16) by (rewrite Z.div_div by lia; done).
  assert (z / 4096 = z / 256 / 16) as E by (rewrite Z.div_div by lia; done).
  rewrite (Z.mod_small (z / 4096)); [lia|]. split; [apply Z.div_pos; lia|apply Z.div_lt_upper_bound; lia].
Qed.

Lemma hex4_shape z : ∃ a b c d, hex4 z = [a; b; c; d].
Proof. by do 4 eexists. Qed.

Lemma scan_escape_u z rest :
  0 <= z < 0x10000 → surrogate 0xD800 z = false →
  scan_string (escape_u z ++ rest) = with_chars (point_chars z) (scan_string rest).
Proof.
  intros Hz Hs. unfold escape_u. destruct (hex4_shape z) as (a & b & c & d & E). rewrite E.
  cbn [app escaped scan_string]. rewrite (hex4_round z) by done. cbn. by rewrite Hs.
Qed.

Lemma scan_escape_pair u w rest :
  0 <= u < 0x10000 → 0 <= w < 0x10000 → surrogate 0xD800 u = true → surrogate 0xDC00 w = true →
  scan_string ((escape_u u ++ escape_u w) ++ rest)
  = with_chars (point_chars (0x10000 + 1024 * (u - 0xD800) + (w - 0xDC00))) (scan_string rest).
Proof.
  intros Hu Hw Su Sw. unfold escape_u. destruct (hex4_shape u) as (a & b & c & d & E).
  destruct (hex4_shape w) as (a' & b' & c' & d' & E'). rewrite E, E'.
  cbn [app escaped scan_string]. rewrite (hex4_round u) by done. rewrite (hex4_round w) by done. cbn. by rewrite Su, Sw.
Qed.

Definition plain_char (c : Z) : bool :=
  let a := char_of c in
  (c =? 34) || (c =? 92) || negb (Ascii.eqb a double_quote) && negb (Ascii.eqb a backslash)
    && negb (N_of_ascii a <? 32)%N && bool_decide (point_chars c = [a]).
Lemma plain_chars : forallb plain_char (seqZ 32 95) = true.
Proof. vm_compute. reflexivity. Qed.

Lemma scan_plain c rest :
  32 <= c <= 126 → c ≠ 34 → c ≠ 92 → scan_string (char_of c :: rest) = with_chars (point_chars c) (scan_string rest).
Proof.
  intros Hc H1 H2. pose proof (proj1 (forallb_forall _ _) plain_chars c) as Hp.
  specialize (Hp ltac:(apply list_elem_of_In, elem_of_seqZ; lia)). unfold plain_char in Hp.
  rewrite (proj2 (Z.eqb_neq c 34) H1), (proj2 (Z.eqb_neq c 92) H2) in Hp. cbn [orb] in Hp.
  apply andb_prop in Hp as [Hp Hpt]. apply andb_prop in Hp as [Hp Hn]. apply andb_prop in Hp as [Hd Hb].
  apply negb_true_iff in Hn, Hd, Hb. apply bool_decide_eq_true in Hpt. cbn [scan_string]. by rewrite Hd, Hb, Hn, Hpt.
Qed.

Lemma scan_escape c rest : scalar c → scan_string (escape_point c ++ rest) = with_chars (point_chars c) (scan_string rest).
Proof.
  intros Hc. unfold escape_point.
  repeat (match goal with |- context [?a =? ?b] => destruct (Z.eqb_spec a b) as [->|]; [reflexivity|] end).
  destruct ((32 <=? c) && (c <=? 126)) eqn:Hp.
  { apply andb_prop in Hp as [? ?]. apply scan_plain; lia. }
  unfold scalar in Hc. destruct (Z.ltb_spec c 0x10000) as [Hlt|Hge].
  { apply scan_escape_u; [lia|]. unfold surrogate. apply not_true_iff_false. rewrite andb_true_iff, !Z.leb_le. lia. }
  pose proof (Z.div_mod (c - 0x10000) 1024 ltac:(lia)). pose proof (Z.mod_pos_bound (c - 0x10000) 1024 ltac:(lia)).
  assert (0 <= (c - 0x10000) / 1024 < 1024)
    by (split; [apply Z.div_pos; lia|apply Z.div_lt_upper_bound; lia]).
  rewrite scan_escape_pair; try (unfold surrogate; rewrite andb_true_iff, !Z.leb_le); try lia.
  do 2 f_equal. lia.
Qed.

(** Octets that stand for themselves in a string *)
Definition verbatim_char (c : ascii) : bool :=
  negb (Ascii.eqb c double_quote) && negb (Ascii.eqb c backslash) && negb (N_of_ascii c <? 32)%N.
Lemma scan_verbatim w rest : forallb verbatim_char w = true → scan_string (w ++ rest) = with_chars w (scan_string rest).
Proof.
  induction w as [|c w IH]; [intros _; cbn [app]; by destruct (scan_string rest) as [[]|]|]. cbn [forallb app scan_string].
  intros Hw. apply andb_prop in Hw as [Hc Hw]. unfold verbatim_char in Hc. apply andb_prop in Hc as [Hc Hn].
  apply andb_prop in Hc as [Hd Hb]. apply negb_true_iff in Hn, Hd, Hb. rewrite Hd, Hb, Hn, IH by done.
  by destruct (scan_string rest) as [[]|].
Qed.
Lemma verbatim_octet x :
  verbatim_char (ascii_of_byte x)
  = negb (byte.unsigned x =? 34) && negb (byte.unsigned x =? 92) && negb (byte.unsigned x <? 32).
Proof. by destruct x. Qed.

Lemma octets_chars b : ascii_list (of_octets b) = map ascii_of_byte b.
Proof. induction b as [|x b IH]; [done|]. cbn [map]. rewrite <- IH. reflexivity. Qed.

Lemma scan_keep c rest : scalar c → scan_string (keep_point c ++ rest) = with_chars (point_chars c) (scan_string rest).
Proof.
  intros Hc. unfold keep_point. destruct ((c =? 34) || (c =? 92) || (c <? 32)) eqn:E; [by apply scan_escape|].
  apply orb_false_elim in E as [E ?]. apply orb_false_elim in E as [? ?].
  apply scan_verbatim, forallb_forall. intros a Ha. unfold point_chars in Ha. rewrite octets_chars in Ha. apply in_map_iff in Ha as (x & <- & Hx).
  rewrite verbatim_octet, !andb_true_iff, !negb_true_iff, !Z.eqb_neq, Z.ltb_ge.
  pose proof (utf8_char_octets c ltac:(destruct Hc; lia)) as Ho. rewrite Forall_forall in Ho.
  apply list_elem_of_In, Ho in Hx. lia.
Qed.

Lemma point_chars_flat points : string_of (points ≫= point_chars) = of_octets (points ≫= utf8_char).
Proof.
  induction points as [|c points IH]; [done|]. rewrite !bind_cons. rewrite string_of_list_app, of_octets_app, IH.
  f_equal. apply String.string_of_list_ascii_of_string.
Qed.

Lemma scan_points (ea : bool) points rest :
  Forall scalar points →
  scan_string ((points ≫= if ea then escape_point else keep_point) ++ double_quote :: rest)
  = Some (points ≫= point_chars, rest).
Proof.
  induction 1 as [|c points Hc Hp IH]; [reflexivity|]. rewrite !bind_cons, <- app_assoc.
  destruct ea; [rewrite scan_escape by done|rewrite scan_keep by done]; by rewrite IH.
Qed.

Lemma scan_dump_string ea s rest :
  encodable s →
  ∃ l, dump_string ea s ++ rest = double_quote :: l ∧ ∃ w, scan_string l = Some (w, rest) ∧ string_of w = s.
Proof.
  intros Hs. apply encodable_points in Hs as [Hp Hs]. eexists.
  split; [unfold dump_string; cbn [app]; by rewrite <- app_assoc|]. cbn [app]. rewrite scan_points by done.
  eexists. split; [done|]. by rewrite point_chars_flat.
Qed.

(** ** Numbers are read back *)

(** What may follow a number *)
Definition number_stop (l : text) : bool :=
  match l with c :: _ => negb (is_digit c || Ascii.eqb c "." || char_is "e" "E" c) | [] => true end.

Lemma span_digits_app l rest a b :
  number_stop rest = true → span_digits l = (a, b) →
  span_digits (l ++ rest) = (a, b ++ rest).
Proof.
  intros Hs. revert a b. induction l as [|c l IH]; intros a b; cbn [span_digits app].
  - intros [= <- <-]. destruct rest as [|c rest]; [done|]. cbn in Hs |- *.
    by destruct (is_digit c).
  - destruct (is_digit c); [|by intros [= <- <-]]. destruct (span_digits l) as [ds r]. intros [= <- <-].
    by rewrite (IH ds r).
Qed.
Lemma scan_int_app l rest a b :
  number_stop rest = true → scan_int l = Some (a, b) → scan_int (l ++ rest) = Some (a, b ++ rest).
Proof.
  intros Hs. destruct l as [|c l]; [done|]. unfold scan_int. cbn [app].
  destruct (Ascii.eqb c "0"); [by intros [= <- <-]|]. destruct (is_digit c) eqn:E; [|done]. intros [= Hd].
  f_equal. by apply (span_digits_app (c :: l)).
Qed.
Lemma scan_fraction_app l rest a b :
  number_stop rest = true → scan_fraction l = (a, b) → (∀ b', b ≠ "."%char :: b') →
  scan_fraction (l ++ rest) = (a, b ++ rest).
Proof.
  intros Hs. destruct l as [|c l]; unfold scan_fraction; cbn [app].
  - intros [= <- <-] _. destruct rest as [|c rest]; [done|]. cbn in Hs. by destruct (is_digit c), (Ascii.eqb c ".").
  - destruct (Ascii.eqb_spec c ".") as [->|]; [|by intros [= <- <-]]. destruct (span_digits l) as [ds r] eqn:E.
    rewrite (span_digits_app _ _ _ _ Hs E). destruct ds; intros [= <- <-]; [|done]. intros Ha. by destruct (Ha l).
Qed.
Lemma scan_exp_app l rest a b :
  number_stop rest = true → scan_exp l = (a, b) → (a = [] → b = []) →
  scan_exp (l ++ rest) = (a, b ++ rest).
Proof.
  intros Hs. destruct l as [|c l]; unfold scan_exp; cbn [app].
  - intros [= <- <-] _. destruct rest as [|c rest]; [done|]. cbn in Hs.
    by destruct (is_digit c), (Ascii.eqb c "."), (char_is "e" "E" c).
  - destruct (char_is "e" "E" c); [|by intros [= <- <-]]. destruct l as [|s l]; cbn [app].
    { intros [= <- <-] Ha. by specialize (Ha eq_refl). }
    destruct (char_is "-" "+" s).
    + destruct (span_digits l) as [ds r] eqn:E. rewrite (span_digits_app _ _ _ _ Hs E).
      destruct ds; intros [= <- <-]; [|done]. intros Ha. by specialize (Ha eq_refl).
    + destruct (span_digits (s :: l)) as [ds r] eqn:E.
      change (s :: l ++ rest) with ((s :: l) ++ rest). rewrite (span_digits_app _ _ _ _ Hs E).
      destruct ds; intros [= <- <-]; [|done]. intros Ha. by specialize (Ha eq_refl).
Qed.

(** A text that is a number is read whole in front of what cannot continue it. *)
Lemma scan_unsigned_app l rest int more :
  number_stop rest = true → scan_unsigned l = Some (int, more, []) →
  scan_unsigned (l ++ rest) = Some (int, more, rest).
Proof.
  intros Hs. unfold scan_unsigned. destruct (scan_int l) as [[i l1]|] eqn:Ei; [|done].
  rewrite (scan_int_app _ _ _ _ Hs Ei). destruct (scan_fraction l1) as [f l2] eqn:Ef.
  destruct (scan_exp l2) as [e l3] eqn:Ee. intros [= <- <- ->].
  rewrite (scan_fraction_app _ _ _ _ Hs Ef), (scan_exp_app _ _ _ _ Hs Ee); [done..|].
  intros b' ->. discriminate Ee.
Qed.
Lemma scan_number_app l rest int more :
  number_stop rest = true → scan_number l = Some (int, more, []) →
  scan_number (l ++ rest) = Some (int, more, rest).
Proof.
  intros Hs. destruct l as [|c l]; [done|]. unfold scan_number. cbn [app]. destruct (Ascii.eqb c "-").
  - destruct (scan_unsigned l) as [[[i m] r]|] eqn:E; [|done]. intros [= <- <- ->]. by rewrite (scan_unsigned_app _ _ _ _ Hs E).
  - by apply (scan_unsigned_app (c :: l)).
Qed.

(** What is read is what is there. *)
Lemma span_digits_split l : l = (span_digits l).1 ++ (span_digits l).2.
Proof.
  induction l as [|c l IH]; [done|]. cbn [span_digits]. destruct (is_digit c); [|done].
  destruct (span_digits l) as [ds r]. cbn in *. by rewrite <- IH.
Qed.
Lemma scan_fraction_split l : l = (scan_fraction l).1 ++ (scan_fraction l).2.
Proof.
  destruct l as [|c l]; [done|]. unfold scan_fraction. destruct (Ascii.eqb c "."); [|done].
  pose proof (span_digits_split l) as Hl. destruct (span_digits l) as [[|d ds] r]; [done|]. cbn in *. by rewrite <- Hl.
Qed.
Lemma scan_exp_split l : l = (scan_exp l).1 ++ (scan_exp l).2.
Proof.
  destruct l as [|c l]; [done|]. unfold scan_exp. destruct (char_is "e" "E" c); [|done].
  destruct l as [|s l]; [done|].
  destruct (char_is "-" "+" s);
    [pose proof (span_digits_split l) as Hl; destruct (span_digits l) as [[|d ds] r]
    |pose proof (span_digits_split (s :: l)) as Hl; destruct (span_digits (s :: l)) as [[|d ds] r]];
    cbn in *; try done; by rewrite <- Hl || rewrite Hl.
Qed.
Lemma scan_int_split l a b : scan_int l = Some (a, b) → l = a ++ b.
Proof.
  destruct l as [|c l]; [done|]. pose proof (span_digits_split (c :: l)) as Hl. cbn [span_digits] in Hl.
  unfold scan_int. cbn [span_digits]. destruct (Ascii.eqb c "0"); [by intros [= <- <-]|].
  destruct (is_digit c); [|done]. intros [= E]. by rewrite E in Hl.
Qed.
Lemma scan_number_split l int more rest : scan_number l = Some (int, more, rest) → l = int ++ more ++ rest.
Proof.
  assert (∀ l int more rest, scan_unsigned l = Some (int, more, rest) → l = int ++ more ++ rest) as Hu.
  { clear. intros l int more rest. unfold scan_unsigned. destruct (scan_int l) as [[i l1]|] eqn:Ei; [|done].
    pose proof (scan_fraction_split l1) as Hf. destruct (scan_fraction l1) as [f l2].
    pose proof (scan_exp_split l2) as He. destruct (scan_exp l2) as [e l3]. cbn in Hf, He. intros [= <- <- <-].
    rewrite <- app_assoc, <- He, <- Hf. by apply scan_int_split. }
  destruct l as [|c l]; [done|]. cbn [scan_number]. destruct (Ascii.eqb c "-"); [|by apply Hu].
  destruct (scan_unsigned l) as [[[i m] r]|] eqn:E; [|done]. intros [= <- <- <-]. cbn [app]. f_equal. by apply Hu.
Qed.

(** *** Integers *)

Fixpoint digits_value (acc : Z) (l : text) : Z :=
  match l with c :: l => digits_value (acc * 10 + digit_value c) l | [] => acc end.

Lemma span_all l : forallb is_digit l = true → span_digits l = (l, []).
Proof.
  induction l as [|c l IH]; [done|]. cbn. destruct (is_digit c); [|done]. intros Hl. by rewrite IH.
Qed.

Lemma digit_cases c : is_digit c = true → c ∈ map char_of (seqZ 48 10).
Proof.
  intros Hc. unfold is_digit in Hc. apply andb_prop in Hc as [H1 H2]. apply N.leb_le in H1, H2.
  apply list_elem_of_fmap. exists (Z.of_N (N_of_ascii c)). split; [|apply elem_of_seqZ; lia].
  unfold char_of. by rewrite N2Z.id, ascii_N_embedding.
Qed.
Ltac each_digit H :=
  apply digit_cases in H; repeat (apply elem_of_cons in H as [->|H]; [|]); [..|by apply not_elem_of_nil in H].

Lemma digit_small c : is_digit c = true → (digit_value c <? 10) = true.
Proof. intros Hc. each_digit Hc; reflexivity. Qed.

Lemma scan_digits_all l acc count b :
  forallb is_digit l = true → (b || negb (bool_decide (l = []))) = true →
  scan_digits 10 l acc count b = Some (digits_value acc l, (length l + count)%nat, []).
Proof.
  revert acc count b. induction l as [|c l IH]; intros acc count b Hl Hb; cbn [scan_digits digits_value].
  { rewrite orb_false_r in Hb. by rewrite Hb. }
  cbn [forallb] in Hl. apply andb_prop in Hl as [Hc Hl]. rewrite (digit_small _ Hc).
  rewrite IH by done. do 3 f_equal. cbn. lia.
Qed.

Lemma digits_value_app acc l k : digits_value acc (l ++ k) = digits_value (digits_value acc l) k.
Proof. revert acc. induction l as [|c l IH]; intros acc; [done|]. cbn. apply IH. Qed.

Definition digit_char_ok (d : N) : bool :=
  let c := pretty_N_char d in
  is_digit c && (digit_value c =? Z.of_N d) && Bool.eqb (Ascii.eqb c "0") (d =? 0)%N.
Lemma digit_chars_ok d : (d < 10)%N → digit_char_ok d = true.
Proof.
  intros Hd. assert (d = 0 ∨ d = 1 ∨ d = 2 ∨ d = 3 ∨ d = 4 ∨ d = 5 ∨ d = 6 ∨ d = 7 ∨ d = 8 ∨ d = 9)%N as Hc by lia.
  destruct_or!; subst d; reflexivity.
Qed.

(** The digits of a positive number *)
Lemma pretty_go_digits x s :
  (0 < x)%N → ∃ c ds, ascii_list (pretty_N_go x s) = c :: ds ++ ascii_list s
    ∧ forallb is_digit (c :: ds) = true ∧ Ascii.eqb c "0" = false ∧ digits_value 0 (c :: ds) = Z.of_N x.
Proof.
  revert s. induction (N.lt_wf_0 x) as [x _ IH]; intros s Hx. rewrite pretty_N_go_step by done.
  pose proof (N.div_mod x 10 ltac:(lia)) as Hdm. pose proof (N.mod_lt x 10 ltac:(lia)) as Hm.
  pose proof (digit_chars_ok _ Hm) as Hok. unfold digit_char_ok in Hok.
  apply andb_prop in Hok as [Hok Hz]. apply andb_prop in Hok as [Hd Hv]. apply Z.eqb_eq in Hv. apply eqb_prop in Hz.
  destruct (decide (x / 10 = 0)%N) as [E|E].
  - rewrite E, pretty_N_go_0. exists (pretty_N_char (x `mod` 10)), []. cbn [app String.list_ascii_of_string forallb digits_value].
    rewrite Hd, Hz, Hv. split_and!; try done; [apply N.eqb_neq|]; lia.
  - destruct (IH (x / 10)%N) with (s := String (pretty_N_char (x `mod` 10)) s) as (c & ds & E1 & E2 & E3 & E4);
      [apply N.div_lt; lia|lia|].
    exists c, (ds ++ [pretty_N_char (x `mod` 10)]). rewrite E1. cbn [String.list_ascii_of_string].
    split; [by rewrite <- app_assoc|]. rewrite app_comm_cons. split; [|split; [done|]].
    + rewrite forallb_app, E2. cbn. by rewrite Hd.
    + rewrite digits_value_app, E4. cbn [digits_value]. rewrite Hv. lia.
Qed.

(** The text of an integer: the digits of a number without a leading zero *)
Definition digits_text (l : text) (n : Z) : Prop :=
  forallb is_digit l = true ∧ digits_value 0 l = n ∧ ∃ c ds, l = c :: ds ∧ (Ascii.eqb c "0" = true → ds = []).

Lemma pretty_digits n : digits_text (ascii_list (pretty n)) (Z.of_N n).
Proof.
  unfold pretty, pretty_N. case_decide as Hn; [subst n; split_and!; try done; by exists "0"%char, []|].
  destruct (pretty_go_digits n "" ltac:(lia)) as (c & ds & E & Hd & Hc & Hv). rewrite E. cbn [String.list_ascii_of_string].
  rewrite app_nil_r. split; [done|]. split; [done|]. exists c, ds. split; [done|]. by rewrite Hc.
Qed.

Lemma digits_scan l n : digits_text l n → scan_unsigned l = Some (l, [], []).
Proof.
  intros (Hd & _ & c & ds & -> & Hc). unfold scan_unsigned, scan_int. cbn [forallb] in Hd. apply andb_prop in Hd as [Hdc Hds].
  destruct (Ascii.eqb c "0"); [by rewrite (Hc eq_refl)|]. rewrite Hdc, span_all by (cbn; by rewrite Hdc). done.
Qed.

Lemma int_unfold (neg : bool) c ds :
  is_digit c = true → (Ascii.eqb c "0" = true → ds = []) →
  int_of_chars 10 ((if neg then ["-"%char] else []) ++ c :: ds)
  = match scan_digits 10 (c :: ds) 0 0 false with
    | Some (v, count, rest) =>
        if (int_digit_limit <? count)%nat then None
        else match skip_spaces rest with [] => Some (if neg then - v else v) | _ :: _ => None end
    | None => None
    end.
Proof. intros Hd Hc. destruct neg; (each_digit Hd; [rewrite (Hc eq_refl)|..]; reflexivity). Qed.

Lemma digits_int (neg : bool) l n :
  digits_text l n → (length l ≤ int_digit_limit)%nat →
  int_of_chars 10 ((if neg then ["-"%char] else []) ++ l) = Some (if neg then - n else n).
Proof.
  intros (Hd & <- & c & ds & -> & Hc) Hlen.
  rewrite int_unfold by (done || by cbn in Hd; apply andb_prop in Hd as [? _]).
  rewrite scan_digits_all by done. rewrite Nat.add_0_r. by rewrite (proj2 (Nat.ltb_ge _ _) Hlen).
Qed.

(** Integers Python prints and reads: at most 4300 digits *)
Definition printable_int (z : Z) : Prop := (String.length (dec (Z.abs z)) ≤ int_digit_limit)%nat.

Lemma length_ascii_list s : length (ascii_list s) = String.length s.
Proof. induction s as [|c s IH]; [done|]. cbn. by rewrite IH. Qed.

Lemma dec_split z : ∃ l, ascii_list (dec z) = (if z <? 0 then ["-"%char] else []) ++ l
  ∧ digits_text l (Z.abs z) ∧ ascii_list (dec (Z.abs z)) = l.
Proof.
  exists (ascii_list (dec (Z.abs z))). destruct z as [|p|p]; cbn [Z.abs Z.ltb Z.compare].
  - split; [done|]. split; [|done]. apply (pretty_digits 0).
  - split; [done|]. split; [|done]. apply (pretty_digits (Npos p)).
  - split; [|split; [apply (pretty_digits (Npos p))|done]]. unfold dec, pretty, pretty_Z. rewrite ascii_list_app. done.
Qed.

Lemma dec_number z rest :
  number_stop rest = true → scan_number (ascii_list (dec z) ++ rest) = Some (ascii_list (dec z), [], rest).
Proof.
  intros Hs. apply scan_number_app; [done|]. destruct (dec_split z) as (l & -> & Hd & _). pose proof (digits_scan _ _ Hd) as Hl.
  destruct (z <? 0); cbn [app scan_number]; [by rewrite Ascii.eqb_refl, Hl|].
  destruct Hd as (Hd & _ & c & ds & -> & _). cbn [forallb] in Hd. apply andb_prop in Hd as [Hd _]. cbn [scan_number].
  by each_digit Hd.
Qed.
Lemma dec_value z : printable_int z → int_of_chars 10 (ascii_list (dec z)) = Some z.
Proof.
  unfold printable_int. rewrite <- length_ascii_list. destruct (dec_split z) as (l & -> & Hd & ->). intros Hlen.
  rewrite (digits_int (z <? 0) l (Z.abs z)) by done. f_equal. destruct (Z.ltb_spec z 0); lia.
Qed.

(** ** Documents are read back *)

Lemma json_induction (P : json → Prop) :
  P JNull → (∀ b, P (JBool b)) → (∀ z, P (JInt z)) → (∀ x, P (JFloat x)) → (∀ s, P (JStr s)) →
  (∀ l, Forall P l → P (JList l)) → (∀ d, Forall (λ f, P f.2) d → P (JObj d)) → (∀ b, P (JBytes b)) → ∀ j, P j.
Proof.
  intros Hn Hb Hi Hf Hs Hl Ho Hy. fix IH 1. intros [|b|z|x|s|l|d|y]; [exact Hn|apply Hb|apply Hi|apply Hf|apply Hs| | |apply Hy].
  - apply Hl. induction l as [|x l IHl]; constructor; [apply IH|exact IHl].
  - apply Ho. induction d as [|[k v] d IHd]; constructor; [apply IH|exact IHd].
Qed.

Section round_trip.
Context `{FloatText} (st : style).

(** A float whose text is a number with a fraction or an exponent that denotes it *)
Definition readable_float (x : spec_float) : Prop :=
  match x with
  | S754_nan | S754_infinity _ => True
  | _ => (∃ int c more, scan_number (ascii_list (float_text x)) = Some (int, c :: more, []))
         ∧ float_value (float_text x) = x
  end.

Fixpoint writable (j : json) : Prop :=
  match j with
  | JNull | JBool _ => True
  | JInt z => printable_int z
  | JFloat x => readable_float x
  | JStr s => encodable s
  | JList l => foldr (λ x P, writable x ∧ P) True l
  | JObj d => NoDup d.*1 ∧ foldr (λ '(k, v) P, encodable k ∧ writable v ∧ P) True d
  | JBytes _ => False
  end.

(** The fuel a value takes *)
Fixpoint cost (j : json) : nat :=
  match j with
  | JList l => S (foldr (λ x n, S (cost x + n)) 0 l)
  | JObj d => S (foldr (λ '(_, v) n, S (cost v + n)) 0 d)
  | _ => 1
  end%nat.

Definition blank (w : text) : Prop := forallb json_space w = true.
Definition blank_style : Prop := (∀ n, blank (st_break st n)) ∧ blank (st_item st) ∧ blank (st_key st).

Lemma skip_blank w l : blank w → skip_ws (w ++ l) = skip_ws l.
Proof.
  unfold blank. induction w as [|c w IH]; [done|]. cbn [forallb app skip_ws]. intros Hw. apply andb_prop in Hw as [-> Hw]. auto.
Qed.
Lemma space_stop c : json_space c = true → is_digit c = false ∧ Ascii.eqb c "." = false ∧ char_is "e" "E" c = false.
Proof.
  unfold json_space. intros Hc. assert (N_of_ascii c ∈ [32; 9; 10; 13]%N) as Hin.
  { repeat (apply orb_prop in Hc as [Hc|Hc]); apply N.eqb_eq in Hc; rewrite Hc; set_solver. }
  rewrite <- (ascii_N_embedding c). repeat (apply elem_of_cons in Hin as [->|Hin]; [by split_and!|]). by apply not_elem_of_nil in Hin.
Qed.
Lemma stop_blank w c l : blank w → number_stop (c :: l) = true → number_stop (w ++ c :: l) = true.
Proof.
  unfold blank. destruct w as [|d w]; [done|]. cbn [forallb app number_stop]. intros Hw _. apply andb_prop in Hw as [Hd _].
  by apply space_stop in Hd as (-> & -> & ->).
Qed.

(** The first character of a document *)
Definition starts_value (c : ascii) : bool :=
  negb (json_space c || Ascii.eqb c "]" || Ascii.eqb c "}" || Ascii.eqb c "," ).
Lemma scan_number_starts l x : scan_number l = Some x → ∃ c k, l = c :: k ∧ starts_value c = true
  ∧ Ascii.eqb c double_quote = false ∧ Ascii.eqb c "{" = false ∧ Ascii.eqb c "[" = false.
Proof.
  destruct l as [|c l]; [done|]. cbn [scan_number]. destruct (Ascii.eqb_spec c "-") as [->|].
  { intros _. by exists "-"%char, l. }
  unfold scan_unsigned, scan_int. destruct (Ascii.eqb_spec c "0") as [->|]; [intros _; by exists "0"%char, l|].
  destruct (is_digit c) eqn:Hd; [|done]. intros _. exists c, l. split; [done|]. each_digit Hd; by split_and!.
Qed.

Lemma dump_starts level j : writable j → ∃ c l, dump st level j = c :: l ∧ starts_value c = true.
Proof.
  destruct j as [|[]|z|x|s|l|d|y]; cbn [dump writable]; intros Hw; [..|by destruct Hw]; try by eexists _, _.
  - pose proof (dec_number z [] eq_refl) as Hn. rewrite app_nil_r in Hn. apply scan_number_starts in Hn as (c & k & -> & Hc & _). eauto.
  - destruct x as [sign|[]| |sign m e]; cbn [dump_float readable_float] in *; try by eexists _, _.
    all: destruct Hw as [(int & c & more & Hn) _]; apply scan_number_starts in Hn as (c' & k & -> & Hc & _); eauto.
  - destruct l; by eexists _, _.
  - destruct d; by eexists _, _.
Qed.

Lemma scan_unsigned_digit l x : scan_unsigned l = Some x → ∃ c k, l = c :: k ∧ is_digit c = true.
Proof.
  unfold scan_unsigned, scan_int. destruct l as [|c l]; [done|]. intros Hs. exists c, l. split; [done|].
  destruct (Ascii.eqb_spec c "0") as [->|]; [done|]. by destruct (is_digit c).
Qed.

(** No constant is a number. *)
Lemma scan_constant_number l x : scan_number l = Some x → scan_constant l = None.
Proof.
  intros Hn. assert (∀ word, word ∈ ["null"; "true"; "false"; "NaN"; "Infinity"; "-Infinity"]%string → strip_word word l = None) as Hw.
  { intros word Hin. unfold strip_word. rewrite bool_decide_false; [done|]. intros E.
    destruct l as [|c l]; [done|]. cbn [scan_number] in Hn. destruct (Ascii.eqb_spec c "-") as [->|Hne].
    - destruct (scan_unsigned l) as [y|] eqn:Hu; [|done]. apply scan_unsigned_digit in Hu as (d & k & -> & Hd).
      repeat (apply elem_of_cons in Hin as [->|Hin]; [cbn in E; simplify_eq; discriminate Hd|]). by apply not_elem_of_nil in Hin.
    - apply scan_unsigned_digit in Hn as (d & k & [= <- <-] & Hd).
      repeat (apply elem_of_cons in Hin as [->|Hin]; [cbn in E; simplify_eq; done|]). by apply not_elem_of_nil in Hin. }
  unfold scan_constant. rewrite !Hw by set_solver. done.
Qed.

Lemma scan_value_number fuel l int more rest :
  scan_number l = Some (int, more, rest) → scan_value (S fuel) l = scan_numeral l.
Proof.
  intros Hn. pose proof (scan_constant_number _ _ Hn) as Hc.
  apply scan_number_starts in Hn as (c & k & -> & _ & H1 & H2 & H3). cbn [scan_value]. by rewrite H1, H2, H3, Hc.
Qed.

Lemma scan_value_string fuel s rest : encodable s → scan_value (S fuel) (dump_string (st_ascii st) s ++ rest) = Some (JStr s, rest).
Proof.
  intros Hs. destruct (scan_dump_string (st_ascii st) s rest Hs) as (l & -> & w & Hw & Hs'). cbn [scan_value].
  rewrite Ascii.eqb_refl, Hw, Hs'. done.
Qed.

Lemma scan_float fuel x rest :
  readable_float x → number_stop rest = true → scan_value (S fuel) (dump_float x ++ rest) = Some (JFloat x, rest).
Proof.
  intros Hx Hs. assert (∀ t, dump_float x = ascii_list t →
    (∃ int c more, scan_number (ascii_list t) = Some (int, c :: more, [])) ∧ float_value t = x →
    scan_value (S fuel) (dump_float x ++ rest) = Some (JFloat x, rest)) as Hnum.
  { intros t -> [(int & c & more & Hn) Hv]. pose proof (scan_number_app _ rest _ _ Hs Hn) as Hn'.
    rewrite (scan_value_number _ _ _ _ _ Hn'). unfold scan_numeral. rewrite Hn'.
    apply scan_number_split in Hn. rewrite app_nil_r in Hn. rewrite <- Hn.
    by rewrite String.string_of_list_ascii_of_string, Hv. }
  destruct x as [sign|[]| |sign m e]; [by apply (Hnum (float_text (S754_zero sign)))|reflexivity..|].
  by apply (Hnum (float_text (S754_finite sign m e))).
Qed.

Lemma starts_skip w c l : blank w → starts_value c = true → skip_ws (w ++ c :: l) = c :: l.
Proof.
  intros Hw Hc. rewrite skip_blank by done. cbn [skip_ws]. unfold starts_value in Hc. by destruct (json_space c).
Qed.

(** The first item of a joined list comes first. *)
Lemma join_starts sep x l c k : x = c :: k → ∃ k', text_join sep (x :: l) = c :: k'.
Proof. intros ->. destruct l; by eexists. Qed.

Definition reads (j : json) : Prop := ∀ level rest fuel,
  writable j → number_stop rest = true → (cost j ≤ fuel)%nat → scan_value fuel (dump st level j ++ rest) = Some (j, rest).

Definition item_sep (level : nat) : text := ","%char :: st_item st ++ st_break st (S level).
Definition items_text (level : nat) (l : list json) : text := text_join (item_sep level) (map (dump st (S level)) l).

Lemma items_start level x l : writable x → ∃ c k, items_text level (x :: l) = c :: k ∧ starts_value c = true.
Proof.
  intros Hx. destruct (dump_starts (S level) x Hx) as (c & k & E & Hc).
  destruct (join_starts (item_sep level) (dump st (S level) x) (map (dump st (S level)) l) c k E) as [k' E']. eauto.
Qed.

Lemma scan_items_dump level l rest :
  blank_style → Forall reads l → foldr (λ x P, writable x ∧ P) True l → l ≠ [] →
  ∀ items fuel, (foldr (λ x n, S (cost x + n)) 0 l ≤ fuel)%nat →
  scan_items fuel items (items_text level l ++ st_break st level ++ "]"%char :: rest) = Some (JList (items ++ l), rest).
Proof.
  intros (Hb & Hi & _) Hr Hw Hl. induction Hr as [|x l Hx Hr IH]; [done|]. clear Hl. intros items fuel Hf.
  cbn [foldr] in Hf, Hw. destruct Hw as [Hwx Hw]. destruct fuel as [|fuel]; [lia|]. cbn [scan_items].
  destruct l as [|y l].
  - unfold items_text. cbn [map text_join]. rewrite Hx; [|done|by apply stop_blank|lia]. rewrite skip_blank by done. reflexivity.
  - change (items_text level (x :: y :: l)) with (dump st (S level) x ++ item_sep level ++ items_text level (y :: l)).
    rewrite <- !app_assoc, Hx; [|done|done|lia]. unfold item_sep at 1. cbn [app skip_ws json_space].
    change (json_space ",") with false. cbn [app Ascii.eqb Bool.eqb].
    destruct (items_start level y l ltac:(apply Hw)) as (c & k & E & Hc).
    rewrite <- app_assoc, (skip_blank (st_item st)) by done. rewrite E. cbn [app].
    rewrite (starts_skip (st_break st (S level))) by done. rewrite app_comm_cons, <- E.
    rewrite IH; [by rewrite <- app_assoc|done|done|cbn [foldr] in *; lia].
Qed.

Definition member_text (level : nat) : string * json → text :=
  λ '(k, v), dump_string (st_ascii st) k ++ ":"%char :: st_key st ++ dump st (S level) v.
Definition members_text (level : nat) (d : document) : text := text_join (item_sep level) (map (member_text level) d).

Lemma jset_fresh k v d : k ∉ d.*1 → jset k v d = d ++ [(k, v)].
Proof.
  induction d as [|[k' v'] d IH]; [done|]. cbn. intros Hk. destruct (String.eqb_spec k' k) as [->|]; [set_solver|].
  rewrite IH; [done|set_solver].
Qed.

Lemma scan_members_dump level d rest :
  blank_style → Forall (λ f, reads f.2) d → foldr (λ '(k, v) P, encodable k ∧ writable v ∧ P) True d → d ≠ [] →
  ∀ fields fuel, NoDup (fields ++ d).*1 → (foldr (λ '(_, v) n, S (cost v + n)) 0 d ≤ fuel)%nat →
  scan_members fuel fields (members_text level d ++ st_break st level ++ "}"%char :: rest) = Some (JObj (fields ++ d), rest).
Proof.
  intros (Hb & Hi & Hk) Hr Hw Hd. induction Hr as [|[k v] d Hx Hr IH]; [done|]. clear Hd. intros fields fuel Hn Hf.
  cbn [foldr snd] in Hf, Hw, Hx. destruct Hw as (Hwk & Hwv & Hw). destruct fuel as [|fuel]; [lia|].
  assert (jset k v fields = fields ++ [(k, v)]) as Hset.
  { apply jset_fresh. rewrite fmap_app in Hn. apply NoDup_app in Hn as (_ & Hn & _). intros Hin. apply (Hn k Hin). set_solver. }
  assert (∀ tail, number_stop tail = true →
    scan_members (S fuel) fields (member_text level (k, v) ++ tail)
    = match skip_ws tail with
      | c :: rest => if Ascii.eqb c "," then scan_members fuel (fields ++ [(k, v)]) (skip_ws rest)
                     else if Ascii.eqb c "}" then Some (JObj (fields ++ [(k, v)]), rest) else None
      | [] => None
      end) as Hone.
  { intros tail Htail. unfold member_text. rewrite <- app_assoc, <- app_comm_cons, <- app_assoc.
    destruct (scan_dump_string (st_ascii st) k (":"%char :: st_key st ++ dump st (S level) v ++ tail) Hwk) as (l & -> & w & Hs & Hsw).
    cbn [scan_members]. rewrite Ascii.eqb_refl, Hs. cbn [skip_ws].
    change (json_space ":") with false. cbn [Ascii.eqb Bool.eqb].
    destruct (dump_starts (S level) v Hwv) as (c & t & E & Hc). rewrite E, <- app_comm_cons, starts_skip by done.
    rewrite app_comm_cons, <- E, Hx by (done || lia). by rewrite Hsw, Hset. }
  destruct d as [|[k' v'] d].
  - unfold members_text. cbn [map text_join]. rewrite Hone by (by apply stop_blank). rewrite skip_blank by done. reflexivity.
  - change (members_text level ((k, v) :: (k', v') :: d))
      with (member_text level (k, v) ++ item_sep level ++ members_text level ((k', v') :: d)).
    rewrite <- !app_assoc, Hone by done. unfold item_sep at 1. cbn [app skip_ws].
    change (json_space ",") with false. cbn [app Ascii.eqb Bool.eqb].
    assert (∃ t, members_text level ((k', v') :: d) = double_quote :: t) as [t E].
    { unfold members_text. cbn [map]. eapply join_starts. unfold member_text, dump_string. reflexivity. }
    rewrite <- app_assoc, (skip_blank (st_item st)) by done. rewrite E. cbn [app].
    rewrite (starts_skip (st_break st (S level))) by done. rewrite app_comm_cons, <- E.
    rewrite IH; [by rewrite <- app_assoc|done|done|by rewrite <- app_assoc|cbn [foldr] in *; lia].
Qed.

Lemma scan_dump : blank_style → ∀ j, reads j.
Proof.
  intros Hst. induction j as [|b|z|x|s|l IH|d IH|y] using json_induction; intros level rest fuel Hw Hs Hf; [..|by destruct Hw];
    (destruct fuel as [|fuel]; [cbn in Hf; lia|]); cbn [dump].
  - reflexivity.
  - by destruct b.
  - rewrite (scan_value_number _ _ _ _ _ (dec_number z rest Hs)). unfold scan_numeral. rewrite dec_number by done.
    by rewrite dec_value.
  - by apply scan_float.
  - by apply scan_value_string.
  - destruct l as [|x l]; [reflexivity|]. cbn [writable cost] in Hw, Hf. cbn [map bracket].
    change (text_join _ _) with (items_text level (x :: l)). rewrite <- app_comm_cons. cbn [scan_value].
    cbn [Ascii.eqb Bool.eqb double_quote ascii_of_N ascii_of_pos].
    destruct (items_start level x l ltac:(apply Hw)) as (c & k & E & Hc).
    rewrite <- !app_assoc, E. cbn [app]. rewrite starts_skip by (done || apply Hst).
    assert (Ascii.eqb c "]" = false) as ->.
    { unfold starts_value in Hc. by destruct (json_space c), (Ascii.eqb c "]"). }
    rewrite app_comm_cons, <- E. apply scan_items_dump; try done. cbn [foldr] in *. lia.
  - destruct d as [|[k v] d]; [reflexivity|]. cbn [writable cost] in Hw, Hf. destruct Hw as [Hn Hw]. cbn [map bracket].
    change (text_join _ _) with (members_text level ((k, v) :: d)). rewrite <- app_comm_cons. cbn [scan_value].
    assert (∃ t, members_text level ((k, v) :: d) = double_quote :: t) as [t E].
    { unfold members_text. cbn [map]. eapply join_starts. unfold member_text, dump_string. reflexivity. }
    rewrite <- !app_assoc, E. cbn [app]. rewrite starts_skip by (done || apply Hst).
    rewrite app_comm_cons, <- E. apply (scan_members_dump level ((k, v) :: d) rest Hst IH Hw); [done|done|].
    cbn [foldr] in *. lia.
Qed.

(** The fuel of [json_scan] is enough: a value takes at most two per character. *)
Lemma join_length c w (l : list text) : l ≠ [] →
  (foldr (λ x n, length x + n) 0 l + (length l - 1) ≤ length (text_join (c :: w) l))%nat.
Proof.
  induction l as [|x [|y l] IH]; intros Hl; [done|cbn; lia|].
  change (text_join (c :: w) (x :: y :: l)) with (x ++ (c :: w) ++ text_join (c :: w) (y :: l)).
  specialize (IH ltac:(done)). rewrite !length_app. cbn [foldr length] in *. lia.
Qed.
Lemma bracket_length opening closing level (l : list text) : l ≠ [] →
  (foldr (λ x n, length x + n) 0 l + length l + 1 ≤ length (bracket st opening closing level l))%nat.
Proof.
  intros Hl. destruct l as [|x l]; [done|]. cbn [bracket].
  pose proof (join_length ","%char (st_item st ++ st_break st (S level)) (x :: l) ltac:(done)) as Hj.
  cbn [length] in *. rewrite !length_app. cbn [length]. lia.
Qed.

Lemma cost_length j level : writable j → (cost j ≤ 2 * length (dump st level j))%nat.
Proof.
  revert level. induction j as [|b|z|x|s|l IH|d IH|y] using json_induction; intros level Hw;
    try (destruct (dump_starts level _ Hw) as (c & k & -> & _); cbn; lia).
  - cbn [dump cost writable] in *. destruct l as [|x l]; [cbn; lia|].
    pose proof (bracket_length "[" "]" level (map (dump st (S level)) (x :: l)) ltac:(done)) as Hb.
    enough (foldr (λ x n, S (cost x + n)) 0 (x :: l)
            ≤ 2 * foldr (λ x n, length x + n) 0 (map (dump st (S level)) (x :: l)) + length (x :: l))%nat
      by (rewrite length_map in Hb; cbn [length] in *; lia).
    clear Hb. induction IH as [|y k Hy _ IHk]; [done|]. cbn [foldr map length] in *. destruct Hw as [Hwy Hw].
    specialize (Hy (S level) Hwy). specialize (IHk Hw). lia.
  - cbn [dump cost writable] in *. destruct Hw as [_ Hw]. destruct d as [|f d]; [cbn; lia|].
    change (map _ (f :: d)) with (map (member_text level) (f :: d)).
    pose proof (bracket_length "{" "}" level (map (member_text level) (f :: d)) ltac:(done)) as Hb.
    enough (foldr (λ '(_, v) n, S (cost v + n)) 0 (f :: d)
            ≤ 2 * foldr (λ x n, length x + n) 0 (map (member_text level) (f :: d)) + length (f :: d))%nat
      by (rewrite length_map in Hb; cbn [length] in *; lia).
    clear Hb. induction IH as [|[k v] d' Hy _ IHd]; [done|]. cbn [foldr map length snd] in *. destruct Hw as (_ & Hwy & Hw).
    specialize (Hy (S level) Hwy). specialize (IHd Hw). unfold member_text at 1. rewrite !length_app. cbn [length].
    rewrite length_app. lia.
Qed.

Lemma scan_text w1 w2 level j :
  blank_style → writable j → blank w1 → blank w2 → json_scan (w1 ++ dump st level j ++ w2) = Some j.
Proof.
  intros Hst Hw H1 H2. unfold json_scan. destruct (dump_starts level j Hw) as (c & k & E & Hc).
  rewrite E. cbn [app]. rewrite starts_skip, app_comm_cons, <- E by done. rewrite scan_dump; try done.
  - by rewrite <- (app_nil_r w2), skip_blank.
  - destruct w2 as [|d w2]; [done|]. unfold blank in H2. cbn [forallb] in H2. apply andb_prop in H2 as [Hd _].
    cbn. by apply space_stop in Hd as (-> & -> & ->).
  - pose proof (cost_length j level Hw). rewrite !length_app. lia.
Qed.
End round_trip.

(** ** What is written is printable *)

Definition printable (c : ascii) : bool := let n := N_of_ascii c in ((32 <=? n) && (n <=? 126))%N.

Lemma digit_printable c : is_digit c = true → printable c = true.
Proof. unfold is_digit, printable. rewrite !andb_true_iff, !N.leb_le. lia. Qed.
Lemma digits_printable l : forallb is_digit l = true → forallb printable l = true.
Proof.
  induction l as [|c l IH]; [done|]. cbn. intros Hl. apply andb_prop in Hl as [Hc Hl]. by rewrite (digit_printable _ Hc), IH.
Qed.
Lemma span_digits_printable l : forallb printable (span_digits l).1 = true.
Proof.
  apply digits_printable. induction l as [|c l IH]; [done|]. cbn. destruct (is_digit c) eqn:Hc; [|done].
  destruct (span_digits l). cbn in *. by rewrite Hc.
Qed.
Lemma char_is_cases a b c : char_is a b c = true → c = a ∨ c = b.
Proof. unfold char_is. intros Hc. apply orb_prop in Hc as [Hc|Hc]; apply Ascii.eqb_eq in Hc; auto. Qed.
Lemma scan_number_printable l int more rest :
  scan_number l = Some (int, more, rest) → forallb printable (int ++ more) = true.
Proof.
  assert (∀ l, forallb printable (scan_fraction l).1 = true) as Hf.
  { clear. intros [|c l]; [done|]. unfold scan_fraction. destruct (Ascii.eqb_spec c ".") as [->|]; [|done].
    pose proof (span_digits_printable l). by destruct (span_digits l) as [[|d ds] r]. }
  assert (∀ l, forallb printable (scan_exp l).1 = true) as He.
  { clear. intros [|c l]; [done|]. unfold scan_exp. destruct (char_is "e" "E" c) eqn:Hc; [|done].
    assert (printable c = true) as Hp by (by apply char_is_cases in Hc as [-> | ->]).
    destruct l as [|s l]; [done|]. destruct (char_is "-" "+" s) eqn:Hs.
    - assert (printable s = true) as Hps by (by apply char_is_cases in Hs as [-> | ->]).
      pose proof (span_digits_printable l). destruct (span_digits l) as [[|d ds] r]; [done|]. cbn in *. by rewrite Hp, Hps.
    - pose proof (span_digits_printable (s :: l)). destruct (span_digits (s :: l)) as [[|d ds] r]; [done|]. cbn in *. by rewrite Hp. }
  assert (∀ l int more rest, scan_unsigned l = Some (int, more, rest) → forallb printable (int ++ more) = true) as Hu.
  { clear - Hf He. intros l int more rest. unfold scan_unsigned. destruct (scan_int l) as [[i l1]|] eqn:Ei; [|done].
    specialize (Hf l1). destruct (scan_fraction l1) as [f l2]. specialize (He l2). destruct (scan_exp l2) as [e l3].
    cbn in Hf, He. intros [= <- <- <-]. rewrite !forallb_app, Hf, He, !andb_true_r.
    unfold scan_int in Ei. destruct l as [|c l]; [done|]. destruct (Ascii.eqb_spec c "0") as [->|]; [by simplify_eq|].
    pose proof (span_digits_printable (c :: l)) as Hd. cbn [span_digits] in Hd, Ei. destruct (is_digit c); [|done].
    injection Ei as Ei. by rewrite Ei in Hd. }
  destruct l as [|c l]; [done|]. cbn [scan_number]. destruct (Ascii.eqb_spec c "-") as [->|]; [|by apply Hu].
  destruct (scan_unsigned l) as [[[i m] r]|] eqn:E; [|done]. intros [= <- <- <-]. cbn. by apply Hu in E.
Qed.

Lemma hex_digit_printable d : 0 <= d < 16 → printable (hex_digit false d) = true.
Proof.
  intros Hd. assert (Forall (λ d, printable (hex_digit false d) = true) (seqZ 0 16)) as Hall by (repeat constructor).
  rewrite Forall_forall in Hall. apply Hall, elem_of_seqZ. lia.
Qed.
Lemma escape_u_printable z : forallb printable (escape_u z) = true.
Proof. unfold escape_u, hex4. cbn [app escaped map forallb]. by rewrite !hex_digit_printable by (apply Z.mod_pos_bound; lia). Qed.
Lemma escape_printable c : scalar c → forallb printable (escape_point c) = true.
Proof.
  intros Hc. unfold escape_point. repeat (case_match; [reflexivity|]).
  destruct ((32 <=? c) && (c <=? 126)) eqn:Hp.
  { apply andb_prop in Hp as [? ?]. cbn. rewrite andb_true_r. unfold printable, char_of.
    rewrite N_ascii_embedding by lia. rewrite andb_true_iff, !N.leb_le. lia. }
  case_match; [apply escape_u_printable|]. rewrite forallb_app. by rewrite !escape_u_printable.
Qed.
Lemma dump_string_printable s : encodable s → forallb printable (dump_string true s) = true.
Proof.
  intros Hs. apply encodable_points in Hs as [Hp _]. unfold dump_string. cbn [forallb].
  change (printable double_quote) with true. rewrite forallb_app. cbn. rewrite andb_true_r.
  induction Hp as [|c l Hc Hl IH]; [done|]. rewrite bind_cons, forallb_app, IH, escape_printable; done.
Qed.

(** What holds of printable text, of the blanks of the style and of the strings
    it writes, and is kept by concatenation, holds of every document. *)
Lemma dump_text `{FloatText} st (P : text → Prop) :
  (∀ l k, P l → P k → P (l ++ k)) → (∀ l, forallb printable l = true → P l) →
  (∀ n, P (st_break st n)) → P (st_item st) → P (st_key st) → (∀ s, encodable s → P (dump_string (st_ascii st) s)) →
  ∀ j level, writable j → P (dump st level j).
Proof.
  intros Happ Hp Hb Hi Hk Hstr.
  assert (∀ c l, printable c = true → P l → P (c :: l)) as Hcons.
  { intros c l Hc Hl. apply (Happ [c]); [apply Hp; cbn; by rewrite Hc|done]. }
  assert (∀ sep l, P sep → Forall P l → P (text_join sep l)) as Hjoin.
  { intros sep l Hs Hl. induction Hl as [|x [|y l] Hx Hl IH]; [by apply Hp|done|].
    change (text_join sep (x :: y :: l)) with (x ++ sep ++ text_join sep (y :: l)). auto. }
  assert (∀ opening closing level l, printable opening = true → printable closing = true →
    Forall P l → P (bracket st opening closing level l)) as Hbr.
  { intros opening closing level l Ho Hc Hl.
    destruct l as [|x l]; cbn [bracket]; [apply Hp; cbn; by rewrite Ho, Hc|].
    apply Hcons, Happ; [done..|]. apply Happ; [apply Hjoin; auto|]. apply Happ; [done|]. apply Hp. cbn. by rewrite Hc. }
  induction j as [|b|z|x|s|l IH|d IH|y] using json_induction; intros level Hw; [..|by destruct Hw]; cbn [dump writable] in *.
  - by apply Hp.
  - apply Hp. by destruct b.
  - apply Hp. pose proof (dec_number z [] eq_refl) as Hn. apply scan_number_printable in Hn. by rewrite app_nil_r in Hn.
  - apply Hp. destruct x as [sign|[]| |sign m e]; cbn [dump_float readable_float] in *; try done.
    all: destruct Hw as [(int & c & more & Hn) _]; pose proof (scan_number_printable _ _ _ _ Hn) as Hq;
      apply scan_number_split in Hn; rewrite app_nil_r in Hn; by rewrite Hn.
  - by apply Hstr.
  - apply Hbr; [done..|]. induction IH as [|x l Hx _ IHl]; constructor; [apply Hx, Hw|apply IHl, Hw].
  - destruct Hw as [_ Hw]. apply Hbr; [done..|]. induction IH as [|[k v] d Hx _ IHd]; constructor; [|apply IHd, Hw].
    destruct Hw as (Hk' & Hv & _). auto.
Qed.

(** Every character of a document written with [ensure_ascii] is printable, or
    one of the blanks of the style. *)
Lemma dump_chars `{FloatText} st (p : ascii → bool) :
  st_ascii st = true → (∀ c, printable c = true → p c = true) → (∀ n, forallb p (st_break st n) = true) →
  forallb p (st_item st) = true → forallb p (st_key st) = true →
  ∀ j level, writable j → forallb p (dump st level j) = true.
Proof.
  intros Hea Hp Hb Hi Hk.
  assert (∀ l, forallb printable l = true → forallb p l = true) as Hpl by (intros l; rewrite !forallb_forall; auto).
  apply (dump_text st (λ l, forallb p l = true)); try done.
  - intros l k Hl Hk'. by rewrite forallb_app, Hl, Hk'.
  - intros s Hs. rewrite Hea. by apply Hpl, dump_string_printable.
Qed.

(** Every document is a string of code points. *)
Lemma encodable_app a b : encodable a → encodable b → encodable (a +:+ b).
Proof.
  intros (p & Hp & ->) (q & Hq & ->). exists (p ++ q). rewrite bind_app, of_octets_app. split; [by apply Forall_app|done].
Qed.
Lemma encodable_list l : forallb (λ c, (N_of_ascii c <? 128)%N) l = true → encodable (string_of l).
Proof.
  induction l as [|c l IH]; [by exists []|]. cbn [forallb]. intros Hl. apply andb_prop in Hl as [Hc Hl].
  apply N.ltb_lt in Hc. apply (encodable_app (String c EmptyString)); [|auto].
  exists [Z.of_N (N_of_ascii c)]. split; [repeat constructor; lia|]. cbn [mbind list_bind app]. unfold utf8_char.
  rewrite (proj2 (Z.ltb_lt _ 0x80)) by lia. revert Hc. by destruct c as [[] [] [] [] [] [] [] []].
Qed.
Lemma printable_encodable w : forallb printable w = true → encodable (string_of w).
Proof.
  intros Hw. apply encodable_list. revert Hw. rewrite !forallb_forall. intros Hw c Hc. apply Hw in Hc.
  unfold printable in Hc. apply andb_prop in Hc as [_ Hc]. apply N.leb_le in Hc. apply N.ltb_lt. lia.
Qed.
Lemma encodable_string ea s : encodable s → encodable (string_of (dump_string ea s)).
Proof.
  intros Hs. destruct ea.
  { by apply printable_encodable, dump_string_printable. }
  apply encodable_points in Hs as [Hp _]. unfold dump_string.
  apply (encodable_app (string_of [double_quote])); [by apply encodable_list|].
  change (String.string_of_list_ascii ?l) with (string_of l). rewrite string_of_list_app.
  apply encodable_app; [|by apply encodable_list].
  induction Hp as [|c l Hc _ IH]; [by exists []|]. rewrite bind_cons, string_of_list_app. apply encodable_app; [|done].
  unfold keep_point. destruct ((c =? 34) || (c =? 92) || (c <? 32)).
  - by apply printable_encodable, escape_printable.
  - exists [c]. split; [by constructor|]. rewrite String.string_of_list_ascii_of_string. cbn. by rewrite app_nil_r.
Qed.

(** ** Bytes and lines *)

Definition newline_byte : byte := Byte.x0a.

Lemma octet_of_char c : byte.unsigned (byte_of_ascii c) = Z.of_N (N_of_ascii c).
Proof. destruct c as [[] [] [] [] [] [] [] []]; reflexivity. Qed.

Lemma blank_encodable w : blank w → encodable (string_of w).
Proof.
  intros Hw. apply encodable_list. revert Hw. unfold blank. rewrite !forallb_forall. intros Hw c Hc. apply Hw in Hc.
  unfold json_space in Hc. apply N.ltb_lt. repeat (apply orb_prop in Hc as [Hc|Hc]); apply N.eqb_eq in Hc; lia.
Qed.
Lemma compact_blank : blank_style compact.
Proof. by split_and!. Qed.
Lemma verbatim_blank : blank_style verbatim.
Proof. by split_and!. Qed.
Lemma indented_blank : blank_style indented.
Proof.
  split_and!; [|done|done]. intros n. unfold blank. cbn [st_break indented forallb].
  change (json_space "010") with true. cbn [andb]. induction (2 * n)%nat as [|m IH]; [done|]. exact IH.
Qed.
Lemma append_nil s : s +:+ "" = s.
Proof. induction s as [|c s IH]; [done|]. change (String c (s +:+ "") = String c s). by rewrite IH. Qed.

Section loads.
Context `{FloatText} (st : style) (complain : bytes → string).

Lemma dump_encodable j level : blank_style st → writable j → encodable (string_of (dump st level j)).
Proof.
  intros (Hb & Hi & Hk). apply (dump_text st (λ l, encodable (string_of l))).
  - intros l k. rewrite string_of_list_app. apply encodable_app.
  - apply printable_encodable.
  - intros n. by apply blank_encodable.
  - by apply blank_encodable.
  - by apply blank_encodable.
  - apply encodable_string.
Qed.

(** A document that is written in any style, with blanks around it, is read
    back as it was. *)
Lemma json_read_back w1 w2 j :
  blank_style st → writable j → blank w1 → blank w2 →
  json_loads complain (encode_utf8 (string_of w1 +:+ json_dumps st j +:+ string_of w2)) = Ok j.
Proof.
  intros Hst Hw H1 H2. unfold json_dumps.
  assert (encodable (string_of w1 +:+ string_of (dump st 0 j) +:+ string_of w2)) as He
    by auto using encodable_app, blank_encodable, dump_encodable.
  unfold json_loads. destruct He as (points & Hp & E). rewrite E at 1 2. rewrite encode_of_octets, utf8_run_flat, bytes_eqb_refl by done.
  rewrite of_octets_encode, <- !string_of_list_app, String.list_ascii_of_string_of_list_ascii. cbn [negb]. by rewrite scan_text.
Qed.

Lemma writable_serialisable j : writable j → serialisable j = true.
Proof.
  induction j as [|b|z|x|s|l IH|d IH|y] using json_induction; cbn [serialisable writable]; try done.
  - induction IH as [|x l Hx _ IHl]; [done|]. cbn. intros [? ?]. by rewrite Hx, IHl.
  - intros [_ Hw]. induction IH as [|[k v] d Hx _ IHd]; [done|]. cbn in *. destruct Hw as (_ & ? & ?). by rewrite Hx, IHd.
Qed.

(** A document that can be written is encoded, and its octets are read back. *)
Lemma json_encode_ok j :
  blank_style st → writable j →
  json_encode st complain j = Ok (encode_utf8 (json_dumps st j))
  ∧ json_loads complain (encode_utf8 (json_dumps st j)) = Ok j.
Proof.
  intros Hst Hw. split.
  - unfold json_encode. rewrite writable_serialisable by done. cbn [negb]. unfold json_dumps.
    destruct (dump_encodable j 0 Hst Hw) as (points & Hp & ->).
    by rewrite encode_of_octets, utf8_run_flat, bytes_eqb_refl.
  - pose proof (json_read_back [] [] j Hst Hw eq_refl eq_refl) as Hr. revert Hr. cbn [String.string_of_list_ascii].
    change (EmptyString +:+ ?s) with s. by rewrite append_nil.
Qed.

Lemma dump_bytes_no_newline j : writable j → newline_byte ∉ encode_utf8 (json_dumps compact j).
Proof.
  intros Hw Hin. unfold json_dumps, encode_utf8, String.list_byte_of_string in Hin.
  rewrite String.list_ascii_of_string_of_list_ascii in Hin. apply list_elem_of_fmap in Hin as (c & Hc & Hin).
  pose proof (dump_chars compact printable eq_refl ltac:(auto) ltac:(done) eq_refl eq_refl j 0 Hw) as Hd.
  rewrite forallb_forall in Hd. apply list_elem_of_In in Hin. apply Hd in Hin. unfold printable in Hin.
  apply andb_prop in Hin as [Hin _]. apply N.leb_le in Hin. pose proof (octet_of_char c) as Ho. rewrite <- Hc in Ho.
  change (byte.unsigned newline_byte) with 10 in Ho. lia.
Qed.
End loads.

(** ** The fuel of the reader never runs out *)

Lemma skip_ws_length l : (length (skip_ws l) ≤ length l)%nat.
Proof. induction l as [|c l IH]; [done|]. cbn. destruct (json_space c); cbn; lia. Qed.

Lemma with_chars_some w m s rest : with_chars w m = Some (s, rest) → ∃ s', m = Some (s', rest).
Proof. destruct m as [[s' r]|]; [|done]. intros [= <- <-]. eauto. Qed.

Lemma scan_string_length l s rest : scan_string l = Some (s, rest) → (length rest < length l)%nat.
Proof.
  revert s. remember (length l) as n eqn:Hn. revert l Hn. induction (lt_wf n) as [n _ IH]; intros l -> s Hs.
  destruct l as [|c l]; [done|]. cbn [scan_string] in Hs.
  repeat (match goal with
    | Hs : with_chars _ _ = Some _ |- _ => apply with_chars_some in Hs as [? Hs]; eapply IH in Hs; [|..|reflexivity]; cbn [length] in *; lia
    | Hs : context [match ?x with _ => _ end] |- _ => destruct x; try done
    end).
  by injection Hs as <- <-; cbn; lia.
Qed.
Lemma scan_number_length l int more rest : scan_number l = Some (int, more, rest) → (length rest < length l)%nat.
Proof.
  intros Hn. pose proof (scan_number_split _ _ _ _ Hn) as E. assert (int ≠ []) as Hi; [|rewrite E, !length_app; destruct int; [done|cbn; lia]].
  destruct l as [|c l]; [done|]. cbn [scan_number] in Hn. destruct (Ascii.eqb c "-").
  { destruct (scan_unsigned l) as [[[i m] r]|]; [|done]. by injection Hn as <- <- <-. }
  unfold scan_unsigned, scan_int in Hn. cbn [span_digits] in Hn. destruct (Ascii.eqb c "0"), (is_digit c), (span_digits l);
    repeat case_match; by simplify_eq.
Qed.
Lemma strip_word_length word l rest : word ≠ ""%string → strip_word word l = Some rest → (length rest < length l)%nat.
Proof.
  unfold strip_word. intros Hw. case_bool_decide as E; [|done]. intros [= <-]. rewrite length_drop.
  assert (0 < length (ascii_list word))%nat by (destruct word; [done|cbn; lia]).
  assert (length (take (length (ascii_list word)) l) = length (ascii_list word)) as El by (by rewrite E).
  rewrite length_take in El. lia.
Qed.

Section fuel.
Context `{FloatText}.

Lemma scan_atom_length l j rest :
  (match scan_constant l with Some x => Some x | None => scan_numeral l end) = Some (j, rest) → (length rest < length l)%nat.
Proof.
  unfold scan_constant, scan_numeral. intros Hs.
  repeat (match goal with
    | Hs : context [strip_word ?w l] |- _ =>
        let E := fresh in destruct (strip_word w l) eqn:E; [apply strip_word_length in E; [|done]; by simplify_eq|clear E]
    end).
  destruct (scan_number l) as [[[int more] r]|] eqn:E; [|done]. apply scan_number_length in E.
  destruct more; [destruct (int_of_chars 10 int); [|done]|]; by simplify_eq.
Qed.

(** What is read is consumed. *)
Lemma scan_length fuel :
  (∀ l j rest, scan_value fuel l = Some (j, rest) → (length rest < length l)%nat)
  ∧ (∀ items l j rest, scan_items fuel items l = Some (j, rest) → (length rest < length l)%nat)
  ∧ (∀ fields l j rest, scan_members fuel fields l = Some (j, rest) → (length rest < length l)%nat).
Proof.
  induction fuel as [|fuel (IHv & IHi & IHm)]; [done|]. split_and!.
  - intros l j rest Hs. cbn [scan_value] in Hs. destruct l as [|c l]; [done|]. pose proof (skip_ws_length l) as Hl. cbn [length].
    destruct (Ascii.eqb c double_quote).
    { destruct (scan_string l) as [[s r]|] eqn:E; [|done]. apply scan_string_length in E. simplify_eq. lia. }
    destruct (Ascii.eqb c "{").
    { destruct (skip_ws l) as [|d r]; [done|]. cbn [length] in Hl.
      destruct (Ascii.eqb d "}"); [simplify_eq; lia|]. apply IHm in Hs. cbn [length] in Hs. lia. }
    destruct (Ascii.eqb c "[").
    { destruct (skip_ws l) as [|d r]; [done|]. cbn [length] in Hl.
      destruct (Ascii.eqb d "]"); [simplify_eq; lia|]. apply IHi in Hs. cbn [length] in Hs. lia. }
    by apply scan_atom_length in Hs.
  - intros items l j rest Hs. cbn [scan_items] in Hs. destruct (scan_value fuel l) as [[v r]|] eqn:E; [|done]. apply IHv in E.
    pose proof (skip_ws_length r). destruct (skip_ws r) as [|d r']; [done|]. cbn [length] in *.
    destruct (Ascii.eqb d ","); [apply IHi in Hs; pose proof (skip_ws_length r'); lia|].
    destruct (Ascii.eqb d "]"); [simplify_eq; lia|done].
  - intros fields l j rest Hs. cbn [scan_members] in Hs. destruct l as [|c l]; [done|]. cbn [length].
    destruct (Ascii.eqb c double_quote); [|done]. destruct (scan_string l) as [[k r]|] eqn:E; [|done]. apply scan_string_length in E.
    pose proof (skip_ws_length r). destruct (skip_ws r) as [|d r']; [done|]. cbn [length] in *. destruct (Ascii.eqb d ":"); [|done].
    pose proof (skip_ws_length r'). destruct (scan_value fuel (skip_ws r')) as [[v r'']|] eqn:Ev; [|done]. apply IHv in Ev.
    pose proof (skip_ws_length r''). destruct (skip_ws r'') as [|e r3]; [done|]. cbn [length] in *.
    destruct (Ascii.eqb e ","); [apply IHm in Hs; pose proof (skip_ws_length r3); lia|].
    destruct (Ascii.eqb e "}"); [simplify_eq; lia|done].
Qed.

Lemma scan_more fuel :
  (∀ l, (2 * length l < fuel)%nat → scan_value (S fuel) l = scan_value fuel l)
  ∧ (∀ items l, (2 * length l + 1 < fuel)%nat → scan_items (S fuel) items l = scan_items fuel items l)
  ∧ (∀ fields l, (2 * length l + 1 < fuel)%nat → scan_members (S fuel) fields l = scan_members fuel fields l).
Proof.
  induction fuel as [|fuel (IHv & IHi & IHm)]; [split_and!; lia|].
  destruct (scan_length fuel) as (Lv & Li & Lm). split_and!.
  - intros l Hf. enough (∀ f1, f1 = S fuel → scan_value (S f1) l = scan_value (S fuel) l) by auto. intros f1 Hf1.
    cbn [scan_value]. destruct l as [|c l]; [done|]. cbn [length] in Hf. pose proof (skip_ws_length l) as Hl.
    destruct (Ascii.eqb c double_quote); [done|].
    destruct (Ascii.eqb c "{"); [destruct (skip_ws l) as [|d r]; [done|]; rewrite Hf1, IHm by (cbn [length] in *; lia); done|].
    destruct (Ascii.eqb c "["); [destruct (skip_ws l) as [|d r]; [done|]; rewrite Hf1, IHi by (cbn [length] in *; lia); done|done].
  - intros items l Hf. enough (∀ f1, f1 = S fuel → scan_items (S f1) items l = scan_items (S fuel) items l) by auto. intros f1 Hf1.
    cbn [scan_items]. rewrite Hf1, IHv by lia. destruct (scan_value fuel l) as [[v r]|] eqn:E; [|done]. apply Lv in E.
    pose proof (skip_ws_length r). destruct (skip_ws r) as [|d r']; [done|]. pose proof (skip_ws_length r'). cbn [length] in *.
    destruct (Ascii.eqb d ","); [by apply IHi; lia|done].
  - intros fields l Hf. enough (∀ f1, f1 = S fuel → scan_members (S f1) fields l = scan_members (S fuel) fields l) by auto.
    intros f1 Hf1. cbn [scan_members]. destruct l as [|c l]; [done|]. cbn [length] in Hf.
    destruct (Ascii.eqb c double_quote); [|done]. destruct (scan_string l) as [[k r]|] eqn:E; [|done]. apply scan_string_length in E.
    pose proof (skip_ws_length r). destruct (skip_ws r) as [|d r']; [done|]. cbn [length] in *. destruct (Ascii.eqb d ":"); [|done].
    pose proof (skip_ws_length r'). rewrite Hf1, IHv by lia. destruct (scan_value fuel (skip_ws r')) as [[v r'']|] eqn:Ev; [|done].
    apply Lv in Ev. pose proof (skip_ws_length r''). destruct (skip_ws r'') as [|e r3]; [done|].
    pose proof (skip_ws_length r3). cbn [length] in *. destruct (Ascii.eqb e ","); [by apply IHm; lia|done].
Qed.

(** More fuel than [json_scan] gives changes nothing. *)
Lemma json_scan_fuel l more :
  scan_value (2 * length l + 2 + more) (skip_ws l) = scan_value (2 * length l + 2) (skip_ws l).
Proof.
  pose proof (skip_ws_length l). induction more as [|more IH]; [by rewrite Nat.add_0_r|].
  rewrite <- IH, Nat.add_succ_r. apply scan_more. lia.
Qed.
End fuel.

(** ** Samples *)

Definition few_floats : FloatText := {|
  float_text := λ x, if float_eqb x (binary_normalize 53 1024 5 0 false) then "5.0"%string else "0.5"%string;
  float_value := λ t, if String.eqb t "5.0" then binary_normalize 53 1024 5 0 false else binary_normalize 53 1024 1 (-1) false;
|}.
Definition scan_of (s : string) : option json := @json_scan few_floats (ascii_list s).
Definition quoted (s : string) : string := String double_quote (s +:+ String double_quote EmptyString).

Example scan_samples :
  [scan_of " [1, -20 ,5.0]"; scan_of "{ }"; scan_of (quoted "a\u00e9\n\ud83d\ude00"); scan_of "-Infinity";
   scan_of ("{" +:+ quoted "a" +:+ ":1," +:+ quoted "b" +:+ ":true," +:+ quoted "a" +:+ ":null}")]%string
  = [Some (JList [JInt 1; JInt (-20); JFloat (binary_normalize 53 1024 5 0 false)]); Some (JObj []);
     Some (JStr ("a" +:+ of_octets [Byte.xc3; Byte.xa9; Byte.x0a; Byte.xf0; Byte.x9f; Byte.x98; Byte.x80]));
     Some (JFloat (S754_infinity true)); Some (JObj [("a", JNull); ("b", JBool true)]%string)].
Proof. vm_compute. reflexivity. Qed.
Example scan_rejects :
  map scan_of ["01"; "[1,]"; "{a:1}"; "1 2"; ""; "nul"; quoted "a" +:+ "x"; quoted newline; "1."; "+1"]%string = repeat None 10.
Proof. vm_compute. reflexivity. Qed.
Example dump_samples :
  map (λ st, @json_dumps few_floats st (JObj [("k", JList [JInt 1; JStr "é"]); ("e", JList [])]%string)) [compact; spaced; indented]
  = ["{" +:+ quoted "k" +:+ ":[1," +:+ quoted "\u00e9" +:+ "]," +:+ quoted "e" +:+ ":[]}";
     "{" +:+ quoted "k" +:+ ": [1, " +:+ quoted "\u00e9" +:+ "], " +:+ quoted "e" +:+ ": []}";
     "{" +:+ newline +:+ "  " +:+ quoted "k" +:+ ": [" +:+ newline +:+ "    1," +:+ newline +:+ "    " +:+ quoted "\u00e9"
       +:+ newline +:+ "  ]," +:+ newline +:+ "  " +:+ quoted "e" +:+ ": []" +:+ newline +:+ "}"]%string.
Proof. vm_compute. reflexivity. Qed.
