(* ===== verification/Base64.v ===== *)
(** * Base64 ([base64.b64encode], [base64.b64decode(..., validate=True)])

    The transport encoding of ABI records on the broker socket.  Decoding
    accepts exactly the padded alphabet and ignores unused trailing bits;
    [b64_round_trip] is the property the broker relies on. *)

From S2P Require Import Prelude PyText.
From Stdlib Require Import Ascii.

Definition b64_char (v : Z) : ascii :=
  ascii_of_N (Z.to_N (if v <? 26 then 65 + v else if v <? 52 then 71 + v
                      else if v <? 62 then v - 4 else if v =? 62 then 43 else 47)).

Definition b64_value (c : ascii) : option Z :=
  let n := Z.of_N (N_of_ascii c) in
  if (65 <=? n) && (n <=? 90) then Some (n - 65)
  else if (97 <=? n) && (n <=? 122) then Some (n - 71)
  else if (48 <=? n) && (n <=? 57) then Some (n + 4)
  else if n =? 43 then Some 62
  else if n =? 47 then Some 63
  else None.

Definition pad : ascii := "="%char.

Fixpoint b64encode (b : bytes) : list ascii :=
  match b with
  | [] => []
  | [x] =>
      let v := byte.unsigned x in
      [b64_char (v / 4); b64_char (v mod 4 * 16); pad; pad]
  | [x; y] =>
      let v := byte.unsigned x in let w := byte.unsigned y in
      [b64_char (v / 4); b64_char (v mod 4 * 16 + w / 16); b64_char (w mod 16 * 4); pad]
  | x :: y :: z :: b =>
      let v := byte.unsigned x in let w := byte.unsigned y in let u := byte.unsigned z in
      b64_char (v / 4) :: b64_char (v mod 4 * 16 + w / 16) :: b64_char (w mod 16 * 4 + u / 64)
      :: b64_char (u mod 64) :: b64encode b
  end.

Definition b64_error {A} : result A := Raise (ValueError "Only base64 data is allowed").

(** Groups of four; padding only in the last group *)
Fixpoint b64decode (l : list ascii) : result bytes :=
  match l with
  | [] => Ok []
  | [a; b; c; d] =>
      match b64_value a, b64_value b, b64_value c, b64_value d with
      | Some a, Some b, Some c, Some d =>
          Ok [byte.of_Z (a * 4 + b / 16); byte.of_Z (b mod 16 * 16 + c / 4); byte.of_Z (c mod 4 * 64 + d)]
      | Some a, Some b, Some c, None =>
          if Ascii.eqb d pad
          then Ok [byte.of_Z (a * 4 + b / 16); byte.of_Z (b mod 16 * 16 + c / 4)] else b64_error
      | Some a, Some b, None, None =>
          if Ascii.eqb c pad && Ascii.eqb d pad then Ok [byte.of_Z (a * 4 + b / 16)] else b64_error
      | _, _, _, _ => b64_error
      end
  | a :: b :: c :: d :: l =>
      match b64_value a, b64_value b, b64_value c, b64_value d with
      | Some a, Some b, Some c, Some d =>
          rest ← b64decode l;
          Ok (byte.of_Z (a * 4 + b / 16) :: byte.of_Z (b mod 16 * 16 + c / 4)
              :: byte.of_Z (c mod 4 * 64 + d) :: rest)
      | _, _, _, _ => b64_error
      end
  | _ => Raise (ValueError "Incorrect padding")
  end.

Lemma b64_values_checked :
  forallb (λ i, bool_decide (b64_value (b64_char (Z.of_nat i)) = Some (Z.of_nat i))) (seq 0 64) = true.
Proof. vm_compute. reflexivity. Qed.

Lemma b64_value_char v : 0 <= v < 64 → b64_value (b64_char v) = Some v.
Proof.
  intros Hv. pose proof b64_values_checked as H. rewrite forallb_forall in H.
  specialize (H (Z.to_nat v)). rewrite Z2Nat.id in H by lia.
  apply (bool_decide_eq_true (b64_value (b64_char v) = Some v)), H, in_seq. lia.
Qed.

(** The bytes of a group come back. *)
Lemma b64_group x y z :
  let v := byte.unsigned x in let w := byte.unsigned y in let u := byte.unsigned z in
  byte.of_Z (v / 4 * 4 + (v mod 4 * 16 + w / 16) / 16) = x
  ∧ byte.of_Z ((v mod 4 * 16 + w / 16) mod 16 * 16 + (w mod 16 * 4 + u / 64) / 4) = y
  ∧ byte.of_Z ((w mod 16 * 4 + u / 64) mod 4 * 64 + u mod 64) = z.
Proof.
  intros v w u.
  assert (0 <= v < 256 ∧ 0 <= w < 256 ∧ 0 <= u < 256) as (Hv & Hw & Hu)
    by (pose proof (byte.unsigned_range x); pose proof (byte.unsigned_range y);
        pose proof (byte.unsigned_range z); unfold v, w, u; lia).
  pose proof (Z.div_mod v 4). pose proof (Z.mod_pos_bound v 4).
  pose proof (Z.div_mod w 16). pose proof (Z.mod_pos_bound w 16).
  pose proof (Z.div_mod u 64). pose proof (Z.mod_pos_bound u 64).
  assert ((v mod 4 * 16 + w / 16) / 16 = v mod 4) as ->
    by (symmetry; apply (Z.div_unique _ _ _ (w / 16)); lia).
  assert ((v mod 4 * 16 + w / 16) mod 16 = w / 16) as ->
    by (symmetry; apply (Z.mod_unique _ _ (v mod 4)); lia).
  assert ((w mod 16 * 4 + u / 64) / 4 = w mod 16) as ->
    by (symmetry; apply (Z.div_unique _ _ _ (u / 64)); lia).
  assert ((w mod 16 * 4 + u / 64) mod 4 = u / 64) as ->
    by (symmetry; apply (Z.mod_unique _ _ (w mod 16)); lia).
  replace (v / 4 * 4 + v mod 4) with v by lia.
  replace (w / 16 * 16 + w mod 16) with w by lia.
  replace (u / 64 * 64 + u mod 64) with u by lia.
  unfold v, w, u. by rewrite !byte.of_Z_unsigned.
Qed.

Lemma b64_ranges v w u :
  0 <= v < 256 → 0 <= w < 256 → 0 <= u < 256 →
  0 <= v / 4 < 64 ∧ 0 <= v mod 4 * 16 + w / 16 < 64 ∧ 0 <= w mod 16 * 4 + u / 64 < 64
  ∧ 0 <= u mod 64 < 64.
Proof.
  intros.
  pose proof (Z.div_mod v 4). pose proof (Z.mod_pos_bound v 4).
  pose proof (Z.div_mod w 16). pose proof (Z.mod_pos_bound w 16).
  pose proof (Z.div_mod u 64). pose proof (Z.mod_pos_bound u 64). lia.
Qed.

Lemma b64_value_pad : b64_value pad = None.
Proof. reflexivity. Qed.

Lemma b64decode_group a b c d e l va vb vc vd :
  b64_value a = Some va → b64_value b = Some vb → b64_value c = Some vc → b64_value d = Some vd →
  b64decode (a :: b :: c :: d :: e :: l)
  = rest ← b64decode (e :: l);
    Ok (byte.of_Z (va * 4 + vb / 16) :: byte.of_Z (vb mod 16 * 16 + vc / 4)
        :: byte.of_Z (vc mod 4 * 64 + vd) :: rest).
Proof. intros Ha Hb Hc Hd. cbn [b64decode]. by rewrite Ha, Hb, Hc, Hd. Qed.

(** Decoding the encoding of any bytes gives them back. *)
Lemma b64_round_trip b : b64decode (b64encode b) = Ok b.
Proof.
  remember (length b) as n eqn:Hn. assert (length b ≤ n)%nat as Hl by lia. clear Hn. revert b Hl.
  induction n as [|n IH]; intros b Hl; (destruct b as [|x [|y [|z b]]]; cbn in Hl; try lia; try done).
  all: pose proof (byte.unsigned_range x) as Hx.
  - destruct (b64_ranges (byte.unsigned x) 0 0) as (R1 & R2 & _); [lia..|].
    change (0 / 16) with 0 in R2. rewrite Z.add_0_r in R2.
    cbn [b64encode b64decode]. rewrite !b64_value_char, b64_value_pad by done.
    cbn [Ascii.eqb pad]. destruct (b64_group x Byte.x00 Byte.x00) as (E & _).
    change (byte.unsigned Byte.x00 / 16) with 0 in E. rewrite Z.add_0_r in E. by rewrite E.
  - pose proof (byte.unsigned_range y) as Hy.
    destruct (b64_ranges (byte.unsigned x) (byte.unsigned y) 0) as (R1 & R2 & R3 & _); [lia..|].
    change (0 / 64) with 0 in R3. rewrite Z.add_0_r in R3.
    cbn [b64encode b64decode]. rewrite !b64_value_char, b64_value_pad by done.
    cbn [Ascii.eqb pad]. destruct (b64_group x y Byte.x00) as (E1 & E2 & _).
    change (byte.unsigned Byte.x00 / 64) with 0 in E2. rewrite Z.add_0_r in E2. by rewrite E1, E2.
  - pose proof (byte.unsigned_range y) as Hy. pose proof (byte.unsigned_range z) as Hz.
    destruct (b64_ranges (byte.unsigned x) (byte.unsigned y) (byte.unsigned z))
      as (R1 & R2 & R3 & R4); [lia..|].
    destruct (b64_group x y z) as (E1 & E2 & E3). cbn [b64encode].
    specialize (IH b ltac:(lia)).
    destruct (b64encode b) as [|c l] eqn:Eb.
    + cbn [b64decode]. rewrite !b64_value_char by done. rewrite E1, E2, E3. cbn in IH. by simplify_eq.
    + erewrite b64decode_group by (by apply b64_value_char).
      rewrite IH. cbn [mbind result_bind]. by rewrite E1, E2, E3.
Qed.

(** The text is ASCII. *)
Lemma b64_char_ascii v : (N_of_ascii (b64_char v) < 128)%N.
Proof.
  unfold b64_char. rewrite N_ascii_embedding by (repeat case_match; lia). repeat case_match; lia.
Qed.

Lemma b64_chars b : Forall (λ c, (N_of_ascii c < 128)%N) (b64encode b).
Proof.
  remember (length b) as n eqn:Hn. assert (length b ≤ n)%nat as Hl by lia. clear Hn. revert b Hl.
  induction n as [|n IH]; intros b Hl; (destruct b as [|x [|y [|z b]]]; cbn in Hl; try lia);
    cbn [b64encode]; repeat (constructor; [apply b64_char_ascii || reflexivity|]);
    try constructor. apply IH. lia.
Qed.
