(* ===== verification/Protocol.v ===== *)
(** * The 64-byte RP86 Host Protocol (host/rp86/protocol.py)

    The constants, [Message] and [NativeServiceWitness] with their codecs.
    The theorems show that a record is exactly 64 bytes, that encoding and
    decoding are inverse on every valid message, which inputs each direction
    refuses and with which exception, and that whatever was decoded can be
    encoded again (the broker re-encodes every reply it relays). *)

From S2P Require Import Prelude Struct PyText.

(** ** Constants *)

Definition PROTOCOL_VERSION : Z := 1.
Definition PAYLOAD_SIZE : Z := 52.
Definition MESSAGE_SIZE : Z := 64.
Definition MESSAGE_FORMAT : list field := [FB; FB; FH; FI; FH; FH; Fs 52].
Definition NATIVE_WITNESS_MAGIC : bytes := lit "P86N".
Definition NATIVE_WITNESS_VERSION : Z := 1.
Definition NATIVE_WITNESS_FORMAT : list field := [Fs 4; FB; FB; FH; FI; FI; FI].
Definition NATIVE_PROCESSOR_MASK : Z := 0x0003.
Definition NATIVE_PROCESSOR_INTEL_8086 : Z := 0x0001.
Definition NATIVE_PROCESSOR_NEC_V30 : Z := 0x0002.

Definition TYPE_HELLO : Z := 1.
Definition TYPE_TEXT : Z := 2.
Definition TYPE_ACK : Z := 3.
Definition TYPE_COMMAND : Z := 4.
Definition TYPE_RESULT : Z := 5.
Definition TYPE_HEARTBEAT : Z := 6.
Definition TYPE_WORKLOAD_BEGIN : Z := 0x20.
Definition TYPE_WORKLOAD_DATA : Z := 0x21.
Definition TYPE_WORKLOAD_COMMIT : Z := 0x22.
Definition TYPE_WORKLOAD_CONTROL : Z := 0x23.
Definition TYPE_WORKLOAD_STATUS : Z := 0x24.
Definition TYPE_WORKLOAD_RESULT : Z := 0x25.
Definition TYPE_WORKLOAD_TIMEOUT_REQUEST : Z := 0x26.
Definition TYPE_WORKLOAD_TIMEOUT_RESULT : Z := 0x27.
Definition TYPE_RUNTIME_CONTROL : Z := 0x30.
Definition TYPE_RUNTIME_STATUS : Z := 0x31.
Definition TYPE_FILESYSTEM_REQUEST : Z := 0x40.
Definition TYPE_FILESYSTEM_RESULT : Z := 0x41.
Definition TYPE_MEMORY_REQUEST : Z := 0x50.
Definition TYPE_MEMORY_RESULT : Z := 0x51.
Definition TYPE_DIAGNOSTICS_REQUEST : Z := 0x60.
Definition TYPE_DIAGNOSTICS_RESULT : Z := 0x61.
Definition TYPE_ERROR : Z := 0x7F.

Definition FLAG_RETRY : Z := 1.

Definition STATUS_OK : Z := 0.
Definition STATUS_BAD_VERSION : Z := 1.
Definition STATUS_BAD_LENGTH : Z := 2.
Definition STATUS_BUSY : Z := 3.
Definition STATUS_TIMEOUT : Z := 4.
Definition STATUS_BAD_SEQUENCE : Z := 5.
Definition STATUS_SERVICE_UNAVAILABLE : Z := 6.
Definition STATUS_BAD_CRC : Z := 7.
Definition STATUS_BAD_STATE : Z := 8.
Definition STATUS_BAD_WORKLOAD : Z := 9.
Definition STATUS_IO_ERROR : Z := 10.
Definition STATUS_NOT_FOUND : Z := 11.
Definition STATUS_INVALID_PATH : Z := 12.
Definition STATUS_NO_SPACE : Z := 13.

Definition WORKLOAD_CONTROL_RUN : Z := 1.
Definition WORKLOAD_CONTROL_STOP : Z := 2.
Definition WORKLOAD_CONTROL_RESTART : Z := 3.
Definition WORKLOAD_CONTROL_STATUS : Z := 4.

Definition WORKLOAD_TIMEOUT_GET : Z := 0.
Definition WORKLOAD_TIMEOUT_SET : Z := 1.
Definition WORKLOAD_TIMEOUT_MAX_MS : Z := 86400000.

Definition RUNTIME_CONTROL_ENTER_BOOTLOADER : Z := 1.
Definition RUNTIME_CONTROL_SELFTEST : Z := 2.
Definition RUNTIME_CONTROL_REBOOT : Z := 3.

Definition FILESYSTEM_LIST : Z := 1.
Definition FILESYSTEM_DF : Z := 2.
Definition FILESYSTEM_READ : Z := 3.
Definition FILESYSTEM_WRITE_BEGIN : Z := 4.
Definition FILESYSTEM_WRITE_DATA : Z := 5.
Definition FILESYSTEM_WRITE_COMMIT : Z := 6.

Definition MEMORY_READ : Z := 1.
Definition MEMORY_WRITE : Z := 2.
Definition MEMORY_DATA_BYTES : Z := 40.

Definition FILESYSTEM_FLAG_EOF : Z := 1.
Definition FILESYSTEM_FLAG_DIRECTORY : Z := 2.
Definition FILESYSTEM_FLAG_TRUNCATED : Z := 4.
Definition FILESYSTEM_READ_DATA_BYTES : Z := 40.
Definition FILESYSTEM_WRITE_DATA_BYTES : Z := 40.
Definition FILESYSTEM_LIST_NAME_BYTES : Z := 42.
Definition FILESYSTEM_READ_PATH_BYTES : Z := 44.
Definition FILESYSTEM_WRITE_PATH_BYTES : Z := 36.

(** ** NativeServiceWitness *)

Record NativeServiceWitness := mkWitness {
  service_type : Z;
  boot_id : Z;
  cpu_sequence : Z;
  command_sequence : Z;
  text : bytes;
  w_flags : Z;
  w_version : Z;
}.

#[global] Instance witness_eq_dec : EqDecision NativeServiceWitness.
Proof. solve_decision. Defined.

(** [NATIVE_PROCESSOR_NAMES.get(self.flags & NATIVE_PROCESSOR_MASK)] *)
Definition witness_processor (w : NativeServiceWitness) : option string :=
  let id := Z.land (w_flags w) NATIVE_PROCESSOR_MASK in
  if id =? NATIVE_PROCESSOR_INTEL_8086 then Some "intel-8086"%string
  else if id =? NATIVE_PROCESSOR_NEC_V30 then Some "nec-v30"%string
  else None.

Definition witness_encode (w : NativeServiceWitness) : result bytes :=
  head ← pack NATIVE_WITNESS_FORMAT
    (NATIVE_WITNESS_MAGIC, (w_version w, (service_type w, (w_flags w,
     (boot_id w, (cpu_sequence w, (command_sequence w, tt)))))));
  let payload := head ++ text w in
  if PAYLOAD_SIZE <? len payload
  then Raise (ValueError "native service witness exceeds bridge payload")
  else Ok payload.

Definition witness_decode (payload : bytes) : result NativeServiceWitness :=
  if len payload <? Z.of_nat (calcsize NATIVE_WITNESS_FORMAT)
  then Raise (ValueError "native service witness is truncated") else
  '(magic, (version, (service_type, (flags, (boot_id, (cpu_seq, (command_seq, tt))))))) ←
    unpack_from NATIVE_WITNESS_FORMAT payload 0;
  if negb (bytes_eqb magic NATIVE_WITNESS_MAGIC)
  then Raise (ValueError "native service witness magic mismatch") else
  if negb (version =? NATIVE_WITNESS_VERSION)
  then Raise (ValueError ("unsupported native service witness version: " +:+ dec version)) else
  Ok (mkWitness service_type boot_id cpu_seq command_seq
        (slice_from (Z.of_nat (calcsize NATIVE_WITNESS_FORMAT)) payload) flags version).

(** ** Message *)

Record Message := mkMessage {
  message_type : Z;
  sequence : Z;
  payload : bytes;
  flags : Z;
  status : Z;
  version : Z;
}.

#[global] Instance message_eq_dec : EqDecision Message.
Proof. solve_decision. Defined.

(** [Message(message_type, sequence, payload)] with the defaults of the class *)
Definition request_message (ty seq : Z) (p : bytes) : Message :=
  mkMessage ty seq p 0 0 PROTOCOL_VERSION.

(** [b.ljust(n, b"\0")] *)
Definition ljust (n : Z) (b : bytes) : bytes :=
  b ++ replicate (Z.to_nat n - length b) Byte.x00.

Definition encode (m : Message) : result bytes :=
  if negb (version m =? PROTOCOL_VERSION)
  then Raise (ValueError ("unsupported protocol version: " +:+ dec (version m))) else
  if negb ((0 <=? len (payload m)) && (len (payload m) <=? PAYLOAD_SIZE))
  then Raise (ValueError ("payload exceeds " +:+ dec PAYLOAD_SIZE +:+ " bytes")) else
  pack MESSAGE_FORMAT
    (version m, (message_type m, (flags m, (sequence m,
     (len (payload m), (status m, (ljust PAYLOAD_SIZE (payload m), tt))))))).

Definition decode (record : bytes) : result Message :=
  if negb (len record =? MESSAGE_SIZE)
  then Raise (ValueError ("record must be exactly " +:+ dec MESSAGE_SIZE +:+ " bytes")) else
  '(version, (message_type, (flags, (sequence, (length, (status, (payload, tt))))))) ←
    unpack MESSAGE_FORMAT record;
  if negb (version =? PROTOCOL_VERSION)
  then Raise (ValueError ("unsupported protocol version: " +:+ dec version)) else
  if PAYLOAD_SIZE <? length
  then Raise (ValueError ("invalid payload length: " +:+ dec length)) else
  Ok (mkMessage message_type sequence (slice 0 length payload) flags status version).

(** ** Well-formed messages *)

(** The header fields fit their widths. *)
Definition header_fits (m : Message) : bool :=
  in_width 8 (message_type m) && in_width 16 (flags m)
  && in_width 32 (sequence m) && in_width 16 (status m).

(** Every message that [encode] accepts. *)
Definition message_ok (m : Message) : bool :=
  (version m =? PROTOCOL_VERSION) && (len (payload m) <=? PAYLOAD_SIZE) && header_fits m.

(** A request with default flags, status and version, apart from its sequence *)
Definition plain_request (types : list Z) (r : Message) : bool :=
  z_in (message_type r) types && (len (payload r) <=? PAYLOAD_SIZE)
  && (version r =? PROTOCOL_VERSION) && (flags r =? 0) && (status r =? 0).

Lemma plain_request_ok types r :
  forallb (in_width 8) types = true → plain_request types r = true → u32 (sequence r) →
  message_ok r = true.
Proof.
  unfold plain_request, message_ok, header_fits. intros Ht Hr Hs. py_inv.
  rename select (z_in _ _ = true) into Hz. apply z_in_spec in Hz.
  rewrite forallb_forall in Ht. rewrite (Ht _ (proj1 (list_elem_of_In _ _) Hz)), Hs.
  unfold in_width. lia.
Qed.

(** A burst of such requests can be encoded when its sequences are in range. *)
Lemma plain_requests_ok types records :
  forallb (in_width 8) types = true → forallb (plain_request types) records = true →
  Forall (λ x, u32 x) (map sequence records) → Forall (λ r, message_ok r = true) records.
Proof.
  intros Ht Ho Hu. rewrite forallb_forall in Ho. rewrite Forall_forall in Hu.
  rewrite Forall_forall. intros r Hr.
  apply (plain_request_ok types); [done|by apply Ho, list_elem_of_In|].
  apply Hu. by apply list_elem_of_fmap_2.
Qed.

Lemma message_size_ok : Z.of_nat (calcsize MESSAGE_FORMAT) = MESSAGE_SIZE.
Proof. reflexivity. Qed.

Lemma pad_to_ljust b : len b <= 52 → pad_to 52 (ljust PAYLOAD_SIZE b) = ljust PAYLOAD_SIZE b.
Proof.
  intros. apply pad_to_exact. unfold ljust, len, PAYLOAD_SIZE in *.
  rewrite length_app, length_replicate. lia.
Qed.

Definition wire (m : Message) : fvals MESSAGE_FORMAT :=
  (version m, (message_type m, (flags m, (sequence m,
   (len (payload m), (status m, (ljust PAYLOAD_SIZE (payload m), tt))))))).

Lemma wire_fits m : message_ok m = true → fits MESSAGE_FORMAT (wire m) = true.
Proof.
  unfold message_ok, header_fits, PROTOCOL_VERSION, PAYLOAD_SIZE. intros. py_inv.
  cbn [fits wire MESSAGE_FORMAT fst snd].
  pose proof (len_nonneg (payload m)).
  assert (in_width 8 (version m) = true) as -> by (unfold in_width; lia).
  assert (in_width 16 (len (payload m)) = true) as -> by (unfold in_width; lia).
  repeat match goal with H : in_width _ _ = true |- _ => rewrite H; clear H end. done.
Qed.

Lemma fits_message_ok m :
  version m = PROTOCOL_VERSION → len (payload m) <= PAYLOAD_SIZE →
  fits MESSAGE_FORMAT (wire m) = header_fits m.
Proof.
  intros Hv Hp. cbn [fits wire MESSAGE_FORMAT fst snd]. unfold header_fits.
  unfold PROTOCOL_VERSION, PAYLOAD_SIZE in *.
  pose proof (len_nonneg (payload m)).
  assert (in_width 8 (version m) = true) as -> by (unfold in_width; lia).
  assert (in_width 16 (len (payload m)) = true) as -> by (unfold in_width; lia).
  rewrite !andb_true_l, andb_true_r. by rewrite !andb_assoc.
Qed.

Lemma encode_ok m :
  message_ok m = true → encode m = Ok (pack_bytes MESSAGE_FORMAT (wire m)).
Proof.
  intros Hm. pose proof (wire_fits m Hm) as Hf. unfold message_ok in Hm. py_inv.
  unfold encode. pose proof (len_nonneg (payload m)).
  do 2 guard_false. by apply pack_ok.
Qed.

Lemma encode_inv m r : encode m = Ok r → message_ok m = true.
Proof.
  unfold encode, message_ok. intros. py_inv.
  rewrite <- (fits_message_ok m) by lia.
  unfold pack in *. py_inv. unfold wire.
  match goal with H : fits _ _ = true |- _ => rewrite H end. lia.
Qed.

Lemma encode_len m r : encode m = Ok r → len r = MESSAGE_SIZE.
Proof.
  intros He. pose proof (encode_inv _ _ He) as Hm. rewrite encode_ok in He by done.
  assert (r = pack_bytes MESSAGE_FORMAT (wire m)) as -> by congruence. apply len_pack_bytes.
Qed.

Lemma decode_encode m r : encode m = Ok r → decode r = Ok m.
Proof.
  intros He. pose proof (encode_inv _ _ He) as Hm.
  rewrite encode_ok in He by done. assert (r = pack_bytes MESSAGE_FORMAT (wire m)) as -> by congruence.
  clear He.
  pose proof (pack_ok _ _ (wire_fits m Hm)) as Hp.
  unfold decode. unfold len at 1. rewrite length_pack_bytes, message_size_ok, Z.eqb_refl.
  cbn [negb]. rewrite (unpack_pack _ _ _ Hp).
  unfold message_ok in Hm. py_inv.
  cbn [mbind result_bind normal wire MESSAGE_FORMAT fst snd].
  unfold PAYLOAD_SIZE, PROTOCOL_VERSION in *.
  do 2 guard_false. rewrite pad_to_ljust by lia.
  unfold ljust. rewrite slice_app_l by done. by destruct m.
Qed.


Lemma ljust_len b : len b <= 52 → length (ljust PAYLOAD_SIZE b) = 52%nat.
Proof. unfold ljust, len, PAYLOAD_SIZE. rewrite length_app, length_replicate. lia. Qed.

(** A header field out of its width is a [struct.error]. *)
Lemma encode_overflow m :
  version m = PROTOCOL_VERSION → len (payload m) <= PAYLOAD_SIZE →
  header_fits m = false → encode m = Raise StructError.
Proof.
  intros Hv Hl Hh. unfold encode. pose proof (len_nonneg (payload m)).
  rewrite Hv, Z.eqb_refl. cbn [negb]. guard_false.
  pose proof (fits_message_ok m Hv Hl) as Hf. rewrite Hh in Hf. unfold wire in Hf.
  rewrite Hv in Hf. by apply pack_overflow.
Qed.

(** A decoded message is valid, and the record is its header, its payload and padding. *)
Lemma decode_inv r m :
  decode r = Ok m →
  message_ok m = true
  ∧ ∃ head pad, length head = 12%nat ∧ r = head ++ payload m ++ pad
     ∧ pack_bytes MESSAGE_FORMAT (wire m) = head ++ ljust PAYLOAD_SIZE (payload m).
Proof.
  unfold decode. intros H. py_step.
  apply bind_ok in H as ((v & t & f & s & n & st & p & []) & Hu & H).
  destruct (unpack_inv MESSAGE_FORMAT _ _ eq_refl Hu) as (-> & Hf & Hn).
  py_inv. cbn [fits MESSAGE_FORMAT fst snd] in Hf. py_inv.
  unfold PAYLOAD_SIZE, PROTOCOL_VERSION in *.
  assert (length p = 52%nat) as Hp.
  { cbn [normal MESSAGE_FORMAT fst snd] in Hn. injection Hn as Hn.
    rewrite <- Hn. apply length_pad_to. }
  assert (len (slice 0 n p) = n) as Hs.
  { rewrite len_slice; unfold in_width, len in *; lia. }
  split.
  { unfold message_ok, header_fits. cbn. rewrite Hs.
    repeat match goal with H : in_width _ _ = true |- _ => rewrite H; clear H end.
    unfold PAYLOAD_SIZE, PROTOCOL_VERSION. lia. }
  exists (le_split 1 v ++ le_split 1 t ++ le_split 2 f ++ le_split 4 s ++ le_split 2 n ++ le_split 2 st),
    (slice_from n p).
  split; [by rewrite !length_app, !length_le_split|].
  cbn [payload pack_bytes wire MESSAGE_FORMAT fst snd message_type sequence flags status version].
  rewrite Hs, slice_split, pad_to_exact, pad_to_ljust by (done || rewrite Hs; lia).
  by rewrite <- !app_assoc, !app_nil_r.
Qed.

Lemma header_relayed m pre b :
  length pre = 12%nat → len (payload m) <= 52 →
  take (12 + length (payload m)) (pre ++ payload m ++ b) = pre ++ payload m.
Proof. intros Hp _. rewrite app_assoc. apply take_app_length'. rewrite length_app. lia. Qed.

(** ** Theorems *)

(** C36: every valid message (version 1, at most 52 payload bytes, header fields
    in range) encodes to a record of exactly 64 bytes from which [decode]
    recovers the message, payload length included. *)
Theorem message_round_trip m :
  message_ok m = true → ∃ r, encode m = Ok r ∧ len r = MESSAGE_SIZE ∧ decode r = Ok m.
Proof.
  intros Hm. exists (pack_bytes MESSAGE_FORMAT (wire m)).
  pose proof (encode_ok m Hm) as He. split; [done|]. split.
  - unfold len. by rewrite length_pack_bytes.
  - by apply decode_encode.
Qed.

Example message_round_trip_witness :
  ∃ r, encode (mkMessage 4 1 (lit "hello") 0 0 1) = Ok r ∧ len r = MESSAGE_SIZE
    ∧ decode r = Ok (mkMessage 4 1 (lit "hello") 0 0 1).
Proof. apply (message_round_trip (mkMessage 4 1 (lit "hello") 0 0 1)). vm_compute. reflexivity. Defined.

(** [encode] succeeds exactly on the valid messages; a wrong version or an
    oversized payload is a [ValueError], and a header field out of its width is
    a [struct.error], which callers that catch [ValueError] do not catch. *)
Theorem encode_outcomes m :
  (is_ok (encode m) = true ↔ message_ok m = true)
  ∧ (version m ≠ PROTOCOL_VERSION ∨ PAYLOAD_SIZE < len (payload m) →
     ∃ text, encode m = Raise (ValueError text))
  ∧ (version m = PROTOCOL_VERSION → len (payload m) <= PAYLOAD_SIZE →
     header_fits m = false → encode m = Raise StructError).
Proof.
  pose proof (len_nonneg (payload m)). split; [split|split].
  - destruct (encode m) eqn:E; [|done]. intros _. by eapply encode_inv.
  - intros Hm. by rewrite encode_ok.
  - intros Hbad. unfold encode.
    destruct (version m =? PROTOCOL_VERSION) eqn:?; cbn [negb]; [|by eexists].
    unfold PAYLOAD_SIZE in *. guard_true. by eexists.
  - apply encode_overflow.
Qed.

(** any 64-byte record that decodes can be relayed: its message encodes
    again, decodes to the same message, and header and payload octets are the
    received ones (only padding after the payload is normalised to zero). *)
Theorem decode_relay r m :
  decode r = Ok m →
  ∃ r', encode m = Ok r' ∧ decode r' = Ok m
    ∧ take (12 + length (payload m)) r' = take (12 + length (payload m)) r.
Proof.
  intros Hd. destruct (decode_inv r m Hd) as (Hm & head & pad & Hl & -> & Hw).
  exists (pack_bytes MESSAGE_FORMAT (wire m)).
  pose proof (encode_ok m Hm) as He. split; [done|]. split; [by apply decode_encode|].
  unfold message_ok in Hm. py_inv. unfold PAYLOAD_SIZE in *.
  rewrite Hw. unfold ljust. by rewrite !header_relayed by (done || lia).
Qed.

(** A record with an octet of stale data after its three payload bytes. *)
Definition relayed_record : bytes :=
  [Byte.x01; Byte.x05; Byte.x00; Byte.x00; Byte.x07; Byte.x00; Byte.x00; Byte.x00;
   Byte.x03; Byte.x00; Byte.x00; Byte.x00; Byte.x61; Byte.x62; Byte.x63; Byte.xff]
  ++ replicate 48 Byte.x00.
Definition relayed_message : Message := mkMessage 5 7 (lit "abc") 0 0 1.

Example decode_relay_witness :
  decode relayed_record = Ok relayed_message
  ∧ ∃ r', encode relayed_message = Ok r' ∧ decode r' = Ok relayed_message
      ∧ take (12 + length (payload relayed_message)) r'
        = take (12 + length (payload relayed_message)) relayed_record.
Proof.
  assert (decode relayed_record = Ok relayed_message) as H by (vm_compute; reflexivity).
  split; [exact H | exact (decode_relay relayed_record relayed_message H)].
Defined.

Definition witness_wire (w : NativeServiceWitness) : fvals NATIVE_WITNESS_FORMAT :=
  (NATIVE_WITNESS_MAGIC, (w_version w, (service_type w, (w_flags w,
   (boot_id w, (cpu_sequence w, (command_sequence w, tt))))))).

(** The witnesses the bridge can carry. *)
Definition witness_ok (w : NativeServiceWitness) : bool :=
  (w_version w =? NATIVE_WITNESS_VERSION) && in_width 8 (service_type w)
  && in_width 16 (w_flags w) && in_width 32 (boot_id w) && in_width 32 (cpu_sequence w)
  && in_width 32 (command_sequence w) && (len (text w) <=? 32).

Lemma witness_wire_fits w : witness_ok w = true → fits NATIVE_WITNESS_FORMAT (witness_wire w) = true.
Proof.
  unfold witness_ok, NATIVE_WITNESS_VERSION. intros. py_inv.
  cbn [fits witness_wire NATIVE_WITNESS_FORMAT fst snd].
  assert (in_width 8 (w_version w) = true) as -> by (unfold in_width; lia).
  repeat match goal with H : in_width _ _ = true |- _ => rewrite H; clear H end. done.
Qed.

Lemma witness_encode_ok w :
  witness_ok w = true →
  witness_encode w = Ok (pack_bytes NATIVE_WITNESS_FORMAT (witness_wire w) ++ text w).
Proof.
  intros Hw. unfold witness_encode. fold (witness_wire w).
  rewrite pack_ok by (by apply witness_wire_fits). cbn [mbind result_bind].
  rewrite len_app. unfold len at 1. rewrite length_pack_bytes.
  unfold witness_ok in Hw. py_inv. unfold PAYLOAD_SIZE.
  change (Z.of_nat (calcsize NATIVE_WITNESS_FORMAT)) with 20. by guard_false.
Qed.

Lemma witness_decode_pack vs t b :
  pack NATIVE_WITNESS_FORMAT vs = Ok b →
  unpack_from NATIVE_WITNESS_FORMAT (b ++ t) 0 = Ok (normal NATIVE_WITNESS_FORMAT vs).
Proof. intros Hp. exact (unpack_from_pack _ _ _ [] t 0%nat Hp eq_refl). Qed.

Lemma witness_decode_wire w t :
  t = text w → w_version w = NATIVE_WITNESS_VERSION →
  pack NATIVE_WITNESS_FORMAT (witness_wire w)
    = Ok (pack_bytes NATIVE_WITNESS_FORMAT (witness_wire w)) →
  witness_decode (pack_bytes NATIVE_WITNESS_FORMAT (witness_wire w) ++ t) = Ok w.
Proof.
  intros -> Hv Hp. unfold witness_decode. rewrite len_app. unfold len at 1.
  rewrite length_pack_bytes. pose proof (len_nonneg (text w)). guard_false.
  rewrite (witness_decode_pack _ _ _ Hp).
  cbn [mbind result_bind normal witness_wire NATIVE_WITNESS_FORMAT fst snd].
  rewrite pad_to_exact, bytes_eqb_refl, Hv, Z.eqb_refl by done. cbn [negb].
  rewrite slice_from_app by (unfold len; by rewrite length_pack_bytes).
  destruct w; cbn in *. by subst.
Qed.

Lemma witness_decode_inv p w :
  witness_decode p = Ok w →
  p = pack_bytes NATIVE_WITNESS_FORMAT (witness_wire w) ++ text w
  ∧ (len (text w) <= 32 → witness_ok w = true).
Proof.
  unfold witness_decode. intros H. py_step.
  apply bind_ok in H as ((mg & v & st & f & b & c & cs & []) & Hu & H).
  destruct (unpack_from_inv NATIVE_WITNESS_FORMAT _ _ eq_refl Hu) as (Hp & Hf & Hn).
  py_inv. rename select (bytes_eqb _ _ = true) into Hm. apply bytes_eqb_eq in Hm as ->.
  cbn [fits NATIVE_WITNESS_FORMAT fst snd] in Hf. py_inv. split.
  - rewrite Hp at 1. f_equal.
  - unfold witness_ok. cbn [w_version service_type w_flags boot_id cpu_sequence command_sequence].
    repeat match goal with H : in_width _ _ = true |- _ => rewrite H; clear H end.
    intros. lia.
Qed.

(** the native witness codec is a bijection between the witnesses the
    bridge can carry and the payloads that decode: encoding fits 52 bytes and
    decodes back; conversely a payload of at most 52 bytes that decodes is
    re-encoded to the same octets. *)
Theorem witness_codec :
  (∀ w, witness_ok w = true →
     ∃ p, witness_encode w = Ok p ∧ len p <= PAYLOAD_SIZE ∧ witness_decode p = Ok w)
  ∧ (∀ p w, len p <= PAYLOAD_SIZE → witness_decode p = Ok w →
     witness_ok w = true ∧ witness_encode w = Ok p).
Proof.
  split.
  - intros w Hw. pose proof (witness_encode_ok w Hw) as He.
    pose proof (pack_ok _ _ (witness_wire_fits w Hw)) as Hp.
    eexists. split; [exact He|]. unfold witness_ok in Hw. py_inv.
    rewrite len_app. unfold len at 1. rewrite length_pack_bytes.
    change (Z.of_nat (calcsize NATIVE_WITNESS_FORMAT)) with 20. unfold PAYLOAD_SIZE.
    split; [lia|]. apply witness_decode_wire; [done|lia|done].
  - intros p w Hl Hd. destruct (witness_decode_inv p w Hd) as [Hp Hw].
    assert (witness_ok w = true) as Hok.
    { apply Hw. unfold PAYLOAD_SIZE in Hl. rewrite Hp, len_app in Hl.
      unfold len at 1 in Hl. rewrite length_pack_bytes in Hl.
      change (Z.of_nat (calcsize NATIVE_WITNESS_FORMAT)) with 20 in Hl. lia. }
    split; [done|]. by rewrite witness_encode_ok, <- Hp.
Qed.
