(* ===== verification/Core.v ===== *)
(** * HID framing and reply validation (host/rp86/core.py, calculator.py, constants.py)

    [hid_output_report]/[normalize_hid_input] frame a record for HIDAPI;
    [validate_device_reply] decides whether a received report answers a given
    request.  The theorems show that an accepted reply always answers the
    request that was sent (sequence, reply type, and for native services the
    witness and processor identity), that genuine replies are accepted, and
    that a request type outside the protocol is always refused. *)

From S2P Require Import Prelude Struct PyText Protocol.
From Stdlib Require Import Ascii.
From Stdlib Require Import SpecFloat.

(** ** Constants (constants.py) *)

Definition BOOTLOADER_REQUEST : bytes := lit "RP86 BOOTLOADER" ++ [Byte.x0a].
Definition BOOTLOADER_ACK : bytes := lit "RP86 BOOTLOADER ACK".
Definition REBOOT_REQUEST : bytes := lit "RP86 REBOOT" ++ [Byte.x0a].
Definition REBOOT_ACK : bytes := lit "RP86 REBOOT ACK".
Definition STATUS_REQUEST : bytes := lit "RP86 STATUS" ++ [Byte.x0a].
Definition STATUS_BEGIN : bytes := lit "RP86 STATUS BEGIN".
Definition STATUS_END : bytes := lit "RP86 STATUS END".
Definition HEARTBEAT_REPLY : bytes := lit "PROCESSOR HEARTBEAT OK".
Definition COMMAND_REPLY : bytes := lit "PROCESSOR COMMAND OK".
Definition USB_VID : Z := 0xCAFE.
Definition USB_PID : Z := 0x4011.
Definition PASS_EXIT : Z := 0.
Definition DEPENDENCY_EXIT : Z := 3.
Definition TRANSPORT_EXIT : Z := 4.
Definition VALIDATION_EXIT : Z := 5.

(** [PROCESSOR_NAMES[key]]; [key] may be Python's [None]. *)
Definition PROCESSOR_NAMES : list (string * string) :=
  [("auto", "8086-CLASS PROCESSOR"); ("nec-v30", "NEC V30"); ("intel-8086", "INTEL 8086")]%string.

(** [heartbeat_payload(sequence, nonce)]; the nonce is drawn by the caller. *)
Definition HEARTBEAT_FORMAT : list field := [Fs 2; FI; FQ].
Definition heartbeat_payload (sequence nonce : Z) : result bytes :=
  pack HEARTBEAT_FORMAT (lit "HB", (mask32 sequence, (nonce, tt))).

(** ** HeartbeatStats: IEEE binary64 arithmetic *)

Definition float := spec_float.
Definition fadd : float → float → float := SFadd 53 1024.
Definition fdiv : float → float → float := SFdiv 53 1024.
Definition fzero : float := S754_zero false.
Definition finf : float := S754_infinity false.
Definition float_of_Z (z : Z) : float := binary_normalize 53 1024 z 0 false.

(** Python's [min(a, b)] and [max(a, b)]: the first argument wins ties. *)
Definition fmin (a b : float) : float := if SFltb b a then b else a.
Definition fmax (a b : float) : float := if SFltb a b then b else a.

Record HeartbeatStats := mkStats {
  completed : Z;
  lost : Z;
  last_ms : float;
  minimum_ms : float;
  maximum_ms : float;
  total_ms : float;
}.

Definition stats_init : HeartbeatStats := mkStats 0 0 fzero finf fzero fzero.

Definition stats_accept (latency_ms : float) (s : HeartbeatStats) : HeartbeatStats :=
  mkStats (completed s + 1) (lost s) latency_ms (fmin (minimum_ms s) latency_ms)
    (fmax (maximum_ms s) latency_ms) (fadd (total_ms s) latency_ms).

Definition average_ms (s : HeartbeatStats) : float :=
  if truthy (completed s) then fdiv (total_ms s) (float_of_Z (completed s)) else fzero.

(** ** HID framing *)

Definition hid_output_report (record : bytes) : result bytes :=
  if negb (len record =? MESSAGE_SIZE)
  then Raise (ValueError ("record must be exactly " +:+ dec MESSAGE_SIZE +:+ " bytes"))
  else Ok (Byte.x00 :: record).

Definition normalize_hid_input (report : bytes) : result bytes :=
  let report :=
    if (len report =? MESSAGE_SIZE + 1) && (match report with x :: _ => Byte.eqb x Byte.x00 | [] => false end)
    then slice_from 1 report else report in
  if negb (len report =? MESSAGE_SIZE)
  then Raise (ValueError ("HID reply must contain exactly " +:+ dec MESSAGE_SIZE
                          +:+ " ABI bytes; got " +:+ dec (len report)))
  else Ok report.

(** ** Calculator payloads (calculator.py) *)

Definition CALCULATOR_MAGIC : Z := 0xCA1C.
Definition CALCULATOR_FORMAT : list field := [FH; FH; FH; FH; FH; FH; FH].

Definition is_calculator_payload (p : bytes) : bool :=
  (length p =? calcsize CALCULATOR_FORMAT)%nat
  && (match unpack_from [FH] p 0 with Ok (magic, tt) => magic =? CALCULATOR_MAGIC | Raise _ => false end).

Definition CALCULATOR_OPERATIONS : list (ascii * Z) :=
  [("+", 1); ("-", 2); ("*", 3); ("/", 4)]%char.

(** The regular expression: optional space, a number, optional space, an
    operator, optional space, a number, optional space, end of text. *)
Definition re_space (c : ascii) : bool :=
  let n := N_of_ascii c in
  (n =? 32)%N || ((9 <=? n)%N && (n <=? 13)%N) || ((28 <=? n)%N && (n <=? 31)%N).
Definition re_digit (c : ascii) : bool :=
  let n := N_of_ascii c in (48 <=? n)%N && (n <=? 57)%N.
Definition re_hex (c : ascii) : bool :=
  match hex_value c with Some _ => true | None => false end.

Fixpoint span (p : ascii → bool) (l : list ascii) : list ascii * list ascii :=
  match l with
  | c :: l' => if p c then let '(a, b) := span p l' in (c :: a, b) else ([], l)
  | [] => ([], [])
  end.

(** [(0[xX][0-9a-fA-F]+|\d+)]: the hexadecimal alternative when it matches. *)
Definition re_number (l : list ascii) : option (list ascii * list ascii) :=
  let decimal :=
    match span re_digit l with ([], _) => None | (digits, rest) => Some (digits, rest) end in
  match l with
  | "0"%char :: x :: l' =>
      if char_is "x" "X" x then
        match span re_hex l' with
        | ([], _) => decimal
        | (digits, rest) => Some ("0"%char :: x :: digits, rest)
        end
      else decimal
  | _ => decimal
  end.

Definition re_expression (l : list ascii) : option (list ascii * ascii * list ascii) :=
  match re_number (span re_space l).2 with
  | Some (lhs, l) =>
      match (span re_space l).2 with
      | op :: l =>
          if existsb (λ p, Ascii.eqb op p.1) CALCULATOR_OPERATIONS then
            match re_number (span re_space l).2 with
            | Some (rhs, l) =>
                match (span re_space l).2 with [] => Some (lhs, op, rhs) | _ => None end
            | None => None
            end
          else None
      | [] => None
      end
  | None => None
  end.

Definition operation_code (op : ascii) : Z :=
  match find (λ p, Ascii.eqb op p.1) CALCULATOR_OPERATIONS with
  | Some (_, code) => code
  | None => 0
  end.

Definition calculator_payload (arguments : list string) : result bytes :=
  match re_expression (String.list_ascii_of_string (str_join " " arguments)) with
  | None => Raise (ValueError "usage: calc <0..65535> <+|-|*|/> <0..65535>")
  | Some (lhs_text, op, rhs_text) =>
      lhs ← py_int 0 (String.string_of_list_ascii lhs_text);
      rhs ← py_int 0 (String.string_of_list_ascii rhs_text);
      if negb ((0 <=? lhs) && (lhs <=? 0xFFFF)) || negb ((0 <=? rhs) && (rhs <=? 0xFFFF))
      then Raise (ValueError "calculator operands must be unsigned 16-bit values") else
      let operation := operation_code op in
      if (operation =? operation_code "/") && (rhs =? 0)
      then Raise (ValueError "division by zero is not sent to the physical processor") else
      pack CALCULATOR_FORMAT (CALCULATOR_MAGIC, (operation, (lhs, (rhs, (0, (0, (0, tt)))))))
  end.

(** ** Reply validation *)

Definition validate_live_reply (record : bytes) (request : Message)
    (expected_processor : option string) : result Message :=
  let expected_type := if message_type request =? TYPE_COMMAND then TYPE_RESULT else TYPE_HEARTBEAT in
  let expected_payload :=
    if message_type request =? TYPE_COMMAND then COMMAND_REPLY else HEARTBEAT_REPLY in
  record ← normalize_hid_input record;
  reply ← decode record;
  if negb (message_type reply =? expected_type)
  then Raise (ValueError ("unexpected native reply type: " +:+ dec (message_type reply))) else
  if negb (sequence reply =? sequence request)
  then Raise (ValueError ("native reply sequence mismatch: " +:+ dec (sequence reply)
                          +:+ " != " +:+ dec (sequence request))) else
  if negb (status reply =? STATUS_OK)
  then Raise (ValueError ("V30 live reply status is not OK: " +:+ dec (status reply))) else
  witness ← witness_decode (payload reply);
  if negb (service_type witness =? message_type request)
  then Raise (ValueError ("native witness service type mismatch: " +:+ dec (service_type witness)
                          +:+ " != " +:+ dec (message_type request))) else
  let calculator_reply :=
    (message_type request =? TYPE_COMMAND) && is_calculator_payload (payload request)
    && starts_with (lit "CALC ") (text witness) in
  if negb (bytes_eqb (text witness) expected_payload) && negb calculator_reply
  then Raise (ValueError ("unexpected native reply text: " +:+ bytes_repr (text witness))) else
  match expected_processor with
  | Some host =>
      if negb (bool_decide (witness_processor witness = Some host))
      then Raise (ValueError ("native processor identity mismatch: AAD16="
                   +:+ default "unknown"%string (witness_processor witness) +:+ " host=" +:+ host))
      else Ok reply
  | None => Ok reply
  end.

(** The reply of a service request: the type and the sequence must match; the
    two error texts depend on the service. *)
Definition validate_service_reply (record : bytes) (request : Message)
    (expected_type : Z) (type_error sequence_error : Message → string) : result Message :=
  record ← normalize_hid_input record;
  reply ← decode record;
  if negb (message_type reply =? expected_type)
  then Raise (ValueError (type_error reply)) else
  if negb (sequence reply =? sequence request)
  then Raise (ValueError (sequence_error reply)) else Ok reply.

Definition validate_device_reply (record : bytes) (request : Message)
    (expected_processor : option string) : result Message :=
  let mismatch service reply :=
    service +:+ " reply sequence mismatch: " +:+ dec (sequence reply)
    +:+ " != " +:+ dec (sequence request) in
  let unexpected service reply :=
    "unexpected " +:+ service +:+ " reply type: " +:+ dec (message_type reply) in
  if z_in (message_type request) [TYPE_COMMAND; TYPE_HEARTBEAT]
  then validate_live_reply record request expected_processor else
  if message_type request =? TYPE_WORKLOAD_TIMEOUT_REQUEST then
    validate_service_reply record request TYPE_WORKLOAD_TIMEOUT_RESULT
      (λ _, "workload timeout reply type/sequence mismatch"%string)
      (λ _, "workload timeout reply type/sequence mismatch"%string) else
  if message_type request =? TYPE_DIAGNOSTICS_REQUEST then
    validate_service_reply record request TYPE_DIAGNOSTICS_RESULT
      (λ _, "diagnostics reply type/sequence mismatch"%string)
      (λ _, "diagnostics reply type/sequence mismatch"%string) else
  if message_type request =? TYPE_FILESYSTEM_REQUEST then
    validate_service_reply record request TYPE_FILESYSTEM_RESULT
      (unexpected "filesystem"%string) (mismatch "filesystem"%string) else
  if message_type request =? TYPE_MEMORY_REQUEST then
    validate_service_reply record request TYPE_MEMORY_RESULT
      (unexpected "memory"%string) (mismatch "memory"%string) else
  if negb (z_in (message_type request)
             [TYPE_WORKLOAD_BEGIN; TYPE_WORKLOAD_DATA; TYPE_WORKLOAD_COMMIT; TYPE_WORKLOAD_CONTROL])
  then Raise (ValueError ("unsupported request type: " +:+ dec (message_type request))) else
  record ← normalize_hid_input record;
  reply ← decode record;
  if negb (z_in (message_type reply) [TYPE_WORKLOAD_RESULT; TYPE_WORKLOAD_STATUS])
  then Raise (ValueError (unexpected "workload"%string reply)) else
  if negb (sequence reply =? sequence request)
  then Raise (ValueError (mismatch "workload"%string reply)) else
  if negb (status reply =? STATUS_OK)
  then Raise (ValueError ("workload request status is not OK: " +:+ dec (status reply))) else
  Ok reply.

(** ** What it means for a reply to answer a request

    A table of the reply types of every request type, and the extra conditions
    on a live (native service) reply.  This is the contract that the callers of
    [validate_device_reply] rely on. *)

Definition reply_types (request_type : Z) : list Z :=
  if request_type =? TYPE_COMMAND then [TYPE_RESULT] else
  if request_type =? TYPE_HEARTBEAT then [TYPE_HEARTBEAT] else
  if request_type =? TYPE_WORKLOAD_TIMEOUT_REQUEST then [TYPE_WORKLOAD_TIMEOUT_RESULT] else
  if request_type =? TYPE_DIAGNOSTICS_REQUEST then [TYPE_DIAGNOSTICS_RESULT] else
  if request_type =? TYPE_FILESYSTEM_REQUEST then [TYPE_FILESYSTEM_RESULT] else
  if request_type =? TYPE_MEMORY_REQUEST then [TYPE_MEMORY_RESULT] else
  if z_in request_type
       [TYPE_WORKLOAD_BEGIN; TYPE_WORKLOAD_DATA; TYPE_WORKLOAD_COMMIT; TYPE_WORKLOAD_CONTROL]
  then [TYPE_WORKLOAD_RESULT; TYPE_WORKLOAD_STATUS] else [].

(** Requests whose negative replies are returned, not skipped as stale *)
Definition negative_replies_returned (request_type : Z) : bool :=
  z_in request_type [TYPE_WORKLOAD_TIMEOUT_REQUEST; TYPE_DIAGNOSTICS_REQUEST;
                     TYPE_FILESYSTEM_REQUEST; TYPE_MEMORY_REQUEST].

Definition is_live (request_type : Z) : bool := z_in request_type [TYPE_COMMAND; TYPE_HEARTBEAT].

(** The native proof a live reply carries *)
Definition live_witness (request : Message) (expected : option string)
    (w : NativeServiceWitness) : Prop :=
  service_type w = message_type request
  ∧ (text w = (if message_type request =? TYPE_COMMAND then COMMAND_REPLY else HEARTBEAT_REPLY)
     ∨ (message_type request = TYPE_COMMAND ∧ is_calculator_payload (payload request) = true
        ∧ starts_with (lit "CALC ") (text w) = true))
  ∧ (∀ host, expected = Some host → witness_processor w = Some host).

Definition answers (request : Message) (expected : option string) (reply : Message) : Prop :=
  message_type reply ∈ reply_types (message_type request)
  ∧ sequence reply = sequence request
  ∧ (negative_replies_returned (message_type request) = false → status reply = STATUS_OK)
  ∧ (is_live (message_type request) = true →
     ∃ w, witness_decode (payload reply) = Ok w ∧ live_witness request expected w).

(** A report that holds one well-formed record *)
Definition received (report : bytes) (reply : Message) : Prop :=
  ∃ record, normalize_hid_input report = Ok record ∧ decode record = Ok reply.

Lemma normalize_len report record :
  normalize_hid_input report = Ok record → len record = MESSAGE_SIZE.
Proof. unfold normalize_hid_input. intros. py_inv. lia. Qed.

Lemma normalize_plain record :
  len record = MESSAGE_SIZE → normalize_hid_input record = Ok record.
Proof.
  intros Hl. unfold normalize_hid_input. rewrite Hl.
  change (MESSAGE_SIZE =? MESSAGE_SIZE + 1) with false. cbn [andb].
  by rewrite Hl, Z.eqb_refl.
Qed.

Lemma normalize_report record :
  len record = MESSAGE_SIZE → normalize_hid_input (Byte.x00 :: record) = Ok record.
Proof.
  intros Hl. unfold normalize_hid_input. rewrite len_cons, Hl.
  change ((1 + MESSAGE_SIZE =? MESSAGE_SIZE + 1) && Byte.eqb Byte.x00 Byte.x00) with true.
  cbv iota. change (slice_from 1 (Byte.x00 :: record)) with record.
  by rewrite Hl, Z.eqb_refl.
Qed.

Lemma live_ok report request expected reply :
  is_live (message_type request) = true →
  validate_live_reply report request expected = Ok reply
  ↔ received report reply ∧ answers request expected reply.
Proof.
  intros Hlive. unfold validate_live_reply, received, answers, live_witness.
  assert (reply_types (message_type request)
          = [if message_type request =? TYPE_COMMAND then TYPE_RESULT else TYPE_HEARTBEAT]) as Ht.
  { unfold reply_types. destruct (_ =? TYPE_COMMAND) eqn:?; [done|].
    unfold is_live, z_in in Hlive. cbn in Hlive. guard_true. done. }
  assert (negative_replies_returned (message_type request) = false) as Hn.
  { apply z_in_spec in Hlive. set_unfold in Hlive. by destruct Hlive as [->|[->|[]]]. }
  rewrite Ht, Hlive, Hn, list_elem_of_singleton. split.
  - intros H. py_inv. rename select (witness_decode _ = Ok _) into Hw.
    match goal with H : match expected with _ => _ end = _ |- _ => rename H into He end.
    assert (reply = x0) as ->.
    { destruct expected; py_inv; congruence. }
    split; [by eauto|]. split; [lia|]. split; [lia|]. split; [intros _; lia|].
    intros _. eexists. split; [exact Hw|]. split; [lia|]. split.
    + rename select (_ && _ = false) into Hc. apply andb_false_iff in Hc as [Hc|Hc]; py_inv.
      * left. by apply bytes_eqb_eq.
      * right. split; [lia|]. done.
    + intros host ->. by py_inv.
  - intros [(record & Hr & Hd) (Hty & Hs & Hst & Hlw)].
    destruct (Hlw eq_refl) as (w & Hw & Hsv & Htx & Hp). specialize (Hst eq_refl). rewrite Hr. cbn [mbind result_bind]. rewrite Hd.
    cbn [mbind result_bind]. rewrite Hty, Z.eqb_refl, Hs, Z.eqb_refl, Hst, Hw.
    cbn [negb mbind result_bind]. rewrite Hsv, !Z.eqb_refl. cbn [negb].
    match goal with |- (if ?b then _ else _) = _ => assert (b = false) as -> end.
    { apply andb_false_iff. destruct Htx as [->|(-> & -> & ->)].
      - left. by rewrite bytes_eqb_refl.
      - by right. }
    destruct expected as [host|]; [|done]. by rewrite (Hp host eq_refl), bool_decide_eq_true_2.
Qed.

Lemma service_ok report request ty te se reply :
  validate_service_reply report request ty te se = Ok reply
  ↔ received report reply ∧ message_type reply = ty ∧ sequence reply = sequence request.
Proof.
  unfold validate_service_reply, received. split.
  - intros H. py_inv. split; [by eauto | lia].
  - intros ((record & Hr & Hd) & Hty & Hs). rewrite Hr. cbn [mbind result_bind]. rewrite Hd.
    cbn [mbind result_bind]. by rewrite Hty, Hs, !Z.eqb_refl.
Qed.

(** Replies are only ever refused with [ValueError]. *)
Lemma decode_value_error record e :
  decode record = Raise e → ∃ msg, e = ValueError msg.
Proof.
  unfold decode. destruct (negb (len record =? MESSAGE_SIZE)) eqn:Hl; [naive_solver|].
  rewrite unpack_ok by (unfold len, MESSAGE_SIZE in Hl; cbn [calcsize MESSAGE_FORMAT fwidth]; lia).
  cbn [mbind result_bind]. destruct (unpack_bytes MESSAGE_FORMAT record) as (?&?&?&?&?&?&?&[]).
  repeat case_match; naive_solver.
Qed.

Lemma witness_decode_value_error p e :
  witness_decode p = Raise e → ∃ msg, e = ValueError msg.
Proof.
  unfold witness_decode. destruct (_ <? _) eqn:Hl; [naive_solver|].
  rewrite unpack_from_ok by (unfold len in Hl; lia).
  cbn [mbind result_bind].
  destruct (unpack_bytes NATIVE_WITNESS_FORMAT (drop 0 p)) as (?&?&?&?&?&?&?&[]).
  repeat case_match; naive_solver.
Qed.

Lemma normalize_value_error report e :
  normalize_hid_input report = Raise e → ∃ msg, e = ValueError msg.
Proof. unfold normalize_hid_input. repeat case_match; naive_solver. Qed.

(** Follow a reply validator down every branch that raises. *)
Ltac value_error :=
  repeat match goal with
  | H : mbind _ _ = Raise _ |- _ => apply bind_raise in H; destruct H as [H|(? & _ & H)]
  | H : normalize_hid_input _ = Raise _ |- _ => exact (normalize_value_error _ _ H)
  | H : decode _ = Raise _ |- _ => exact (decode_value_error _ _ H)
  | H : witness_decode _ = Raise _ |- _ => exact (witness_decode_value_error _ _ H)
  | H : Raise _ = Raise _ |- _ => simplify_eq; by eexists
  | H : Ok _ = Raise _ |- _ => discriminate H
  | H : context [if ?b then _ else _] |- _ => destruct b
  | H : context [match ?o with Some _ => _ | None => _ end] |- _ => destruct o
  end.

Lemma re_expression_operator l lhs op rhs :
  re_expression l = Some (lhs, op, rhs) → 1 <= operation_code op <= 4.
Proof.
  unfold re_expression. intros H. repeat case_match; simplify_eq.
  match goal with H : existsb _ _ = true |- _ =>
    apply existsb_exists in H as ([c code] & Hin & Hc) end.
  apply Ascii.eqb_eq in Hc. cbn [fst] in Hc. subst.
  repeat (destruct Hin as [Hin|Hin]; [by injection Hin as <- <-|]). done.
Qed.

Lemma calculator_recognised vs p :
  pack CALCULATOR_FORMAT (CALCULATOR_MAGIC, vs) = Ok p → is_calculator_payload p = true.
Proof.
  intros Hp. unfold is_calculator_payload. rewrite (pack_length _ _ _ Hp), Nat.eqb_refl.
  cbn [andb].
  assert (∃ rest, p = pack_bytes [FH] (CALCULATOR_MAGIC, tt) ++ rest) as [rest ->].
  { unfold pack in Hp. py_inv. eexists. cbn [pack_bytes CALCULATOR_FORMAT fst snd].
    by rewrite app_nil_r. }
  pose proof (unpack_from_pack [FH] (CALCULATOR_MAGIC, tt) _ [] rest 0%nat
                (pack_ok [FH] (CALCULATOR_MAGIC, tt) eq_refl) eq_refl) as Hu.
  cbn [app] in Hu. rewrite Hu.
  cbn [normal fst snd]. apply Z.eqb_refl.
Qed.

Lemma device_reply_iff report request expected reply :
  validate_device_reply report request expected = Ok reply
  ↔ received report reply ∧ answers request expected reply.
Proof.
  unfold validate_device_reply.
  destruct (z_in (message_type request) [TYPE_COMMAND; TYPE_HEARTBEAT]) eqn:Hlive;
    [by apply live_ok|].
  unfold answers, is_live. rewrite Hlive. unfold reply_types, negative_replies_returned.
  unfold z_in in Hlive. cbn in Hlive. py_inv. do 2 guard_false.
  repeat match goal with |- context [if message_type request =? ?t then _ else _] =>
    destruct (message_type request =? t) eqn:? end;
    try (rewrite service_ok, list_elem_of_singleton;
         match goal with H : (message_type request =? _) = true |- _ =>
           apply Z.eqb_eq in H as -> end; unfold z_in; cbn; naive_solver).
  assert (z_in (message_type request)
    [TYPE_WORKLOAD_TIMEOUT_REQUEST; TYPE_DIAGNOSTICS_REQUEST; TYPE_FILESYSTEM_REQUEST;
     TYPE_MEMORY_REQUEST] = false) as -> by (unfold z_in; cbn; lia).
  destruct (z_in _ _); cbn [negb]; [|set_solver].
  unfold received. split.
  - intros Hval. py_inv. rename select (z_in _ _ = true) into Hz. apply z_in_spec in Hz.
    split; [by eauto|]. split; [done|]. split; [lia|]. split; [intros _; lia | done].
  - intros ((record & Hr & Hd) & Hty & Hs & Hst & _). rewrite Hr. cbn [mbind result_bind].
    rewrite Hd. cbn [mbind result_bind]. apply z_in_spec in Hty as ->. rewrite Hs, Hst by done.
    by rewrite !Z.eqb_refl.
Qed.

Lemma device_reply_value_error report request expected e :
  validate_device_reply report request expected = Raise e → ∃ msg, e = ValueError msg.
Proof.
  intros H. unfold validate_device_reply, validate_live_reply, validate_service_reply in H.
  cbv zeta in H. value_error.
Qed.

(** ** Theorems *)

(** HID framing loses nothing.  A 64-byte record gets the report-ID byte
    HIDAPI wants; the receiver accepts both the framed and the bare form and
    yields the record; and nothing that is not exactly one record ever gets
    through, so a partial read cannot be decoded. *)
Theorem hid_framing record :
  (len record = MESSAGE_SIZE →
     ∃ report, hid_output_report record = Ok report
       ∧ normalize_hid_input report = Ok record ∧ normalize_hid_input record = Ok record)
  ∧ (len record ≠ MESSAGE_SIZE → is_ok (hid_output_report record) = false)
  ∧ (∀ report, normalize_hid_input report = Ok record →
       len record = MESSAGE_SIZE ∧ (report = record ∨ report = Byte.x00 :: record)).
Proof.
  split; [|split].
  - intros Hl. exists (Byte.x00 :: record). unfold hid_output_report.
    rewrite Hl, Z.eqb_refl, normalize_report, normalize_plain by done. done.
  - intros Hl. unfold hid_output_report. by guard_true.
  - intros report Hr. split; [by eapply normalize_len|]. unfold normalize_hid_input in Hr.
    py_inv. case_match; [right|by left]. py_inv.
    destruct report as [|x report]; [done|].
    rename select (Byte.eqb _ _ = true) into Hx. by apply Byte.byte_dec_bl in Hx as ->.
Qed.

(** C28: [validate_device_reply] accepts a report exactly when it carries one
    well-formed record that answers the request: the reply type belongs to the
    request type, the sequences agree, the status is OK unless the service
    reports its own failures, and a live reply holds a native witness of the
    right service, text and (when the host expects one) processor. *)
Theorem validate_device_reply_spec report request expected reply :
  validate_device_reply report request expected = Ok reply
  ↔ received report reply ∧ answers request expected reply.
Proof. apply device_reply_iff. Qed.

(** whatever bytes arrive, [validate_device_reply] either accepts or raises
    [ValueError], the one exception the receive loops treat as stale traffic;
    a request of a type outside the protocol is always refused. *)
Theorem validate_device_reply_errors report request expected :
  (∀ e, validate_device_reply report request expected = Raise e → ∃ msg, e = ValueError msg)
  ∧ (reply_types (message_type request) = [] →
     is_ok (validate_device_reply report request expected) = false).
Proof.
  split.
  - apply device_reply_value_error.
  - unfold reply_types, validate_device_reply, z_in. cbn [existsb].
    repeat match goal with |- context [message_type request =? ?t] =>
      destruct (message_type request =? t) eqn:?; try done end.
Qed.

(** whatever the operator types, a calculator command that is sent is the
    14-byte payload the firmware recognises, with an operation it knows,
    16-bit operands and never a division by zero; a refusal is a [ValueError]. *)
Theorem calculator_payload_safe arguments :
  match calculator_payload arguments with
  | Ok p =>
      is_calculator_payload p = true ∧ length p = 14%nat
      ∧ ∃ op lhs rhs, unpack CALCULATOR_FORMAT p
          = Ok (CALCULATOR_MAGIC, (op, (lhs, (rhs, (0, (0, (0, tt)))))))
        ∧ 1 <= op <= 4 ∧ u16 lhs ∧ u16 rhs ∧ (op = operation_code "/" → rhs ≠ 0)
  | Raise e => ∃ msg, e = ValueError msg
  end.
Proof.
  unfold calculator_payload.
  destruct (re_expression _) as [[[lhs_text op] rhs_text]|] eqn:He; [|by eexists].
  assert (1 <= operation_code op <= 4) as Hop by (by eapply re_expression_operator).
  destruct (py_int 0 (String.string_of_list_ascii lhs_text)) as [lhs|e] eqn:Hl;
    cbn [mbind result_bind]; [|by eapply py_int_error].
  destruct (py_int 0 (String.string_of_list_ascii rhs_text)) as [rhs|e] eqn:Hr;
    cbn [mbind result_bind]; [|by eapply py_int_error].
  destruct (negb _ || negb _) eqn:Hrange; [by eexists|].
  destruct ((_ =? _) && _) eqn:Hdiv; [by eexists|].
  change (operation_code "/") with 4 in *. py_inv.
  destruct (pack CALCULATOR_FORMAT _) as [p|e] eqn:Hp.
  2:{ rewrite pack_ok in Hp; [done|]. cbn [fits CALCULATOR_FORMAT fst snd].
      unfold in_width, CALCULATOR_MAGIC. lia. }
  pose proof (unpack_pack _ _ _ Hp) as Hu. pose proof (pack_length _ _ _ Hp) as Hlen.
  split; [by eapply calculator_recognised|]. split; [done|].
  exists (operation_code op), lhs, rhs. split; [exact Hu|].
  unfold in_width. lia.
Qed.
