(* ===== verification/Memory.v ===== *)
(** * Internal SRAM access (host/rp86/memory.py, processor_abi.py)

    Read and write requests for the processor-visible Internal SRAM, the
    validation of their replies and the memory dump.  The abstract device is a
    byte-addressed [memory]; [sram_write] is the effect the wire format gives a
    write record.  The theorems show that replaying the records of one write
    stores exactly the data at the address, in records the protocol can carry,
    and that a read returns exactly the bytes the device sent for the request. *)

From S2P Require Import Prelude Struct PyText Protocol.
From Stdlib Require Import Ascii.

(** ** processor_abi.py: the constants the Host uses *)

Definition INTERRUPT_VECTOR_COMPANION : Z := 0x20.
Definition INTERRUPT_VECTOR_TICK : Z := 0x21.
Definition INTERRUPT_VECTOR_NATIVE_SERVICE : Z := 0x60.
Definition IVT_COMPANION_OFFSET_ADDRESS : Z := 0x0080.
Definition IVT_COMPANION_SEGMENT_ADDRESS : Z := 0x0082.
Definition IVT_TICK_OFFSET_ADDRESS : Z := 0x0084.
Definition IVT_TICK_SEGMENT_ADDRESS : Z := 0x0086.
Definition IVT_NATIVE_SERVICE_OFFSET_ADDRESS : Z := 0x0180.
Definition IVT_NATIVE_SERVICE_SEGMENT_ADDRESS : Z := 0x0182.
Definition IO_PORT_PIC_COMMAND : Z := 0x0020.
Definition PIC_COMMAND_EOI : Z := 0x0020.
Definition IO_PORT_STATUS : Z := 0x00E0.
Definition IO_PORT_TX : Z := 0x00E2.
Definition IO_PORT_RX : Z := 0x00E4.
Definition IO_PORT_CONTROL : Z := 0x00E6.
Definition IO_PORT_RESULT : Z := 0x00E8.
Definition IO_PORT_DIAGNOSTIC : Z := 0x00E9.
Definition IO_PORT_EXECUTION_CLOCK : Z := 0x00EA.
Definition CONTROL_IDLE_PREPARE : Z := 0x0001.
Definition EXECUTION_CLOCK_REQUEST_FREE_RUNNING : Z := 0x0001.
Definition EXECUTION_CLOCK_REQUEST_CLOCK_STEPPED : Z := 0x0002.
Definition PROCESSOR_SIGNATURE_INTEL_8086 : Z := 0x0012.
Definition PROCESSOR_SIGNATURE_NEC_V30 : Z := 0x000C.
Definition PROCESSOR_ADDRESS_SPACE_SIZE : Z := 0x100000.
Definition INTERNAL_SRAM_PROCESSOR_BASE : Z := 0x00000.
Definition INTERNAL_SRAM_PROCESSOR_SIZE : Z := 0x40000.
Definition SHARED_MAILBOX_BASE : Z := 0x3F000.
Definition SHARED_MAILBOX_SIZE : Z := 0x1000.

(** ** Requests *)

Definition MEMORY_HEADER : list field := [FB; Fx 3; FI; FI].
Definition memory_end : Z := INTERNAL_SRAM_PROCESSOR_BASE + INTERNAL_SRAM_PROCESSOR_SIZE.

Definition check_address (value : Z) : result Z :=
  if negb ((INTERNAL_SRAM_PROCESSOR_BASE <=? value) && (value <? memory_end))
  then Raise (ValueError "Internal SRAM address must be within 0x00000-0x3FFFF")
  else Ok value.

Definition memory_read_request (address length sequence : Z) : result Message :=
  _ ← check_address address;
  if negb ((1 <=? length) && (length <=? MEMORY_DATA_BYTES)) || (memory_end <? address + length)
  then Raise (ValueError ("memory read must contain 1-" +:+ dec MEMORY_DATA_BYTES +:+ " bytes"))
  else
    header ← pack MEMORY_HEADER (MEMORY_READ, (address, (length, tt)));
    Ok (request_message TYPE_MEMORY_REQUEST sequence header).

(** The [while offset < len(data)] loop; every turn takes at least one byte, so
    [len(data)] turns are enough. *)
Fixpoint memory_write_loop (fuel : nat) (address : Z) (data : bytes) (offset sequence : Z)
  : result (list Message) :=
  match fuel with
  | O => Ok []
  | S fuel =>
      if offset <? len data then
        let chunk := slice offset (offset + MEMORY_DATA_BYTES) data in
        header ← pack MEMORY_HEADER (MEMORY_WRITE, (address + offset, (len chunk, tt)));
        rest ← memory_write_loop fuel address data (offset + len chunk) (next_seq sequence);
        Ok (request_message TYPE_MEMORY_REQUEST sequence (header ++ chunk) :: rest)
      else Ok []
  end.

Definition memory_write_records (address : Z) (data : bytes) (first_sequence : Z)
  : result (list Message) :=
  _ ← check_address address;
  if negb (truthy (len data)) || (memory_end <? address + len data)
  then Raise (ValueError "memory write is empty or outside Internal SRAM")
  else memory_write_loop (length data) address data 0 first_sequence.

(** ** Replies *)

Definition memory_header_size : Z := Z.of_nat (calcsize MEMORY_HEADER).

Definition validate_memory_reply (reply request : Message) : result bytes :=
  if negb (message_type reply =? TYPE_MEMORY_RESULT)
  then Raise (ValueError ("unexpected memory reply type: " +:+ dec (message_type reply))) else
  if negb (sequence reply =? sequence request)
  then Raise (ValueError ("memory reply sequence mismatch: " +:+ dec (sequence reply) +:+ " != "
                          +:+ dec (sequence request))) else
  if (status reply =? STATUS_BAD_STATE)
     && bytes_eqb (slice 0 1 (payload request)) [byte.of_Z MEMORY_WRITE]
  then Raise (ValueError ("memory write refused by active workload ownership policy; "
                          +:+ "only a Host-owned shared mailbox is writable")) else
  if negb (status reply =? STATUS_OK)
  then Raise (ValueError ("memory request failed with status " +:+ dec (status reply))) else
  if len (payload reply) <? memory_header_size
  then Raise (ValueError "memory reply is truncated") else
  if negb (bytes_eqb (slice 0 memory_header_size (payload reply))
             (slice 0 memory_header_size (payload request)))
  then Raise (ValueError "memory operation/address/length echo mismatch") else
  Ok (slice_from memory_header_size (payload reply)).

Definition parse_memory_read (reply request : Message) : result bytes :=
  data ← validate_memory_reply reply request;
  '(operation, (_, (length, tt))) ← unpack_from MEMORY_HEADER (payload reply) 0;
  if negb (operation =? MEMORY_READ) || negb (len data =? length)
  then Raise (ValueError "memory read reply length mismatch")
  else Ok data.

(** ** Dump *)

Definition hex_byte (b : byte) : string := hex_upper 2 (byte.unsigned b).
Definition dump_char (b : byte) : string :=
  if (32 <=? byte.unsigned b) && (byte.unsigned b <? 127) then of_octets [b] else "."%string.
Fixpoint spaces (n : nat) : string :=
  match n with O => EmptyString | S n => String " " (spaces n) end.
(** [f"{text:<n}"] *)
Definition pad_right (n : nat) (s : string) : string := s +:+ spaces (n - String.length s).

Definition dump_line (address offset : Z) (data : bytes) : string :=
  let chunk := slice offset (offset + 16) data in
  let hexadecimal := str_join " " (map hex_byte chunk) in
  let text := str_join "" (map dump_char chunk) in
  hex_upper 5 (address + offset) +:+ "  " +:+ pad_right 47 hexadecimal +:+ "  |" +:+ text +:+ "|".

(** [range(0, n, step)] for a positive step *)
Definition py_range (n step : Z) : list Z :=
  map (λ i, Z.of_nat i * step) (seq 0 (Z.to_nat ((n + step - 1) / step))).

Definition format_memory_dump (address : Z) (data : bytes) : string :=
  str_join (String "010"%char EmptyString)
    (map (λ offset, dump_line address offset data) (py_range (len data) 16)).

Example dump_sample :
  format_memory_dump 0x1000 (lit "Hello, RP86!" ++ [Byte.x00; Byte.x0a] ++ lit "0123") =
  ("01000  48 65 6C 6C 6F 2C 20 52 50 38 36 21 00 0A 30 31  |Hello, RP86!..01|" +:+
   String "010"%char EmptyString +:+
   "01010  32 33                                            |23|")%string.
Proof. vm_compute. reflexivity. Qed.

(** ** The abstract device *)

(** The address, the length and the data of a write record *)
Definition parse_write (p : bytes) : option (Z * bytes) :=
  match unpack_from MEMORY_HEADER p 0 with
  | Ok (operation, (address, (length, tt))) =>
      let data := slice_from memory_header_size p in
      if (operation =? MEMORY_WRITE) && (length =? len data) then Some (address, data) else None
  | Raise _ => None
  end.

(** The effect of one write record; [None] for a record the device refuses *)
Definition sram_write (m : memory) (r : Message) : option memory :=
  match parse_write (payload r) with
  | Some (address, data) =>
      if (message_type r =? TYPE_MEMORY_REQUEST)
         && (INTERNAL_SRAM_PROCESSOR_BASE <=? address) && (address + len data <=? memory_end)
      then Some (write_mem address data m) else None
  | None => None
  end.

Fixpoint sram_replay (m : memory) (records : list Message) : option memory :=
  match records with
  | [] => Some m
  | r :: records => match sram_write m r with Some m => sram_replay m records | None => None end
  end.

Lemma sram_replay_app m a b :
  sram_replay m (a ++ b)
  = match sram_replay m a with Some m => sram_replay m b | None => None end.
Proof.
  revert m. induction a as [|r a IH]; intros m; cbn [sram_replay app]; [done|].
  by destruct (sram_write m r).
Qed.

(** A record of the write loop: what it is and what it does *)
Definition write_payload (address : Z) (chunk : bytes) : bytes :=
  pack_bytes MEMORY_HEADER (MEMORY_WRITE, (address, (len chunk, tt))) ++ chunk.

Lemma write_header_fits address (chunk : bytes) :
  0 <= address < 2 ^ 32 → len chunk <= 40 →
  fits MEMORY_HEADER (MEMORY_WRITE, (address, (len chunk, tt))) = true.
Proof.
  intros. pose proof (len_nonneg chunk). cbn [fits MEMORY_HEADER fst snd].
  unfold in_width, MEMORY_WRITE. lia.
Qed.

Lemma parse_write_payload address chunk :
  0 <= address < 2 ^ 32 → len chunk <= 40 →
  parse_write (write_payload address chunk) = Some (address, chunk).
Proof.
  intros Ha Hc. unfold parse_write, write_payload.
  pose proof (unpack_from_pack _ _ _ [] chunk 0%nat
                (pack_ok _ _ (write_header_fits address chunk Ha Hc)) eq_refl) as Hu.
  cbn [app] in Hu. rewrite Hu. cbn [normal MEMORY_HEADER fst snd].
  rewrite slice_from_app by (unfold len; by rewrite length_pack_bytes).
  by rewrite !Z.eqb_refl.
Qed.

Lemma write_payload_len address chunk : len (write_payload address chunk) = 12 + len chunk.
Proof. unfold write_payload. rewrite len_app. unfold len at 1. by rewrite length_pack_bytes. Qed.

(** Every record of a write fits the protocol and stays inside the SRAM. *)
Definition write_record_ok : Message → bool := plain_request [TYPE_MEMORY_REQUEST].

(** The address range a record writes *)
Definition writes_within (lo hi : Z) (r : Message) : bool :=
  match parse_write (payload r) with
  | Some (address, data) => (lo <=? address) && (address + len data <=? hi)
  | None => false
  end.

Lemma writes_within_weaken lo hi lo' hi' records :
  lo' <= lo → hi <= hi' → forallb (writes_within lo hi) records = true →
  forallb (writes_within lo' hi') records = true.
Proof.
  intros Hl Hh. rewrite !forallb_forall. intros H r Hr. specialize (H r Hr).
  unfold writes_within in *. destruct (parse_write _) as [[??]|]; [lia|done].
Qed.

(** Records confined to a range leave everything outside it alone. *)
Lemma sram_replay_outside lo hi records m m' a n :
  forallb (writes_within lo hi) records = true → sram_replay m records = Some m' →
  a + Z.of_nat n <= lo ∨ hi <= a → read_mem a n m' = read_mem a n m.
Proof.
  intros Hw Hr Ha. revert m Hw Hr. induction records as [|r records IH]; intros m; cbn.
  { by intros _ [= ->]. }
  intros Hw Hr. apply andb_prop in Hw as [Hw Hws].
  destruct (sram_write m r) as [m1|] eqn:H1; [|done].
  rewrite (IH m1 Hws Hr). unfold sram_write, writes_within in *.
  destruct (parse_write _) as [[address data]|]; [|done].
  case_match; simplify_eq. pose proof (len_nonneg data).
  apply read_mem_outside. lia.
Qed.

Lemma memory_write_loop_spec fuel address done rest sequence m :
  0 <= address → address + len (done ++ rest) <= memory_end → (length rest ≤ fuel)%nat →
  ∃ records,
    memory_write_loop fuel address (done ++ rest) (len done) sequence = Ok records
    ∧ sram_replay m records = Some (write_mem (address + len done) rest m)
    ∧ chain next_seq sequence (map Protocol.sequence records) = true
    ∧ forallb write_record_ok records = true
    ∧ (rest ≠ [] → records ≠ [])
    ∧ forallb (writes_within (address + len done) (address + len (done ++ rest))) records = true.
Proof.
  revert done rest sequence m. induction fuel as [|fuel IH]; intros done rest sequence m Ha He Hf.
  { destruct rest; [|cbn in Hf; lia]. by exists []. }
  cbn [memory_write_loop]. rewrite len_app in He |- *. unfold memory_end in He.
  pose proof (len_nonneg done). pose proof (len_nonneg rest).
  destruct (len done <? len done + len rest) eqn:Hlt.
  2:{ assert (rest = []) as -> by (apply len_zero; lia). by exists []. }
  assert (rest ≠ []) as Hr by (intros ->; rewrite len_nil in Hlt; lia).
  rewrite (slice_chunk done rest 40) by (unfold MEMORY_DATA_BYTES; lia).
  change (Z.to_nat 40) with 40%nat. set (chunk := take 40 rest).
  pose proof (len_take_le 40 rest : len chunk <= 40) as Hc.
  pose proof (len_take_pos 40 rest ltac:(lia) Hr : 0 < len chunk) as Hc0.
  pose proof (take_drop_len 40 rest) as Hsum. fold chunk in Hsum.
  pose proof (len_nonneg (drop 40 rest)).
  assert (0 <= address + len done < 2 ^ 32) as Hw
    by (unfold INTERNAL_SRAM_PROCESSOR_BASE, INTERNAL_SRAM_PROCESSOR_SIZE in *; lia).
  rewrite pack_ok by (by apply write_header_fits). cbn [mbind result_bind].
  destruct (IH (done ++ chunk) (drop 40 rest) (next_seq sequence)
              (write_mem (address + len done) chunk m))
    as (records & Hl & Hp & Hs & Ho & _ & Hb).
  { done. }
  { rewrite !len_app. unfold memory_end. lia. }
  { rewrite length_drop. unfold len in *. lia. }
  rewrite <- app_assoc, len_app in Hl, Hb. unfold chunk in Hl at 1. rewrite take_drop in Hl.
  rewrite Hl. cbn [mbind result_bind]. eexists. split; [reflexivity|].
  fold (write_payload (address + len done) chunk). split.
  { cbn [sram_replay]. unfold sram_write. cbn [payload message_type request_message].
    rewrite parse_write_payload by done. unfold memory_end.
    unfold INTERNAL_SRAM_PROCESSOR_BASE, INTERNAL_SRAM_PROCESSOR_SIZE in *.
    rewrite Z.eqb_refl. guard_true.
    rewrite Hp, len_app, Z.add_assoc, <- write_mem_app. unfold chunk. by rewrite take_drop. }
  cbn [map chain forallb Protocol.sequence request_message]. rewrite Z.eqb_refl, Hs, Ho.
  split; [done|]. split; [|split; [done|]].
  2:{ unfold writes_within at 1. cbn [payload request_message].
      rewrite parse_write_payload by done.
      erewrite writes_within_weaken; [|..|exact Hb]; rewrite ?len_app; lia. }
  unfold write_record_ok, plain_request, z_in.
  cbn [existsb payload message_type version flags status request_message].
  rewrite write_payload_len. unfold PAYLOAD_SIZE. lia.
Qed.

Lemma memory_write_records_spec address data first m :
  INTERNAL_SRAM_PROCESSOR_BASE <= address → data ≠ [] → address + len data <= memory_end →
  ∃ records,
    memory_write_records address data first = Ok records
    ∧ sram_replay m records = Some (write_mem address data m)
    ∧ chain next_seq first (map sequence records) = true
    ∧ forallb write_record_ok records = true
    ∧ records ≠ []
    ∧ forallb (writes_within address (address + len data)) records = true.
Proof.
  intros Ha Hd He. unfold memory_write_records, check_address.
  unfold memory_end, INTERNAL_SRAM_PROCESSOR_BASE, INTERNAL_SRAM_PROCESSOR_SIZE in *.
  assert (0 < len data) as Hpos
    by (destruct data; [done|]; rewrite len_cons; pose proof (len_nonneg data); lia).
  guard_false. cbn [mbind result_bind]. unfold truthy. guard_false.
  destruct (memory_write_loop_spec (length data) address [] data first m)
    as (records & Hl & Hp & Hs & Ho & Hn & Hb); [done|done|done|].
  rewrite len_nil, Z.add_0_r in Hp, Hb. exists records. auto 10.
Qed.

Lemma memory_write_loop_done fuel address data offset seq :
  len data <= offset → memory_write_loop fuel address data offset seq = Ok [].
Proof. intros. destruct fuel; cbn [memory_write_loop]; [done|]. by guard_false. Qed.

(** A write of at most one record's worth of data is one record. *)
Lemma memory_write_single address data first records :
  memory_write_records address data first = Ok records → len data <= 40 →
  records = [request_message TYPE_MEMORY_REQUEST first (write_payload address data)].
Proof.
  unfold memory_write_records, truthy. intros H Hl. py_inv.
  assert (slice 0 (0 + MEMORY_DATA_BYTES) data = data) as Hs.
  { unfold slice, MEMORY_DATA_BYTES. cbn [drop]. apply take_ge. unfold len in Hl. lia. }
  destruct (length data) eqn:Hn; [unfold len in *; lia|]. cbn [memory_write_loop] in *.
  rewrite Hs, memory_write_loop_done, (proj2 (Z.ltb_lt 0 (len data))), Z.add_0_r in *
    by (unfold len in *; lia).
  py_inv. unfold pack in *. by py_inv.
Qed.

(** When the records of a write also have a 32-bit first sequence, the
    protocol encodes every one of them. *)
Lemma write_records_encodable first records :
  u32 first → chain next_seq first (map sequence records) = true →
  forallb write_record_ok records = true → Forall (λ r, message_ok r = true) records.
Proof.
  intros Hf Hc Ho. apply (plain_requests_ok [TYPE_MEMORY_REQUEST]); [done|done|].
  exact (chain_u32 _ _ Hf Hc).
Qed.

(** A record of [memory_write_records] *)
Definition is_write_record (r : Message) : Prop :=
  ∃ address chunk seq, 0 <= address < 2 ^ 32 ∧ len chunk <= 40
    ∧ r = request_message TYPE_MEMORY_REQUEST seq (write_payload address chunk).

Lemma memory_write_loop_shape fuel address data offset seq records :
  0 <= offset → memory_write_loop fuel address data offset seq = Ok records →
  Forall is_write_record records.
Proof.
  revert offset seq records. induction fuel as [|fuel IH]; intros offset seq records Ho;
    cbn [memory_write_loop]; intros H; [py_inv; constructor|].
  destruct (offset <? len data); [|py_inv; constructor].
  apply bind_ok in H as (head & Hp & H). apply bind_ok in H as (rest & Hrest & H). py_inv.
  unfold pack in Hp. py_inv. rename select (fits _ _ = true) into Hf.
  cbn [fits MEMORY_HEADER fst snd] in Hf. unfold in_width in Hf. py_inv. constructor.
  - exists (address + offset), (slice offset (offset + MEMORY_DATA_BYTES) data), seq.
    split; [lia|]. split; [|reflexivity].
    unfold slice, MEMORY_DATA_BYTES, len. rewrite length_take. lia.
  - eapply IH; [|exact Hrest].
    pose proof (len_nonneg (slice offset (offset + MEMORY_DATA_BYTES) data)). lia.
Qed.

Lemma memory_write_records_shape address data first records :
  memory_write_records address data first = Ok records → Forall is_write_record records.
Proof.
  unfold memory_write_records. intros H. apply bind_ok in H as (? & _ & H).
  destruct (_ || _); [done|]. eapply memory_write_loop_shape; [|exact H]. lia.
Qed.

(** The echo of a write record is accepted. *)
Lemma validate_write_reply address chunk seq :
  0 <= address < 2 ^ 32 → len chunk <= 40 →
  let request := request_message TYPE_MEMORY_REQUEST seq (write_payload address chunk) in
  let echo := slice 0 memory_header_size (write_payload address chunk) in
  validate_memory_reply (mkMessage TYPE_MEMORY_RESULT seq echo 0 STATUS_OK PROTOCOL_VERSION) request
  = Ok [].
Proof.
  intros Ha Hc request echo. unfold validate_memory_reply.
  cbn [message_type sequence status payload request request_message]. rewrite !Z.eqb_refl.
  cbn [negb andb Z.eqb STATUS_OK STATUS_BAD_STATE].
  assert (len echo = memory_header_size) as Hl.
  { unfold echo. rewrite len_slice; [lia|done|done|].
    rewrite write_payload_len. pose proof (len_nonneg chunk).
    change memory_header_size with 12. lia. }
  rewrite Hl, Z.ltb_irrefl.
  rewrite (slice_all _ echo) by lia. fold echo. rewrite bytes_eqb_refl. cbn [negb].
  assert (slice_from memory_header_size echo = []) as ->; [|done].
  apply len_zero. rewrite len_slice_from; [lia|done|lia].
Qed.

(** ** Theorems *)

(** a memory write that fits the Internal SRAM becomes a burst of
    encodable records with consecutive non-zero sequences whose replay on the
    device stores exactly [data] at [address] and changes nothing else; an
    empty write or one that leaves the SRAM is refused with [ValueError]. *)
Theorem memory_write_replay address data first m :
  (INTERNAL_SRAM_PROCESSOR_BASE <= address → data ≠ [] → address + len data <= memory_end →
   u32 first →
     ∃ records, memory_write_records address data first = Ok records
       ∧ Forall (λ r, message_ok r = true) records
       ∧ chain next_seq first (map sequence records) = true
       ∧ ∃ m', sram_replay m records = Some m'
          ∧ read_mem address (length data) m' = Some data
          ∧ ∀ x, x < address ∨ address + len data <= x → m' !! x = m !! x)
  ∧ (address < INTERNAL_SRAM_PROCESSOR_BASE ∨ data = [] ∨ memory_end < address + len data →
     ∃ msg, memory_write_records address data first = Raise (ValueError msg)).
Proof.
  split.
  - intros Ha Hd He Hf.
    destruct (memory_write_records_spec address data first m Ha Hd He)
      as (records & Hr & Hp & Hc & Ho & _ & _).
    exists records. split; [done|]. split; [by eapply write_records_encodable|]. split; [done|].
    eexists. split; [exact Hp|]. split; [apply read_write_mem|].
    intros x Hx. by apply write_mem_outside.
  - intros Hbad. unfold memory_write_records, check_address.
    destruct (negb (_ && _)) eqn:Hin; cbn [mbind result_bind]; [by eexists|]. unfold truthy.
    assert (negb (negb (len data =? 0)) || (memory_end <? address + len data) = true) as ->.
    { destruct Hbad as [?| [->|?]]; [lia|done|lia]. }
    by eexists.
Qed.

Lemma read_request_inv address length seq request :
  memory_read_request address length seq = Ok request →
  0 <= address ∧ 1 <= length <= 40 ∧ address + length <= memory_end
  ∧ request = request_message TYPE_MEMORY_REQUEST seq
                (pack_bytes MEMORY_HEADER (MEMORY_READ, (address, (length, tt)))).
Proof.
  unfold memory_read_request, check_address. intros. py_inv. unfold pack in *. py_inv.
  unfold INTERNAL_SRAM_PROCESSOR_BASE, MEMORY_DATA_BYTES in *. split; [lia|]. split; [lia|].
  split; [lia|done].
Qed.

Lemma read_request_unpack address length data :
  0 <= address → 1 <= length <= 40 → address + length <= memory_end →
  unpack_from MEMORY_HEADER
    (pack_bytes MEMORY_HEADER (MEMORY_READ, (address, (length, tt))) ++ data) 0
  = Ok (MEMORY_READ, (address, (length, tt))).
Proof.
  unfold memory_end, INTERNAL_SRAM_PROCESSOR_BASE, INTERNAL_SRAM_PROCESSOR_SIZE. intros.
  assert (fits MEMORY_HEADER (MEMORY_READ, (address, (length, tt))) = true) as Hf.
  { cbn [fits MEMORY_HEADER fst snd]. unfold in_width, MEMORY_READ. lia. }
  exact (unpack_from_pack _ _ _ [] data 0%nat (pack_ok _ _ Hf) eq_refl).
Qed.

Lemma write_refused_read address length rest :
  bytes_eqb (slice 0 1 (pack_bytes MEMORY_HEADER (MEMORY_READ, (address, (length, tt))) ++ rest))
    [byte.of_Z MEMORY_WRITE] = false.
Proof.
  cbn [pack_bytes MEMORY_HEADER fst snd]. rewrite <- app_assoc.
  rewrite slice_app_l by (unfold len; by rewrite length_le_split).
  by vm_compute.
Qed.

Lemma memory_read_iff address length seq request reply data :
  memory_read_request address length seq = Ok request →
  parse_memory_read reply request = Ok data
  ↔ message_type reply = TYPE_MEMORY_RESULT ∧ sequence reply = seq ∧ status reply = STATUS_OK
    ∧ payload reply = payload request ++ data ∧ len data = length.
Proof.
  intros Hreq. apply read_request_inv in Hreq as (Ha & Hlen & He & ->).
  unfold parse_memory_read, validate_memory_reply.
  cbn [sequence payload request_message].
  set (header := pack_bytes MEMORY_HEADER (MEMORY_READ, (address, (length, tt)))).
  assert (len header = memory_header_size) as Hh
    by (unfold len, memory_header_size, header; by rewrite length_pack_bytes).
  pose proof (write_refused_read address length []) as Hw. fold header in Hw.
  assert (slice 0 memory_header_size header = header) as Hs
    by (rewrite <- (app_nil_r header) at 1; by apply slice_app_l).
  rewrite app_nil_r in Hw. rewrite Hw, andb_false_r, Hs. split.
  - intros H. py_inv. rename select (bytes_eqb _ _ = true) into Hb. apply bytes_eqb_eq in Hb.
    pose proof (slice_split memory_header_size (payload reply)) as Hp. rewrite Hb in Hp.
    match goal with H : context [unpack_from] |- _ => rename H into Hu end.
    rewrite <- Hp, read_request_unpack in Hu by done. py_inv.
    split; [lia|]. split; [lia|]. split; [lia|]. split; [done|lia].
  - intros (-> & -> & -> & Hp & Hd). rewrite !Z.eqb_refl, Hp, len_app. cbn [negb].
    pose proof (len_nonneg data). guard_false.
    rewrite slice_app_l, bytes_eqb_refl, slice_from_app by done. cbn [negb mbind result_bind].
    unfold header. rewrite read_request_unpack by done. cbn [mbind result_bind].
    rewrite Hd, !Z.eqb_refl. done.
Qed.

(** a memory read returns data exactly when the reply has the result type,
    the request's sequence, status OK, and echoes the request's operation,
    address and length in front of exactly that many bytes; so the data always
    belongs to the address and the length that were asked for. *)
Theorem parse_memory_read_spec address length seq request reply data :
  memory_read_request address length seq = Ok request →
  parse_memory_read reply request = Ok data
  ↔ message_type reply = TYPE_MEMORY_RESULT ∧ sequence reply = seq ∧ status reply = STATUS_OK
    ∧ payload reply = payload request ++ data ∧ len data = length.
Proof. apply memory_read_iff. Qed.

Example parse_memory_read_spec_witness :
  let request := request_message TYPE_MEMORY_REQUEST 9
                   (pack_bytes MEMORY_HEADER (MEMORY_READ, (0x1000, (2, tt)))) in
  let reply := mkMessage TYPE_MEMORY_RESULT 9 (payload request ++ [Byte.x01; Byte.x02]) 0 0 1 in
  memory_read_request 0x1000 2 9 = Ok request
  ∧ parse_memory_read reply request = Ok [Byte.x01; Byte.x02].
Proof.
  intros request reply.
  assert (memory_read_request 0x1000 2 9 = Ok request) as H by (vm_compute; reflexivity).
  split; [exact H|].
  apply (parse_memory_read_spec 0x1000 2 9 request reply [Byte.x01; Byte.x02] H).
  repeat split.
Defined.
