(* ===== verification/Mailbox.v ===== *)
(** * The shared mailbox (host/rp86/mailbox.py)

    The owner-transfer mailbox in the Internal SRAM: its header codec and the
    burst of memory writes that commits a request.  The main theorem is the
    publication discipline: however far the burst gets, the processor does not
    see the mailbox handed over before its data and its metadata are complete. *)

From S2P Require Import Prelude Struct PyText Protocol Memory.

Definition MAILBOX_BASE : Z := SHARED_MAILBOX_BASE.
Definition MAILBOX_SIZE : Z := SHARED_MAILBOX_SIZE.
Definition MAILBOX_DATA_OFFSET : Z := 32.
Definition MAILBOX_DATA_SIZE : Z := MAILBOX_SIZE - MAILBOX_DATA_OFFSET.
Definition MAILBOX_MAGIC : bytes := lit "R86M".
Definition MAILBOX_VERSION : Z := 1.
Definition OWNER_HOST : Z := 1.
Definition OWNER_PROCESSOR : Z := 2.
Definition STATUS_EMPTY : Z := 0.
Definition STATUS_REQUEST_READY : Z := 1.
Definition STATUS_PROCESSING : Z := 2.
Definition STATUS_RESULT_READY : Z := 3.
Definition STATUS_ERROR : Z := 4.
Definition MAILBOX_FORMAT : list field := [Fs 4; FH; FH; FH; FH; FI; FH; FH; FI; FI; FI].
Definition mailbox_header_size : Z := Z.of_nat (calcsize MAILBOX_FORMAT).

Record MailboxHeader := mkMailbox {
  mb_owner : Z;
  mb_status : Z;
  mb_generation : Z;
  request_length : Z;
  response_length : Z;
  mb_flags : Z;
}.

Definition mailbox_decode (data : bytes) : result MailboxHeader :=
  if negb (len data =? mailbox_header_size)
  then Raise (ValueError "shared mailbox header is truncated") else
  '(magic, (version, (size, (owner, (status, (generation, (request_length,
    (response_length, (flags, (reserved0, (reserved1, tt))))))))))) ← unpack MAILBOX_FORMAT data;
  if negb (bytes_eqb magic MAILBOX_MAGIC) || negb (version =? MAILBOX_VERSION)
     || negb (size =? mailbox_header_size)
  then Raise (ValueError "shared mailbox header ABI mismatch") else
  if negb (reserved0 =? 0) || negb (reserved1 =? 0)
  then Raise (ValueError "shared mailbox reserved fields are not zero") else
  if (MAILBOX_DATA_SIZE <? request_length) || (MAILBOX_DATA_SIZE <? response_length)
  then Raise (ValueError "shared mailbox length exceeds its data area") else
  Ok (mkMailbox owner status generation request_length response_length flags).

(** [(records[-1].sequence + 1) & 0xFFFFFFFF or 1] *)
Definition after_last (records : list Message) : result Z :=
  match last records with Some r => Ok (next_seq (sequence r)) | None => Raise IndexError end.

Definition mailbox_commit_records (data : bytes) (generation first_sequence : Z)
  : result (list Message) :=
  if negb (truthy (len data)) || (MAILBOX_DATA_SIZE <? len data)
  then Raise (ValueError ("mailbox request must contain 1-" +:+ dec MAILBOX_DATA_SIZE +:+ " bytes")) else
  header ← pack MAILBOX_FORMAT
    (MAILBOX_MAGIC, (MAILBOX_VERSION, (mailbox_header_size, (OWNER_HOST, (STATUS_REQUEST_READY,
     (generation, (len data, (0, (0, (0, (0, tt)))))))))));
  records ← memory_write_records (MAILBOX_BASE + MAILBOX_DATA_OFFSET) data first_sequence;
  sequence ← after_last records;
  header_records ← memory_write_records MAILBOX_BASE header sequence;
  let records := records ++ header_records in
  sequence ← after_last records;
  owner ← pack [FH] (OWNER_PROCESSOR, tt);
  owner_records ← memory_write_records (MAILBOX_BASE + 8) owner sequence;
  Ok (records ++ owner_records).

Example mailbox_sizes : mailbox_header_size = MAILBOX_DATA_OFFSET.
Proof. reflexivity. Qed.

(** ** The mailbox as the processor sees it *)

Definition mailbox_owner (m : memory) : option Z :=
  option_map le_combine (read_mem (MAILBOX_BASE + 8) 2 m).

(** The header split around its owner field *)
Definition header_front : bytes := pack_bytes [Fs 4; FH; FH]
  (MAILBOX_MAGIC, (MAILBOX_VERSION, (mailbox_header_size, tt))).
Definition header_back (generation length : Z) : bytes := pack_bytes [FH; FI; FH; FH; FI; FI; FI]
  (STATUS_REQUEST_READY, (generation, (length, (0, (0, (0, (0, tt))))))).
Definition header_values (owner generation length : Z) : fvals MAILBOX_FORMAT :=
  (MAILBOX_MAGIC, (MAILBOX_VERSION, (mailbox_header_size, (owner, (STATUS_REQUEST_READY,
     (generation, (length, (0, (0, (0, (0, tt))))))))))).

Lemma header_split owner generation length :
  pack_bytes MAILBOX_FORMAT (header_values owner generation length)
  = header_front ++ le_split 2 owner ++ header_back generation length.
Proof.
  unfold header_front, header_back.
  cbn [pack_bytes MAILBOX_FORMAT header_values fst snd]. by rewrite !app_nil_r, <- !app_assoc.
Qed.

Lemma header_front_len : len header_front = 8.
Proof. unfold header_front, len. by rewrite length_pack_bytes. Qed.
Lemma header_back_len generation length : len (header_back generation length) = 22.
Proof. unfold header_back, len. by rewrite length_pack_bytes. Qed.
Lemma owner_len owner : len (le_split 2 owner) = 2.
Proof. unfold len. by rewrite length_le_split. Qed.

Lemma header_values_fit owner generation length :
  u16 owner → u32 generation → 0 <= length <= MAILBOX_DATA_SIZE →
  fits MAILBOX_FORMAT (header_values owner generation length) = true.
Proof.
  unfold MAILBOX_DATA_SIZE, MAILBOX_SIZE, SHARED_MAILBOX_SIZE, MAILBOX_DATA_OFFSET. intros Ho Hg Hl.
  cbn [fits MAILBOX_FORMAT header_values fst snd]. rewrite Ho, Hg.
  unfold in_width, MAILBOX_VERSION, mailbox_header_size, STATUS_REQUEST_READY.
  cbn [calcsize MAILBOX_FORMAT fwidth]. lia.
Qed.

Lemma header_decode owner generation length :
  u16 owner → u32 generation → 0 <= length <= MAILBOX_DATA_SIZE →
  mailbox_decode (pack_bytes MAILBOX_FORMAT (header_values owner generation length))
  = Ok (mkMailbox owner STATUS_REQUEST_READY generation length 0 0).
Proof.
  intros Ho Hg Hl. unfold mailbox_decode, len at 1. rewrite length_pack_bytes, Z.eqb_refl.
  cbn [negb].
  rewrite (unpack_pack _ _ _ (pack_ok _ _ (header_values_fit _ _ _ Ho Hg Hl))).
  cbn [mbind result_bind normal MAILBOX_FORMAT header_values fst snd].
  rewrite pad_to_exact, bytes_eqb_refl, !Z.eqb_refl by done. cbn [negb orb].
  change (MAILBOX_DATA_SIZE <? 0) with false. by guard_false.
Qed.

(** Writing the header leaves the owner field it contains. *)
Lemma owner_of_header owner generation length m :
  u16 owner →
  mailbox_owner (write_mem MAILBOX_BASE
    (pack_bytes MAILBOX_FORMAT (header_values owner generation length)) m) = Some owner.
Proof.
  intros Ho. unfold mailbox_owner. rewrite header_split, !write_mem_app, header_front_len, owner_len.
  rewrite read_mem_outside by lia.
  pose proof (read_write_mem (MAILBOX_BASE + 8) (le_split 2 owner)
    (write_mem MAILBOX_BASE header_front m)) as Hr.
  rewrite length_le_split in Hr. rewrite Hr. cbn [option_map].
  by rewrite le_round by (unfold in_width in Ho; lia).
Qed.

(** Overwriting the owner field changes the header in that field only. *)
Lemma header_with_owner owner owner' generation length m :
  read_mem MAILBOX_BASE 32
    (write_mem (MAILBOX_BASE + 8) (le_split 2 owner')
      (write_mem MAILBOX_BASE
        (pack_bytes MAILBOX_FORMAT (header_values owner generation length)) m))
  = Some (pack_bytes MAILBOX_FORMAT (header_values owner' generation length)).
Proof.
  rewrite !header_split, !write_mem_app, header_front_len, owner_len.
  apply (read_mem_app MAILBOX_BASE 8 24).
  { rewrite !read_mem_outside by (rewrite ?owner_len, ?header_back_len; lia).
    exact (read_write_mem MAILBOX_BASE header_front m). }
  change (Z.of_nat 8) with 8.
  apply (read_mem_app (MAILBOX_BASE + 8) 2 22).
  { pose proof (read_write_mem (MAILBOX_BASE + 8) (le_split 2 owner')) as Hr.
    rewrite length_le_split in Hr. apply Hr. }
  change (Z.of_nat 2) with 2. rewrite read_mem_outside by (rewrite owner_len; lia).
  pose proof (read_write_mem (MAILBOX_BASE + 8 + 2) (header_back generation length)) as Hr.
  assert (Datatypes.length (header_back generation length) = 22%nat) as Hl
    by (unfold header_back; by rewrite length_pack_bytes).
  rewrite Hl in Hr. apply Hr.
Qed.

Lemma after_last_next first records :
  records ≠ [] → after_last records = Ok (chain_next next_seq first (map sequence records)).
Proof.
  intros Hn. unfold after_last, chain_next. rewrite fmap_last.
  destruct (last records) eqn:E; [done|]. by apply last_None in E.
Qed.

Lemma single_write address data seq m :
  INTERNAL_SRAM_PROCESSOR_BASE <= address → 0 < len data <= 40 → address + len data <= memory_end →
  let r := request_message TYPE_MEMORY_REQUEST seq (write_payload address data) in
  memory_write_records address data seq = Ok [r]
  ∧ sram_write m r = Some (write_mem address data m) ∧ write_record_ok r = true.
Proof.
  intros Ha Hl He r.
  destruct (memory_write_records_spec address data seq m) as (records & Hr & Hp & _ & Ho & _ & _);
    [done|apply len_pos_ne; lia|done|].
  pose proof (memory_write_single _ _ _ _ Hr ltac:(lia)) as ->. fold r in Hr, Hp, Ho |- *.
  split; [done|]. cbn [sram_replay forallb] in Hp, Ho. rewrite andb_true_r in Ho.
  split; [|done]. by destruct (sram_write m r).
Qed.

(** The three parts of a commit: data records, the header record, the owner record *)
Lemma commit_shape data generation first m :
  0 < len data <= MAILBOX_DATA_SIZE → u32 generation →
  let header := pack_bytes MAILBOX_FORMAT (header_values OWNER_HOST generation (len data)) in
  ∃ area h o,
    mailbox_commit_records data generation first = Ok ((area ++ [h]) ++ [o])
    ∧ chain next_seq first (map sequence ((area ++ [h]) ++ [o])) = true
    ∧ forallb write_record_ok ((area ++ [h]) ++ [o]) = true
    ∧ sram_replay m area = Some (write_mem (MAILBOX_BASE + 32) data m)
    ∧ forallb (writes_within (MAILBOX_BASE + 32) (MAILBOX_BASE + 32 + len data)) area = true
    ∧ (∀ m, sram_write m h = Some (write_mem MAILBOX_BASE header m))
    ∧ (∀ m, sram_write m o = Some (write_mem (MAILBOX_BASE + 8) (le_split 2 OWNER_PROCESSOR) m)).
Proof.
  intros Hd Hg header. assert (len header = 32) as Hh
    by (unfold len, header; by rewrite length_pack_bytes).
  pose proof (header_values_fit OWNER_HOST generation (len data) eq_refl Hg ltac:(lia)) as Hf.
  unfold MAILBOX_DATA_SIZE in Hd.
  assert (memory_end = MAILBOX_BASE + MAILBOX_SIZE) as Hend by reflexivity.
  assert (MAILBOX_BASE = 0x3F000 ∧ MAILBOX_SIZE = 0x1000 ∧ INTERNAL_SRAM_PROCESSOR_BASE = 0)
    as (HB & HS & HZ) by done.
  destruct (memory_write_records_spec (MAILBOX_BASE + MAILBOX_DATA_OFFSET) data first m)
    as (area & Ha & Hp & Hc & Ho & Hn & Hw); unfold MAILBOX_DATA_OFFSET in *; try lia.
  { apply len_pos_ne. lia. }
  set (s1 := chain_next next_seq first (map sequence area)).
  pose proof (λ m, single_write MAILBOX_BASE header s1 m ltac:(lia) ltac:(lia) ltac:(lia)) as H1.
  set (h := request_message TYPE_MEMORY_REQUEST s1 (write_payload MAILBOX_BASE header)) in *.
  set (s2 := chain_next next_seq first (map sequence (area ++ [h]))).
  pose proof (λ m, single_write (MAILBOX_BASE + 8) (le_split 2 OWNER_PROCESSOR) s2 m
    ltac:(lia) ltac:(rewrite owner_len; lia) ltac:(rewrite owner_len; lia)) as H2.
  set (o := request_message TYPE_MEMORY_REQUEST s2
              (write_payload (MAILBOX_BASE + 8) (le_split 2 OWNER_PROCESSOR))) in *.
  assert (chain next_seq first (map sequence (area ++ [h])) = true) as Hc1.
  { rewrite map_app. apply chain_app; [done|]. cbn [map chain h request_message sequence].
    by rewrite Z.eqb_refl. }
  exists area, h, o. split; [|split; [|split; [|split; [done|split; [done|split]]]]].
  - unfold mailbox_commit_records, truthy. unfold MAILBOX_DATA_SIZE, MAILBOX_DATA_OFFSET. guard_false.
    fold (header_values OWNER_HOST generation (len data)). rewrite (pack_ok MAILBOX_FORMAT) by done.
    cbn [mbind result_bind]. fold header. rewrite Ha. cbn [mbind result_bind].
    rewrite (after_last_next first) by done. cbn [mbind result_bind]. fold s1.
    rewrite (proj1 (H1 m)). cbn [mbind result_bind].
    rewrite (after_last_next first) by (by destruct area). cbn [mbind result_bind]. fold s2.
    rewrite pack_ok by done. cbn [mbind result_bind pack_bytes fst snd]. rewrite app_nil_r.
    by rewrite (proj1 (H2 m)).
  - rewrite map_app. apply chain_app; [done|]. cbn [map chain o request_message sequence].
    by rewrite Z.eqb_refl.
  - rewrite !forallb_app, Ho. cbn [forallb].
    by rewrite (proj2 (proj2 (H1 m))), (proj2 (proj2 (H2 m))).
  - intros m'. apply (H1 m').
  - intros m'. apply (H2 m').
Qed.

(** A proper prefix of [area ++ [h] ++ [o]] is a prefix of the area or all but the last. *)
Lemma take_commit {A} k (area : list A) h o :
  (k < length ((area ++ [h]) ++ [o]))%nat →
  take k ((area ++ [h]) ++ [o]) = take k area ∨ take k ((area ++ [h]) ++ [o]) = area ++ [h].
Proof.
  rewrite !length_app. cbn. intros Hk. destruct (decide (k ≤ length area)%nat).
  - left. rewrite <- app_assoc, take_app_le by lia. done.
  - right. replace k with (length (area ++ [h])) by (rewrite length_app; cbn; lia).
    apply take_app_length.
Qed.

Lemma sram_replay_prefix m a b m' :
  sram_replay m (a ++ b) = Some m' → ∃ m1, sram_replay m a = Some m1.
Proof. rewrite sram_replay_app. destruct (sram_replay m a); [by eauto|done]. Qed.

(** C30: committing a mailbox request publishes atomically.  The burst is
    encodable with consecutive sequences; after any proper prefix of it a
    mailbox that the Host owned is still owned by the Host; after the whole
    burst the header decodes to a ready request of the given generation and
    length, owned by the processor, and the data area holds the data. *)
Theorem mailbox_commit_atomic data generation first m :
  0 < len data <= MAILBOX_DATA_SIZE → u32 generation → u32 first →
  ∃ records, mailbox_commit_records data generation first = Ok records
    ∧ Forall (λ r, message_ok r = true) records
    ∧ chain next_seq first (map sequence records) = true
    ∧ (∀ k, (k < length records)%nat → ∃ m', sram_replay m (take k records) = Some m'
         ∧ (mailbox_owner m = Some OWNER_HOST → mailbox_owner m' = Some OWNER_HOST))
    ∧ ∃ m' header, sram_replay m records = Some m'
         ∧ read_mem MAILBOX_BASE 32 m' = Some header
         ∧ mailbox_decode header
           = Ok (mkMailbox OWNER_PROCESSOR STATUS_REQUEST_READY generation (len data) 0 0)
         ∧ read_mem (MAILBOX_BASE + MAILBOX_DATA_OFFSET) (length data) m' = Some data.
Proof.
  intros Hd Hg Hf.
  destruct (commit_shape data generation first m Hd Hg)
    as (area & h & o & Hr & Hc & Ho & Ha & Hw & Hh & Hp).
  exists ((area ++ [h]) ++ [o]). split; [done|].
  split; [by eapply write_records_encodable|]. split; [done|]. split.
  - intros k Hk. destruct (take_commit k area h o Hk) as [->| ->].
    + destruct (sram_replay_prefix m (take k area) (drop k area)
        (write_mem (MAILBOX_BASE + 32) data m)) as [m' Hm']; [by rewrite take_drop|].
      exists m'. split; [done|]. unfold mailbox_owner.
      rewrite (sram_replay_outside (MAILBOX_BASE + 32) (MAILBOX_BASE + 32 + len data)
                 _ m _ _ _ (forallb_take _ _ _ Hw) Hm') by lia. done.
    + rewrite sram_replay_app, Ha. cbn [sram_replay]. rewrite Hh. eexists. split; [done|].
      intros _. by apply owner_of_header.
  - rewrite !sram_replay_app, Ha. cbn [sram_replay]. rewrite Hh, Hp. eexists _, _. split; [done|].
    split; [apply header_with_owner|]. split; [apply header_decode; [done|done|lia]|].
    unfold MAILBOX_DATA_OFFSET.
    rewrite read_mem_outside by (rewrite owner_len; lia).
    rewrite read_mem_outside; [apply read_write_mem|].
    right. unfold len. rewrite length_pack_bytes. cbn. lia.
Qed.

Example mailbox_commit_atomic_witness :
  ∃ records, mailbox_commit_records (lit "ping") 3 0xFFFFFFFF = Ok records
    ∧ map sequence records = [0xFFFFFFFF; 1; 2] ∧ Forall (λ r, message_ok r = true) records.
Proof.
  destruct (mailbox_commit_atomic (lit "ping") 3 0xFFFFFFFF ∅) as (records & Hr & Ho & Hc & _);
    [vm_compute; split; [reflexivity|discriminate]|reflexivity|reflexivity|].
  exists records. split; [exact Hr|]. split; [|exact Ho].
  vm_compute in Hr. injection Hr as <-. reflexivity.
Defined.
