(* ===== verification/Workload.v ===== *)
(** * Workload images and their upload (host/rp86/workload.py)

    The flat workload manifest and file format, the fixed-record upload
    transaction, the [load] command's options, the control record and the
    structured status payload.  [crc32] is zlib's, executable.  The theorems
    show what a validated manifest guarantees, that the file format is a
    bijection, that a device which follows the upload protocol reassembles the
    image, and that the [load] command can only fail with [ValueError]. *)

From S2P Require Import Prelude Struct PyText Protocol.
From Stdlib Require Import Ascii.

(** ** [zlib.crc32] *)

Definition crc_bit (c : Z) : Z :=
  if Z.odd c then Z.lxor (Z.shiftr c 1) 0xEDB88320 else Z.shiftr c 1.
Definition crc_byte (c : Z) (b : byte) : Z := Nat.iter 8 crc_bit (Z.lxor c (byte.unsigned b)).
Definition crc32 (data : bytes) : Z := Z.lxor (fold_left crc_byte data 0xFFFFFFFF) 0xFFFFFFFF.

Example crc32_check : crc32 (lit "123456789") = 0xCBF43926.
Proof. vm_compute. reflexivity. Qed.
Example crc32_empty : crc32 [] = 0.
Proof. vm_compute. reflexivity. Qed.

(** ** Constants *)

Definition MAGIC : Z := 0x57363850.
Definition FORMAT_VERSION : Z := 1.
Definition PROCESSOR_ADDRESS_SPACE_SIZE : Z := 0x100000.
Definition FLAG_PERSISTENT : Z := 1.
Definition FLAG_STDIO : Z := 2.
Definition FLAG_SHARED_MEMORY : Z := 4.
Definition FLAG_CLOCK_FREE_RUNNING : Z := 8.
Definition FLAG_CLOCK_STEPPED : Z := 16.
Definition FLAG_PERIODIC_TICK : Z := 32.
Definition MANIFEST_FORMAT : list field := [FI; FH; FH; FI; FI; FI; FH; FH; FH; FH; FI; FI; FI].
Definition BEGIN_PREFIX : list field := [FI].
Definition DATA_PREFIX : list field := [FI; FI].
Definition COMMIT_FORMAT : list field := [FI; FI].
Definition CONTROL_FORMAT : list field := [FB; Fx 3; FI].
Definition STRUCTURED_STATUS : list field := [FI; FI; FI; FI; FI; FI; FI; FI; FH; FH; Fs 16].
Definition PROCESSOR_FLAG_IDLE : Z := 1.
Definition PROCESSOR_FLAG_PREPARED_RUNTIME_INITIALIZED : Z := 2.
Definition RESULT_FLAG_PASS : Z := 1.
Definition RESULT_FLAG_NATIVE_OUTPUT : Z := 2.
Definition RESULT_FLAG_NATIVE_OUTPUT_TRUNCATED : Z := 4.
Definition RESULT_FLAG_PROCESSOR_IDENTIFIED : Z := 8.
Definition COMPLETION_REASONS : list (Z * string) :=
  [(0, "NONE"); (1, "STOP_REQUESTED"); (2, "NATIVE_HLT"); (3, "NO_BUS_CYCLE"); (4, "BUS_FAULT");
   (5, "START_FAILURE"); (6, "EXECUTION_DEADLINE")]%string.
Definition CLOCK_MODES : list (string * Z) :=
  [("auto", 0); ("free-running", 1); ("clock-stepped", 2); ("stopped", 3)]%string.
Definition CLOCK_MODE_NAMES : list (Z * string) :=
  [(0, "AUTO"); (1, "FREE-RUNNING"); (2, "CLOCK-STEPPED"); (3, "STOPPED")]%string.
Definition MANIFEST_SIZE : Z := Z.of_nat (calcsize MANIFEST_FORMAT).
Definition HOST_PAYLOAD_SIZE : Z := 52.
Definition DATA_BYTES : Z := HOST_PAYLOAD_SIZE - Z.of_nat (calcsize DATA_PREFIX).
Definition CONTROL_OPERATIONS : list (string * Z) :=
  [("run", WORKLOAD_CONTROL_RUN); ("stop", WORKLOAD_CONTROL_STOP);
   ("restart", WORKLOAD_CONTROL_RESTART); ("status", WORKLOAD_CONTROL_STATUS)]%string.

(** ** The manifest *)

Definition linear (segment offset : Z) : result Z :=
  if negb ((0 <=? segment) && (segment <=? 0xFFFF)) || negb ((0 <=? offset) && (offset <=? 0xFFFF))
  then Raise (ValueError "segment and offset must be 16-bit values") else
  let address := Z.shiftl segment 4 + offset in
  if PROCESSOR_ADDRESS_SPACE_SIZE <=? address
  then Raise (ValueError "segment:offset is outside the 20-bit processor address space")
  else Ok address.

Record WorkloadManifest := mkManifest {
  image_size : Z;
  image_crc32 : Z;
  load_address : Z;
  entry_segment : Z;
  entry_offset : Z;
  stack_segment : Z;
  stack_offset : Z;
  shared_base : Z;
  shared_size : Z;
  m_flags : Z;
}.

#[global] Instance manifest_eq_dec : EqDecision WorkloadManifest.
Proof. solve_decision. Defined.

Definition known_flags : Z :=
  Z.lor (Z.lor (Z.lor (Z.lor (Z.lor FLAG_PERSISTENT FLAG_STDIO) FLAG_SHARED_MEMORY)
    FLAG_CLOCK_FREE_RUNNING) FLAG_CLOCK_STEPPED) FLAG_PERIODIC_TICK.

(** The shared-memory range of [validated] *)
Definition validated_shared (self : WorkloadManifest) : result unit :=
  if truthy (shared_size self) then
    if negb ((0 <=? shared_base self) && (shared_base self <? PROCESSOR_ADDRESS_SPACE_SIZE))
    then Raise (ValueError "shared-memory base is outside the 20-bit processor address space") else
    if PROCESSOR_ADDRESS_SPACE_SIZE <? shared_base self + shared_size self
    then Raise (ValueError "shared-memory range crosses the 20-bit processor address-space limit") else
    if negb (has_bit (m_flags self) FLAG_SHARED_MEMORY)
    then Raise (ValueError "shared-memory range requires FLAG_SHARED_MEMORY") else Ok tt
  else if truthy (shared_base self) || has_bit (m_flags self) FLAG_SHARED_MEMORY
  then Raise (ValueError "shared-memory flag, base, and size are inconsistent") else Ok tt.

Definition validated (self : WorkloadManifest) : result WorkloadManifest :=
  if image_size self <=? 0 then Raise (ValueError "workload image is empty") else
  if negb ((0 <=? image_crc32 self) && (image_crc32 self <=? 0xFFFFFFFF))
  then Raise (ValueError "image CRC is not a 32-bit value") else
  if negb ((0 <=? load_address self) && (load_address self <? PROCESSOR_ADDRESS_SPACE_SIZE))
  then Raise (ValueError "load address is outside the 20-bit processor address space") else
  let image_end := load_address self + image_size self in
  if PROCESSOR_ADDRESS_SPACE_SIZE <? image_end
  then Raise (ValueError "workload image crosses the 20-bit processor address-space limit") else
  entry ← linear (entry_segment self) (entry_offset self);
  if negb ((load_address self <=? entry) && (entry <? image_end))
  then Raise (ValueError "entry point is outside the workload image") else
  _ ← linear (stack_segment self) (stack_offset self);
  _ ← validated_shared self;
  if truthy (Z.land (m_flags self) (Z.lnot known_flags))
  then Raise (ValueError "workload uses unknown flags") else
  if has_bit (m_flags self) FLAG_CLOCK_FREE_RUNNING && has_bit (m_flags self) FLAG_CLOCK_STEPPED
  then Raise (ValueError "workload requests two execution clock modes") else
  if has_bit (m_flags self) FLAG_PERIODIC_TICK && negb (has_bit (m_flags self) FLAG_CLOCK_STEPPED)
  then Raise (ValueError "periodic tick currently requires clock-stepped execution") else
  Ok self.

Definition for_image (image : bytes) (load_address entry_segment entry_offset stack_segment
    stack_offset shared_base shared_size flags : Z) : result WorkloadManifest :=
  validated (mkManifest (len image) (crc32 image) load_address entry_segment entry_offset
    stack_segment stack_offset shared_base shared_size flags).

Definition manifest_values (self : WorkloadManifest) : fvals MANIFEST_FORMAT :=
  (MAGIC, (FORMAT_VERSION, (MANIFEST_SIZE, (image_size self, (image_crc32 self,
   (load_address self, (entry_segment self, (entry_offset self, (stack_segment self,
   (stack_offset self, (shared_base self, (shared_size self, (m_flags self, tt))))))))))))).

Definition manifest_encode (self : WorkloadManifest) : result bytes :=
  _ ← validated self;
  pack MANIFEST_FORMAT (manifest_values self).

Definition manifest_decode (encoded : bytes) : result WorkloadManifest :=
  if negb (len encoded =? MANIFEST_SIZE)
  then Raise (ValueError "workload manifest has the wrong size") else
  '(magic, (version, (header_size, (a, (b, (c, (d, (e, (f, (g, (h, (i, (j, tt)))))))))))))
    ← unpack MANIFEST_FORMAT encoded;
  if negb (magic =? MAGIC) || negb (version =? FORMAT_VERSION) || negb (header_size =? MANIFEST_SIZE)
  then Raise (ValueError "unsupported workload manifest") else
  validated (mkManifest a b c d e f g h i j).

(** ** The workload file *)

Definition image_matches (manifest : WorkloadManifest) (image : bytes) : bool :=
  (len image =? image_size manifest) && (crc32 image =? image_crc32 manifest).

Definition encode_workload_file (manifest : WorkloadManifest) (image : bytes) : result bytes :=
  _ ← validated manifest;
  if negb (image_matches manifest image)
  then Raise (ValueError "image does not match its workload manifest") else
  head ← manifest_encode manifest;
  Ok (head ++ image).

Definition decode_workload_file (encoded : bytes) : result (WorkloadManifest * bytes) :=
  if len encoded <? MANIFEST_SIZE then Raise (ValueError "workload file is truncated") else
  manifest ← manifest_decode (slice 0 MANIFEST_SIZE encoded);
  let image := slice_from MANIFEST_SIZE encoded in
  if negb (image_matches manifest image)
  then Raise (ValueError "workload image size or CRC is invalid") else
  Ok (manifest, image).

(** ** Upload *)

(** The [for offset in range(0, len(image), DATA_BYTES)] loop: its records and
    the sequence after them; one turn per 44 bytes, so [len(image)] turns are
    enough. *)
Fixpoint upload_data (fuel : nat) (transfer_id : Z) (image : bytes) (offset sequence : Z)
  : result (list Message * Z) :=
  match fuel with
  | O => Ok ([], sequence)
  | S fuel =>
      if offset <? len image then
        prefix ← pack DATA_PREFIX (transfer_id, (offset, tt));
        let chunk := slice offset (offset + DATA_BYTES) image in
        '(rest, last) ← upload_data fuel transfer_id image (offset + DATA_BYTES) (sequence + 1);
        Ok (request_message TYPE_WORKLOAD_DATA sequence (prefix ++ chunk) :: rest, last)
      else Ok ([], sequence)
  end.

Definition upload_records (manifest : WorkloadManifest) (image : bytes)
    (transfer_id first_sequence : Z) : result (list Message) :=
  _ ← encode_workload_file manifest image;
  if negb ((0 <=? transfer_id) && (transfer_id <=? 0xFFFFFFFF))
  then Raise (ValueError "transfer id is not a 32-bit value") else
  prefix ← pack BEGIN_PREFIX (transfer_id, tt);
  head ← manifest_encode manifest;
  let first := request_message TYPE_WORKLOAD_BEGIN first_sequence (prefix ++ head) in
  '(records, sequence) ← upload_data (length image) transfer_id image 0 (first_sequence + 1);
  commit ← pack COMMIT_FORMAT (transfer_id, (image_crc32 manifest, tt));
  Ok (first :: records ++ [request_message TYPE_WORKLOAD_COMMIT sequence commit]).

Definition decode_data_payload (payload : bytes) : result (Z * Z * bytes) :=
  if len payload <? Z.of_nat (calcsize DATA_PREFIX)
  then Raise (ValueError "workload data payload is truncated") else
  '(transfer_id, (offset, tt)) ← unpack_from DATA_PREFIX payload 0;
  Ok (transfer_id, offset, slice_from (Z.of_nat (calcsize DATA_PREFIX)) payload).

(** ** The [load] command *)

Definition parse_number (value : string) : result Z :=
  on_value_error (py_int 0 value) ("invalid number: " +:+ py_repr value).

Definition parse_far_pointer (value : string) : result (Z * Z) :=
  match str_split_once ":" value with
  | None => Raise (ValueError ("expected segment:offset, got " +:+ py_repr value))
  | Some (segment_text, offset_text) =>
      segment ← py_int 16 segment_text;
      offset ← py_int 16 offset_text;
      _ ← linear segment offset;
      Ok (segment, offset)
  end.

Record load_options := mkLoad {
  opt_address : Z;
  opt_entry : option (Z * Z);
  opt_stack : Z * Z;
  opt_clock : string;
}.
Definition load_defaults : load_options := mkLoad 0x10000 None (0, 0) "auto".

(** The [while index < len(arguments)] loop over option/value pairs *)
Fixpoint load_arguments (o : load_options) (arguments : list string) : result load_options :=
  match arguments with
  | [] => Ok o
  | [option] => Raise (ValueError ("unknown or incomplete load option: " +:+ py_repr option))
  | option :: value :: rest =>
      if negb (str_in option ["--address"; "--entry"; "--stack"; "--clock"]%string)
      then Raise (ValueError ("unknown or incomplete load option: " +:+ py_repr option)) else
      o ← (if String.eqb option "--address" then
             n ← parse_number value;
             Ok (mkLoad n (opt_entry o) (opt_stack o) (opt_clock o))
           else if String.eqb option "--entry" then
             p ← parse_far_pointer value;
             Ok (mkLoad (opt_address o) (Some p) (opt_stack o) (opt_clock o))
           else if String.eqb option "--stack" then
             p ← parse_far_pointer value;
             Ok (mkLoad (opt_address o) (opt_entry o) p (opt_clock o))
           else if negb (str_in value ["auto"; "free-running"; "clock-stepped"]%string)
           then Raise (ValueError "--clock must be auto, free-running, or clock-stepped")
           else Ok (mkLoad (opt_address o) (opt_entry o) (opt_stack o) value));
      load_arguments o rest
  end.

Definition clock_flags (clock : string) : Z :=
  if String.eqb clock "free-running" then FLAG_CLOCK_FREE_RUNNING
  else if String.eqb clock "clock-stepped" then FLAG_CLOCK_STEPPED else 0.

Definition workload_from_bytes (encoded : bytes) (arguments : list string)
    (transfer_id first_sequence : Z) : result (WorkloadManifest * bytes * list Message) :=
  match arguments with
  | [] => Raise (ValueError ("usage: load <bin> [--address N] [--entry CS:IP] "
                   +:+ "[--stack SS:SP] [--clock auto|free-running|clock-stepped]"))
  | source_name :: arguments =>
      o ← load_arguments load_defaults arguments;
      '(manifest, image) ←
        (if str_ends ".p86w" (str_lower source_name) then decode_workload_file encoded
         else
           let entry := default (Z.shiftr (opt_address o) 4, Z.land (opt_address o) 0x0F) (opt_entry o) in
           manifest ← for_image encoded (opt_address o) entry.1 entry.2 (opt_stack o).1 (opt_stack o).2
                        0 0 (Z.lor FLAG_STDIO (clock_flags (opt_clock o)));
           Ok (manifest, encoded));
      records ← upload_records manifest image transfer_id first_sequence;
      Ok (manifest, image, records)
  end.

(** [workload_from_command]: [read_bytes] is the file system, whose [OSError]
    carries its text, and [path_text] is the text of [Path(name)]. *)
Definition workload_from_command (read_bytes : string → bytes + string) (path_text : string → string)
    (arguments : list string) (transfer_id first_sequence : Z)
  : result (WorkloadManifest * bytes * list Message) :=
  match arguments with
  | [] => Raise (ValueError ("usage: load <bin|p86w> [--address N] [--entry CS:IP] "
                   +:+ "[--stack SS:SP] [--clock auto|free-running|clock-stepped]"))
  | source :: _ =>
      match read_bytes source with
      | inr exc => Raise (ValueError ("cannot read workload " +:+ path_text source +:+ ": " +:+ exc))
      | inl encoded => workload_from_bytes encoded arguments transfer_id first_sequence
      end
  end.

(** ** Control and status *)

Definition control_record (operation : string) (workload_id sequence : Z) : result Message :=
  match str_get operation CONTROL_OPERATIONS with
  | None => Raise (ValueError ("unknown workload operation: " +:+ py_repr operation))
  | Some operation_id =>
      if negb ((0 <=? workload_id) && (workload_id <=? 0xFFFFFFFF))
      then Raise (ValueError "workload id is not a 32-bit value") else
      p ← pack CONTROL_FORMAT (operation_id, (workload_id, tt));
      Ok (request_message TYPE_WORKLOAD_CONTROL sequence p)
  end.

Definition decode_status_payload (payload : bytes) : result (Z * Z * Z * Z * Z * Z) :=
  if negb (len payload =? Z.of_nat (calcsize STRUCTURED_STATUS))
  then Raise (ValueError "workload status payload must be exactly 52 bytes") else
  '(a, (b, (c, (d, (e, (f, _)))))) ← unpack STRUCTURED_STATUS payload;
  Ok (a, b, c, d, e, f).

(** The eleven values of the structured status *)
Record structured_status := mkStructured {
  st_workload : Z; st_lifecycle : Z; st_detail : Z; st_clock : Z; st_cycles : Z; st_processor_flags : Z;
  st_result_flags : Z; st_completion : Z; st_signature : Z; st_output : bytes; st_structured : bool;
}.

Definition decode_structured_status_payload (payload : bytes) : result structured_status :=
  if negb (len payload =? Z.of_nat (calcsize STRUCTURED_STATUS))
  then Raise (ValueError "workload status payload must be exactly 52 bytes") else
  '(a, (b, (c, (d, (e, (f, (result_flags, (completion_reason, (signature,
    (output_length, (output, tt))))))))))) ← unpack STRUCTURED_STATUS payload;
  if len output <? output_length
  then Raise (ValueError "structured workload output length is invalid") else
  Ok (mkStructured a b c d e f result_flags completion_reason signature
        (slice 0 output_length output) true).

(** ** What a validated manifest guarantees *)

(** A 16:16 far pointer in the 20-bit address space *)
Definition far_ok (segment offset : Z) : Prop :=
  u16 segment ∧ u16 offset ∧ segment * 16 + offset < 2 ^ 20.

Record manifest_sound (m : WorkloadManifest) : Prop := {
  ms_image : 0 < image_size m ∧ u32 (image_crc32 m) ∧ 0 <= load_address m
             ∧ load_address m + image_size m <= 2 ^ 20;
  ms_entry : far_ok (entry_segment m) (entry_offset m)
             ∧ load_address m <= entry_segment m * 16 + entry_offset m
                 < load_address m + image_size m;
  ms_stack : far_ok (stack_segment m) (stack_offset m);
  ms_shared : if shared_size m =? 0
              then shared_base m = 0 ∧ Z.testbit (m_flags m) 2 = false
              else 0 <= shared_base m < 2 ^ 20 ∧ shared_base m + shared_size m <= 2 ^ 20
                   ∧ Z.testbit (m_flags m) 2 = true;
  ms_flags : 0 <= m_flags m < 64
             ∧ (Z.testbit (m_flags m) 3 && Z.testbit (m_flags m) 4 = false)
             ∧ (Z.testbit (m_flags m) 5 = true → Z.testbit (m_flags m) 4 = true);
}.

Lemma linear_ok segment offset a :
  linear segment offset = Ok a ↔ far_ok segment offset ∧ a = segment * 16 + offset.
Proof.
  unfold linear, far_ok, PROCESSOR_ADDRESS_SPACE_SIZE, in_width.
  rewrite Z.shiftl_mul_pow2 by lia. change (2 ^ 4) with 16. split.
  - intros H. py_inv. cbn [negb]. lia.
  - intros [H ->]. do 2 guard_false. done.
Qed.

Lemma validated_shared_ok m u :
  validated_shared m = Ok u ↔
  (if shared_size m =? 0 then shared_base m = 0 ∧ Z.testbit (m_flags m) 2 = false
   else 0 <= shared_base m < 2 ^ 20 ∧ shared_base m + shared_size m <= 2 ^ 20
        ∧ Z.testbit (m_flags m) 2 = true).
Proof.
  unfold validated_shared, PROCESSOR_ADDRESS_SPACE_SIZE, truthy.
  rewrite (has_bit_testbit _ 2 FLAG_SHARED_MEMORY) by (done || lia). destruct u.
  destruct (shared_size m =? 0); cbn [negb]; split.
  - intros H. py_inv. split; [lia|done].
  - intros [-> ->]. done.
  - intros H. py_inv. split; [lia|]. split; [lia|done].
  - intros (? & ? & ->). do 2 guard_false. done.
Qed.

Lemma linear_value_error segment offset e :
  linear segment offset = Raise e → ∃ msg, e = ValueError msg.
Proof. unfold linear. repeat case_match; naive_solver. Qed.

Lemma validated_ok m m' : validated m = Ok m' ↔ m' = m ∧ manifest_sound m.
Proof.
  unfold validated, PROCESSOR_ADDRESS_SPACE_SIZE.
  rewrite (has_bit_testbit _ 3 FLAG_CLOCK_FREE_RUNNING), (has_bit_testbit _ 4 FLAG_CLOCK_STEPPED),
    (has_bit_testbit _ 5 FLAG_PERIODIC_TICK) by (done || lia).
  change known_flags with (Z.ones 6). split.
  - intros H. py_inv.
    repeat match goal with H : linear _ _ = Ok _ |- _ => apply linear_ok in H as [? ->] end.
    rename select (validated_shared _ = _) into Hs. apply validated_shared_ok in Hs.
    rename select (truthy _ = false) into Hk. unfold truthy in Hk. py_inv.
    apply Z.eqb_eq, land_lnot_ones in Hk; [|lia].
    split; [done|]. split; [unfold in_width; lia| |done|done|].
    + split; [done|lia].
    + split; [done|]. split; [done|]. intros Ht.
      rename select (_ && negb _ = false) into Hp. rewrite Ht in Hp. cbn [andb] in Hp. by py_inv.
  - intros [-> [Hi He Ht Hs (Hf & Hc & Hk)]].
    unfold in_width in Hi. do 4 guard_false.
    rewrite (proj2 (linear_ok _ _ _) (conj (proj1 He) eq_refl)). cbn [mbind result_bind].
    guard_false. rewrite (proj2 (linear_ok _ _ _) (conj Ht eq_refl)). cbn [mbind result_bind].
    rewrite (proj2 (validated_shared_ok m tt) Hs). cbn [mbind result_bind].
    rewrite (proj2 (land_lnot_ones (m_flags m) 6 ltac:(lia)) Hf). cbn [truthy Z.eqb negb].
    rewrite Hc. destruct (Z.testbit (m_flags m) 5); [by rewrite Hk|done].
Qed.

Lemma validated_value_error m e : validated m = Raise e → ∃ msg, e = ValueError msg.
Proof.
  unfold validated, validated_shared. intros H.
  repeat match goal with
  | H : mbind _ _ = Raise _ |- _ => apply bind_raise in H; destruct H as [H|(? & _ & H)]
  | H : linear _ _ = Raise _ |- _ => exact (linear_value_error _ _ _ H)
  | H : Raise _ = Raise _ |- _ => simplify_eq; by eexists
  | H : Ok _ = Raise _ |- _ => discriminate H
  | H : context [if ?b then _ else _] |- _ => destruct b
  end.
Qed.

(** A sound manifest fits the wire format unless its shared size is negative. *)
Lemma manifest_fits m :
  manifest_sound m → fits MANIFEST_FORMAT (manifest_values m) = (0 <=? shared_size m).
Proof.
  intros [Hi (He & _) Ht Hs (Hf & _)]. unfold far_ok in *.
  destruct He as (He1 & He2 & _), Ht as (Ht1 & Ht2 & _), Hi as (Hi1 & Hi2 & Hi3).
  cbn [fits MANIFEST_FORMAT manifest_values fst snd]. rewrite He1, He2, Ht1, Ht2, Hi2.
  unfold in_width, MAGIC, FORMAT_VERSION, MANIFEST_SIZE. cbn [calcsize MANIFEST_FORMAT fwidth].
  destruct (shared_size m =? 0) eqn:E; lia.
Qed.

Lemma manifest_encode_ok m :
  manifest_sound m → 0 <= shared_size m →
  manifest_encode m = Ok (pack_bytes MANIFEST_FORMAT (manifest_values m)).
Proof.
  intros Hm Hs. unfold manifest_encode.
  rewrite (proj2 (validated_ok m m) (conj eq_refl Hm)). cbn [mbind result_bind].
  apply pack_ok. rewrite manifest_fits by done. lia.
Qed.

Lemma manifest_encode_inv m b :
  manifest_encode m = Ok b →
  manifest_sound m ∧ 0 <= shared_size m ∧ b = pack_bytes MANIFEST_FORMAT (manifest_values m).
Proof.
  unfold manifest_encode, pack. intros H. py_inv.
  rename select (validated _ = _) into Hv. apply validated_ok in Hv as [_ Hm].
  rename select (fits _ _ = true) into Hf. rewrite manifest_fits in Hf by done.
  split; [done|]. split; [lia|done].
Qed.

Lemma manifest_decode_ok b m :
  manifest_decode b = Ok m ↔ manifest_encode m = Ok b.
Proof.
  split.
  - unfold manifest_decode. intros H. py_step.
    apply bind_ok in H as ((mg & v & hs & a & b' & c & d & e & f & g & h & i & j & []) & Hu & H).
    py_step. apply validated_ok in H as [-> Hm].
    destruct (unpack_inv MANIFEST_FORMAT _ _ eq_refl Hu) as (-> & Hf & _).
    assert (mg = MAGIC ∧ v = FORMAT_VERSION ∧ hs = MANIFEST_SIZE) as (-> & -> & ->) by lia.
    apply manifest_encode_ok; [done|]. pose proof (manifest_fits _ Hm) as Hf'.
    unfold manifest_values in Hf'. cbn [image_size image_crc32 load_address entry_segment entry_offset
      stack_segment stack_offset shared_base shared_size m_flags] in Hf'. rewrite Hf in Hf'. cbn. lia.
  - intros H. apply manifest_encode_inv in H as (Hm & Hs & ->).
    unfold manifest_decode, len, MANIFEST_SIZE at 1. rewrite length_pack_bytes, Z.eqb_refl. cbn [negb].
    rewrite (unpack_pack _ (manifest_values m)) by (apply pack_ok; rewrite manifest_fits by done; lia).
    cbn [mbind result_bind normal MANIFEST_FORMAT manifest_values fst snd].
    rewrite !Z.eqb_refl. cbn [negb orb]. apply validated_ok. destruct m. done.
Qed.

(** ** The file format *)

Lemma manifest_wire_len m : len (pack_bytes MANIFEST_FORMAT (manifest_values m)) = MANIFEST_SIZE.
Proof. unfold len. by rewrite length_pack_bytes. Qed.

Lemma encode_file_ok m image b :
  encode_workload_file m image = Ok b
  ↔ manifest_sound m ∧ 0 <= shared_size m ∧ image_matches m image = true
    ∧ b = pack_bytes MANIFEST_FORMAT (manifest_values m) ++ image.
Proof.
  unfold encode_workload_file. split.
  - intros H. py_inv. rename select (manifest_encode _ = _) into He.
    apply manifest_encode_inv in He as (Hm & Hs & ->). done.
  - intros (Hm & Hs & Hi & ->). rewrite (proj2 (validated_ok m m) (conj eq_refl Hm)).
    cbn [mbind result_bind]. rewrite Hi. cbn [negb]. by rewrite manifest_encode_ok.
Qed.

Lemma decode_file_ok b m image :
  decode_workload_file b = Ok (m, image) ↔ encode_workload_file m image = Ok b.
Proof.
  rewrite encode_file_ok. unfold decode_workload_file. split.
  - intros H. py_inv. rename select (manifest_decode _ = _) into Hd.
    apply manifest_decode_ok, manifest_encode_inv in Hd as (Hm & Hs & Hb).
    split; [done|]. split; [done|]. split; [done|]. by rewrite <- Hb, slice_split.
  - intros (Hm & Hs & Hi & ->). pose proof (manifest_wire_len m) as Hl.
    rewrite len_app, Hl. pose proof (len_nonneg image). guard_false.
    rewrite slice_app_l, slice_from_app by done.
    rewrite (proj2 (manifest_decode_ok _ m)) by (by apply manifest_encode_ok).
    cbn [mbind result_bind]. by rewrite Hi.
Qed.

(** ** CRC *)

Lemma crc_bit_u32 c : u32 c → u32 (crc_bit c).
Proof.
  intros Hc. assert (u32 (Z.shiftr c 1)) as Hs.
  { unfold in_width in *. rewrite Z.shiftr_div_pow2 by lia. change (2 ^ 1) with 2.
    pose proof (Z.div_mod c 2 ltac:(lia)). pose proof (Z.mod_pos_bound c 2 ltac:(lia)). lia. }
  unfold crc_bit. destruct (Z.odd c); [by apply lxor_u32|done].
Qed.

Lemma byte_u32 b : u32 (byte.unsigned b).
Proof. unfold in_width. pose proof (byte.unsigned_range b). lia. Qed.

Lemma crc_byte_u32 c b : u32 c → u32 (crc_byte c b).
Proof.
  intros Hc. unfold crc_byte. apply Nat.iter_invariant; [intros; by apply crc_bit_u32|].
  apply lxor_u32; [done|apply byte_u32].
Qed.

Lemma crc32_u32 data : u32 (crc32 data).
Proof.
  unfold crc32. apply lxor_u32; [|done].
  assert (∀ c, u32 c → u32 (fold_left crc_byte data c)) as H; [|by apply H].
  induction data as [|b data IH]; intros c Hc; cbn [fold_left]; [done|].
  by apply IH, crc_byte_u32.
Qed.

(** ** The upload protocol as the device runs it *)

Record upload_state := mkUpload {
  up_transfer : Z;
  up_manifest : WorkloadManifest;
  up_image : bytes;
}.

Definition device_begin (r : Message) : option upload_state :=
  match unpack_from BEGIN_PREFIX (payload r) 0, manifest_decode (slice_from 4 (payload r)) with
  | Ok (transfer, tt), Ok manifest =>
      if message_type r =? TYPE_WORKLOAD_BEGIN then Some (mkUpload transfer manifest []) else None
  | _, _ => None
  end.

(** Data must come in order: the offset is the number of bytes received. *)
Definition device_data (st : upload_state) (r : Message) : option upload_state :=
  match decode_data_payload (payload r) with
  | Ok (transfer, offset, data) =>
      if (transfer =? up_transfer st) && (offset =? len (up_image st))
      then Some (mkUpload (up_transfer st) (up_manifest st) (up_image st ++ data)) else None
  | Raise _ => None
  end.

Definition device_commit (st : upload_state) (r : Message) : bool :=
  match unpack COMMIT_FORMAT (payload r) with
  | Ok (transfer, (crc, tt)) =>
      (transfer =? up_transfer st) && (crc =? crc32 (up_image st))
      && image_matches (up_manifest st) (up_image st)
  | Raise _ => false
  end.

Fixpoint device_receive (st : upload_state) (records : list Message) : option upload_state :=
  match records with
  | [] => None
  | r :: records =>
      if message_type r =? TYPE_WORKLOAD_DATA then
        match device_data st r with Some st => device_receive st records | None => None end
      else if (message_type r =? TYPE_WORKLOAD_COMMIT) && device_commit st r
              && bool_decide (records = [])
      then Some st else None
  end.

Definition device_upload (records : list Message) : option upload_state :=
  match records with
  | r :: records =>
      match device_begin r with Some st => device_receive st records | None => None end
  | [] => None
  end.

(** An upload record apart from its sequence *)
Definition upload_record_ok : Message → bool :=
  plain_request [TYPE_WORKLOAD_BEGIN; TYPE_WORKLOAD_DATA; TYPE_WORKLOAD_COMMIT].

Definition data_payload (transfer offset : Z) (chunk : bytes) : bytes :=
  pack_bytes DATA_PREFIX (transfer, (offset, tt)) ++ chunk.

Lemma decode_data_payload_ok transfer offset chunk :
  u32 transfer → u32 offset →
  decode_data_payload (data_payload transfer offset chunk) = Ok (transfer, offset, chunk).
Proof.
  intros Ht Ho. unfold decode_data_payload, data_payload. rewrite len_app. unfold len at 1.
  rewrite length_pack_bytes. pose proof (len_nonneg chunk). guard_false.
  assert (fits DATA_PREFIX (transfer, (offset, tt)) = true) as Hf
    by (cbn [fits DATA_PREFIX fst snd]; by rewrite Ht, Ho).
  pose proof (unpack_from_pack _ _ _ [] chunk 0%nat (pack_ok _ _ Hf) eq_refl) as Hu.
  cbn [app] in Hu. rewrite Hu. cbn [mbind result_bind normal DATA_PREFIX fst snd].
  by rewrite slice_from_app by (unfold len; by rewrite length_pack_bytes).
Qed.

Lemma upload_data_done fuel transfer image offset seq :
  len image <= offset → upload_data fuel transfer image offset seq = Ok ([], seq).
Proof. intros. destruct fuel; cbn [upload_data]; [done|]. by guard_false. Qed.

Lemma upload_data_spec fuel transfer m done rest sequence :
  u32 transfer → len (done ++ rest) <= 2 ^ 20 → (length rest ≤ fuel)%nat →
  ∃ records next,
    upload_data fuel transfer (done ++ rest) (len done) sequence = Ok (records, next)
    ∧ next = sequence + len records
    ∧ (∀ tail, device_receive (mkUpload transfer m done) (records ++ tail)
               = device_receive (mkUpload transfer m (done ++ rest)) tail)
    ∧ chain Z.succ sequence (map Protocol.sequence records) = true
    ∧ forallb upload_record_ok records = true.
Proof.
  intros Ht. revert done rest sequence. induction fuel as [|fuel IH]; intros done rest sequence Hl Hf.
  { destruct rest; [|cbn in Hf; lia]. exists [], sequence. rewrite app_nil_r, len_nil.
    repeat split; lia. }
  pose proof (len_nonneg done). pose proof (len_nonneg rest). rewrite len_app in Hl.
  cbn [upload_data]. rewrite len_app.
  destruct (len done <? len done + len rest) eqn:Hlt.
  2:{ assert (rest = []) as -> by (apply len_zero; lia). exists [], sequence.
      rewrite app_nil_r, len_nil. repeat split; lia. }
  assert (rest ≠ []) as Hr by (apply len_pos_ne; lia).
  assert (u32 (len done)) as Ho by (unfold in_width; lia).
  rewrite pack_ok by (cbn [fits DATA_PREFIX fst snd]; by rewrite Ht, Ho). cbn [mbind result_bind].
  change DATA_BYTES with 44. rewrite (slice_chunk done rest 44) by lia.
  change (Z.to_nat 44) with 44%nat. fold (data_payload transfer (len done) (take 44 rest)).
  pose proof (take_drop_len 44 rest) as Hsum. pose proof (len_take_le 44 rest).
  assert (∃ records next,
    upload_data fuel transfer (done ++ rest) (len done + 44) (sequence + 1) = Ok (records, next)
    ∧ next = sequence + 1 + len records
    ∧ (∀ tail, device_receive (mkUpload transfer m (done ++ take 44 rest)) (records ++ tail)
               = device_receive (mkUpload transfer m (done ++ rest)) tail)
    ∧ chain Z.succ (sequence + 1) (map Protocol.sequence records) = true
    ∧ forallb upload_record_ok records = true) as (records & next & Hu & Hn & Hd & Hc & Hk).
  { destruct (decide (len rest <= 44)).
    - exists [], (sequence + 1). rewrite upload_data_done by (rewrite len_app; lia).
      rewrite len_nil, take_ge by (unfold len in *; lia). repeat split; lia.
    - destruct (IH (done ++ take 44 rest) (drop 44 rest) (sequence + 1))
        as (records & next & Hu & Hn & Hd & Hc & Hk).
      { rewrite !len_app. lia. }
      { rewrite length_drop. unfold len in *. lia. }
      assert (len (take 44 rest) = 44) as H44 by (unfold len in *; rewrite length_take; lia).
      rewrite <- app_assoc, take_drop, len_app, H44 in Hu.
      rewrite <- app_assoc, take_drop in Hd. by exists records, next. }
  rewrite Hu. cbn [mbind result_bind]. eexists _, next. split; [reflexivity|].
  split; [rewrite len_cons; lia|]. split; [|split].
  - intros tail. cbn [app device_receive message_type request_message].
    rewrite Z.eqb_refl. unfold device_data. cbn [payload request_message].
    rewrite decode_data_payload_ok by done. cbn [up_transfer up_image up_manifest].
    rewrite !Z.eqb_refl. cbn [andb]. apply Hd.
  - cbn [map chain Protocol.sequence request_message]. rewrite Z.eqb_refl.
    change (Z.succ sequence) with (sequence + 1). by rewrite Hc.
  - cbn [forallb]. rewrite Hk, andb_true_r. unfold upload_record_ok, plain_request.
    cbn [message_type payload version flags status request_message].
    unfold data_payload. rewrite len_app. unfold len at 1. rewrite length_pack_bytes.
    change (Z.of_nat (calcsize DATA_PREFIX)) with 8. unfold PAYLOAD_SIZE. cbn. lia.
Qed.

(** The whole transaction *)
Lemma upload_records_spec m image transfer first :
  manifest_sound m → 0 <= shared_size m → image_matches m image = true → u32 transfer →
  ∃ records,
    upload_records m image transfer first = Ok records
    ∧ device_upload records = Some (mkUpload transfer m image)
    ∧ chain Z.succ first (map sequence records) = true
    ∧ forallb upload_record_ok records = true.
Proof.
  intros Hm Hs Hi Ht. unfold upload_records.
  rewrite (proj2 (encode_file_ok m image _) (conj Hm (conj Hs (conj Hi eq_refl)))).
  cbn [mbind result_bind].
  assert (negb ((0 <=? transfer) && (transfer <=? 0xFFFFFFFF)) = false) as ->
    by (unfold in_width in Ht; lia).
  rewrite (pack_ok BEGIN_PREFIX) by (cbn [fits BEGIN_PREFIX fst snd]; by rewrite Ht).
  cbn [mbind result_bind]. rewrite manifest_encode_ok by done. cbn [mbind result_bind].
  pose proof Hm as [(Hi1 & Hi2 & Hi3 & Hi4) _ _ _ _]. unfold image_matches in Hi. py_inv.
  destruct (upload_data_spec (length image) transfer m [] image (first + 1) Ht)
    as (records & next & Hu & -> & Hd & Hc & Hk); [cbn [app]; lia|done|].
  cbn [app] in Hu, Hd. change (len []) with 0 in Hu. rewrite Hu. cbn [mbind result_bind].
  rewrite (pack_ok COMMIT_FORMAT) by (cbn [fits COMMIT_FORMAT fst snd]; by rewrite Ht, Hi2).
  cbn [mbind result_bind]. eexists. split; [reflexivity|].
  set (commit := pack_bytes COMMIT_FORMAT _). set (head := pack_bytes MANIFEST_FORMAT _).
  assert (len (pack_bytes BEGIN_PREFIX (transfer, tt)) = 4) as H4
    by (unfold len; by rewrite length_pack_bytes).
  assert (len head = 40) as H40 by (unfold len, head; by rewrite length_pack_bytes).
  assert (len commit = 8) as H8 by (unfold len, commit; by rewrite length_pack_bytes).
  split; [|split].
  - cbn [device_upload]. unfold device_begin. cbn [payload message_type request_message].
    assert (fits BEGIN_PREFIX (transfer, tt) = true) as Hf
      by (cbn [fits BEGIN_PREFIX fst snd]; by rewrite Ht).
    pose proof (unpack_from_pack _ _ _ [] head 0%nat (pack_ok _ _ Hf) eq_refl) as Hup.
    cbn [app] in Hup. rewrite Hup. cbn [normal BEGIN_PREFIX fst snd].
    rewrite slice_from_app by done.
    rewrite (proj2 (manifest_decode_ok head m)) by (by apply manifest_encode_ok).
    rewrite Z.eqb_refl, Hd. cbn [device_receive message_type request_message].
    change (TYPE_WORKLOAD_COMMIT =? TYPE_WORKLOAD_DATA) with false. cbv iota.
    rewrite Z.eqb_refl. unfold device_commit. cbn [payload request_message].
    assert (fits COMMIT_FORMAT (transfer, (image_crc32 m, tt)) = true) as Hfc
      by (cbn [fits COMMIT_FORMAT fst snd]; by rewrite Ht, Hi2).
    unfold commit. rewrite (unpack_pack _ _ _ (pack_ok _ _ Hfc)).
    cbn [normal COMMIT_FORMAT fst snd up_transfer up_image up_manifest]. unfold image_matches.
    rewrite bool_decide_eq_true_2 by done. rewrite Z.eqb_refl. cbn [andb].
    assert ((image_crc32 m =? crc32 image)
            && ((len image =? image_size m) && (crc32 image =? image_crc32 m)) && true = true)
      as -> by lia. done.
  - cbn [map chain sequence request_message]. rewrite Z.eqb_refl. cbn [andb].
    change (Z.succ first) with (first + 1).
    rewrite map_app. apply chain_app; [exact Hc|].
    cbn [map chain sequence request_message]. rewrite andb_true_r.
    rewrite (chain_next_succ _ _ Hc). unfold len. rewrite length_map. lia.
  - cbn [forallb]. rewrite forallb_app, Hk. cbn [forallb]. unfold upload_record_ok, plain_request.
    cbn [message_type payload version flags status request_message].
    rewrite len_app, H4, H40, H8. reflexivity.
Qed.

(** ** Only [ValueError] leaves the [load] command *)

Lemma on_value_error_error {A} (m : result A) t e :
  (∀ e, m = Raise e → ∃ msg, e = ValueError msg) →
  on_value_error m t = Raise e → ∃ msg, e = ValueError msg.
Proof. unfold on_value_error. intros Hm H. repeat case_match; naive_solver. Qed.

Lemma parse_number_error v e : parse_number v = Raise e → ∃ msg, e = ValueError msg.
Proof. apply on_value_error_error. intros e'. apply py_int_error. Qed.

Lemma parse_far_pointer_error v e : parse_far_pointer v = Raise e → ∃ msg, e = ValueError msg.
Proof.
  unfold parse_far_pointer. destruct (str_split_once _ _) as [[s o]|]; [|naive_solver].
  intros H. apply bind_raise in H as [H|(? & _ & H)]; [by eapply py_int_error|].
  apply bind_raise in H as [H|(? & _ & H)]; [by eapply py_int_error|].
  apply bind_raise in H as [H|(? & _ & H)]; [by eapply linear_value_error|done].
Qed.

Lemma load_arguments_error o arguments e :
  load_arguments o arguments = Raise e → ∃ msg, e = ValueError msg.
Proof.
  remember (length arguments) as n eqn:Hn. assert (length arguments ≤ n)%nat as Hl by lia. clear Hn.
  revert o arguments Hl. induction n as [|n IH]; intros o arguments Hl;
    destruct arguments as [|option [|value rest]]; cbn in Hl; try lia; try done.
  { cbn. naive_solver. }
  cbn [load_arguments]. destruct (negb (str_in option _)); [naive_solver|].
  intros H. apply bind_raise in H as [H|(o' & _ & H)]; [|apply (IH o' rest); [lia|done]].
  destruct (String.eqb _ "--address"); [|destruct (String.eqb _ "--entry");
    [|destruct (String.eqb _ "--stack"); [|destruct (negb _)]]];
    try (apply bind_raise in H as [H|(? & _ & H)]; [|done]);
    eauto using parse_number_error, parse_far_pointer_error; naive_solver.
Qed.

Lemma decode_file_error b e : decode_workload_file b = Raise e → ∃ msg, e = ValueError msg.
Proof.
  unfold decode_workload_file. destruct (_ <? _) eqn:Hl; [naive_solver|]. intros H.
  apply bind_raise in H as [H|(m & _ & H)]; [|case_match; naive_solver].
  unfold manifest_decode in H. destruct (negb _) eqn:Hs; [naive_solver|].
  py_inv. apply Z.eqb_eq in Hs.
  rewrite unpack_ok in H by (apply Nat2Z.inj; exact Hs). cbn [mbind result_bind] in H.
  destruct (unpack_bytes _ _) as (? & ? & ? & ? & ? & ? & ? & ? & ? & ? & ? & ? & ? & []).
  case_match; [naive_solver|by eapply validated_value_error].
Qed.

Lemma upload_error m image transfer first e :
  manifest_sound m → 0 <= shared_size m → image_matches m image = true →
  upload_records m image transfer first = Raise e → ∃ msg, e = ValueError msg.
Proof.
  intros Hm Hs Hi He. destruct (in_width 32 transfer) eqn:Ht.
  - destruct (upload_records_spec m image transfer first Hm Hs Hi Ht) as (r & Hr & _). congruence.
  - unfold upload_records in He.
    rewrite (proj2 (encode_file_ok m image _) (conj Hm (conj Hs (conj Hi eq_refl)))) in He.
    cbn [mbind result_bind] in He.
    assert (negb ((0 <=? transfer) && (transfer <=? 0xFFFFFFFF)) = true) as Hb
      by (unfold in_width in Ht; lia).
    rewrite Hb in He. simplify_eq. by eexists.
Qed.

Lemma upload_records_inv m image transfer first records :
  upload_records m image transfer first = Ok records →
  manifest_sound m ∧ 0 <= shared_size m ∧ image_matches m image = true ∧ u32 transfer.
Proof.
  unfold upload_records. intros H. apply bind_ok in H as (b & Hb & H).
  apply encode_file_ok in Hb as (Hm & Hs & Hi & _). py_step. unfold in_width.
  split; [done|]. split; [done|]. split; [done|]. lia.
Qed.

(** The image of a [load] without a container *)
Lemma for_image_ok image a es eo ss so f m :
  for_image image a es eo ss so 0 0 f = Ok m →
  manifest_sound m ∧ shared_size m = 0 ∧ image_matches m image = true
  ∧ load_address m = a ∧ m_flags m = f.
Proof.
  unfold for_image. intros H. apply validated_ok in H as [-> Hm].
  split; [done|]. unfold image_matches. cbn. split; [done|]. split; [lia|done].
Qed.

(** ** Theorems *)

(** [validated] accepts a manifest exactly when the image lies inside the
    20-bit address space, its entry point inside the image, the stack pointer
    is a valid far pointer, the shared range is consistent with its flag, the
    flags are known and the clock flags compatible; it then returns the
    manifest unchanged, and every refusal is a [ValueError]. *)
Theorem validated_spec m :
  (∀ m', validated m = Ok m' ↔ m' = m ∧ manifest_sound m)
  ∧ (∀ e, validated m = Raise e → ∃ msg, e = ValueError msg).
Proof. split; [apply validated_ok | apply validated_value_error]. Qed.

(** C37: the workload file format is a bijection.  [decode_workload_file]
    accepts exactly the files [encode_workload_file] produces and recovers the
    manifest and the image; encoding succeeds exactly for a sound manifest
    with a non-negative shared size that matches the image's size and CRC. *)
Theorem workload_file_codec m image b :
  (decode_workload_file b = Ok (m, image) ↔ encode_workload_file m image = Ok b)
  ∧ (is_ok (encode_workload_file m image) = true
     ↔ manifest_sound m ∧ 0 <= shared_size m ∧ image_matches m image = true).
Proof.
  split; [apply decode_file_ok|]. split.
  - destruct (encode_workload_file m image) eqn:E; [|done]. intros _.
    apply encode_file_ok in E. tauto.
  - intros (Hm & Hs & Hi).
    by rewrite (proj2 (encode_file_ok m image _) (conj Hm (conj Hs (conj Hi eq_refl)))).
Qed.

(** C31: the records of an upload are reassembled by a device that follows the
    protocol (one begin, data in order at the received offset, one commit whose
    CRC is checked) into the same transfer, manifest and image; the sequences
    are consecutive, and as long as they stay below 2^32 every record can be
    encoded. *)
Theorem upload_reassembles m image transfer first records :
  upload_records m image transfer first = Ok records →
  device_upload records = Some (mkUpload transfer m image)
  ∧ chain Z.succ first (map sequence records) = true
  ∧ (0 <= first → first + len records <= 2 ^ 32 →
     Forall (λ r, message_ok r = true) records).
Proof.
  intros Hu. destruct (upload_records_inv _ _ _ _ _ Hu) as (Hm & Hs & Hi & Ht).
  destruct (upload_records_spec m image transfer first Hm Hs Hi Ht) as (r & Hr & Hd & Hc & Hk).
  assert (r = records) as -> by congruence. split; [done|]. split; [done|]. intros Hf Hl.
  eapply plain_requests_ok; [|exact Hk|]; [done|].
  eapply chain_succ_u32; [| |exact Hc]; [done|]. unfold len in *. by rewrite length_map.
Qed.

(** A small image at 1000:0000 and its manifest *)
Definition sample_image : bytes := lit "RP86 sample workload image, longer than one data record.".
Definition sample_manifest : WorkloadManifest :=
  mkManifest (len sample_image) (crc32 sample_image) 0x10000 0x1000 0 0 0 0 0 2.
Definition sample_upload (first : Z) : list Message :=
  match upload_records sample_manifest sample_image 7 first with Ok r => r | Raise _ => [] end.

Example upload_reassembles_witness :
  upload_records sample_manifest sample_image 7 1 = Ok (sample_upload 1)
  ∧ device_upload (sample_upload 1) = Some (mkUpload 7 sample_manifest sample_image).
Proof.
  assert (upload_records sample_manifest sample_image 7 1 = Ok (sample_upload 1)) as H
    by (vm_compute; reflexivity).
  split; [exact H|].
  exact (proj1 (upload_reassembles sample_manifest sample_image 7 1 (sample_upload 1) H)).
Defined.

(** C38: the upload counter is not wrapped: when the burst crosses 2^32 the
    records are still built, but one of them cannot be encoded, and the
    exception is [struct.error], not [ValueError]. *)
Theorem upload_sequence_overflow m image transfer first records :
  upload_records m image transfer first = Ok records →
  u32 first → 2 ^ 32 < first + len records →
  ∃ r, r ∈ records ∧ encode r = Raise StructError.
Proof.
  intros Hu Hf Hl. destruct (upload_records_inv _ _ _ _ _ Hu) as (Hm & Hs & Hi & Ht).
  destruct (upload_records_spec m image transfer first Hm Hs Hi Ht) as (l & Hr & Hd & Hc & Hk).
  assert (l = records) as -> by congruence. clear Hr Hd.
  destruct (last records) as [r|] eqn:Elast.
  2:{ apply last_None in Elast as ->. rewrite len_nil in Hl. unfold in_width in Hf. lia. }
  pose proof (chain_next_succ _ _ Hc) as Hn. unfold chain_next in Hn.
  rewrite fmap_last, Elast in Hn. cbn in Hn. unfold len in Hn. rewrite length_map in Hn.
  apply last_Some_elem_of in Elast. exists r. split; [done|].
  rewrite forallb_forall in Hk. specialize (Hk r (proj1 (list_elem_of_In _ _) Elast)).
  unfold upload_record_ok, plain_request in Hk. py_inv. apply encode_overflow; [lia|lia|].
  unfold header_fits, in_width, len in *. lia.
Qed.

Example upload_sequence_overflow_witness :
  ∃ r, r ∈ sample_upload 0xFFFFFFFF ∧ encode r = Raise StructError.
Proof.
  apply (upload_sequence_overflow sample_manifest sample_image 7 0xFFFFFFFF (sample_upload 0xFFFFFFFF));
    vm_compute; reflexivity.
Defined.

(** whatever the [load] command is given, it either fails with
    [ValueError] or yields a sound manifest, the image it describes and a
    transaction that uploads exactly them: the container's own for a [.p86w]
    file, and otherwise the given bytes at the chosen address with standard
    I/O enabled. *)
Theorem workload_from_bytes_safe encoded name arguments transfer first :
  match workload_from_bytes encoded (name :: arguments) transfer first with
  | Ok (m, image, records) =>
      manifest_sound m ∧ image_matches m image = true
      ∧ device_upload records = Some (mkUpload transfer m image)
      ∧ (if str_ends ".p86w" (str_lower name)
         then encode_workload_file m image = Ok encoded
         else image = encoded ∧ shared_size m = 0 ∧ Z.testbit (m_flags m) 1 = true)
  | Raise e => ∃ msg, e = ValueError msg
  end.
Proof.
  cbn [workload_from_bytes].
  destruct (load_arguments load_defaults arguments) as [o|e] eqn:Ho; cbn [mbind result_bind];
    [|by eapply load_arguments_error].
  destruct (str_ends ".p86w" (str_lower name)).
  - destruct (decode_workload_file encoded) as [[m image]|e] eqn:Hd; cbn [mbind result_bind];
      [|by eapply decode_file_error].
    apply decode_file_ok in Hd. pose proof (proj1 (encode_file_ok _ _ _) Hd) as (Hm & Hs & Hi & _).
    destruct (upload_records m image transfer first) as [r|e] eqn:Hu; cbn [mbind result_bind];
      [|by eapply upload_error].
    destruct (upload_records_inv _ _ _ _ _ Hu) as (_ & _ & _ & Ht).
    destruct (upload_records_spec m image transfer first Hm Hs Hi Ht) as (? & ? & ? & _).
    simplify_eq. split; [done|]. split; [done|]. split; [congruence|done].
  - destruct (for_image _ _ _ _ _ _ _ _ _) as [m|e] eqn:Hd; cbn [mbind result_bind];
      [|by eapply validated_value_error].
    apply for_image_ok in Hd as (Hm & Hs & Hi & _ & Hf).
    destruct (upload_records m encoded transfer first) as [r|e] eqn:Hu; cbn [mbind result_bind];
      [|eapply upload_error; [done|lia|done|done]].
    destruct (upload_records_inv _ _ _ _ _ Hu) as (_ & _ & _ & Ht).
    destruct (upload_records_spec m encoded transfer first Hm ltac:(lia) Hi Ht) as (? & ? & ? & _).
    simplify_eq. split; [done|]. split; [done|]. split; [congruence|]. split; [done|].
    split; [done|]. rewrite Hf. unfold clock_flags. by repeat case_match.
Qed.
