(* ===== verification/RuntimeState.v ===== *)
(** * Host view of the execution state (host/rp86/runtime_state.py)

    The request counter, the native-processor observation, the workload state
    decoded from status payloads and the status snapshot.  The theorems show
    that the counter is always a non-zero 32-bit value, that a status payload
    is decoded without loss, and what a passed physical regression certifies. *)

From S2P Require Import Prelude Struct PyText Json Protocol Memory Workload.

Definition WORKLOAD_STATE_NAMES : list (Z * string) :=
  [(0, "EMPTY"); (1, "RECEIVING"); (2, "STAGED"); (3, "RUNNING"); (4, "STOPPED");
   (5, "COMPLETED"); (6, "FAULTED"); (7, "TIMED_OUT")]%string.

(** ** RequestSequence *)

Record RequestSequence := mkSequence { value : Z }.

(** Construction, with [__post_init__] *)
Definition sequence_init (v : Z) : RequestSequence :=
  let v := mask32 v in mkSequence (if v =? 0 then 1 else v).

Definition advance_after (sequence : Z) (_ : RequestSequence) : RequestSequence :=
  mkSequence (next_seq sequence).

(** ** ProcessorObservationState *)

Record ProcessorObservationState := mkObservation {
  o_boot_id : option Z;
  o_cpu_sequence : option Z;
  o_command_sequence : option Z;
  o_processor : option string;
  connected : bool;
}.
Definition observation_init : ProcessorObservationState := mkObservation None None None None false.

Definition accept_witness (w : NativeServiceWitness) (_ : ProcessorObservationState)
  : ProcessorObservationState :=
  mkObservation (Some (boot_id w)) (Some (cpu_sequence w)) (Some (command_sequence w))
    (witness_processor w) true.

Definition mark_disconnected (o : ProcessorObservationState) : ProcessorObservationState :=
  mkObservation (o_boot_id o) (o_cpu_sequence o) (o_command_sequence o) (o_processor o) false.

(** ** Pure queries *)

Definition unknown (z : Z) : string := "UNKNOWN(" +:+ dec z +:+ ")".

Definition workload_state_name (state : Z) : string :=
  default (unknown state) (z_get state WORKLOAD_STATE_NAMES).

Definition processor_execution_state (clock_mode processor_flags : Z) : string :=
  if has_bit processor_flags PROCESSOR_FLAG_IDLE then "IDLE / HLT" else
  if clock_mode =? 3 then "STOPPED / RESET" else "ACTIVE".

Definition workload_upload_requires_stop (workload_state : Z) : bool := z_in workload_state [3; 5].

Definition prepared_runtime_is_available (clock_mode workload_state processor_flags : Z) : bool :=
  (workload_state =? 0)
  && has_bit processor_flags PROCESSOR_FLAG_PREPARED_RUNTIME_INITIALIZED
  && z_in clock_mode [0; 1].

(** ** WorkloadRuntimeState *)

Record WorkloadRuntimeState := mkRuntime {
  workload_id : Z;
  lifecycle : Z;
  detail : Z;
  clock_mode : Z;
  cycles : Z;
  processor_flags : Z;
  result_flags : Z;
  completion_reason : Z;
  processor_signature : Z;
  native_output : bytes;
  structured_result : bool;
}.
Definition runtime_init : WorkloadRuntimeState := mkRuntime 0 0 0 0 0 0 0 0 0 [] false.

Definition from_payload (payload : bytes) : result WorkloadRuntimeState :=
  s ← decode_structured_status_payload payload;
  Ok (mkRuntime (st_workload s) (st_lifecycle s) (st_detail s) (st_clock s) (st_cycles s)
        (st_processor_flags s) (st_result_flags s) (st_completion s) (st_signature s)
        (st_output s) (st_structured s)).

(** All eleven fields are overwritten, or none when the payload is refused. *)
Definition update_from_payload (payload : bytes) (self : WorkloadRuntimeState)
  : result WorkloadRuntimeState :=
  updated ← from_payload payload;
  Ok (mkRuntime (workload_id updated) (lifecycle updated) (detail updated) (clock_mode updated)
        (cycles updated) (processor_flags updated) (result_flags updated)
        (completion_reason updated) (processor_signature updated) (native_output updated)
        (structured_result updated)).

Definition lifecycle_name (s : WorkloadRuntimeState) : string := workload_state_name (lifecycle s).
Definition clock_name (s : WorkloadRuntimeState) : string :=
  default (unknown (clock_mode s)) (z_get (clock_mode s) CLOCK_MODE_NAMES).
Definition processor_state (s : WorkloadRuntimeState) : string :=
  processor_execution_state (clock_mode s) (processor_flags s).
Definition prepared_runtime_available (s : WorkloadRuntimeState) : bool :=
  prepared_runtime_is_available (clock_mode s) (lifecycle s) (processor_flags s).
Definition upload_requires_stop (s : WorkloadRuntimeState) : bool :=
  workload_upload_requires_stop (lifecycle s).
Definition w_completed (s : WorkloadRuntimeState) : bool := lifecycle s =? 5.
Definition passed (s : WorkloadRuntimeState) : bool := has_bit (result_flags s) RESULT_FLAG_PASS.

Definition processor_identified (s : WorkloadRuntimeState) : bool :=
  has_bit (result_flags s) RESULT_FLAG_PROCESSOR_IDENTIFIED
  && z_in (processor_signature s) [PROCESSOR_SIGNATURE_INTEL_8086; PROCESSOR_SIGNATURE_NEC_V30].

Definition runtime_processor (s : WorkloadRuntimeState) : result (option string) :=
  if negb (processor_identified s) then Ok None else
  match z_get (processor_signature s)
          [(PROCESSOR_SIGNATURE_INTEL_8086, "intel-8086"%string);
           (PROCESSOR_SIGNATURE_NEC_V30, "nec-v30"%string)] with
  | Some name => Ok (Some name)
  | None => Raise (KeyError (dec (processor_signature s)))
  end.

Definition physical_regression_passed (s : WorkloadRuntimeState) : bool :=
  w_completed s && passed s && processor_identified s && (completion_reason s =? 2)
  && bytes_eqb (native_output s) (lit "RESULT: PASS").

Definition completion_reason_name (s : WorkloadRuntimeState) : string :=
  default (unknown (completion_reason s)) (z_get (completion_reason s) COMPLETION_REASONS).

Definition native_output_text (s : WorkloadRuntimeState) : string :=
  let text := decode_utf8_replace (native_output s) in
  if has_bit (result_flags s) RESULT_FLAG_NATIVE_OUTPUT_TRUNCATED then text +:+ "…" else text.

Definition with_processor_flags (f : Z) (s : WorkloadRuntimeState) : WorkloadRuntimeState :=
  mkRuntime (workload_id s) (lifecycle s) (detail s) (clock_mode s) (cycles s) f (result_flags s)
    (completion_reason s) (processor_signature s) (native_output s) (structured_result s).

Definition mark_idle (s : WorkloadRuntimeState) : WorkloadRuntimeState :=
  with_processor_flags (Z.lor (processor_flags s) PROCESSOR_FLAG_IDLE) s.
Definition mark_prepared_runtime_initialized (s : WorkloadRuntimeState) : WorkloadRuntimeState :=
  with_processor_flags (Z.lor (processor_flags s) PROCESSOR_FLAG_PREPARED_RUNTIME_INITIALIZED) s.

(** ** RuntimeStatusSnapshot *)

Record RuntimeStatusSnapshot := mkSnapshot {
  transport_state : string;
  processor_mode : string;
  request_sequence : Z;
  observation : ProcessorObservationState;
  workload : WorkloadRuntimeState;
}.

Definition snapshot_as_dict (s : RuntimeStatusSnapshot) : list (string * json) :=
  let o := observation s in
  let w := workload s in
  let result_pass := passed w in
  [("state", JStr (transport_state s));
   ("processor", JStr (processor_mode s));
   ("request_sequence", JInt (request_sequence s));
   ("boot_id", jopt JInt (o_boot_id o));
   ("cpu_sequence", jopt JInt (o_cpu_sequence o));
   ("command_sequence", jopt JInt (o_command_sequence o));
   ("native_processor", jopt JStr (o_processor o));
   ("workload_id", JInt (workload_id w));
   ("workload_state", JStr (lifecycle_name w));
   ("workload_detail", JInt (detail w));
   ("workload_clock_mode", JStr (clock_name w));
   ("workload_cycles", JInt (cycles w));
   ("workload_processor_flags", JInt (processor_flags w));
   ("workload_processor_state", JStr (processor_state w));
   ("workload_result_structured", JBool (structured_result w));
   ("workload_result_pass", JBool result_pass);
   ("workload_completion_reason", JStr (completion_reason_name w));
   ("workload_processor_signature", JInt (processor_signature w));
   ("workload_native_output", JStr (native_output_text w));
   ("native_result_pass", JBool result_pass)]%string.

(** ** Status payloads *)

(** The states a status payload can report *)
Definition status_ok (s : WorkloadRuntimeState) : bool :=
  in_width 32 (workload_id s) && in_width 32 (lifecycle s) && in_width 32 (detail s)
  && in_width 32 (clock_mode s) && in_width 32 (cycles s) && in_width 32 (processor_flags s)
  && in_width 32 (result_flags s) && in_width 32 (completion_reason s)
  && in_width 16 (processor_signature s) && (len (native_output s) <=? 16)
  && structured_result s.

Definition status_values (s : WorkloadRuntimeState) (pad : bytes) : fvals STRUCTURED_STATUS :=
  (workload_id s, (lifecycle s, (detail s, (clock_mode s, (cycles s, (processor_flags s,
   (result_flags s, (completion_reason s, (processor_signature s,
   (len (native_output s), (native_output s ++ pad, tt))))))))))).

Lemma status_values_fit s pad :
  status_ok s = true → fits STRUCTURED_STATUS (status_values s pad) = true.
Proof.
  unfold status_ok. intros. py_inv. cbn [fits STRUCTURED_STATUS status_values fst snd].
  pose proof (len_nonneg (native_output s)).
  assert (in_width 16 (len (native_output s)) = true) as -> by (unfold in_width; lia).
  repeat match goal with H : in_width _ _ = true |- _ => rewrite H; clear H end. done.
Qed.

Lemma from_payload_ok s pad :
  status_ok s = true → len (native_output s ++ pad) = 16 →
  from_payload (pack_bytes STRUCTURED_STATUS (status_values s pad)) = Ok s.
Proof.
  intros Hs Hl. unfold from_payload, decode_structured_status_payload, len at 1.
  rewrite length_pack_bytes, Z.eqb_refl. cbn [negb].
  rewrite (unpack_pack _ _ _ (pack_ok _ _ (status_values_fit s pad Hs))).
  cbn [mbind result_bind normal STRUCTURED_STATUS status_values fst snd].
  rewrite pad_to_exact by (unfold len in Hl; lia). rewrite len_app in *.
  pose proof (len_nonneg pad). unfold status_ok in Hs. py_inv. guard_false. cbn [mbind result_bind].
  rewrite slice_app_l by done. cbn.
  destruct s; cbn in *. by match goal with H : structured_result0 = true |- _ => rewrite H end.
Qed.

Lemma from_payload_inv p s :
  from_payload p = Ok s →
  status_ok s = true ∧ ∃ pad, len (native_output s ++ pad) = 16
    ∧ p = pack_bytes STRUCTURED_STATUS (status_values s pad).
Proof.
  unfold from_payload, decode_structured_status_payload. intros H.
  apply bind_ok in H as (st & H & Hs).
  destruct (negb _); [discriminate H|].
  apply bind_ok in H as ((a & b & c & d & e & f & g & h & i & n & out & []) & Hu & H).
  destruct (unpack_inv STRUCTURED_STATUS _ _ eq_refl Hu) as (-> & Hf & Hn).
  py_inv. cbn [fits STRUCTURED_STATUS fst snd] in Hf. py_inv.
  assert (length out = 16%nat) as Ho.
  { cbn [normal STRUCTURED_STATUS fst snd] in Hn. injection Hn as Hn. rewrite <- Hn.
    apply length_pad_to. }
  assert (len (slice 0 n out) = n) as Hsl
    by (rewrite len_slice; unfold in_width, len in *; lia).
  split.
  - unfold status_ok. cbn. rewrite Hsl.
    repeat match goal with H : in_width _ _ = true |- _ => rewrite H; clear H end.
    unfold len in *. lia.
  - exists (slice_from n out). cbn [native_output st_output]. rewrite slice_split.
    split; [unfold len; lia|]. unfold status_values. cbn [workload_id lifecycle detail clock_mode cycles
      processor_flags result_flags completion_reason processor_signature native_output
      st_workload st_lifecycle st_detail st_clock st_cycles st_processor_flags st_result_flags
      st_completion st_signature st_output].
    by rewrite Hsl, slice_split.
Qed.

(** ** Theorems *)

(** the request counter is always a non-zero 32-bit value: whatever value
    it starts from and whatever sequence was sent last, the next request can be
    encoded, and below the wrap it is the successor of the last one. *)
Theorem request_sequence_bounds v s seq :
  1 <= value (sequence_init v) < 2 ^ 32
  ∧ 1 <= value (advance_after seq s) < 2 ^ 32
  ∧ (0 <= seq < 2 ^ 32 - 1 → value (advance_after seq s) = seq + 1)
  ∧ value (advance_after (2 ^ 32 - 1) s) = 1.
Proof.
  split.
  { unfold sequence_init. pose proof (mask32_range v). cbn [value].
    destruct (mask32 v =? 0) eqn:E; lia. }
  split; [apply next_seq_range|]. split; [apply next_seq_lt|apply next_seq_max].
Qed.

(** a status payload is decoded without loss or invention: the payload of
    any reportable state decodes to that state, and a payload that is accepted
    is the 52-byte encoding of the state it yields, every field in its width
    and at most 16 octets of native output; a refused payload leaves the state
    untouched. *)
Theorem status_payload_codec :
  (∀ s pad, status_ok s = true → len (native_output s ++ pad) = 16 →
     from_payload (pack_bytes STRUCTURED_STATUS (status_values s pad)) = Ok s)
  ∧ (∀ p s, from_payload p = Ok s →
     status_ok s = true ∧ ∃ pad, len (native_output s ++ pad) = 16
       ∧ p = pack_bytes STRUCTURED_STATUS (status_values s pad))
  ∧ (∀ p self, update_from_payload p self = from_payload p).
Proof.
  split; [apply from_payload_ok|]. split; [apply from_payload_inv|].
  intros p self. unfold update_from_payload. destruct (from_payload p) as [[]|]; done.
Qed.

(** a physical regression counts as passed exactly when the workload
    completed by a native HLT, reported PASS, printed "RESULT: PASS" and was
    identified; the identification always names one of the two supported
    processors (the name lookup never fails). *)
Theorem physical_regression_meaning s :
  (physical_regression_passed s = true
   ↔ lifecycle s = 5 ∧ Z.testbit (result_flags s) 0 = true ∧ completion_reason s = 2
     ∧ native_output s = lit "RESULT: PASS"
     ∧ (runtime_processor s = Ok (Some "intel-8086"%string)
        ∨ runtime_processor s = Ok (Some "nec-v30"%string)))
  ∧ is_ok (runtime_processor s) = true.
Proof.
  unfold physical_regression_passed, runtime_processor, passed, w_completed.
  rewrite (has_bit_testbit _ 0 RESULT_FLAG_PASS) by (done || lia).
  destruct (processor_identified s) eqn:Hi; cbn [negb].
  2:{ rewrite andb_false_r. cbn [andb]. naive_solver. }
  unfold processor_identified in Hi. py_inv. rename select (z_in _ _ = true) into Hz.
  apply z_in_spec in Hz. set_unfold in Hz. rewrite andb_true_r.
  assert (∃ name, z_get (processor_signature s)
            [(PROCESSOR_SIGNATURE_INTEL_8086, "intel-8086"%string);
             (PROCESSOR_SIGNATURE_NEC_V30, "nec-v30"%string)] = Some name
            ∧ (name = "intel-8086"%string ∨ name = "nec-v30"%string)) as (name & -> & Hname).
  { destruct Hz as [->|[->|[]]]; eexists; split; [reflexivity|by left|reflexivity|by right]. }
  split; [|done]. rewrite !andb_true_iff, bytes_eqb_eq, !Z.eqb_eq. naive_solver.
Qed.
