(* ===== verification/Diagnostics.v ===== *)
(** * Stopped-executor diagnostics (host/rp86/diagnostics.py)

    The diagnostics request and the decoded bus snapshot.  The theorem shows
    that an accepted snapshot answers the request, describes a stopped
    executor of the requested workload with a plausible bus cycle, and that
    printing it can never fail on an unknown code. *)

From S2P Require Import Prelude Struct PyText Json Protocol Workload.

Definition SNAPSHOT_FORMAT : list field := [FI; FI; FI; FI; FI; FI; FI; FI; FI; FI; FI; FI; FI].
Definition CYCLE_NAMES : list (Z * string) :=
  [(0, "MEM_READ"); (1, "MEM_WRITE"); (2, "IO_READ"); (3, "IO_WRITE"); (4, "INTERRUPT_ACK");
   (5, "UNSUPPORTED")]%string.
Definition DIAGNOSTICS_CYCLE_VALID : Z := 1.
Definition DIAGNOSTICS_DATA_VALID : Z := 2.
Definition DIAGNOSTICS_NO_CYCLE : Z := 4.
Definition DIAGNOSTICS_UNMAPPED : Z := 8.
Definition DIAGNOSTICS_INVALID_LANE : Z := 16.
Definition DIAGNOSTICS_PAD_MISMATCH : Z := 32.
Definition DIAGNOSTICS_CLOCK_FAILURE : Z := 64.
Definition DIAGNOSTICS_INTERRUPT_ACK : Z := 128.
Definition FAULT_FLAGS : list (Z * string) :=
  [(DIAGNOSTICS_NO_CYCLE, "NO_CYCLE"); (DIAGNOSTICS_UNMAPPED, "UNMAPPED");
   (DIAGNOSTICS_INVALID_LANE, "INVALID_LANE"); (DIAGNOSTICS_PAD_MISMATCH, "PAD_MISMATCH");
   (DIAGNOSTICS_CLOCK_FAILURE, "CLOCK_FAILURE"); (DIAGNOSTICS_INTERRUPT_ACK, "INTERRUPT_ACK")]%string.

Definition diagnostics_request (workload_id sequence : Z) : result Message :=
  p ← pack [FI] (workload_id, tt);
  Ok (request_message TYPE_DIAGNOSTICS_REQUEST sequence p).

Record BusDiagnostics := mkDiagnostics {
  d_workload_id : Z;
  d_boot_id : Z;
  d_lifecycle : Z;
  d_completion_reason : Z;
  d_cycles : Z;
  last_address : Z;
  last_data : Z;
  cycle_type : Z;
  lanes : Z;
  d_flags : Z;
}.

Definition diagnostics_status_text (status : Z) : string :=
  default ("diagnostics status=" +:+ dec status)
    (z_get status
      [(STATUS_BAD_STATE, "processor is executing; stop before trace");
       (STATUS_BAD_WORKLOAD, "workload changed before diagnostics read");
       (STATUS_SERVICE_UNAVAILABLE, "no stopped general-executor diagnostics available")]%string).

(** [key in dict] for integer keys *)
Definition z_has {A} (k : Z) (d : list (Z * A)) : bool :=
  match z_get k d with Some _ => true | None => false end.

Definition diagnostics_from_reply (reply request : Message) : result BusDiagnostics :=
  if negb (message_type reply =? TYPE_DIAGNOSTICS_RESULT) || negb (sequence reply =? sequence request)
  then Raise (ValueError "diagnostics reply type/sequence mismatch") else
  if negb (status reply =? STATUS_OK) then Raise (ValueError (diagnostics_status_text (status reply))) else
  if negb (len (payload reply) =? Z.of_nat (calcsize SNAPSHOT_FORMAT))
  then Raise (ValueError "diagnostics payload must be exactly 52 bytes") else
  '(a, (b, (c, (d, (e, (f, (g, (h, (i, (j, (r0, (r1, (r2, tt)))))))))))))
    ← unpack SNAPSHOT_FORMAT (payload reply);
  if truthy r0 || truthy r1 || truthy r2
  then Raise (ValueError "diagnostics reserved fields must be zero") else
  let snapshot := mkDiagnostics a b c d e f g h i j in
  '(expected_id, tt) ← unpack [FI] (payload request);
  if (d_workload_id snapshot =? 0)
     || (truthy expected_id && negb (d_workload_id snapshot =? expected_id))
  then Raise (ValueError "diagnostics workload mismatch") else
  if negb (z_in (d_lifecycle snapshot) [4; 5; 6; 7])
  then Raise (ValueError "diagnostics did not describe a stopped executor") else
  if negb (z_has (d_completion_reason snapshot) COMPLETION_REASONS)
     || truthy (Z.land (d_flags snapshot) (Z.lnot 0xFF))
  then Raise (ValueError "unknown diagnostics reason or flags") else
  _ ← (if has_bit (d_flags snapshot) DIAGNOSTICS_CYCLE_VALID then
         if negb (z_has (cycle_type snapshot) CYCLE_NAMES) || (0xFFFFF <? last_address snapshot)
            || (3 <? lanes snapshot)
         then Raise (ValueError "invalid diagnostics bus cycle") else Ok tt
       else if has_bit (d_flags snapshot) DIAGNOSTICS_DATA_VALID
       then Raise (ValueError "diagnostics data has no valid cycle") else Ok tt);
  if 0xFFFF <? last_data snapshot
  then Raise (ValueError "invalid diagnostics bus data") else Ok snapshot.

(** [d[key]] on a dict with integer keys *)
Definition z_item {A} (k : Z) (d : list (Z * A)) : result A :=
  match z_get k d with Some a => Ok a | None => Raise (KeyError (dec k)) end.

Definition fault_flags (s : BusDiagnostics) : list string :=
  map snd (List.filter (λ p, has_bit (d_flags s) p.1) FAULT_FLAGS).

(** [asdict] followed by [update]: updated keys keep their place. *)
Definition diagnostics_as_dict (s : BusDiagnostics) : result (list (string * json)) :=
  let valid := has_bit (d_flags s) DIAGNOSTICS_CYCLE_VALID in
  reason ← z_item (d_completion_reason s) COMPLETION_REASONS;
  cycle_name ← (if valid then name ← z_item (cycle_type s) CYCLE_NAMES; Ok (Some name) else Ok None);
  Ok [("workload_id", JInt (d_workload_id s)); ("boot_id", JInt (d_boot_id s));
      ("lifecycle", JInt (d_lifecycle s)); ("completion_reason", JInt (d_completion_reason s));
      ("cycles", JInt (d_cycles s));
      ("last_address", if valid then JInt (last_address s) else JNull);
      ("last_data", if has_bit (d_flags s) DIAGNOSTICS_DATA_VALID then JInt (last_data s) else JNull);
      ("cycle_type", JInt (cycle_type s)); ("lanes", JInt (lanes s)); ("flags", JInt (d_flags s));
      ("source", JStr "firmware_stopped_executor"); ("reason", JStr reason);
      ("cycle_name", jopt JStr cycle_name); ("fault_flags", JList (map JStr (fault_flags s)))]%string.

Definition diagnostics_format (s : BusDiagnostics) : result string :=
  _ ← diagnostics_as_dict s;
  let valid := has_bit (d_flags s) DIAGNOSTICS_CYCLE_VALID in
  reason ← z_item (d_completion_reason s) COMPLETION_REASONS;
  let address := if valid then "0x" +:+ hex_upper 5 (last_address s) else "unavailable"%string in
  let data := if has_bit (d_flags s) DIAGNOSTICS_DATA_VALID
              then "0x" +:+ hex_upper 4 (last_data s) else "unavailable"%string in
  let cycle := if valid then default EmptyString (z_get (cycle_type s) CYCLE_NAMES) else EmptyString in
  Ok ("Stopped bus diagnostics: workload=" +:+ dec (d_workload_id s) +:+ " boot=" +:+ dec (d_boot_id s)
      +:+ newline +:+ "  reason=" +:+ reason +:+ " cycles=" +:+ dec (d_cycles s)
      +:+ newline +:+ "  last observed cycle=" +:+ str_or cycle "unavailable" +:+ " address=" +:+ address
      +:+ " lanes=" +:+ dec (lanes s) +:+ " data=" +:+ data
      +:+ newline +:+ "  flags=" +:+ str_or (str_join "," (fault_flags s)) "none").

(** ** Theorem *)

Definition snapshot_values (s : BusDiagnostics) : fvals SNAPSHOT_FORMAT :=
  (d_workload_id s, (d_boot_id s, (d_lifecycle s, (d_completion_reason s, (d_cycles s,
   (last_address s, (last_data s, (cycle_type s, (lanes s, (d_flags s, (0, (0, (0, tt))))))))))))).

Lemma z_has_item {A} k (d : list (Z * A)) : z_has k d = true → is_ok (z_item k d) = true.
Proof. unfold z_has, z_item. by destruct (z_get k d). Qed.

Lemma diagnostics_printable s :
  z_has (d_completion_reason s) COMPLETION_REASONS = true →
  (has_bit (d_flags s) DIAGNOSTICS_CYCLE_VALID = true → z_has (cycle_type s) CYCLE_NAMES = true) →
  is_ok (diagnostics_as_dict s) = true ∧ is_ok (diagnostics_format s) = true.
Proof.
  intros Hr Hc. apply z_has_item in Hr. unfold diagnostics_format, diagnostics_as_dict.
  destruct (z_item (d_completion_reason s) COMPLETION_REASONS); [|done]. cbn [mbind result_bind].
  destruct (has_bit (d_flags s) DIAGNOSTICS_CYCLE_VALID); [|done].
  specialize (Hc eq_refl). apply z_has_item in Hc.
  by destruct (z_item (cycle_type s) CYCLE_NAMES).
Qed.

(** an accepted diagnostics reply answers the request it is matched with
    (type, sequence, status OK, workload), is the exact encoding of the
    returned snapshot, describes a stopped executor with a known completion
    reason, known flags and a bus cycle inside the 20-bit, 16-bit and two-lane
    limits; and the snapshot can always be turned into its document and text. *)
Theorem diagnostics_accepted reply workload_id seq request s :
  diagnostics_request workload_id seq = Ok request →
  diagnostics_from_reply reply request = Ok s →
  message_type reply = TYPE_DIAGNOSTICS_RESULT ∧ sequence reply = seq ∧ status reply = STATUS_OK
  ∧ payload reply = pack_bytes SNAPSHOT_FORMAT (snapshot_values s)
  ∧ d_workload_id s ≠ 0 ∧ (workload_id ≠ 0 → d_workload_id s = workload_id)
  ∧ 4 <= d_lifecycle s <= 7 ∧ 0 <= d_completion_reason s <= 6 ∧ 0 <= d_flags s < 256
  ∧ (Z.testbit (d_flags s) 0 = true → 0 <= cycle_type s <= 5 ∧ last_address s < 2 ^ 20 ∧ lanes s <= 3)
  ∧ (Z.testbit (d_flags s) 1 = true → Z.testbit (d_flags s) 0 = true)
  ∧ last_data s < 2 ^ 16
  ∧ is_ok (diagnostics_as_dict s) = true ∧ is_ok (diagnostics_format s) = true.
Proof.
  unfold diagnostics_request. intros Hreq Hd. py_inv. unfold diagnostics_from_reply in Hd.
  cbn [sequence payload request_message] in Hd. do 3 py_step.
  apply bind_ok in Hd as ((a & b & c & d & e & f & g & h & i & j & r0 & r1 & r2 & []) & Hu & Hd).
  destruct (unpack_inv SNAPSHOT_FORMAT _ _ eq_refl Hu) as (Hp & Hf & _). clear Hu.
  rename select (pack [FI] _ = _) into Hreq. rewrite (unpack_pack _ _ _ Hreq) in Hd.
  cbn [mbind result_bind normal fst snd] in Hd. unfold truthy in Hd.
  rewrite (has_bit_testbit _ 0 DIAGNOSTICS_CYCLE_VALID), (has_bit_testbit _ 1 DIAGNOSTICS_DATA_VALID)
    in Hd by (done || lia).
  cbn [fits SNAPSHOT_FORMAT fst snd] in Hf. unfold in_width in Hf. py_inv.
  cbn [d_workload_id d_lifecycle d_completion_reason d_flags cycle_type last_address lanes last_data] in *.
  change 0xFF with (Z.ones 8) in *.
  rename select ((Z.land _ _ =? 0) = true) into Hfl. apply Z.eqb_eq, land_lnot_ones in Hfl; [|lia].
  rename select (z_in _ _ = true) into Hz. apply z_in_spec in Hz. set_unfold in Hz.
  rename select (z_has d _ = true) into Hr.
  assert (0 <= d <= 6) as Hd6.
  { revert Hr. unfold z_has, z_get. cbn. repeat case_match; try done; lia. }
  assert (r0 = 0 ∧ r1 = 0 ∧ r2 = 0) as (-> & -> & ->) by lia.
  assert (Z.testbit j 0 = true → z_has h CYCLE_NAMES = true ∧ f <= 0xFFFFF ∧ i <= 3) as Hcyc.
  { intros Hj. rewrite Hj in *. py_inv. repeat split; [done|lia|lia]. }
  assert (Z.testbit j 1 = true → Z.testbit j 0 = true) as Hdat.
  { intros Hj. destruct (Z.testbit j 0); [done|]. rewrite Hj in *. py_inv. }
  split; [lia|]. split; [lia|]. split; [lia|]. split; [done|]. split; [lia|]. split; [lia|].
  split; [lia|]. split; [done|]. split; [done|]. split; [|split; [done|split; [lia|]]].
  - intros Hj. destruct (Hcyc Hj) as (Hn & ? & ?). split; [|lia].
    revert Hn. unfold z_has, z_get. cbn. repeat case_match; try done; lia.
  - apply diagnostics_printable; [done|].
    rewrite (has_bit_testbit _ 0 DIAGNOSTICS_CYCLE_VALID) by (done || lia). cbn. naive_solver.
Qed.

Definition sample_snapshot : BusDiagnostics := mkDiagnostics 7 3 5 2 1200 0x1F000 0xBEEF 0 3 3.

Example diagnostics_accepted_witness :
  let reply := mkMessage TYPE_DIAGNOSTICS_RESULT 9
                 (pack_bytes SNAPSHOT_FORMAT (snapshot_values sample_snapshot)) 0 0 1 in
  let request := request_message TYPE_DIAGNOSTICS_REQUEST 9 (pack_bytes [FI] (7, tt)) in
  diagnostics_request 7 9 = Ok request ∧ diagnostics_from_reply reply request = Ok sample_snapshot
  ∧ is_ok (diagnostics_format sample_snapshot) = true.
Proof.
  intros reply request.
  assert (diagnostics_request 7 9 = Ok request) as Hq by (vm_compute; reflexivity).
  assert (diagnostics_from_reply reply request = Ok sample_snapshot) as Hr by (vm_compute; reflexivity).
  split; [exact Hq|]. split; [exact Hr|].
  apply (diagnostics_accepted reply 7 9 request sample_snapshot Hq Hr).
Defined.
