(* ===== verification/Timeout.v ===== *)
(** * Workload execution limit (host/rp86/workload_timeout.py)

    The [timeout] command: parsing seconds as a decimal, the request, and the
    status the RP2350 returns.  Decimal numbers are a coefficient and an
    exponent of ten; multiplication rounds half-even to the 28 digits of
    Python's default context.  Exponents beyond the range of the [decimal]
    module's constructor are outside the model. *)

From S2P Require Import Prelude Struct PyText Protocol Memory.
From Stdlib Require Import Ascii.

Definition TIMEOUT_REQUEST : list field := [FI; FI].
Definition TIMEOUT_STATUS : list field := [FI; FI; FI; FI; FI; FI; FI; FI; FI; FI; FI; FI; FI].

(** ** Decimals *)

(** [Finite neg c e] is (-1)^neg * c * 10^e. *)
Inductive decimal :=
| Finite (neg : bool) (c : Z) (e : Z)
| Infinite
| NaN (signalling : bool).

Definition dec_digit (c : ascii) : option Z :=
  let n := Z.of_N (N_of_ascii c) in
  if (48 <=? n) && (n <=? 57) then Some (n - 48) else None.

(** A run of digits: accumulated value and count *)
Fixpoint scan_number (l : list ascii) (acc : Z) (count : nat) : Z * nat * list ascii :=
  match l with
  | c :: l' =>
      match dec_digit c with
      | Some d => scan_number l' (acc * 10 + d) (S count)
      | None => (acc, count, l)
      end
  | [] => (acc, count, [])
  end.

Definition all_digits (l : list ascii) : bool :=
  forallb (λ c, match dec_digit c with Some _ => true | None => false end) l.

(** The exponent part, [[eE][+-]?digits] or nothing, to the end of the text *)
Definition scan_exponent (l : list ascii) : option Z :=
  match l with
  | [] => Some 0
  | c :: l =>
      if char_is "e" "E" c then
        let '(neg, l) := match l with
                         | "-"%char :: l => (true, l) | "+"%char :: l => (false, l) | _ => (false, l)
                         end in
        match scan_number l 0 0 with
        | (v, S _, []) => Some (if neg then - v else v)
        | _ => None
        end
      else None
  end.

(** [Decimal(text)]; [None] is [InvalidOperation].  Surrounding whitespace is
    stripped and underscores are dropped. *)
Fixpoint rstrip_spaces (l : list ascii) : list ascii :=
  match l with
  | [] => []
  | c :: l => match rstrip_spaces l with
              | [] => if str_space c then [] else [c]
              | l => c :: l
              end
  end.

Definition parse_decimal (s : string) : option decimal :=
  let l := rstrip_spaces (skip_spaces (String.list_ascii_of_string s)) in
  let l := List.filter (λ c, negb (Ascii.eqb c "_")) l in
  let '(neg, l) := match l with
                   | "-"%char :: l => (true, l) | "+"%char :: l => (false, l) | _ => (false, l)
                   end in
  let word := str_lower (String.string_of_list_ascii l) in
  if str_in word ["inf"; "infinity"]%string then Some Infinite else
  if str_starts "snan" word && all_digits (drop 4 l) then Some (NaN true) else
  if str_starts "nan" word && all_digits (drop 3 l) then Some (NaN false) else
  let '(c, before, rest) := scan_number l 0 0 in
  let '(c, after, rest) := match rest with
                           | "."%char :: rest => scan_number rest c 0
                           | _ => (c, O, rest)
                           end in
  if (before + after =? 0)%nat then None else
  match scan_exponent rest with
  | Some e => Some (Finite neg c (e - Z.of_nat after))
  | None => None
  end.

(** The number of decimal digits of a non-negative number; the fuel is its bit length. *)
Fixpoint digit_count (fuel : nat) (z : Z) : Z :=
  match fuel with O => 0 | S fuel => if z =? 0 then 0 else 1 + digit_count fuel (z / 10) end.
Definition digits (z : Z) : Z := digit_count (S (Z.to_nat (Z.log2 z))) z.

(** Rounding half-even to 28 digits: the coefficient and the exponent shift *)
Definition round_28 (c : Z) : Z * Z :=
  let drop := digits c - 28 in
  if drop <=? 0 then (c, 0) else
  let p := 10 ^ drop in
  let q := c / p in
  let r := c mod p in
  let q := if (p <? 2 * r) || ((2 * r =? p) && Z.odd q) then q + 1 else q in
  (q, drop).

(** [value * 1000] in the default context; [None] is [Overflow] or
    [InvalidOperation]. *)
Definition times_1000 (d : decimal) : option decimal :=
  match d with
  | Finite neg c e =>
      let '(c, shift) := round_28 (c * 1000) in
      if negb (c =? 0) && (999999 <? e + shift + digits c - 1) then None
      else Some (Finite neg c (e + shift))
  | NaN true => None
  | d => Some d
  end.

(** [1 <= value <= 86400000 and value == value.to_integral_value()] and
    [int(value)].  An exponent of at least 8 or at most the digit count
    decides the comparison without computing the power of ten. *)
Definition whole_milliseconds (neg : bool) (c e : Z) : option Z :=
  if neg || (c =? 0) then None else
  if 8 <=? e then None else
  if 0 <=? e then
    let v := c * 10 ^ e in if v <=? WORKLOAD_TIMEOUT_MAX_MS then Some v else None
  else if digits c + e <=? 0 then None
  else
    let p := 10 ^ (- e) in
    if (c mod p =? 0) && (c / p <=? WORKLOAD_TIMEOUT_MAX_MS) then Some (c / p) else None.

(** ** The command *)

Definition parse_timeout (arguments : list string) : result (option Z) :=
  match arguments with
  | [] => Ok None
  | [text] =>
      if String.eqb (str_lower text) "off" then Ok (Some 0) else
      match parse_decimal text with
      | None => Raise (ValueError "timeout requires seconds or off")
      | Some d =>
          match times_1000 d with
          | None => Raise (ValueError "timeout requires seconds or off")
          | Some value =>
              match (match value with Finite neg c e => whole_milliseconds neg c e | _ => None end) with
              | Some ms => Ok (Some ms)
              | None => Raise (ValueError
                          "timeout must be 0.001–86400 seconds in whole milliseconds, or off")
              end
          end
      end
  | _ => Raise (ValueError "usage: timeout [seconds|off]")
  end.

Definition timeout_request (timeout_ms : option Z) (sequence : Z) : result Message :=
  if match timeout_ms with
     | Some ms => negb ((0 <=? ms) && (ms <=? WORKLOAD_TIMEOUT_MAX_MS))
     | None => false
     end
  then Raise (ValueError "workload timeout is outside the supported range") else
  p ← pack TIMEOUT_REQUEST
        (match timeout_ms with None => WORKLOAD_TIMEOUT_GET | Some _ => WORKLOAD_TIMEOUT_SET end,
         (default 0 timeout_ms, tt));
  Ok (request_message TYPE_WORKLOAD_TIMEOUT_REQUEST sequence p).

Record WorkloadTimeout := mkTimeout {
  timeout_ms : Z;
  remaining_ms : Z;
  t_workload_id : Z;
  t_boot_id : Z;
  armed : Z;
}.

Definition timeout_from_reply (reply request : Message) : result WorkloadTimeout :=
  if negb (message_type reply =? TYPE_WORKLOAD_TIMEOUT_RESULT)
     || negb (sequence reply =? sequence request)
  then Raise (ValueError "workload timeout reply type/sequence mismatch") else
  if negb (status reply =? STATUS_OK) then
    if status reply =? STATUS_BAD_STATE
    then Raise (ValueError "execution limit is unavailable for an active prepared workload")
    else Raise (ValueError ("workload timeout status=" +:+ dec (status reply))) else
  if negb (len (payload reply) =? Z.of_nat (calcsize TIMEOUT_STATUS))
  then Raise (ValueError "workload timeout payload must be exactly 52 bytes") else
  '(a, (b, (c, (d, (e, (r0, (r1, (r2, (r3, (r4, (r5, (r6, (r7, tt)))))))))))))
    ← unpack TIMEOUT_STATUS (payload reply);
  if truthy r0 || truthy r1 || truthy r2 || truthy r3 || truthy r4 || truthy r5 || truthy r6 || truthy r7
  then Raise (ValueError "workload timeout reserved fields must be zero") else
  let result := mkTimeout a b c d e in
  if (WORKLOAD_TIMEOUT_MAX_MS <? timeout_ms result) || negb (z_in (armed result) [0; 1])
     || (timeout_ms result <? remaining_ms result)
     || (negb (truthy (armed result)) && negb (remaining_ms result =? 0))
     || (truthy (armed result)
         && negb (truthy (timeout_ms result) && truthy (t_workload_id result) && truthy (t_boot_id result)))
  then Raise (ValueError "inconsistent workload timeout status") else
  '(operation, (value, tt)) ← unpack TIMEOUT_REQUEST (payload request);
  if (operation =? WORKLOAD_TIMEOUT_SET) && negb (timeout_ms result =? value)
  then Raise (ValueError "workload timeout setting was not applied") else Ok result.

(** [f"{ms / 1000:.3f}"]: the division is correctly rounded and the value has at
    most eight significant digits, so the text is the exact decimal. *)
Definition milliseconds_text (ms : Z) : string :=
  let fraction := dec (ms mod 1000) in
  dec (ms / 1000) +:+ "." +:+ zeros (3 - String.length fraction) +:+ fraction.

Definition timeout_format (t : WorkloadTimeout) : string :=
  if timeout_ms t =? 0 then "Workload execution limit: OFF (RP2350 supervised)" else
  let state := if truthy (armed t) then "armed, remaining=" +:+ milliseconds_text (remaining_ms t) +:+ "s"
               else "not armed"%string in
  "Workload execution limit: " +:+ milliseconds_text (timeout_ms t) +:+ "s (" +:+ state +:+ ")"
  +:+ String "010"%char "  Deadline is measured from each run/restart, not from the last query.".

Example parse_timeout_samples :
  [parse_timeout ["0.001"]; parse_timeout ["86400"]; parse_timeout ["1_0.50"]; parse_timeout ["2.5e1"];
   parse_timeout ["OFF"]; parse_timeout []]%string
  = [Ok (Some 1); Ok (Some 86400000); Ok (Some 10500); Ok (Some 25000); Ok (Some 0); Ok None].
Proof. vm_compute. reflexivity. Qed.
Example parse_timeout_rejects :
  map (λ t, is_ok (parse_timeout [t]))
    ["0"; "0.0005"; "86400.001"; "nan"; "sNaN"; "inf"; "-1"; "1e"; "."; ""; "1e2000000"]%string
  = repeat false 11.
Proof. vm_compute. reflexivity. Qed.
(** A 32-digit text is rounded to 28 digits before the test, so it is accepted. *)
Example parse_timeout_rounds :
  parse_timeout ["1.0000000000000000000000000000001"]%string = Ok (Some 1000).
Proof. vm_compute. reflexivity. Qed.
Example milliseconds_sample : milliseconds_text 12034 = "12.034"%string ∧ milliseconds_text 5 = "0.005"%string.
Proof. vm_compute. split; reflexivity. Qed.

(** ** Theorems *)

Lemma whole_milliseconds_range neg c e ms :
  0 <= c → whole_milliseconds neg c e = Some ms → 0 <= ms <= WORKLOAD_TIMEOUT_MAX_MS.
Proof.
  intros Hc. unfold whole_milliseconds. intros H. repeat case_match; simplify_eq.
  - assert (0 < 10 ^ e) by (apply Z.pow_pos_nonneg; lia). nia.
  - assert (0 < 10 ^ (- e)) by (apply Z.pow_pos_nonneg; lia).
    assert (0 <= c / 10 ^ (- e)) by (apply Z.div_pos; lia). py_inv. lia.
Qed.

(** The milliseconds are the exact value of the decimal. *)
Lemma whole_milliseconds_exact neg c e ms :
  whole_milliseconds neg c e = Some ms →
  neg = false ∧ (if 0 <=? e then ms = c * 10 ^ e else c = ms * 10 ^ (- e)).
Proof.
  unfold whole_milliseconds. intros H. repeat case_match; simplify_eq; py_inv.
  - done.
  - split; [done|].
    assert (0 < 10 ^ (- e)) by (apply Z.pow_pos_nonneg; lia).
    pose proof (Z.div_mod c (10 ^ (- e)) ltac:(lia)). lia.
Qed.

Lemma scan_number_nonneg l acc count : 0 <= acc → 0 <= (scan_number l acc count).1.1.
Proof.
  revert acc count. induction l as [|c l IH]; intros acc count Ha; cbn [scan_number]; [done|].
  destruct (dec_digit c) as [d|] eqn:E; [|done]. apply IH.
  unfold dec_digit in E. case_match; simplify_eq. lia.
Qed.

Lemma parse_decimal_nonneg s neg c e : parse_decimal s = Some (Finite neg c e) → 0 <= c.
Proof.
  unfold parse_decimal.
  destruct (match _ with "-"%char :: _ => _ | _ => _ end) as [sign l].
  repeat (destruct (str_in _ _); [done|]). destruct (_ && _); [done|]. destruct (_ && _); [done|].
  pose proof (scan_number_nonneg l 0 0 ltac:(lia)) as H1.
  destruct (scan_number l 0 0) as [[c1 n1] rest]. cbn [fst] in H1.
  assert (0 <= (match rest with "."%char :: rest => scan_number rest c1 0 | _ => (c1, O, rest) end).1.1)
    as H2 by (repeat case_match; try done; by apply scan_number_nonneg).
  destruct (match rest with "."%char :: rest => _ | _ => _ end) as [[c2 n2] rest2]. cbn [fst] in H2.
  intros H. repeat case_match; by simplify_eq.
Qed.

Lemma round_28_nonneg c : 0 <= c → 0 <= (round_28 c).1.
Proof.
  intros Hc. unfold round_28. destruct (_ <=? 0) eqn:E; [done|].
  assert (0 < 10 ^ (digits c - 28)) by (apply Z.pow_pos_nonneg; lia).
  assert (0 <= c / 10 ^ (digits c - 28)) by (apply Z.div_pos; lia). case_match; cbn; lia.
Qed.

(** the [timeout] command accepts nothing that the request cannot carry:
    a parsed limit is between 0 and 24 hours, its request is always encodable
    as a GET or SET record, and every refusal is a [ValueError]. *)
Theorem timeout_command_safe arguments seq :
  match parse_timeout arguments with
  | Ok limit =>
      (∀ ms, limit = Some ms → 0 <= ms <= WORKLOAD_TIMEOUT_MAX_MS)
      ∧ ∃ request, timeout_request limit seq = Ok request
          ∧ (u32 seq → message_ok request = true)
          ∧ unpack TIMEOUT_REQUEST (payload request)
            = Ok (match limit with None => WORKLOAD_TIMEOUT_GET | Some _ => WORKLOAD_TIMEOUT_SET end,
                  (default 0 limit, tt))
  | Raise e => ∃ msg, e = ValueError msg
  end.
Proof.
  assert (∀ limit, (∀ ms, limit = Some ms → 0 <= ms <= WORKLOAD_TIMEOUT_MAX_MS) →
    ∃ request, timeout_request limit seq = Ok request ∧ (u32 seq → message_ok request = true)
      ∧ unpack TIMEOUT_REQUEST (payload request)
        = Ok (match limit with None => WORKLOAD_TIMEOUT_GET | Some _ => WORKLOAD_TIMEOUT_SET end,
              (default 0 limit, tt))) as Hreq.
  { intros limit Hl. set (op := match limit with None => WORKLOAD_TIMEOUT_GET | Some _ => WORKLOAD_TIMEOUT_SET end).
    unfold WORKLOAD_TIMEOUT_MAX_MS in Hl.
    assert (0 <= op <= 1 ∧ 0 <= default 0 limit <= 86400000) as [Ho Hd]
      by (unfold op; destruct limit as [ms|]; cbn; [specialize (Hl ms eq_refl)|]; split; done || lia).
    assert (fits TIMEOUT_REQUEST (op, (default 0 limit, tt)) = true) as Hf
      by (cbn [fits TIMEOUT_REQUEST fst snd]; unfold in_width; lia).
    exists (request_message TYPE_WORKLOAD_TIMEOUT_REQUEST seq (pack_bytes TIMEOUT_REQUEST (op, (default 0 limit, tt)))).
    split; [|split].
    - unfold timeout_request. fold op.
      assert (match limit with Some ms => negb ((0 <=? ms) && (ms <=? WORKLOAD_TIMEOUT_MAX_MS)) | None => false end
              = false) as ->
        by (unfold WORKLOAD_TIMEOUT_MAX_MS; destruct limit as [ms|]; [specialize (Hl ms eq_refl); lia|done]).
      by rewrite pack_ok.
    - intros Hs. unfold message_ok, header_fits. cbn [version payload message_type flags sequence status request_message].
      rewrite Hs. unfold len. by rewrite length_pack_bytes.
    - cbn [payload request_message]. exact (unpack_pack _ _ _ (pack_ok _ _ Hf)). }
  destruct (parse_timeout arguments) as [limit|e] eqn:Hp.
  - assert (∀ ms, limit = Some ms → 0 <= ms <= WORKLOAD_TIMEOUT_MAX_MS) as Hl; [|by auto].
    intros ms ->. unfold parse_timeout in Hp.
    destruct arguments as [|text [|??]]; [done| |done].
    destruct (String.eqb _ _); [simplify_eq; done|].
    destruct (parse_decimal text) as [d|] eqn:Hd; [|done].
    destruct (times_1000 d) as [[neg c e| |]|] eqn:Ht; [|done..].
    destruct (whole_milliseconds neg c e) eqn:Hw; simplify_eq.
    eapply whole_milliseconds_range; [|exact Hw].
    destruct d as [neg' c' e'| |[]]; cbn [times_1000] in Ht; [|done..].
    pose proof (round_28_nonneg (c' * 1000) ltac:(apply parse_decimal_nonneg in Hd; lia)).
    destruct (round_28 (c' * 1000)). cbn in *. case_match; by simplify_eq.
  - unfold parse_timeout in Hp. repeat case_match; simplify_eq; by eexists.
Qed.

(** an accepted timeout status answers the request, is internally
    consistent (at most 24 hours, the remainder within the limit, unarmed means
    no remainder, armed means a limit and an owner), and after a SET it reports
    exactly the limit that was asked for. *)
Theorem timeout_status_accepted limit seq request reply t :
  timeout_request limit seq = Ok request → timeout_from_reply reply request = Ok t →
  message_type reply = TYPE_WORKLOAD_TIMEOUT_RESULT ∧ sequence reply = seq ∧ status reply = STATUS_OK
  ∧ 0 <= remaining_ms t <= timeout_ms t ∧ timeout_ms t <= WORKLOAD_TIMEOUT_MAX_MS
  ∧ (armed t = 0 ∧ remaining_ms t = 0
     ∨ armed t = 1 ∧ timeout_ms t ≠ 0 ∧ t_workload_id t ≠ 0 ∧ t_boot_id t ≠ 0)
  ∧ (∀ ms, limit = Some ms → timeout_ms t = ms).
Proof.
  unfold timeout_request, timeout_from_reply. intros Hr Ht. py_inv.
  cbn [sequence payload request_message] in *.
  rename select (pack TIMEOUT_REQUEST _ = _) into Hp. rewrite (unpack_pack _ _ _ Hp) in Ht.
  destruct (negb (status reply =? STATUS_OK)) eqn:Hst; [by case_match|]. py_step.
  apply bind_ok in Ht as ((a & b & c & d & e & r0 & r1 & r2 & r3 & r4 & r5 & r6 & r7 & []) & Hu & Ht).
  destruct (unpack_inv TIMEOUT_STATUS _ _ eq_refl Hu) as (_ & Hf & _). clear Hu.
  cbn [fits TIMEOUT_STATUS fst snd] in Hf. unfold in_width in Hf.
  cbn [mbind result_bind normal TIMEOUT_REQUEST fst snd] in Ht. unfold truthy, z_in in Ht.
  cbn [existsb timeout_ms remaining_ms t_workload_id t_boot_id armed] in Ht. py_inv. cbn.
  unfold WORKLOAD_TIMEOUT_SET, WORKLOAD_TIMEOUT_GET in *.
  split; [lia|]. split; [lia|]. split; [lia|]. split; [lia|]. split; [lia|]. split; [lia|].
  intros ms ->. cbn in *. lia.
Qed.

Example timeout_status_accepted_witness :
  let request := request_message TYPE_WORKLOAD_TIMEOUT_REQUEST 4 (pack_bytes TIMEOUT_REQUEST (1, (5000, tt))) in
  let reply := mkMessage TYPE_WORKLOAD_TIMEOUT_RESULT 4 (pack_bytes TIMEOUT_STATUS
     (5000, (1200, (7, (3, (1, (0, (0, (0, (0, (0, (0, (0, (0, tt)))))))))))))) 0 0 1 in
  timeout_request (Some 5000) 4 = Ok request
  ∧ timeout_from_reply reply request = Ok (mkTimeout 5000 1200 7 3 1) ∧ 1200 <= 5000.
Proof.
  intros request reply.
  assert (timeout_request (Some 5000) 4 = Ok request) as Hq by (vm_compute; reflexivity).
  assert (timeout_from_reply reply request = Ok (mkTimeout 5000 1200 7 3 1)) as Hr
    by (vm_compute; reflexivity).
  split; [exact Hq|]. split; [exact Hr|].
  destruct (timeout_status_accepted (Some 5000) 4 request reply (mkTimeout 5000 1200 7 3 1) Hq Hr)
    as (_ & _ & _ & H & _). apply H.
Defined.
