(* ===== verification/Filesystem.v ===== *)
(** * RP-FLASH filesystem records (host/rp86/filesystem.py)

    Requests and replies of the 64-byte filesystem service.  [flash_*] is the
    device side of the write transaction as the record layout defines it.  The
    theorems show that every request fits one protocol record, that a write
    transaction replayed by the device stores exactly the file's bytes under
    the path with the announced CRC, and what the parsed replies guarantee. *)

From S2P Require Import Prelude Struct PyText Protocol Workload.
From Stdlib Require Import Ascii.

Definition STATUS_NAMES : list (Z * string) :=
  [(STATUS_BAD_LENGTH, "bad request length");
   (STATUS_SERVICE_UNAVAILABLE, "RP-FLASH service unavailable");
   (STATUS_BAD_CRC, "upload CRC mismatch");
   (STATUS_BAD_STATE, "filesystem transfer state mismatch");
   (STATUS_IO_ERROR, "RP-FLASH I/O error");
   (STATUS_NOT_FOUND, "path not found");
   (STATUS_INVALID_PATH, "invalid flash: path");
   (STATUS_NO_SPACE, "no space or target denied")]%string.

Record ListEntry := mkEntry {
  name : string;
  e_size : Z;
  directory : bool;
  next_cursor : Z;
  e_eof : bool;
}.

Record DiskFree := mkDisk {
  label : string;
  filesystem_type : Z;
  total_kib : Z;
  free_kib : Z;
  cluster_bytes : Z;
  erase_bytes : Z;
}.

Record ReadChunk := mkChunk {
  chunk_offset : Z;
  total_size : Z;
  chunk_data : bytes;
  chunk_eof : bool;
}.

(** [_path(path, maximum)] *)
Definition path_bytes (path : string) (maximum : Z) : result bytes :=
  let encoded := encode_utf8 path in
  if negb (str_starts "flash:" path)
     || ((6 <? len encoded) && negb (bool_decide (encoded !! 6%nat = Some Byte.x2f)))
  then Raise (ValueError "path must use flash: or flash:/...") else
  if negb (truthy (len encoded)) || (maximum <? len encoded)
  then Raise (ValueError ("flash: path exceeds " +:+ dec maximum +:+ " UTF-8 bytes")) else
  Ok encoded.

(** [bytes([v])] for a value the callers keep below 256 *)
Definition byte_of (v : Z) : bytes := [byte.of_Z v].

Definition fs_request (operation sequence : Z) (p : bytes) : Message :=
  request_message TYPE_FILESYSTEM_REQUEST sequence (byte_of operation ++ p).

Definition list_request (path : string) (cursor sequence : Z) : result Message :=
  encoded ← path_bytes path 48;
  c ← pack [FH] (cursor, tt);
  Ok (fs_request FILESYSTEM_LIST sequence (byte_of (len encoded) ++ c ++ encoded)).

Definition df_request (path : string) (sequence : Z) : result Message :=
  encoded ← path_bytes path 50;
  Ok (fs_request FILESYSTEM_DF sequence (byte_of (len encoded) ++ encoded)).

Definition read_request (path : string) (offset sequence : Z) : result Message :=
  encoded ← path_bytes path FILESYSTEM_READ_PATH_BYTES;
  o ← pack [FI] (offset, tt);
  Ok (fs_request FILESYSTEM_READ sequence
        (byte_of (len encoded) ++ [Byte.x00; Byte.x00] ++ o ++ encoded)).

(** The [while offset < len(data)] loop: the records and the last sequence *)
Fixpoint write_loop (fuel : nat) (data : bytes) (transfer_id offset sequence : Z)
  : result (list Message * Z) :=
  match fuel with
  | O => Ok ([], sequence)
  | S fuel =>
      if offset <? len data then
        let chunk := slice offset (offset + FILESYSTEM_WRITE_DATA_BYTES) data in
        let sequence := mask32 (sequence + 1) in
        head ← pack [FH; FI; FI] (len chunk, (transfer_id, (offset, tt)));
        '(rest, last) ← write_loop fuel data transfer_id (offset + len chunk) sequence;
        Ok (fs_request FILESYSTEM_WRITE_DATA sequence ([Byte.x00] ++ head ++ chunk) :: rest, last)
      else Ok ([], sequence)
  end.

Definition write_records (path : string) (data : bytes) (transfer_id first_sequence : Z)
  : result (list Message) :=
  encoded ← path_bytes path FILESYSTEM_WRITE_PATH_BYTES;
  let crc := mask32 (crc32 data) in
  head ← pack [FI; FI; FI] (transfer_id, (len data, (crc, tt)));
  let begin := fs_request FILESYSTEM_WRITE_BEGIN first_sequence
                 (byte_of (len encoded) ++ [Byte.x00; Byte.x00] ++ head ++ encoded) in
  '(records, sequence) ← write_loop (length data) data transfer_id 0 first_sequence;
  let sequence := mask32 (sequence + 1) in
  commit ← pack [FI] (transfer_id, tt);
  Ok (begin :: records ++
      [fs_request FILESYSTEM_WRITE_COMMIT sequence ([Byte.x00; Byte.x00; Byte.x00] ++ commit)]).

(** ** Replies *)

Definition validate_reply (reply request_record : Message) : result bytes :=
  if negb (message_type reply =? TYPE_FILESYSTEM_RESULT)
  then Raise (ValueError ("unexpected filesystem reply type: " +:+ dec (message_type reply))) else
  if negb (sequence reply =? sequence request_record)
  then Raise (ValueError ("filesystem reply sequence mismatch: " +:+ dec (sequence reply) +:+ " != "
                          +:+ dec (sequence request_record))) else
  if negb (status reply =? STATUS_OK)
  then Raise (ValueError (default ("filesystem request failed with status " +:+ dec (status reply))
                            (z_get (status reply) STATUS_NAMES))) else
  if negb (truthy (len (payload reply)))
  then Raise (ValueError "filesystem operation echo mismatch") else
  got ← item 0 (payload reply);
  sent ← item 0 (payload request_record);
  if negb (Byte.eqb got sent)
  then Raise (ValueError "filesystem operation echo mismatch") else
  Ok (payload reply).

Definition parse_list (reply request_record : Message) : result ListEntry :=
  payload ← validate_reply reply request_record;
  if len payload <? 10 then Raise (ValueError "filesystem list reply is truncated") else
  flags ← item 1 payload;
  name_length ← item 3 payload;
  let flags := byte.unsigned flags in
  let name_length := byte.unsigned name_length in
  if len payload - 10 <? name_length then Raise (ValueError "filesystem list name is truncated") else
  '(size, tt) ← unpack_from [FI] payload 6;
  '(cursor, tt) ← unpack_from [FH] payload 4;
  Ok (mkEntry (decode_utf8_replace (slice 10 (10 + name_length) payload)) size
        (has_bit flags FILESYSTEM_FLAG_DIRECTORY) cursor (has_bit flags FILESYSTEM_FLAG_EOF)).

Definition parse_df (reply request_record : Message) : result DiskFree :=
  payload ← validate_reply reply request_record;
  if len payload <? 20 then Raise (ValueError "filesystem df reply is truncated") else
  label_length ← item 2 payload;
  let label_length := byte.unsigned label_length in
  if len payload - 20 <? label_length then Raise (ValueError "filesystem label is truncated") else
  '(total, (free, (cluster, (erase, tt)))) ← unpack_from [FI; FI; FI; FI] payload 4;
  kind ← item 1 payload;
  Ok (mkDisk (decode_ascii_replace (slice 20 (20 + label_length) payload)) (byte.unsigned kind)
        total free cluster erase).

Definition parse_read (reply request_record : Message) : result ReadChunk :=
  payload ← validate_reply reply request_record;
  if len payload <? 12 then Raise (ValueError "filesystem read reply is truncated") else
  '(data_length, tt) ← unpack_from [FH] payload 2;
  if len payload - 12 <? data_length then Raise (ValueError "filesystem read data is truncated") else
  '(offset, (total, tt)) ← unpack_from [FI; FI] payload 4;
  flags ← item 1 payload;
  Ok (mkChunk offset total (slice 12 (12 + data_length) payload)
        (has_bit (byte.unsigned flags) FILESYSTEM_FLAG_EOF)).

(** ** The device side of a write transaction *)

Record flash_transfer := mkTransfer {
  f_path : bytes;
  f_transfer : Z;
  f_size : Z;
  f_crc : Z;
  f_data : bytes;
}.

Definition operation_of (r : Message) : option Z := option_map byte.unsigned (head (payload r)).

Definition flash_begin (r : Message) : option flash_transfer :=
  match payload r with
  | op :: n :: _ :: _ :: rest =>
      match unpack_from [FI; FI; FI] rest 0 with
      | Ok (transfer, (size, (crc, tt))) =>
          let path := slice 12 (12 + byte.unsigned n) rest in
          if (byte.unsigned op =? FILESYSTEM_WRITE_BEGIN) && (len path =? byte.unsigned n)
          then Some (mkTransfer path transfer size crc []) else None
      | Raise _ => None
      end
  | _ => None
  end.

Definition flash_data (t : flash_transfer) (r : Message) : option flash_transfer :=
  match payload r with
  | _ :: _ :: rest =>
      match unpack_from [FH; FI; FI] rest 0 with
      | Ok (n, (transfer, (offset, tt))) =>
          let data := slice_from 10 rest in
          if (len data =? n) && (transfer =? f_transfer t) && (offset =? len (f_data t))
          then Some (mkTransfer (f_path t) (f_transfer t) (f_size t) (f_crc t) (f_data t ++ data))
          else None
      | Raise _ => None
      end
  | _ => None
  end.

(** Commit: the transfer, the announced size and the CRC must match. *)
Definition flash_commit (t : flash_transfer) (r : Message) : bool :=
  match payload r with
  | _ :: _ :: _ :: _ :: rest =>
      match unpack [FI] rest with
      | Ok (transfer, tt) =>
          (transfer =? f_transfer t) && (len (f_data t) =? f_size t) && (crc32 (f_data t) =? f_crc t)
      | Raise _ => false
      end
  | _ => false
  end.

Fixpoint flash_receive (t : flash_transfer) (records : list Message) : option (bytes * bytes) :=
  match records with
  | [] => None
  | r :: records =>
      if bool_decide (operation_of r = Some FILESYSTEM_WRITE_DATA) then
        match flash_data t r with Some t => flash_receive t records | None => None end
      else if bool_decide (operation_of r = Some FILESYSTEM_WRITE_COMMIT) && flash_commit t r
              && bool_decide (records = [])
      then Some (f_path t, f_data t) else None
  end.

(** The path and the contents stored by a complete transaction *)
Definition flash_write (records : list Message) : option (bytes * bytes) :=
  match records with
  | r :: records => match flash_begin r with Some t => flash_receive t records | None => None end
  | [] => None
  end.

(** ** Lemmas *)

(** The counter of [write_records] wraps to 0. *)
Definition fs_next (s : Z) : Z := mask32 (s + 1).

Lemma chain_fs_u32 s l : u32 s → chain fs_next s l = true → Forall (λ x, u32 x) l.
Proof.
  revert s. induction l as [|x l IH]; intros s Hs; cbn [chain]; [constructor|].
  intros H. apply andb_prop in H as [Hx Hl]. apply Z.eqb_eq in Hx as ->.
  constructor; [done|]. apply (IH (fs_next s)); [|done].
  unfold fs_next, in_width. pose proof (mask32_range (s + 1)). lia.
Qed.

Definition fs_record_ok : Message → bool := plain_request [TYPE_FILESYSTEM_REQUEST].

Lemma fs_request_ok operation sequence p : len p <= 51 → fs_record_ok (fs_request operation sequence p) = true.
Proof.
  intros Hl. unfold fs_record_ok, plain_request, fs_request, z_in.
  cbn [existsb message_type payload version flags status request_message byte_of app].
  rewrite len_cons. unfold PAYLOAD_SIZE. lia.
Qed.

Lemma byte_unsigned_of v : 0 <= v < 256 → byte.unsigned (byte.of_Z v) = v.
Proof. intros. rewrite byte.unsigned_of_Z. unfold byte.wrap. apply Z.mod_small. lia. Qed.

(** An [ns]-free head packed in front of other bytes is read back. *)
Lemma read_head fmt vs rest :
  fits fmt vs = true →
  unpack_from fmt (pack_bytes fmt vs ++ rest) 0 = Ok (normal fmt vs).
Proof. intros Hf. exact (unpack_from_pack _ _ _ [] rest 0%nat (pack_ok _ _ Hf) eq_refl). Qed.

Lemma write_loop_spec fuel path transfer size crc done rest sequence :
  u32 transfer → len (done ++ rest) < 2 ^ 32 → (length rest ≤ fuel)%nat →
  ∃ records last,
    write_loop fuel (done ++ rest) transfer (len done) sequence = Ok (records, last)
    ∧ (∀ tail, flash_receive (mkTransfer path transfer size crc done) (records ++ tail)
               = flash_receive (mkTransfer path transfer size crc (done ++ rest)) tail)
    ∧ chain fs_next (fs_next sequence) (map Protocol.sequence records) = true
    ∧ chain_next fs_next (fs_next sequence) (map Protocol.sequence records) = fs_next last
    ∧ forallb fs_record_ok records = true.
Proof.
  intros Ht. revert done rest sequence. induction fuel as [|fuel IH]; intros done rest sequence Hl Hf.
  { destruct rest; [|cbn in Hf; lia]. exists [], sequence. by rewrite app_nil_r. }
  pose proof (len_nonneg done). pose proof (len_nonneg rest). rewrite len_app in Hl.
  cbn [write_loop]. rewrite len_app.
  destruct (len done <? len done + len rest) eqn:Hlt.
  2:{ assert (rest = []) as -> by (apply len_zero; lia). exists [], sequence. by rewrite app_nil_r. }
  assert (rest ≠ []) as Hr by (apply len_pos_ne; lia).
  change FILESYSTEM_WRITE_DATA_BYTES with 40.
  rewrite (slice_chunk done rest 40) by lia. change (Z.to_nat 40) with 40%nat.
  set (chunk := take 40 rest).
  pose proof (len_take_le 40 rest : len chunk <= 40) as Hc.
  pose proof (len_take_pos 40 rest ltac:(lia) Hr : 0 < len chunk) as Hc0.
  pose proof (take_drop_len 40 rest) as Hsum. fold chunk in Hsum.
  pose proof (len_nonneg (drop 40 rest)).
  assert (fits [FH; FI; FI] (len chunk, (transfer, (len done, tt))) = true) as Hfit.
  { cbn [fits fst snd]. rewrite Ht. unfold in_width. lia. }
  rewrite (pack_ok _ _ Hfit). cbn [mbind result_bind]. fold (fs_next sequence).
  destruct (IH (done ++ chunk) (drop 40 rest) (fs_next sequence))
    as (records & last & Hw & Hd & Hch & Hn & Hk).
  { rewrite !len_app. lia. }
  { rewrite length_drop. unfold len in *. lia. }
  assert ((done ++ chunk) ++ drop 40 rest = done ++ rest) as Happ
    by (unfold chunk; by rewrite <- app_assoc, take_drop).
  rewrite Happ in Hw, Hd. rewrite len_app in Hw. rewrite Hw. cbn [mbind result_bind].
  eexists _, last. split; [reflexivity|]. split; [|split; [|split]].
  - intros tail. cbn [app flash_receive fs_request byte_of].
    unfold operation_of. cbn [payload request_message fs_request byte_of app head option_map].
    rewrite bool_decide_eq_true_2 by reflexivity.
    unfold flash_data. cbn [payload request_message fs_request byte_of app].
    rewrite read_head by done. cbn [normal fst snd f_transfer f_data f_path f_size f_crc].
    rewrite slice_from_app by (unfold len; by rewrite length_pack_bytes).
    rewrite !Z.eqb_refl. cbn [andb]. apply Hd.
  - cbn [map chain Protocol.sequence fs_request request_message]. by rewrite Z.eqb_refl.
  - cbn [map Protocol.sequence fs_request request_message]. unfold chain_next in *.
    rewrite last_cons. by destruct (list.last (map Protocol.sequence records)).
  - cbn [forallb]. rewrite Hk, andb_true_r. apply fs_request_ok.
    rewrite !len_app, len_pack_bytes, len_cons, len_nil. cbn [calcsize fwidth]. lia.
Qed.

Lemma path_bytes_ok path maximum encoded :
  path_bytes path maximum = Ok encoded →
  encoded = encode_utf8 path ∧ 0 < len encoded <= maximum
  ∧ str_starts "flash:" path = true.
Proof.
  unfold path_bytes, truthy. intros H. py_inv. pose proof (len_nonneg (encode_utf8 path)).
  split; [done|]. split; [lia|]. done.
Qed.

Lemma path_bytes_value_error path maximum e :
  path_bytes path maximum = Raise e → ∃ msg, e = ValueError msg.
Proof. unfold path_bytes. repeat case_match; naive_solver. Qed.

Lemma write_records_ok path data transfer first encoded :
  path_bytes path FILESYSTEM_WRITE_PATH_BYTES = Ok encoded →
  u32 transfer → len data < 2 ^ 32 →
  ∃ records, write_records path data transfer first = Ok records
    ∧ flash_write records = Some (encode_utf8 path, data)
    ∧ chain fs_next first (map sequence records) = true
    ∧ forallb fs_record_ok records = true.
Proof.
  intros Hp Ht Hl. unfold write_records. rewrite Hp. cbn [mbind result_bind].
  apply path_bytes_ok in Hp as (-> & Hlen & _). set (encoded := encode_utf8 path) in *.
  unfold FILESYSTEM_WRITE_PATH_BYTES in Hlen. pose proof (len_nonneg data).
  rewrite (mask32_id (crc32 data)) by apply crc32_u32.
  assert (fits [FI; FI; FI] (transfer, (len data, (crc32 data, tt))) = true) as Hf1.
  { cbn [fits fst snd]. rewrite Ht, crc32_u32. unfold in_width. lia. }
  assert (fits [FI] (transfer, tt) = true) as Hf2 by (cbn [fits fst snd]; by rewrite Ht).
  rewrite (pack_ok _ _ Hf1), (pack_ok _ _ Hf2). cbn [mbind result_bind].
  destruct (write_loop_spec (length data) encoded transfer (len data) (crc32 data) [] data first Ht)
    as (records & last & Hw & Hd & Hc & Hn & Hk); [done|done|].
  cbn [app] in Hw, Hd. change (len []) with 0 in Hw. rewrite Hw. cbn [mbind result_bind].
  fold (fs_next last). eexists. split; [reflexivity|]. split; [|split].
  - cbn [flash_write]. unfold flash_begin.
    cbn [payload fs_request request_message byte_of app].
    rewrite read_head by done. cbn [normal fst snd].
    rewrite (byte_unsigned_of (len encoded)) by lia.
    assert (slice 12 (12 + len encoded) (pack_bytes [FI; FI; FI] (transfer, (len data, (crc32 data, tt)))
              ++ encoded) = encoded) as ->.
    { rewrite (slice_after 12) by (by rewrite len_pack_bytes). apply slice_all. lia. }
    change (byte.unsigned (byte.of_Z FILESYSTEM_WRITE_BEGIN)) with FILESYSTEM_WRITE_BEGIN.
    rewrite !Z.eqb_refl. cbn [andb]. rewrite Hd. cbn [flash_receive].
    unfold operation_of. cbn [payload fs_request request_message byte_of app head option_map].
    rewrite bool_decide_eq_false_2 by done. rewrite bool_decide_eq_true_2 by reflexivity.
    unfold flash_commit. cbn [payload fs_request request_message byte_of app].
    rewrite (unpack_pack _ _ _ (pack_ok _ _ Hf2)). cbn [normal fst snd f_transfer f_data f_size f_crc].
    by rewrite !Z.eqb_refl.
  - cbn [map chain sequence fs_request request_message]. rewrite Z.eqb_refl. cbn [andb].
    rewrite map_app. apply chain_app; [done|]. rewrite Hn.
    cbn [map chain sequence fs_request request_message]. by rewrite Z.eqb_refl.
  - cbn [forallb]. rewrite forallb_app, Hk. cbn [forallb].
    rewrite !fs_request_ok; [done|..]; cbn [byte_of app];
      rewrite ?len_cons, ?len_app, len_pack_bytes; cbn [calcsize fwidth]; lia.
Qed.

(** ** Device replies *)

(** A read reply: operation, flags, data length, offset, total size, data *)
Definition read_payload (eof : bool) (offset total : Z) (data : bytes) : bytes :=
  [byte.of_Z FILESYSTEM_READ; byte.of_Z (if eof then FILESYSTEM_FLAG_EOF else 0)]
  ++ pack_bytes [FH] (len data, tt) ++ pack_bytes [FI; FI] (offset, (total, tt)) ++ data.

Lemma validate_reply_ok reply request_record :
  message_type reply = TYPE_FILESYSTEM_RESULT → sequence reply = sequence request_record →
  status reply = STATUS_OK → head (payload reply) = head (payload request_record) →
  payload reply ≠ [] →
  validate_reply reply request_record = Ok (payload reply).
Proof.
  intros Ht Hs Hst Hh Hn. unfold validate_reply, truthy. rewrite Ht, Hs, Hst, !Z.eqb_refl. cbn [negb].
  destruct (payload reply) as [|x p]; [done|]. rewrite len_cons. pose proof (len_nonneg p).
  guard_false. destruct (payload request_record) as [|y q]; [done|]. cbn in Hh. simplify_eq.
  change (item 0 (y :: p)) with (Ok y). change (item 0 (y :: q)) with (Ok y).
  cbn [mbind result_bind]. by rewrite (Byte.byte_dec_lb eq_refl).
Qed.

Lemma validate_reply_inv reply request_record p :
  validate_reply reply request_record = Ok p →
  p = payload reply ∧ message_type reply = TYPE_FILESYSTEM_RESULT
  ∧ sequence reply = sequence request_record ∧ status reply = STATUS_OK
  ∧ head (payload reply) = head (payload request_record).
Proof.
  unfold validate_reply, item, truthy. intros H. py_inv.
  rename select (Byte.eqb _ _ = true) into He. apply Byte.byte_dec_bl in He as ->.
  change (Z.to_nat 0) with 0%nat in *.
  split; [done|]. split; [lia|]. split; [lia|]. split; [lia|].
  destruct (payload reply), (payload request_record); naive_solver.
Qed.

Lemma parse_read_ok reply request_record eof offset total data :
  validate_reply reply request_record = Ok (payload reply) →
  payload reply = read_payload eof offset total data →
  len data <= 40 → u32 offset → u32 total →
  parse_read reply request_record = Ok (mkChunk offset total data eof).
Proof.
  intros Hv Hp Hl Ho Ht. unfold parse_read. rewrite Hv. cbn [mbind result_bind]. rewrite Hp.
  pose proof (len_nonneg data).
  assert (len (read_payload eof offset total data) = 12 + len data) as Hlen.
  { unfold read_payload. rewrite !len_app, !len_pack_bytes, !len_cons, len_nil.
    cbn [calcsize fwidth]. lia. }
  rewrite Hlen. guard_false.
  assert (fits [FH] (len data, tt) = true) as Hf1 by (cbn [fits fst snd]; unfold in_width; lia).
  assert (fits [FI; FI] (offset, (total, tt)) = true) as Hf2 by (cbn [fits fst snd]; by rewrite Ho, Ht).
  unfold read_payload.
  rewrite (unpack_from_pack _ _ _ _ _ 2 (pack_ok _ _ Hf1)) by reflexivity.
  cbn [mbind result_bind normal fst snd]. guard_false.
  rewrite app_assoc.
  rewrite (unpack_from_pack _ _ _ _ _ 4 (pack_ok _ _ Hf2))
    by (rewrite length_app, length_pack_bytes; reflexivity).
  cbn [mbind result_bind normal fst snd]. rewrite app_assoc.
  rewrite (slice_after 12) by (rewrite !len_app, !len_pack_bytes; reflexivity).
  rewrite slice_all by lia. cbn. by destruct eof.
Qed.

Lemma parse_read_bounds reply request_record c :
  parse_read reply request_record = Ok c →
  u32 (chunk_offset c) ∧ u32 (total_size c) ∧ len (payload reply) >= 12 + len (chunk_data c)
  ∧ (∃ pre post, payload reply = pre ++ chunk_data c ++ post ∧ len pre = 12).
Proof.
  unfold parse_read. intros H. apply bind_ok in H as (p & Hv & H).
  apply validate_reply_inv in Hv as (-> & _). set (p := payload reply) in *.
  destruct (len p <? 12) eqn:H12; [done|].
  apply bind_ok in H as ((n & []) & Hn & H). destruct (len p - 12 <? n) eqn:Hle; [done|].
  apply bind_ok in H as ((o & t & []) & Ho & H). py_inv. cbn [chunk_offset total_size chunk_data].
  pose proof (unpack_from_fits [FH] p 2 (n, tt) Hn) as F1.
  pose proof (unpack_from_fits [FI; FI] p 4 (o, (t, tt)) Ho) as F2.
  cbn [fits fst snd] in F1, F2. py_inv.
  assert (len (slice 12 (12 + n) p) = n) as Hs.
  { unfold in_width in *. rewrite len_slice; lia. }
  split; [done|]. split; [done|]. split; [rewrite Hs; lia|].
  exists (take 12 p), (drop (Z.to_nat (12 + n)) p).
  split; [|unfold len in *; rewrite length_take; lia].
  unfold slice. change (Z.to_nat 12) with 12%nat.
  rewrite <- (take_drop 12 p) at 1. f_equal.
  rewrite <- (take_drop (Z.to_nat (12 + n) - 12) (drop 12 p)) at 1. f_equal.
  rewrite drop_drop. f_equal. unfold in_width in *. lia.
Qed.

(** ** Theorems *)

(** a file written to RP-FLASH arrives whole: for a valid [flash:] path of
    at most 36 octets, the transaction is a burst of encodable records that the
    device replays (in order, checking transfer, size and CRC) into exactly the
    file's bytes under exactly that path; an invalid path is refused with
    [ValueError] before any record exists. *)
Theorem filesystem_write_transaction path data transfer first :
  u32 transfer → u32 first → len data < 2 ^ 32 →
  match path_bytes path FILESYSTEM_WRITE_PATH_BYTES with
  | Ok encoded =>
      encoded = encode_utf8 path
      ∧ ∃ records, write_records path data transfer first = Ok records
          ∧ flash_write records = Some (encode_utf8 path, data)
          ∧ chain fs_next first (map sequence records) = true
          ∧ Forall (λ r, message_ok r = true) records
  | Raise e => write_records path data transfer first = Raise e ∧ ∃ msg, e = ValueError msg
  end.
Proof.
  intros Ht Hf Hl. destruct (path_bytes path FILESYSTEM_WRITE_PATH_BYTES) as [encoded|e] eqn:Hp.
  - split; [by apply path_bytes_ok in Hp as [-> _]|].
    destruct (write_records_ok path data transfer first encoded Hp Ht Hl)
      as (records & Hr & Hw & Hc & Hk).
    exists records. split; [done|]. split; [done|]. split; [done|].
    eapply plain_requests_ok; [|exact Hk|]; [done|]. by eapply chain_fs_u32.
  - split; [|by eapply path_bytes_value_error]. unfold write_records. by rewrite Hp.
Qed.

Example filesystem_write_transaction_witness :
  match path_bytes "flash:/a" FILESYSTEM_WRITE_PATH_BYTES with
  | Ok encoded =>
      encoded = encode_utf8 "flash:/a"
      ∧ ∃ records, write_records "flash:/a" (lit "hello") 1 7 = Ok records
          ∧ flash_write records = Some (encode_utf8 "flash:/a", lit "hello")
          ∧ chain fs_next 7 (map sequence records) = true
          ∧ Forall (λ r, message_ok r = true) records
  | Raise e => write_records "flash:/a" (lit "hello") 1 7 = Raise e ∧ ∃ msg, e = ValueError msg
  end.
Proof.
  apply (filesystem_write_transaction "flash:/a" (lit "hello") 1 7); vm_compute; reflexivity.
Defined.

(** The write counter wraps to sequence 0, which the request counter of the
    Host never uses. *)
Example filesystem_sequence_zero :
  match write_records "flash:/a" (lit "x") 1 0xFFFFFFFF with
  | Ok records => map sequence records = [0xFFFFFFFF; 0; 1]
  | Raise _ => False
  end.
Proof. vm_compute. reflexivity. Qed.

(** a file-read reply is decoded faithfully: the chunk of an accepted
    reply lies inside the record at its announced length, its offset and total
    are 32-bit values, the reply echoes the operation, sequence and OK status
    of the request, and the canonical reply for any chunk of at most 40 bytes
    decodes to that chunk. *)
Theorem parse_read_codec :
  (∀ reply request c, parse_read reply request = Ok c →
     message_type reply = TYPE_FILESYSTEM_RESULT ∧ sequence reply = sequence request
     ∧ status reply = STATUS_OK ∧ head (payload reply) = head (payload request)
     ∧ u32 (chunk_offset c) ∧ u32 (total_size c)
     ∧ ∃ pre post, payload reply = pre ++ chunk_data c ++ post ∧ len pre = 12)
  ∧ (∀ path offset seq request eof total data,
       read_request path offset seq = Ok request → len data <= 40 → u32 total →
       parse_read (mkMessage TYPE_FILESYSTEM_RESULT seq (read_payload eof offset total data) 0 0 1) request
       = Ok (mkChunk offset total data eof)).
Proof.
  split.
  - intros reply request c H. pose proof (parse_read_bounds _ _ _ H) as (? & ? & _ & ?).
    unfold parse_read in H. apply bind_ok in H as (p & Hv & _).
    apply validate_reply_inv in Hv as (_ & ? & ? & ? & ?). done.
  - intros path offset seq request eof total data Hr Hl Ht.
    unfold read_request in Hr. py_inv.
    match goal with H : pack [FI] _ = Ok _ |- _ => unfold pack in H; rename H into Hpk end. py_inv.
    rename select (fits [FI] _ = true) into Hf. cbn [fits fst snd] in Hf. py_inv.
    eapply parse_read_ok; [|reflexivity|done..]. by apply validate_reply_ok.
Qed.
