(* ===== verification/RequestChannel.v ===== *)
(** * The HID request/reply exchange (host/rp86/request_channel.py)

    [exchange_hid_request] drains old reports, writes one framed request and
    reads until a report answers it, the deadline passes, the transport fails
    or the device disconnects.  HIDAPI, the clock, [time.sleep] and the
    transport service are the class [HidWorld]; time is in milliseconds.  The
    loops take fuel; [None] is "out of fuel", which the theorems rule out.

    The theorems show that a returned reply was read from the device and
    answers the request, that stale and empty reads are skipped until the
    first answer that comes in time, and that the exchange always ends when
    time passes and the device sends finitely many reports. *)

From S2P Require Import Prelude Struct PyText Json Protocol Core.

Class HidWorld (W : Type) := {
  hid_read : Z → io W bytes;
  hid_write : bytes → io W Z;
  monotonic : W → W * Z;
  service_transport : io W (option string);
  sleep : Z → W → W;
}.

Record ExchangeResult := mkExchange {
  reply : option Message;
  latency_ms : Z;
  error : option string;
}.

Section exchange.
Context {W : Type} `{HidWorld W}.

Definition now : io W Z := λ w, let '(w, t) := monotonic w in (w, Ok t).
Definition pause (ms : Z) : io W unit := modify (sleep ms).

(** [while bytes(hid_device.read(MESSAGE_SIZE + 1)): pass] *)
Fixpoint drain_input (fuel : nat) : io W bool :=
  match fuel with
  | O => mret false
  | S fuel =>
      b ← hid_read (MESSAGE_SIZE + 1);
      if truthy (len b) then drain_input fuel else mret true
  end.

(** [while time.monotonic() < drain_deadline: ...] *)
Fixpoint drain_transport (fuel : nat) (drain_deadline : Z) : io W bool :=
  match fuel with
  | O => mret false
  | S fuel =>
      t ← now;
      if t <? drain_deadline then
        e ← service_transport;
        match e with
        | Some _ => mret true
        | None => _ ← pause 1; drain_transport fuel drain_deadline
        end
      else mret true
  end.

(** The receive loop; [stale] is [stale_reply_error].  The inner [None] is a
    timed-out loop. *)
Fixpoint receive (fuel : nat) (request : Message) (expected : option string)
    (began deadline : Z) (stale : option string)
  : io W (option (ExchangeResult + option string)) :=
  match fuel with
  | O => mret None
  | S fuel =>
      t ← now;
      if t <=? deadline then
        transport_error ← service_transport;
        match transport_error with
        | Some e => t ← now; mret (Some (inl (mkExchange None (t - began) (Some e))))
        | None =>
            candidate ← hid_read (MESSAGE_SIZE + 1);
            if truthy (len candidate) then
              match validate_device_reply candidate request expected with
              | Ok r =>
                  t ← now;
                  t' ← now;
                  finished ← drain_transport fuel (t' + 50);
                  if (finished : bool)
                  then mret (Some (inl (mkExchange (Some r) (t - began) None)))
                  else mret None
              | Raise (ValueError text) => receive fuel request expected began deadline (Some text)
              | Raise e => raise e
              end
            else
              _ ← pause 1;
              receive fuel request expected began deadline stale
        end
      else mret (Some (inr stale))
  end.

Definition timeout_error (stale : option string) : string :=
  match stale with
  | Some text => "device reply timeout after stale HID reply: " +:+ text
  | None => "device reply timeout"
  end.

Definition exchange_hid_request (fuel : nat) (request : Message) (timeout : Z)
    (expected : option string) : io W (option ExchangeResult) :=
  began ← now;
  outcome ← catch_os_error
    (drained ← drain_input fuel;
     if negb (drained : bool) then mret None else
     record ← lift (encode request);
     report ← lift (hid_output_report record);
     written ← hid_write report;
     if negb (written =? MESSAGE_SIZE + 1)
     then mret (Some (inl (mkExchange None 0 (Some ("short HID write: " +:+ dec written +:+ "/"
                  +:+ dec (MESSAGE_SIZE + 1) +:+ " bytes")))))
     else receive fuel request expected began (began + timeout) None)
    (λ text, t ← now;
             mret (Some (inl (mkExchange None (t - began) (Some ("USB HID disconnected: " +:+ text))))));
  match outcome with
  | None => mret None
  | Some (inl r) => mret (Some r)
  | Some (inr stale) => t ← now; mret (Some (mkExchange None (t - began) (Some (timeout_error stale))))
  end.

(** ** A reply that is returned answers the request *)

Definition genuine (request : Message) (expected : option string) (m : Message) : Prop :=
  ∃ w w' report, hid_read (MESSAGE_SIZE + 1) w = (w', Ok report)
    ∧ received report m ∧ answers request expected m.

(** Every result of the loops: an error without a reply, or a genuine reply *)
Definition honest (request : Message) (expected : option string) (r : ExchangeResult) : Prop :=
  match reply r with
  | Some m => error r = None ∧ genuine request expected m
  | None => error r ≠ None
  end.

Lemma receive_honest fuel request expected began deadline stale w w' r :
  receive fuel request expected began deadline stale w = (w', Ok (Some (inl r))) →
  honest request expected r.
Proof.
  revert stale w. induction fuel as [|fuel IH]; intros stale w; cbn [receive]; [by intros|].
  intros Hr. io_inv. case_match; [|io_inv].
  io_step. case_match; [by io_inv|]. io_step. case_match; [|io_step; by eapply IH].
  destruct (validate_device_reply _ _ _) as [m|[]] eqn:Hv; io_inv; try by eapply IH.
  case_match; io_inv. apply device_reply_iff in Hv as [??]. split; [done|].
  by eexists _, _, _.
Qed.

Lemma exchange_honest fuel request timeout expected w w' r :
  exchange_hid_request fuel request timeout expected w = (w', Ok (Some r)) →
  honest request expected r.
Proof.
  unfold exchange_hid_request. intros Hr. io_inv.
  rename select (catch_os_error _ _ _ = _) into Hc.
  assert (∀ r', x2 = Some (inl r') → honest request expected r') as Hin.
  { intros r' ->. unfold catch_os_error in Hc.
    destruct ((drain_input fuel ≫= _) _) as [w2 [o|[]]] eqn:Hb; simplify_eq; [|by io_inv].
    io_inv. case_match; io_inv. case_match; [by io_inv|]. by eapply receive_honest. }
  destruct x2 as [[r'|stale]|]; io_inv; [by apply Hin|done].
Qed.
End exchange.

(** ** Termination

    What the loops rely on: the clock does not go back and [sleep] advances
    it, and the device delivers finitely many reports ([pending]). *)

Class FiniteWorld (W : Type) `{HidWorld W} := {
  clock : W → Z;
  pending : W → nat;
  monotonic_law : ∀ w w' t, monotonic w = (w', t) →
    t = clock w' ∧ clock w <= clock w' ∧ (pending w' ≤ pending w)%nat;
  sleep_law : ∀ w d, 0 <= d → clock w + d <= clock (sleep d w) ∧ (pending (sleep d w) ≤ pending w)%nat;
  read_law : ∀ n w w' r, hid_read n w = (w', r) →
    clock w <= clock w' ∧ (pending w' ≤ pending w)%nat
    ∧ (∀ b, r = Ok b → b ≠ [] → (pending w' < pending w)%nat);
  write_law : ∀ b w w' r, hid_write b w = (w', r) →
    clock w <= clock w' ∧ (pending w' ≤ pending w)%nat;
  transport_law : ∀ w w' r, service_transport w = (w', r) →
    clock w <= clock w' ∧ (pending w' ≤ pending w)%nat;
}.

Section termination.
Context {W : Type} `{FiniteWorld W}.

(** [w'] is no earlier than [w] and has no more reports to come. *)
Definition later (w w' : W) : Prop := clock w <= clock w' ∧ (pending w' ≤ pending w)%nat.

Lemma later_now w w' t : now w = (w', Ok t) → later w w' ∧ t = clock w'.
Proof.
  unfold now, later. destruct (monotonic w) as [w1 t1] eqn:E. intros [= <- <-].
  by destruct (monotonic_law _ _ _ E) as (-> & ? & ?).
Qed.
Lemma later_read n w w' b :
  hid_read n w = (w', Ok b) → later w w' ∧ (truthy (len b) = true → (pending w' < pending w)%nat).
Proof.
  intros E. destruct (read_law _ _ _ _ E) as (? & ? & Hp). split; [done|].
  intros Ht. apply (Hp b eq_refl). by intros ->.
Qed.
Lemma later_transport w w' e : service_transport w = (w', Ok e) → later w w'.
Proof. intros E. exact (transport_law _ _ _ E). Qed.
Lemma later_write b w w' n : hid_write b w = (w', Ok n) → later w w'.
Proof. intros E. exact (write_law _ _ _ _ E). Qed.
Lemma later_pause w w' u :
  pause 1 w = (w', Ok u) → later w w' ∧ clock w + 1 <= clock w'.
Proof.
  unfold pause, modify, later. intros [= <- _]. destruct (sleep_law w 1 ltac:(lia)). lia.
Qed.

Ltac world_facts :=
  repeat match goal with
  | H : now _ = (_, Ok _) |- _ => apply later_now in H as [? ->]
  | H : hid_read _ _ = (_, Ok _) |- _ => apply later_read in H as [? ?]
  | H : service_transport _ = (_, Ok _) |- _ => apply later_transport in H
  | H : hid_write _ _ = (_, Ok _) |- _ => apply later_write in H
  | H : pause 1 _ = (_, Ok _) |- _ => apply later_pause in H as [? ?]
  end; unfold later in *.

Lemma drain_transport_ends fuel dd w w' :
  (Z.to_nat (dd - clock w) < fuel)%nat → drain_transport fuel dd w ≠ (w', Ok false).
Proof.
  revert w. induction fuel as [|fuel IH]; intros w Hf; [lia|]. cbn [drain_transport].
  intros Hr. io_inv. case_match; [|by io_inv]. io_inv. case_match; io_inv.
  match goal with H : drain_transport _ _ _ = _ |- _ => revert H end.
  apply IH. world_facts. lia.
Qed.

Lemma drain_input_ends fuel w w' :
  (pending w < fuel)%nat → drain_input fuel w ≠ (w', Ok false).
Proof.
  revert w. induction fuel as [|fuel IH]; intros w Hf; [lia|]. cbn [drain_input].
  intros Hr. io_inv. case_match; [|by io_inv].
  match goal with H : drain_input _ _ = _ |- _ => revert H end.
  apply IH. world_facts. intuition lia.
Qed.

Lemma drain_input_later fuel w w' b : drain_input fuel w = (w', Ok b) → later w w'.
Proof.
  revert w. induction fuel as [|fuel IH]; intros w; cbn [drain_input]; intros Hr; io_inv.
  { unfold later. lia. }
  case_match; [|io_inv; by world_facts]. rename select (drain_input _ _ = _) into Hd. apply IH in Hd. world_facts. lia.
Qed.

Lemma receive_ends fuel request expected began deadline stale w w' :
  (pending w + Z.to_nat (deadline + 1 - clock w) + 51 < fuel)%nat →
  receive fuel request expected began deadline stale w ≠ (w', Ok None).
Proof.
  revert stale w. induction fuel as [|fuel IH]; intros stale w Hf; [lia|]. cbn [receive].
  intros Hr. io_inv. case_match; [|by io_inv]. io_step. case_match; [by io_inv|]. io_step.
  case_match.
  - destruct (validate_device_reply _ _ _) as [m|[]] eqn:Hv; io_inv.
    + case_match; io_inv. subst.
      match goal with H : drain_transport _ _ _ = _ |- _ => revert H end.
      apply drain_transport_ends. world_facts. lia.
    + match goal with H : receive _ _ _ _ _ _ _ = _ |- _ => revert H end.
      apply IH. world_facts. intuition lia.
  - io_inv. match goal with H : receive _ _ _ _ _ _ _ = _ |- _ => revert H end.
    apply IH. world_facts. lia.
Qed.

Lemma exchange_ends fuel request timeout expected w w' :
  (pending w + Z.to_nat (timeout + 1) + 51 < fuel)%nat →
  exchange_hid_request fuel request timeout expected w ≠ (w', Ok None).
Proof.
  intros Hf. unfold exchange_hid_request. intros Hr. io_inv.
  rename select (catch_os_error _ _ _ = _) into Hc. rename select (now w = _) into Hnow.
  apply later_now in Hnow as [Hl ->].
  destruct x2 as [[?|?]|]; io_inv. unfold catch_os_error in Hc.
  destruct ((drain_input fuel ≫= _) _) as [w2 [o|[]]] eqn:Hb; simplify_eq; [|by io_inv].
  apply io_bind_ok in Hb as (w3 & drained & Hd & Hb).
  pose proof (drain_input_later _ _ _ _ Hd) as Hl2. unfold later in *.
  destruct drained; cbn [negb] in Hb.
  - io_inv. case_match; io_inv.
    match goal with H : receive _ _ _ _ _ _ _ = _ |- _ => revert H end.
    apply receive_ends. world_facts. lia.
  - revert Hd. apply drain_input_ends. lia.
Qed.

(** A reply costs the device a report. *)
Lemma drain_transport_later fuel dd w w' b : drain_transport fuel dd w = (w', Ok b) → later w w'.
Proof.
  revert w. induction fuel as [|fuel IH]; intros w; cbn [drain_transport]; intros Hr; io_inv.
  { unfold later. lia. }
  case_match; [|io_inv; by world_facts]. io_step. case_match; io_inv; [by world_facts; lia|].
  rename select (drain_transport _ _ _ = _) into Hd. apply IH in Hd. world_facts. lia.
Qed.
Lemma receive_costs fuel request expected began deadline stale w w' r :
  receive fuel request expected began deadline stale w = (w', Ok (Some (inl r))) → reply r ≠ None →
  (pending w' < pending w)%nat.
Proof.
  revert stale w. induction fuel as [|fuel IH]; intros stale w; cbn [receive]; intros Hr Hm; [by io_inv|].
  io_inv. case_match; [|by io_inv]. io_step. case_match; [by io_inv|]. io_step. case_match.
  - destruct (validate_device_reply _ _ _) as [m|[]] eqn:Hv; io_inv.
    + case_match; io_inv. rename select (drain_transport _ _ _ = _) into Hd. apply drain_transport_later in Hd.
      world_facts. intuition lia.
    + rename select (receive _ _ _ _ _ _ _ = _) into Hd. apply IH in Hd; [|done]. world_facts. intuition lia.
  - io_inv. rename select (receive _ _ _ _ _ _ _ = _) into Hd. apply IH in Hd; [|done]. world_facts. lia.
Qed.
Lemma exchange_costs fuel request timeout expected w w' r :
  exchange_hid_request fuel request timeout expected w = (w', Ok (Some r)) → reply r ≠ None →
  (pending w' < pending w)%nat.
Proof.
  unfold exchange_hid_request. intros Hr Hm. io_inv. rename select (catch_os_error _ _ _ = _) into Hc.
  rename select (now w = _) into Hnow. apply later_now in Hnow as [Hl ->].
  match type of Hc with _ = (?t, Ok ?o) => assert (∀ r', o = Some (inl r') → reply r' ≠ None → (pending t < pending w)%nat) as Hin end.
  { intros r' -> Hr'. unfold catch_os_error in Hc. destruct ((drain_input fuel ≫= _) _) as [w2 [o|[]]] eqn:Hb; simplify_eq.
    - apply io_bind_ok in Hb as (w3 & drained & Hd & Hb). pose proof (drain_input_later _ _ _ _ Hd).
      destruct drained; cbn [negb] in Hb; io_inv. case_match; io_inv.
      rename select (receive _ _ _ _ _ _ _ = _) into Hx. apply receive_costs in Hx; [|done]. world_facts. lia.
    - by io_inv. }
  repeat case_match; io_inv. by eapply Hin.
Qed.
End termination.

(** ** A scripted device

    [sc_old] are reports queued before the request; [sc_new] are the results of
    the reads after it, an empty one meaning that nothing has arrived yet. *)

Record script := mkScript {
  sc_clock : Z;
  sc_old : list bytes;
  sc_new : list bytes;
  sc_sent : list bytes;
}.

Definition script_read (w : script) : script * result bytes :=
  match sc_sent w with
  | [] => match sc_old w with
          | b :: old => (mkScript (sc_clock w) old (sc_new w) [], Ok b)
          | [] => (w, Ok [])
          end
  | sent => match sc_new w with
            | b :: new => (mkScript (sc_clock w) (sc_old w) new sent, Ok b)
            | [] => (w, Ok [])
            end
  end.

#[global] Instance script_world : HidWorld script := {|
  hid_read := λ _, script_read;
  hid_write := λ b w, (mkScript (sc_clock w) (sc_old w) (sc_new w) (sc_sent w ++ [b]), Ok (len b));
  monotonic := λ w, (w, sc_clock w);
  service_transport := λ w, (w, Ok None);
  sleep := λ d w, mkScript (sc_clock w + d) (sc_old w) (sc_new w) (sc_sent w);
|}.

#[global] Program Instance script_finite : FiniteWorld script := {|
  clock := sc_clock;
  pending := λ w, (length (sc_old w) + length (sc_new w))%nat;
|}.
Next Obligation. cbn. intros ??? [= <- <-]. lia. Qed.
Next Obligation. cbn. intros. lia. Qed.
Next Obligation.
  cbn. unfold script_read. intros ? w w' r H.
  destruct (sc_sent w); [destruct (sc_old w) eqn:E|destruct (sc_new w) eqn:E]; simplify_eq; cbn;
    rewrite ?E; cbn; repeat split; try lia; intros; simplify_eq; try done; lia.
Qed.
Next Obligation. cbn. intros ???? [= <- <-]. cbn. lia. Qed.
Next Obligation. cbn. intros ??? [= <- <-]. lia. Qed.

(** The reads that yield nothing cost one millisecond each. *)
Definition empty_reads (l : list bytes) : Z := len (List.filter (λ b, negb (truthy (len b))) l).

Lemma script_drain_transport fuel dd w :
  (Z.to_nat (dd - sc_clock w) < fuel)%nat →
  ∃ w', drain_transport fuel dd w = (w', Ok true).
Proof.
  revert w. induction fuel as [|fuel IH]; intros w Hf; [lia|].
  cbn [drain_transport]. unfold mbind, io_bind, now. cbn [monotonic script_world].
  destruct (sc_clock w <? dd) eqn:E; [|by eexists].
  cbn [service_transport script_world]. unfold pause, modify. cbn [sleep script_world].
  apply IH. cbn [sc_clock]. lia.
Qed.

(** A read that the loop skips: empty, or a report that does not answer *)
Definition skipped (request : Message) (expected : option string) (b : bytes) : bool :=
  negb (truthy (len b)) || negb (is_ok (validate_device_reply b request expected)).

Lemma script_receive fuel request expected began deadline stale w pre good post m :
  sc_sent w ≠ [] → sc_new w = pre ++ good :: post →
  forallb (skipped request expected) pre = true →
  good ≠ [] → validate_device_reply good request expected = Ok m →
  sc_clock w + empty_reads pre <= deadline → (length pre + 52 ≤ fuel)%nat →
  ∃ w', receive fuel request expected began deadline stale w
        = (w', Ok (Some (inl (mkExchange (Some m) (sc_clock w + empty_reads pre - began) None)))).
Proof.
  intros Hsent Hnew Hskip Hgood Hv Hdl Hf. revert stale w fuel Hsent Hnew Hdl Hf.
  induction pre as [|b pre IH]; intros stale w fuel Hsent Hnew Hdl Hf;
    (destruct fuel as [|fuel]; [lia|]); cbn [receive];
    unfold mbind at 1, io_bind at 1, now at 1; cbn [monotonic script_world].
  - change (empty_reads []) with 0 in *. assert ((sc_clock w <=? deadline) = true) as -> by lia.
    unfold mbind, io_bind. cbn [service_transport script_world hid_read]. unfold script_read.
    cbn [app] in Hnew. destruct (sc_sent w) as [|s sent] eqn:Es; [done|]. rewrite Hnew.
    assert (truthy (len good) = true) as ->
      by (unfold truthy; pose proof (len_ne_pos good Hgood); lia).
    rewrite Hv. unfold now. cbn [monotonic script_world sc_clock].
    edestruct (script_drain_transport fuel (sc_clock w + 50)) as [w' Hw'];
      [|rewrite Hw'; eexists; rewrite Z.add_0_r; reflexivity].
    cbn [sc_clock length] in *. lia.
  - cbn [forallb] in Hskip. apply andb_prop in Hskip as [Hb Hpre].
    assert (0 <= empty_reads pre) by apply len_nonneg.
    assert (empty_reads (b :: pre) = (if truthy (len b) then 0 else 1) + empty_reads pre) as He.
    { unfold empty_reads. cbn [List.filter]. destruct (truthy (len b)); cbn [negb]; [lia|].
      rewrite len_cons. lia. }
    rewrite He in *. clear He.
    assert ((sc_clock w <=? deadline) = true) as -> by (case_match; lia).
    unfold mbind, io_bind. cbn [service_transport script_world hid_read]. unfold script_read at 1.
    cbn [app] in Hnew. destruct (sc_sent w) as [|s sent] eqn:Es; [done|]. rewrite Hnew.
    cbn [length] in Hf. unfold skipped in Hb. destruct (truthy (len b)); cbn [negb orb] in Hb.
    + destruct (validate_device_reply b request expected) as [?|e] eqn:Hvb; [done|].
      destruct (device_reply_value_error _ _ _ _ Hvb) as [msg ->].
      destruct (IH Hpre (Some msg) (mkScript (sc_clock w) (sc_old w) (pre ++ good :: post) (s :: sent)) fuel)
        as [w' Hw']; [done|done|cbn [sc_clock]; lia|lia|].
      eexists. rewrite Hw'. reflexivity.
    + unfold pause, modify. cbn [sleep script_world].
      destruct (IH Hpre stale (mkScript (sc_clock w + 1) (sc_old w) (pre ++ good :: post) (s :: sent)) fuel)
        as [w' Hw']; [done|done|cbn [sc_clock]; lia|lia|].
      exists w'. cbn [sc_clock sc_old sc_new sc_sent]. rewrite Hw'. cbn [sc_clock].
      by replace (sc_clock w + 1 + empty_reads pre) with (sc_clock w + (1 + empty_reads pre)) by lia.
Qed.

Lemma script_drain_input fuel w :
  sc_sent w = [] → Forall (λ b, b ≠ []) (sc_old w) → (length (sc_old w) < fuel)%nat →
  drain_input fuel w = (mkScript (sc_clock w) [] (sc_new w) [], Ok true).
Proof.
  revert w. induction fuel as [|fuel IH]; intros w Hs Hold Hf; [lia|].
  cbn [drain_input]. unfold mbind, io_bind. cbn [hid_read script_world]. unfold script_read.
  rewrite Hs. destruct (sc_old w) as [|b old] eqn:E.
  - change (truthy (len [])) with false. destruct w; cbn in *. by subst.
  - apply Forall_cons in Hold as [Hb Hold].
    assert (truthy (len b) = true) as -> by (unfold truthy; pose proof (len_ne_pos b Hb); lia).
    rewrite IH; [done|done|done|]. cbn in *. lia.
Qed.

Lemma script_exchange fuel request timeout expected w pre good post m record :
  sc_sent w = [] → Forall (λ b, b ≠ []) (sc_old w) → sc_new w = pre ++ good :: post →
  encode request = Ok record →
  forallb (skipped request expected) pre = true →
  good ≠ [] → validate_device_reply good request expected = Ok m →
  empty_reads pre <= timeout → (length (sc_old w) + length pre + 52 ≤ fuel)%nat →
  ∃ w', exchange_hid_request fuel request timeout expected w
        = (w', Ok (Some (mkExchange (Some m) (empty_reads pre) None))).
Proof.
  intros Hs Hold Hnew Henc Hskip Hgood Hv Hto Hf. unfold exchange_hid_request.
  unfold mbind at 1, io_bind at 1, now at 1. cbn [monotonic script_world].
  pose proof (encode_len _ _ Henc) as Hlen.
  assert (hid_output_report record = Ok (Byte.x00 :: record)) as Hrep
    by (unfold hid_output_report; by rewrite Hlen, Z.eqb_refl).
  unfold catch_os_error. unfold mbind at 1, io_bind at 1. unfold mbind at 1, io_bind at 1.
  rewrite script_drain_input by (done || lia). cbn [negb].
  rewrite Henc. unfold lift at 1. unfold mbind at 1, io_bind at 1.
  unfold lift at 1. unfold mbind at 1, io_bind at 1. rewrite Hrep.
  unfold mbind at 1, io_bind at 1. cbn [hid_write script_world sc_sent app].
  rewrite len_cons, Hlen. change (1 + MESSAGE_SIZE =? MESSAGE_SIZE + 1) with true. cbn [negb].
  destruct (script_receive fuel request expected (sc_clock w) (sc_clock w + timeout) None
    (mkScript (sc_clock w) [] (sc_new w) [Byte.x00 :: record]) pre good post m)
    as [w' Hw']; [done|done|done|done|done|cbn [sc_clock]; lia|lia|].
  cbn [sc_clock sc_old sc_new sc_sent] in *. rewrite Hw'. exists w'.
  unfold mret, io_ret.
  by replace (sc_clock w + empty_reads pre - sc_clock w) with (empty_reads pre) by lia.
Qed.

(** ** Theorems *)

(** C29: over any HID device, clock and transport, a result either carries an
    error and no reply, or no error and a reply that was read from the device
    in a well-formed report and answers this very request; a reply to an
    earlier request is never returned. *)
Theorem exchange_reply_genuine {W} `{HidWorld W} fuel request timeout expected (w w' : W) r :
  exchange_hid_request fuel request timeout expected w = (w', Ok (Some r)) →
  honest request expected r.
Proof. apply exchange_honest. Qed.

(** C35: when time passes while the exchange sleeps and the device sends
    finitely many reports, the exchange ends: the drain, receive and
    post-reply loops together take at most one turn per report, per
    millisecond of the timeout and per millisecond of the final drain. *)
Theorem exchange_terminates {W} `{FiniteWorld W} fuel request timeout expected (w : W) :
  (pending w + Z.to_nat (timeout + 1) + 51 < fuel)%nat →
  (exchange_hid_request fuel request timeout expected w).2 ≠ Ok None.
Proof.
  intros Hf. pose proof (exchange_ends fuel request timeout expected w
    (exchange_hid_request fuel request timeout expected w).1 Hf) as He.
  destruct (exchange_hid_request _ _ _ _ _). cbn in *. congruence.
Qed.

(** reports queued before the request, empty reads and reports that do not
    answer it are skipped; the first report that answers it is returned with
    its latency, provided the reads that had to wait for it stay within the
    timeout. *)
Theorem exchange_first_answer fuel request timeout expected w pre good post m record :
  sc_sent w = [] → Forall (λ b, b ≠ []) (sc_old w) → sc_new w = pre ++ good :: post →
  encode request = Ok record →
  forallb (skipped request expected) pre = true →
  good ≠ [] → validate_device_reply good request expected = Ok m →
  empty_reads pre <= timeout → (length (sc_old w) + length pre + 52 ≤ fuel)%nat →
  ∃ w', exchange_hid_request fuel request timeout expected w
        = (w', Ok (Some (mkExchange (Some m) (empty_reads pre) None))).
Proof. apply script_exchange. Qed.

(** A status request, the answer to an earlier one, nothing yet, the answer *)
Definition sample_request : Message := request_message TYPE_WORKLOAD_CONTROL 8 (lit "q").
Definition sample_reply (seq : Z) : Message :=
  mkMessage TYPE_WORKLOAD_STATUS seq (replicate 52 Byte.x00) 0 STATUS_OK 1.
Definition sample_report (seq : Z) : bytes :=
  match encode (sample_reply seq) with Ok r => Byte.x00 :: r | Raise _ => [] end.
Definition sample_script : script :=
  mkScript 1000 [sample_report 6] [sample_report 7; []; sample_report 8; sample_report 9] [].

Example exchange_reply_genuine_witness :
  ∃ w' r, exchange_hid_request 60 sample_request 100 None sample_script = (w', Ok (Some r))
    ∧ honest sample_request None r ∧ reply r = Some (sample_reply 8).
Proof.
  destruct (exchange_hid_request 60 sample_request 100 None sample_script) as [w' [[r|]|e]] eqn:E;
    [|vm_compute in E; discriminate E..].
  exists w', r. split; [reflexivity|].
  split; [exact (exchange_reply_genuine 60 sample_request 100 None sample_script w' r E)|].
  vm_compute in E. injection E as <- <-. reflexivity.
Defined.

Example exchange_terminates_witness :
  (exchange_hid_request 200 sample_request 100 None sample_script).2 ≠ Ok None.
Proof. apply (exchange_terminates 200 sample_request 100 None sample_script). vm_compute. lia. Defined.

Example exchange_first_answer_witness :
  ∃ w', exchange_hid_request 60 sample_request 100 None sample_script
        = (w', Ok (Some (mkExchange (Some (sample_reply 8)) 1 None))).
Proof.
  destruct (encode sample_request) as [record|] eqn:E; [|vm_compute in E; discriminate E].
  apply (exchange_first_answer 60 sample_request 100 None sample_script
           [sample_report 7; []] (sample_report 8) [sample_report 9] (sample_reply 8) record).
  - reflexivity.
  - vm_compute. constructor; [discriminate|constructor].
  - reflexivity.
  - exact E.
  - vm_compute. reflexivity.
  - vm_compute. discriminate.
  - vm_compute. reflexivity.
  - vm_compute. discriminate.
  - vm_compute. lia.
Defined.

(** A device that always has a report ready: the drain loop has no deadline and
    does not end. *)
Definition flooding : HidWorld Z := {|
  hid_read := λ _ w, (w, Ok [Byte.x00]);
  hid_write := λ b w, (w, Ok (len b));
  monotonic := λ w, (w + 1, w);
  service_transport := λ w, (w, Ok None);
  sleep := λ ms w, w + ms;
|}.
Example flooded_drain fuel w : drain_input (H := flooding) fuel w = (w, Ok false).
Proof. induction fuel as [|fuel IH]; [done|exact IH]. Qed.
