(* ===== verification/ServiceClient.v ===== *)
(** * Memory and filesystem services (host/rp86/service_client.py)

    [RuntimeServiceClient] over an abstract request exchange: the class
    [RequestExchange] is the callable the client is built with and its activity
    callback.  [SramService] and [FlashService] state what a conforming device
    promises through that callable; the client's theorems are proved against
    them, and a simulated device discharges them.

    Loops over device replies take fuel, [None] being "out of fuel". *)

From S2P Require Import Prelude Struct PyText Json Protocol Memory Workload RuntimeState.
From S2P Require Import Diagnostics Timeout Filesystem.

Class RequestExchange (W : Type) := {
  exchange : Message → io W (option Message * Z * option string);
  on_activity : W → W;
}.

Record client (W : Type) := mkClient { world : W; c_sequence : RequestSequence }.
Arguments mkClient {W} world c_sequence.
Arguments world {W} _.
Arguments c_sequence {W} _.

(** [error or text] *)
Definition error_or (error : option string) (text : string) : option string :=
  Some (str_or (default EmptyString error) text).

Section client.
Context {W : Type} `{RequestExchange W}.

Definition on_world {A} (m : io W A) : io (client W) A := λ c,
  let '(w, r) := m (world c) in (mkClient w (c_sequence c), r).

Definition sequence_value : io (client W) Z := gets (λ c, value (c_sequence c)).

(** The exchange, the counter and the callback that every service starts with *)
Definition service_exchange (request : Message) : io (client W) (option Message * option string) :=
  '(reply, _, error) ← on_world (exchange request);
  _ ← modify (λ c, mkClient (world c) (advance_after (sequence request) (c_sequence c)));
  _ ← modify (λ c, mkClient (on_activity (world c)) (c_sequence c));
  mret (reply, error).

Definition filesystem_request (request : Message) : io (client W) (option Message * option string) :=
  '(reply, error) ← service_exchange request;
  match reply with
  | None => mret (None, error_or error "filesystem exchange failed")
  | Some r => lift (try_value (validate_reply r request)
                      (λ text, Ok (None, Some text)) (λ _, Ok (Some r, None)))
  end.

Definition read_diagnostics (workload_id : Z) : io (client W) (option BusDiagnostics * option string) :=
  seq ← sequence_value;
  request ← lift (diagnostics_request workload_id seq);
  '(reply, error) ← service_exchange request;
  match reply with
  | None => mret (None, error_or error "diagnostics exchange failed")
  | Some r => lift (try_value (diagnostics_from_reply r request)
                      (λ text, Ok (None, Some text)) (λ d, Ok (Some d, None)))
  end.

Definition execution_timeout (timeout : option Z) : io (client W) (option WorkloadTimeout * option string) :=
  seq ← sequence_value;
  request ← lift (timeout_request timeout seq);
  '(reply, error) ← service_exchange request;
  match reply with
  | None => mret (None, error_or error "workload timeout exchange failed")
  | Some r => lift (try_value (timeout_from_reply r request)
                      (λ text, Ok (None, Some text)) (λ t, Ok (Some t, None)))
  end.

Definition memory_request (request : Message) : io (client W) (option Message * option string) :=
  '(reply, error) ← service_exchange request;
  match reply with
  | None => mret (None, error_or error "memory exchange failed")
  | Some r => lift (try_value (validate_memory_reply r request)
                      (λ text, Ok (None, Some text)) (λ _, Ok (Some r, None)))
  end.

(** [read_memory]: every turn that goes on adds at least one byte. *)
Fixpoint read_memory_loop (fuel : nat) (address length : Z) (content : bytes)
  : io (client W) (option (option bytes * option string)) :=
  if negb (len content <? length) then mret (Some (Some content, None)) else
  match fuel with
  | O => mret None
  | S fuel =>
      let chunk_length := Z.min 40 (length - len content) in
      seq ← sequence_value;
      match memory_read_request (address + len content) chunk_length seq with
      | Raise (ValueError text) => mret (Some (None, Some text))
      | Raise e => raise e
      | Ok request =>
          '(reply, error) ← memory_request request;
          match reply with
          | None => mret (Some (None, error))
          | Some r =>
              match parse_memory_read r request with
              | Ok data => read_memory_loop fuel address length (content ++ data)
              | Raise (ValueError text) => mret (Some (None, Some text))
              | Raise e => raise e
              end
          end
      end
  end.

Definition read_memory (fuel : nat) (address length : Z) : io (client W) (option (option bytes * option string)) :=
  read_memory_loop fuel address length [].

Fixpoint write_memory_records (records : list Message) : io (client W) (option string) :=
  match records with
  | [] => mret None
  | request :: records =>
      '(reply, error) ← memory_request request;
      match (reply : option Message) with
      | None => mret error
      | Some _ => write_memory_records records
      end
  end.

Definition write_memory (address : Z) (data : bytes) : io (client W) (option string) :=
  seq ← sequence_value;
  match memory_write_records address data seq with
  | Raise (ValueError text) => mret (Some text)
  | Raise e => raise e
  | Ok records => write_memory_records records
  end.

Fixpoint read_directory_loop (fuel : nat) (path : string) (cursor : Z) (entries : list ListEntry)
  : io (client W) (option (option (list ListEntry) * option string)) :=
  match fuel with
  | O => mret None
  | S fuel =>
      seq ← sequence_value;
      match list_request path cursor seq with
      | Raise (ValueError text) => mret (Some (None, Some text))
      | Raise e => raise e
      | Ok request =>
          '(reply, error) ← filesystem_request request;
          match reply with
          | None => mret (Some (None, error))
          | Some r =>
              match parse_list r request with
              | Raise (ValueError text) => mret (Some (None, Some ("invalid device reply: " +:+ text)))
              | Raise e => raise e
              | Ok entry =>
                  if e_eof entry then mret (Some (Some entries, None))
                  else read_directory_loop fuel path (next_cursor entry) (entries ++ [entry])
              end
          end
      end
  end.

Definition read_directory (fuel : nat) (path : string) := read_directory_loop fuel path 0 [].

Fixpoint read_file_loop (fuel : nat) (path : string) (offset : Z) (total : option Z) (content : bytes)
  : io (client W) (option (option bytes * option string)) :=
  match fuel with
  | O => mret None
  | S fuel =>
      let failed text : io (client W) (option (option bytes * option string)) :=
        mret (Some (None, Some text)) in
      seq ← sequence_value;
      match read_request path offset seq with
      | Raise (ValueError text) => failed text
      | Raise e => raise e
      | Ok request =>
          '(reply, error) ← filesystem_request request;
          match reply with
          | None => mret (Some (None, error))
          | Some r =>
              match parse_read r request with
              | Raise (ValueError text) => failed ("invalid device reply: " +:+ text)
              | Raise e => raise e
              | Ok chunk =>
                  if negb (chunk_offset chunk =? offset)
                  then failed ("reply offset mismatch " +:+ dec (chunk_offset chunk) +:+ " != " +:+ dec offset)
                  else if match total with Some n => negb (total_size chunk =? n) | None => false end
                  then failed "file size changed while reading"%string
                  else
                    let size := default (total_size chunk) total in
                    let content := content ++ chunk_data chunk in
                    let offset := offset + len (chunk_data chunk) in
                    if chunk_eof chunk then
                      if negb (size =? len content)
                      then failed ("file length mismatch " +:+ dec (len content) +:+ " != " +:+ dec size)
                      else mret (Some (Some content, None))
                    else if negb (truthy (len (chunk_data chunk)))
                    then failed "device returned an empty non-final file chunk"%string
                    else read_file_loop fuel path offset (Some size) content
              end
          end
      end
  end.

Definition read_file (fuel : nat) (path : string) := read_file_loop fuel path 0 None [].
End client.

(** ** The loops end

    Every turn that goes on was answered, so that the loops are over when the
    device has given all its answers: [answers] of them are still to come. *)

Section ends.
Context {W : Type} `{RequestExchange W} (answers : W → nat).
Hypothesis exchange_costs : ∀ request w w' m ms error,
  exchange request w = (w', Ok (Some m, ms, error)) → (answers w' < answers w)%nat.
Hypothesis activity_law : ∀ w, (answers (on_activity w) ≤ answers w)%nat.
Let left_of (c : client W) : nat := answers (world c).

Lemma service_exchange_costs request c c' m error :
  service_exchange request c = (c', Ok (Some m, error)) → (left_of c' < left_of c)%nat.
Proof.
  unfold service_exchange, on_world. intros E. io_step. destruct x0 as [[reply ms] err]. io_inv.
  destruct (exchange request (world c)) as [w [r|]] eqn:Ew; simplify_eq.
  apply exchange_costs in Ew. pose proof (activity_law w). unfold left_of. cbn in *. lia.
Qed.
Lemma filesystem_request_costs request c c' m error :
  filesystem_request request c = (c', Ok (Some m, error)) → (left_of c' < left_of c)%nat.
Proof.
  unfold filesystem_request. intros E. io_step. destruct x0 as [[r|] e]; io_inv. by eapply service_exchange_costs.
Qed.
Lemma memory_request_costs request c c' m error :
  memory_request request c = (c', Ok (Some m, error)) → (left_of c' < left_of c)%nat.
Proof.
  unfold memory_request. intros E. io_step. destruct x0 as [[r|] e]; io_inv. by eapply service_exchange_costs.
Qed.

(** One turn: the sequence, the request, its answer, the rest *)
Ltac turn IH costs :=
  intros E; io_step; unfold sequence_value, gets in *; simplify_eq;
  repeat first [io_step | case_match]; try done; simplify_eq;
  match goal with Hc : _ = (_, Ok (Some _, _)) |- _ => apply costs in Hc end;
  match goal with Hl : _ = (_, Ok None) |- _ => revert Hl; apply IH; lia end.

Lemma read_memory_ends fuel address length c c' : (left_of c < fuel)%nat → read_memory fuel address length c ≠ (c', Ok None).
Proof.
  unfold read_memory. generalize (@nil byte). revert c. induction fuel as [|fuel IH]; intros c content Hf; [lia|].
  cbn [read_memory_loop]. case_match; [done|]. cbv zeta. turn IH memory_request_costs.
Qed.
Lemma read_directory_ends fuel path c c' : (left_of c < fuel)%nat → read_directory fuel path c ≠ (c', Ok None).
Proof.
  unfold read_directory. generalize 0 (@nil ListEntry). revert c. induction fuel as [|fuel IH]; intros c cursor entries Hf; [lia|].
  cbn [read_directory_loop]. turn IH filesystem_request_costs.
Qed.
Lemma read_file_ends fuel path c c' : (left_of c < fuel)%nat → read_file fuel path c ≠ (c', Ok None).
Proof.
  unfold read_file. generalize 0 (@None Z) (@nil byte). revert c.
  induction fuel as [|fuel IH]; intros c offset total content Hf; [lia|].
  cbn [read_file_loop]. cbv zeta. turn IH filesystem_request_costs.
Qed.
End ends.

(** ** What a conforming device promises *)

Definition memory_reply (seq : Z) (p : bytes) : Message :=
  mkMessage TYPE_MEMORY_RESULT seq p 0 STATUS_OK PROTOCOL_VERSION.

Class SramService (W : Type) `{RequestExchange W} := {
  sram : W → memory;
  sram_read_served : ∀ w address n seq request data,
    memory_read_request address n seq = Ok request →
    read_mem address (Z.to_nat n) (sram w) = Some data →
    ∃ w' ms, exchange request w = (w', Ok (Some (memory_reply seq (payload request ++ data)), ms, None))
      ∧ sram w' = sram w;
  sram_write_served : ∀ w address chunk seq m,
    let request := request_message TYPE_MEMORY_REQUEST seq (write_payload address chunk) in
    sram_write (sram w) request = Some m →
    ∃ w' ms, exchange request w
        = (w', Ok (Some (memory_reply seq (slice 0 memory_header_size (payload request))), ms, None))
      ∧ sram w' = m;
  sram_activity : ∀ w, sram (on_activity w) = sram w;
}.

Section sram_client.
Context {W : Type} `{SramService W}.

Lemma service_exchange_reply request c w' r ms :
  exchange request (world c) = (w', Ok (Some r, ms, None)) →
  service_exchange request c
  = (mkClient (on_activity w') (advance_after (sequence request) (c_sequence c)), Ok (Some r, None)).
Proof.
  intros He. unfold service_exchange, mbind, io_bind, on_world. rewrite He. done.
Qed.

(** Reading the rest of a range that is mapped *)
Lemma read_memory_loop_ok fuel address content rest c :
  0 <= address → address + len (content ++ rest) <= memory_end →
  read_mem (address + len content) (length rest) (sram (world c)) = Some rest →
  (length rest ≤ fuel)%nat →
  ∃ c', read_memory_loop fuel address (len (content ++ rest)) content c
        = (c', Ok (Some (Some (content ++ rest), None)))
    ∧ sram (world c') = sram (world c).
Proof.
  intros Ha. revert content rest c. induction fuel as [|fuel IH]; intros content rest c He Hr Hf.
  { destruct rest; [|cbn in Hf; lia]. rewrite app_nil_r. cbn [read_memory_loop].
    rewrite Z.ltb_irrefl. by eexists. }
  cbn [read_memory_loop]. rewrite len_app in *. pose proof (len_nonneg content).
  destruct (len content <? len content + len rest) eqn:Hlt; cbn [negb].
  2:{ assert (rest = []) as -> by (apply len_zero; pose proof (len_nonneg rest); lia).
      rewrite app_nil_r. by eexists. }
  set (n := Z.min 40 (len content + len rest - len content)).
  assert (1 <= n <= 40 ∧ n <= len rest) as Hn by lia.
  assert (length rest = Z.to_nat n + (length rest - Z.to_nat n))%nat as Hsplit
    by (unfold len in *; lia).
  rewrite Hsplit in Hr. destruct (read_mem_split _ _ _ _ _ Hr) as (d & e & -> & Hd & He' & Hld).
  unfold mbind at 1, io_bind at 1. unfold sequence_value, gets.
  destruct (memory_read_request (address + len content) n (value (c_sequence c))) as [request|] eqn:Hreq.
  2:{ unfold memory_read_request, check_address in Hreq. unfold memory_end in *.
      unfold INTERNAL_SRAM_PROCESSOR_BASE, INTERNAL_SRAM_PROCESSOR_SIZE, MEMORY_DATA_BYTES in *.
      revert Hreq. guard_false. cbn [mbind result_bind]. guard_false.
      rewrite pack_ok by (cbn [fits MEMORY_HEADER fst snd]; unfold in_width, MEMORY_READ; lia). done. }
  destruct (sram_read_served (world c) _ _ _ _ _ Hreq Hd) as (w' & ms & Hex & Hs).
  unfold mbind at 1, io_bind at 1. unfold memory_request at 1. unfold mbind at 1, io_bind at 1.
  rewrite (service_exchange_reply _ _ _ _ _ Hex).
  assert (parse_memory_read (memory_reply (value (c_sequence c)) (payload request ++ d)) request = Ok d)
    as Hparse.
  { apply (memory_read_iff _ _ _ _ _ _ Hreq). repeat split; unfold len; lia. }
  assert (∃ d', validate_memory_reply (memory_reply (value (c_sequence c)) (payload request ++ d)) request
                = Ok d') as [d' Hval].
  { unfold parse_memory_read in Hparse. apply bind_ok in Hparse as (d' & ? & _). by exists d'. }
  unfold try_value. rewrite Hval. unfold lift. rewrite Hparse.
  edestruct (IH (content ++ d) e) as (c' & Hc' & Hs'); cycle 3.
  { rewrite <- app_assoc, !len_app in Hc'. rewrite len_app. exists c'. split; [exact Hc'|].
    rewrite Hs'. cbn [world]. by rewrite sram_activity. }
  { rewrite !len_app in *. lia. }
  { cbn [world]. rewrite sram_activity, Hs, len_app.
    replace (length (d ++ e) - Z.to_nat n)%nat with (length e) in He' by (rewrite length_app; lia).
    replace (address + (len content + len d)) with (address + len content + Z.of_nat (Z.to_nat n))
      by (unfold len; lia). done. }
  { rewrite length_app in Hf. lia. }
Qed.

Lemma write_memory_records_ok records c m :
  Forall is_write_record records →
  sram_replay (sram (world c)) records = Some m →
  ∃ c', write_memory_records records c = (c', Ok None) ∧ sram (world c') = m.
Proof.
  revert c. induction records as [|r records IH]; intros c Hall Hm; cbn [sram_replay] in Hm.
  { simplify_eq. by exists c. }
  apply Forall_cons in Hall as [(address & chunk & seq & Ha & Hc & ->) Hall].
  destruct (sram_write (sram (world c)) _) as [m1|] eqn:Hw; [|done].
  destruct (sram_write_served (world c) address chunk seq m1 Hw) as (w' & ms & Hex & Hs).
  cbn [write_memory_records]. unfold mbind at 1, io_bind at 1. unfold memory_request at 1.
  unfold mbind at 1, io_bind at 1. rewrite (service_exchange_reply _ _ _ _ _ Hex).
  cbn [payload request_message]. unfold try_value, memory_reply.
  rewrite validate_write_reply by done. unfold lift.
  apply IH; [done|]. cbn [world]. by rewrite sram_activity, Hs.
Qed.
End sram_client.

(** The memory client against a conforming device *)
Section sram_theorems.
Context {W : Type} `{SramService W}.

Lemma write_memory_ok address data c :
  INTERNAL_SRAM_PROCESSOR_BASE <= address → data ≠ [] → address + len data <= memory_end →
  ∃ c', write_memory address data c = (c', Ok None)
    ∧ sram (world c') = write_mem address data (sram (world c)).
Proof.
  intros Ha Hd He. unfold write_memory, mbind at 1, io_bind at 1, sequence_value, gets.
  destruct (memory_write_records_spec address data (value (c_sequence c)) (sram (world c)) Ha Hd He)
    as (records & Hr & Hp & _).
  rewrite Hr. apply write_memory_records_ok; [|done]. by eapply memory_write_records_shape.
Qed.

Lemma read_memory_ok fuel address data c :
  INTERNAL_SRAM_PROCESSOR_BASE <= address → address + len data <= memory_end →
  read_mem address (length data) (sram (world c)) = Some data → (length data ≤ fuel)%nat →
  ∃ c', read_memory fuel address (len data) c = (c', Ok (Some (Some data, None)))
    ∧ sram (world c') = sram (world c).
Proof.
  intros Ha He Hr Hf. unfold read_memory.
  apply (read_memory_loop_ok fuel address [] data c); [done|done| |done].
  by rewrite len_nil, Z.add_0_r.
Qed.
End sram_theorems.

(** ** Files *)

Definition fs_reply (seq : Z) (p : bytes) : Message :=
  mkMessage TYPE_FILESYSTEM_RESULT seq p 0 STATUS_OK PROTOCOL_VERSION.

(** A device that serves files in chunks of its choice, at most 40 bytes each *)
Class FlashService (W : Type) `{RequestExchange W} := {
  flash_file : W → string → option bytes;
  flash_read_served : ∀ w path offset seq request f,
    read_request path offset seq = Ok request → flash_file w path = Some f → 0 <= offset <= len f →
    ∃ w' ms data eof,
      exchange request w = (w', Ok (Some (fs_reply seq (read_payload eof offset (len f) data)), ms, None))
      ∧ (∀ p, flash_file w' p = flash_file w p)
      ∧ len data <= 40 ∧ (∃ rest, drop (Z.to_nat offset) f = data ++ rest)
      ∧ eof = (offset + len data =? len f) ∧ (eof = false → data ≠ []);
  flash_activity : ∀ w p, flash_file (on_activity w) p = flash_file w p;
}.

Section flash_client.
Context {W : Type} `{FlashService W}.

Lemma read_request_offset path offset seq encoded :
  path_bytes path FILESYSTEM_READ_PATH_BYTES = Ok encoded → u32 offset →
  ∃ request, read_request path offset seq = Ok request
    ∧ sequence request = seq ∧ head (payload request) = Some (byte.of_Z FILESYSTEM_READ).
Proof.
  intros Hp Ho. unfold read_request. rewrite Hp. cbn [mbind result_bind].
  rewrite pack_ok by (cbn [fits fst snd]; by rewrite Ho). by eexists.
Qed.

Lemma read_file_loop_ok fuel path encoded f content rest total c :
  path_bytes path FILESYSTEM_READ_PATH_BYTES = Ok encoded →
  flash_file (world c) path = Some f → f = content ++ rest → len f < 2 ^ 32 →
  (total = None ∨ total = Some (len f)) → (length rest < fuel)%nat →
  ∃ c', read_file_loop fuel path (len content) total content c = (c', Ok (Some (Some f, None))).
Proof.
  intros Hp. revert content rest total c. induction fuel as [|fuel IH];
    intros content rest total c Hfile Hf Hlen Htot Hfuel; [lia|].
  pose proof (len_nonneg content). pose proof (len_nonneg rest).
  assert (len f = len content + len rest) as Hsum by (by rewrite Hf, len_app).
  cbn [read_file_loop]. unfold mbind at 1, io_bind at 1, sequence_value, gets.
  destruct (read_request_offset path (len content) (value (c_sequence c)) encoded Hp)
    as (request & Hreq & Hseq & Hhead); [unfold in_width; lia|]. rewrite Hreq.
  destruct (flash_read_served (world c) path (len content) _ request f Hreq Hfile ltac:(lia))
    as (w' & ms & data & eof & Hex & Hkeep & Hd40 & (tail & Hdrop) & Heof & Hne).
  unfold mbind at 1, io_bind at 1. unfold filesystem_request at 1. unfold mbind at 1, io_bind at 1.
  rewrite (service_exchange_reply _ _ _ _ _ Hex).
  set (r := fs_reply _ _) in *.
  assert (validate_reply r request = Ok (payload r)) as Hval by (by apply validate_reply_ok).
  assert (parse_read r request = Ok (mkChunk (len content) (len f) data eof)) as Hparse.
  { eapply parse_read_ok; [done|reflexivity|done|unfold in_width; lia..]. }
  unfold try_value. rewrite Hval. unfold lift. rewrite Hparse.
  cbn [chunk_offset total_size chunk_data chunk_eof]. rewrite Z.eqb_refl. cbn [negb].
  assert (match total with Some n => negb (len f =? n) | None => false end = false) as ->
    by (destruct Htot as [->| ->]; [done|by rewrite Z.eqb_refl]).
  assert (default (len f) total = len f) as -> by (by destruct Htot as [->| ->]).
  assert (rest = data ++ tail) as ->.
  { rewrite Hf in Hdrop. unfold len in Hdrop. by rewrite Nat2Z.id, drop_app_length in Hdrop. }
  rewrite len_app in Hsum. destruct eof.
  - assert (tail = []) as ->
      by (apply len_zero; pose proof (len_nonneg tail); symmetry in Heof; lia).
    rewrite app_nil_r in *. rewrite <- Hf, Z.eqb_refl. by eexists.
  - assert (0 < len data) by (apply len_ne_pos; auto).
    assert (truthy (len data) = true) as -> by (unfold truthy; lia). cbn [negb].
    rewrite <- len_app. apply (IH (content ++ data) tail); [|by rewrite <- app_assoc|done|by right|].
    + cbn [world]. by rewrite flash_activity, Hkeep.
    + rewrite length_app in Hfuel. unfold len in *. lia.
Qed.
End flash_client.

(** ** Files from any device

    [file_chunks total o d]: [d] is put together from accepted replies at
    consecutive offsets from [o] on, all announcing the size [total], the last
    one marked final and the others not empty. *)

Inductive file_chunks (total : Z) : Z → bytes → Prop :=
| chunk_last o d r request :
    parse_read r request = Ok (mkChunk o total d true) → file_chunks total o d
| chunk_more o d rest r request :
    parse_read r request = Ok (mkChunk o total d false) → d ≠ [] →
    file_chunks total (o + len d) rest → file_chunks total o (d ++ rest).

Section any_device.
Context {W : Type} `{RequestExchange W}.

Lemma read_file_loop_chunks fuel path offset total content c c' result :
  read_file_loop fuel path offset total content c = (c', Ok (Some (Some result, None))) →
  ∃ n rest, result = content ++ rest ∧ file_chunks n offset rest ∧ n = len result
    ∧ (∀ t, total = Some t → n = t).
Proof.
  revert offset total content c. induction fuel as [|fuel IH]; intros offset total content c;
    cbn [read_file_loop]; [by intros|]. intros Hr. io_inv.
  destruct (read_request path offset _) as [request|[]] eqn:Hreq; io_inv.
  match goal with H : (let '(_, _) := ?p in _) _ = _ |- _ => destruct p as [[r|] error]; [|io_inv] end.
  destruct (parse_read r request) as [[o t d e]|[]] eqn:Hparse; io_inv.
  cbn [chunk_offset total_size chunk_data chunk_eof] in *.
  destruct (o =? offset) eqn:Ho; cbn [negb] in *; [|io_inv]. apply Z.eqb_eq in Ho as ->.
  destruct (match total with Some n => _ | None => _ end) eqn:Ht; [io_inv|].
  assert (default t total = t) as Hdef by (destruct total; cbn; lia). rewrite Hdef in *.
  assert (∀ t', total = Some t' → t = t') as Htt by (intros t' ->; lia).
  destruct e.
  - destruct (t =? len (content ++ d)) eqn:Hl; cbn [negb] in *; io_inv.
    exists (len (content ++ d)), d. apply Z.eqb_eq in Hl as ->.
    split; [done|]. split; [by eapply chunk_last|]. done.
  - destruct (truthy (len d)) eqn:Hd; cbn [negb] in *; io_inv.
    match goal with H : read_file_loop _ _ _ _ _ _ = _ |- _ =>
      apply IH in H as (n & rest & -> & Hc & Hn & Htot) end.
    specialize (Htot t eq_refl). subst t.
    exists n, (d ++ rest). split; [by rewrite app_assoc|]. split; [|done].
    eapply chunk_more; [exact Hparse| |done]. by intros ->.
Qed.
End any_device.

(** ** A simulated device *)

Record device := mkDevice { dv_memory : memory; dv_path : string; dv_file : bytes }.

Definition no_reply : option Message * Z * option string := (None, 0, Some "refused"%string).

(** Reads and writes of the Internal SRAM, and reads of one file *)
Definition sim_exchange (request : Message) : io device (option Message * Z * option string) := λ w,
  if message_type request =? TYPE_MEMORY_REQUEST then
    match unpack_from MEMORY_HEADER (payload request) 0 with
    | Ok (operation, (address, (n, tt))) =>
        if operation =? MEMORY_READ then
          match read_mem address (Z.to_nat n) (dv_memory w) with
          | Some data =>
              (w, Ok (Some (memory_reply (sequence request) (payload request ++ data)), 1, None))
          | None => (w, Ok no_reply)
          end
        else
          match sram_write (dv_memory w) request with
          | Some m =>
              (mkDevice m (dv_path w) (dv_file w),
               Ok (Some (memory_reply (sequence request) (slice 0 memory_header_size (payload request))), 1, None))
          | None => (w, Ok no_reply)
          end
    | Raise e => (w, Raise e)
    end
  else
    match unpack_from [FI] (slice_from 4 (payload request)) 0 with
    | Ok (offset, tt) =>
        let data := slice offset (offset + 40) (dv_file w) in
        (w, Ok (Some (fs_reply (sequence request)
                  (read_payload (offset + len data =? len (dv_file w)) offset (len (dv_file w)) data)), 1, None))
    | Raise e => (w, Raise e)
    end.

#[global] Instance sim_world : RequestExchange device := {|
  exchange := sim_exchange;
  on_activity := λ w, w;
|}.

#[local] Obligation Tactic := idtac.

#[global] Program Instance sim_sram : SramService device := {| sram := dv_memory |}.
Next Obligation.
  intros w address n seq request data Hr Hd. destruct (read_request_inv _ _ _ _ Hr) as (Ha & Hn & He & ->).
  change exchange with sim_exchange. unfold sim_exchange. cbn [message_type payload request_message sequence]. rewrite Z.eqb_refl.
  pose proof (read_request_unpack address n [] Ha Hn He) as Hu. rewrite app_nil_r in Hu.
  rewrite Hu, Z.eqb_refl, Hd. by eexists _, _.
Qed.
Next Obligation.
  intros w address chunk seq m request Hw. unfold request in *. clear request.
  change exchange with sim_exchange. unfold sim_exchange.
  cbn [message_type payload request_message sequence]. rewrite Z.eqb_refl.
  rewrite Hw. unfold sram_write, parse_write in Hw. cbn [payload request_message] in Hw.
  destruct (unpack_from MEMORY_HEADER (write_payload address chunk) 0) as [(op & a & n & [])|]; [|done].
  destruct ((op =? MEMORY_WRITE) && (n =? _)) eqn:E; [|done]. py_inv.
  assert ((op =? MEMORY_READ) = false) as -> by (unfold MEMORY_WRITE, MEMORY_READ in *; lia).
  by eexists _, _.
Qed.
Next Obligation. done. Qed.

#[global] Program Instance sim_flash : FlashService device := {|
  flash_file := λ w path, if String.eqb path (dv_path w) then Some (dv_file w) else None;
|}.
Next Obligation.
  intros w path offset seq request f Hr Hf Ho.
  cbv beta in Hf. destruct (String.eqb path (dv_path w)) eqn:Ep; [|done]. injection Hf as <-.
  unfold read_request in Hr. apply bind_ok in Hr as (encoded & Hp & Hr).
  apply bind_ok in Hr as (ob & Hob & Hr). py_inv. change exchange with sim_exchange. unfold sim_exchange.
  cbn [message_type payload fs_request request_message sequence byte_of app].
  change (TYPE_FILESYSTEM_REQUEST =? TYPE_MEMORY_REQUEST) with false. cbv iota.
  change (slice_from 4 (byte.of_Z FILESYSTEM_READ :: byte.of_Z (len encoded) :: Byte.x00 :: Byte.x00 :: ob ++ encoded))
    with (ob ++ encoded).
  pose proof (unpack_from_pack _ _ _ [] encoded 0%nat Hob eq_refl) as Hu. cbn [app normal fst snd] in Hu.
  rewrite Hu.
  assert (slice offset (offset + 40) (dv_file w) = take 40 (drop (Z.to_nat offset) (dv_file w))) as Hs
    by (unfold slice; f_equal; lia).
  rewrite Hs. eexists _, _, _, _. split; [reflexivity|]. split; [done|].
  split; [apply len_take_le|]. split; [eexists; by rewrite take_drop|]. split; [done|].
  intros He Hnil. rewrite Hnil, len_nil, Z.add_0_r in He.
  pose proof (len_take_pos 40 (drop (Z.to_nat offset) (dv_file w)) ltac:(lia)) as Hpos.
  rewrite Hnil in Hpos.
  assert (drop (Z.to_nat offset) (dv_file w) = []) as Hd
    by (destruct (decide (drop (Z.to_nat offset) (dv_file w) = [])) as [|Hn]; [done|]; by specialize (Hpos Hn)).
  apply (f_equal length) in Hd. rewrite length_drop in Hd. unfold len in *. cbn in Hd. lia.
Qed.
Next Obligation. done. Qed.

(** ** Theorems *)

(** C34: over any device that serves the Internal SRAM, writing a block and
    reading it back returns the block: [write_memory] reports no error and
    leaves exactly the block changed, and [read_memory] then returns it in at
    most one turn per byte. *)
Theorem memory_client_round_trip {W} `{SramService W} fuel address data (c : client W) :
  INTERNAL_SRAM_PROCESSOR_BASE <= address → data ≠ [] → address + len data <= memory_end →
  (length data ≤ fuel)%nat →
  ∃ c1 c2, write_memory address data c = (c1, Ok None)
    ∧ sram (world c1) = write_mem address data (sram (world c))
    ∧ read_memory fuel address (len data) c1 = (c2, Ok (Some (Some data, None))).
Proof.
  intros Ha Hd He Hf. destruct (write_memory_ok address data c Ha Hd He) as (c1 & Hw & Hs).
  destruct (read_memory_ok fuel address data c1 Ha He) as (c2 & Hr & _);
    [rewrite Hs; apply read_write_mem|done|].
  by exists c1, c2.
Qed.

Definition sample_client (f : bytes) : client device :=
  mkClient (mkDevice ∅ "flash:/log" f) (mkSequence 1).

Example memory_client_round_trip_witness :
  ∃ c1 c2, write_memory 0x3F000 (lit "mailbox") (sample_client []) = (c1, Ok None)
    ∧ sram (world c1) = write_mem 0x3F000 (lit "mailbox") (sram (world (sample_client [])))
    ∧ read_memory 7 0x3F000 (len (lit "mailbox")) c1 = (c2, Ok (Some (Some (lit "mailbox"), None))).
Proof.
  apply (memory_client_round_trip 7 0x3F000 (lit "mailbox") (sample_client []));
    [discriminate|discriminate|discriminate|vm_compute; lia].
Defined.

(** C39: over any device that serves a file of fewer than 2^32 bytes in
    non-empty chunks, [read_file] returns exactly the file, in at most one turn
    per byte and one more. *)
Theorem read_file_complete {W} `{FlashService W} fuel path encoded f (c : client W) :
  path_bytes path FILESYSTEM_READ_PATH_BYTES = Ok encoded →
  flash_file (world c) path = Some f → len f < 2 ^ 32 → (length f < fuel)%nat →
  ∃ c', read_file fuel path c = (c', Ok (Some (Some f, None))).
Proof.
  intros Hp Hf Hl Hfuel. unfold read_file.
  apply (read_file_loop_ok fuel path encoded f [] f None c Hp Hf eq_refl Hl (or_introl eq_refl) Hfuel).
Qed.

Example read_file_complete_witness :
  ∃ c', read_file 100 "flash:/log" (sample_client (replicate 90 Byte.x41))
        = (c', Ok (Some (Some (replicate 90 Byte.x41), None))).
Proof.
  apply (read_file_complete 100 "flash:/log" (encode_utf8 "flash:/log") (replicate 90 Byte.x41));
    vm_compute; (reflexivity || lia).
Defined.

(** whatever the device sends, a file that [read_file] returns is put
    together from accepted replies at consecutive offsets starting at 0, all
    announcing the same size, the last one marked final, and its length is
    that size; a truncated, reordered or resized file is never returned. *)
Theorem read_file_sound {W} `{RequestExchange W} fuel path (c c' : client W) content :
  read_file fuel path c = (c', Ok (Some (Some content, None))) →
  file_chunks (len content) 0 content.
Proof.
  intros Hr. apply read_file_loop_chunks in Hr as (n & rest & -> & Hc & -> & _).
  rewrite app_nil_l in *. exact Hc.
Qed.

Example read_file_sound_witness :
  file_chunks (len (replicate 50 Byte.x41)) 0 (replicate 50 Byte.x41).
Proof.
  destruct (read_file 60 "flash:/log" (sample_client (replicate 50 Byte.x41)))
    as [c' r] eqn:E.
  apply (read_file_sound 60 "flash:/log"
           (sample_client (replicate 50 Byte.x41)) c').
  rewrite E. f_equal. vm_compute in E. injection E as <- <-. reflexivity.
Defined.

(** A device that answers every directory request with the same entry *)
Definition stuck_exchange (request : Message) : io unit (option Message * Z * option string) := λ w,
  (w, Ok (Some (fs_reply (sequence request)
     (byte_of FILESYSTEM_LIST ++ [Byte.x00; Byte.x00; Byte.x01] ++ replicate 6 Byte.x00 ++ lit "a")), 1, None)).
#[local] Instance stuck_world : RequestExchange unit := {|
  exchange := stuck_exchange;
  on_activity := λ w, w;
|}.

Lemma stuck_reply seq request cursor :
  list_request "flash:" cursor seq = Ok request →
  ∃ r, exchange request tt = (tt, Ok (Some r, 1, None)) ∧ validate_reply r request = Ok (payload r)
    ∧ parse_list r request = Ok (mkEntry "a" 0 false 0 false).
Proof.
  intros Hr. unfold list_request in Hr. apply bind_ok in Hr as (encoded & _ & Hr).
  apply bind_ok in Hr as (cb & _ & Hr). py_inv. eexists. split; [reflexivity|].
  assert (∀ r, validate_reply (fs_reply seq (byte_of FILESYSTEM_LIST ++ r))
             (fs_request FILESYSTEM_LIST seq (byte_of (len encoded) ++ cb ++ encoded))
           = Ok (byte_of FILESYSTEM_LIST ++ r)) as Hv by (intros r; by apply validate_reply_ok).
  split; [apply Hv|]. unfold parse_list.
  cbn [sequence fs_request request_message]. rewrite Hv. vm_compute. reflexivity.
Qed.

(** C40: [read_directory] relies on the device to end the listing: with a
    device that keeps returning the same cursor it never finishes, whatever the
    number of turns (unlike [read_file], which refuses a reply that makes no
    progress). *)
Theorem read_directory_may_loop fuel entries seq :
  (read_directory_loop fuel "flash:" 0 entries (mkClient tt (mkSequence seq))).2 = Ok None.
Proof.
  revert entries seq. induction fuel as [|fuel IH]; intros entries seq; [done|].
  cbn [read_directory_loop]. unfold mbind at 1, io_bind at 1, sequence_value, gets.
  cbn [c_sequence value].
  destruct (list_request "flash:" 0 seq) as [request|] eqn:Hreq; [|by vm_compute in Hreq].
  destruct (stuck_reply _ _ _ Hreq) as (r & Hex & Hval & Hparse).
  unfold mbind at 1, io_bind at 1. unfold filesystem_request at 1. unfold mbind at 1, io_bind at 1.
  rewrite (service_exchange_reply request (mkClient tt (mkSequence seq)) _ _ _ Hex).
  unfold try_value. rewrite Hval. unfold lift. rewrite Hparse. cbn [e_eof next_cursor c_sequence].
  apply IH.
Qed.
