(* ===== verification/WorkloadClient.v ===== *)
(** * Workload transactions (host/rp86/workload_client.py)

    [WorkloadClient.transact] sends the records of one lifecycle transaction in
    order, keeps the request counter and the workload state coherent, and stops
    at the first record without a valid status reply.  The theorem follows the
    records that really reach the exchange with a logging device. *)

From S2P Require Import Prelude Struct PyText Json Protocol Workload RuntimeState ServiceClient.

Record WorkloadTransactionResult := mkTransaction {
  success : bool;
  count : Z;
  failed_index : option Z;
  tr_error : option string;
  latencies_ms : list Z;
}.

(** The objects the client shares with its owner, the request counter and the
    workload state, and the callback [on_state_change], which may use both *)
Class WorkloadHost (W : Type) := {
  counter : W → RequestSequence;
  set_counter : RequestSequence → W → W;
  workload_of : W → WorkloadRuntimeState;
  set_workload : WorkloadRuntimeState → W → W;
  state_changed : io W unit;
}.

Section transact.
Context {W : Type} `{RequestExchange W} `{WorkloadHost W}.

(** [total] is [len(records)], [index] the position of the next record. *)
Fixpoint transact_loop (total index : Z) (latencies : list Z) (records : list Message)
  : io W WorkloadTransactionResult := λ w,
  match records with
  | [] => (on_activity w, Ok (mkTransaction true total None None latencies))
  | request :: records =>
      match exchange request w with
      | (w, Raise e) => (w, Raise e)
      | (w, Ok (None, _, error)) =>
          (w, Ok (mkTransaction false total (Some index)
                    (error_or error "workload exchange failed") latencies))
      | (w, Ok (Some reply, latency, _)) =>
          let w := set_counter (advance_after (sequence request) (counter w)) w in
          let latencies := latencies ++ [latency] in
          match update_from_payload (payload reply) (workload_of w) with
          | Raise (ValueError text) =>
              (w, Ok (mkTransaction false total (Some index)
                        (Some ("invalid status payload: " +:+ text)) latencies))
          | Raise e => (w, Raise e)
          | Ok state =>
              match state_changed (set_workload state w) with
              | (w, Raise e) => (w, Raise e)
              | (w, Ok _) => transact_loop total (index + 1) latencies records w
              end
          end
      end
  end.

Definition transact (records : list Message) : io W WorkloadTransactionResult :=
  transact_loop (len records) 1 [] records.
End transact.

(** A client that is the only user of its counter and state; the callback acts
    on the rest. *)
Class StateCallback (W : Type) := { on_state_change : W → W }.

Record workload_client (W : Type) := mkWorkloadClient {
  wc_world : W;
  wc_sequence : RequestSequence;
  wc_state : WorkloadRuntimeState;
}.
Arguments mkWorkloadClient {W} _ _ _.
Arguments wc_world {W} _.
Arguments wc_sequence {W} _.
Arguments wc_state {W} _.

#[global] Instance client_exchange {W} `{RequestExchange W} : RequestExchange (workload_client W) := {|
  exchange := λ request c, let '(w, r) := exchange request (wc_world c) in
    (mkWorkloadClient w (wc_sequence c) (wc_state c), r);
  on_activity := λ c, mkWorkloadClient (on_activity (wc_world c)) (wc_sequence c) (wc_state c);
|}.
#[global] Instance client_host {W} `{StateCallback W} : WorkloadHost (workload_client W) := {|
  counter := wc_sequence;
  set_counter := λ s c, mkWorkloadClient (wc_world c) s (wc_state c);
  workload_of := wc_state;
  set_workload := λ s c, mkWorkloadClient (wc_world c) (wc_sequence c) s;
  state_changed := λ c, (mkWorkloadClient (on_state_change (wc_world c)) (wc_sequence c) (wc_state c), Ok tt);
|}.

(** ** A device that logs the requests it receives *)

#[global] Instance logged_exchange {W} `{RequestExchange W} : RequestExchange (W * list Message) := {|
  exchange := λ request '(w, log),
    let '(w, r) := exchange request w in ((w, log ++ [request]), r);
  on_activity := λ '(w, log), (on_activity w, log);
|}.
#[global] Instance logged_callback {W} `{StateCallback W} : StateCallback (W * list Message) := {|
  on_state_change := λ '(w, log), (on_state_change w, log);
|}.

Section transact_facts.
Context {W : Type} `{RequestExchange W} `{StateCallback W}.

(** The counter after a prefix of the records has been answered *)
Definition sequence_after (s : RequestSequence) (records : list Message) : RequestSequence :=
  foldl (λ s r, advance_after (sequence r) s) s records.

(** What a finished transaction says: [sent] records reached the device,
    [answered] of them were answered. *)
Record transaction_outcome (c c' : workload_client (W * list Message)) (total index : Z)
    (latencies : list Z) (records : list Message) (r : WorkloadTransactionResult) : Prop := {
  to_count : count r = total;
  to_log : ∃ sent, (wc_world c').2 = (wc_world c).2 ++ take sent records
    ∧ (sent ≤ length records)%nat
    ∧ (success r = true → sent = length records ∧ failed_index r = None ∧ tr_error r = None)
    ∧ (success r = false →
       failed_index r = Some (index + Z.of_nat sent - 1) ∧ tr_error r ≠ None ∧ (0 < sent)%nat);
  to_sequence : ∃ answered, wc_sequence c' = sequence_after (wc_sequence c) (take answered records)
    ∧ len (latencies_ms r) = len latencies + Z.of_nat answered
    ∧ (answered ≤ length records)%nat
    ∧ (success r = true → answered = length records);
}.

Lemma transact_loop_outcome total index latencies records c c' r :
  transact_loop total index latencies records c = (c', Ok r) →
  transaction_outcome c c' total index latencies records r.
Proof.
  revert index latencies c. induction records as [|request records IH]; intros index latencies c.
  { destruct c as [[w log] s st]. cbn. intros [= <- <-]. split; [done| |].
    - exists 0%nat. cbn. by rewrite app_nil_r.
    - exists 0%nat. cbn. split; [done|]. split; [lia|done]. }
  destruct c as [[w log] s st].
  cbn [transact_loop wc_world wc_sequence wc_state exchange logged_exchange client_exchange client_host
    counter set_counter workload_of set_workload state_changed on_activity].
  destruct (exchange request w) as [w1 [[[[reply|] latency] error]|e]]; [| |by intros].
  2:{ intros [= <- <-]. split; [done| |]; cbn.
      - exists 1%nat. split; [done|]. split; [lia|]. split; [done|]. intros _.
        split; [f_equal; lia|]. split; [done|lia].
      - exists 0%nat. cbn. split; [done|]. split; [lia|]. split; [lia|done]. }
  cbn [wc_world wc_sequence wc_state].
  destruct (update_from_payload (payload reply) st) as [st'|[text| | | | | | | | | | | |]]; try by intros.
  - intros Hr. apply IH in Hr as [Hc (sent & Hlog & Hle & Hok & Hbad) (answered & Hs & Hlat & Hla & Hsucc)].
    cbn [wc_world wc_sequence on_state_change logged_callback snd] in *.
    split; [done| |].
    + exists (S sent). cbn [length take]. rewrite Hlog, <- app_assoc. split; [done|]. split; [lia|].
      split; [intros; destruct (Hok ltac:(done)) as (-> & ? & ?); done|].
      intros Hf. destruct (Hbad Hf) as (-> & ? & ?). split; [f_equal; lia|]. split; [done|lia].
    + exists (S answered). cbn [take foldl sequence_after length]. split; [done|].
      rewrite Hlat, len_app, len_cons, len_nil. split; [lia|]. split; [lia|].
      intros. by rewrite Hsucc.
  - intros [= <- <-]. split; [done| |]; cbn.
    + exists 1%nat. split; [done|]. split; [lia|]. split; [done|]. intros _.
      split; [f_equal; lia|]. split; [done|lia].
    + exists 1%nat. split; [done|]. rewrite len_app, len_cons, len_nil.
      split; [lia|]. split; [lia|done].
Qed.
End transact_facts.

(** a workload transaction sends its records in order and stops at the
    first failure: on success every record was sent and answered, once each,
    and the counter has advanced past the last one; on failure the failed index
    is the last record sent, there is an error text, no later record was sent,
    and the counter has advanced exactly past the answered records. *)
Theorem transact_outcome {W} `{RequestExchange W} `{StateCallback W} records
    (c c' : workload_client (W * list Message)) r :
  transact records c = (c', Ok r) →
  transaction_outcome c c' (len records) 1 [] records r.
Proof. apply transact_loop_outcome. Qed.

(** A device that answers the first record with a valid status and no other *)
Definition one_status : io bool (option Message * Z * option string) := λ first,
  if first then (false, Ok (Some (mkMessage TYPE_WORKLOAD_RESULT 1 (replicate 52 Byte.x00) 0 0 1), 2, None))
  else (false, Ok (None, 0, None)).
#[local] Instance one_world : RequestExchange bool := {| exchange := λ _, one_status; on_activity := λ w, w |}.
#[local] Instance one_callback : StateCallback bool := {| on_state_change := λ w, w |}.

Example transact_outcome_witness :
  let records := [request_message TYPE_WORKLOAD_CONTROL 1 []; request_message TYPE_WORKLOAD_CONTROL 2 [];
                  request_message TYPE_WORKLOAD_CONTROL 3 []] in
  let c := mkWorkloadClient (true, []) (mkSequence 1) runtime_init in
  ∃ c' r, transact records c = (c', Ok r) ∧ failed_index r = Some 2
    ∧ value (wc_sequence c') = 2 ∧ transaction_outcome c c' 3 1 [] records r.
Proof.
  intros records c. destruct (transact records c) as [c' [r|]] eqn:E; [|vm_compute in E; discriminate E].
  exists c', r. split; [reflexivity|].
  pose proof (transact_outcome records c c' r E) as Ho.
  split; [vm_compute in E; injection E as <- <-; reflexivity|].
  split; [vm_compute in E; injection E as <- <-; reflexivity|exact Ho].
Defined.
