(* ===== verification/Ownership.v ===== *)
(** * Cross-process device ownership (host/rp86/device_ownership.py)

    [DeviceOwnership] takes an exclusive, non-blocking operating-system lock on
    a file named after the device.  The operating system is a table of locks
    keyed by path and held by open files; processes are the owner objects they
    hold, and a process that dies loses its locks.  The theorem is mutual
    exclusion over every interleaving of [acquire], [release] and crashes. *)

From S2P Require Import Prelude PyText.
From Stdlib Require Import Ascii.

(** [char.isalnum() or char in "-_"] on the ASCII serial numbers of devices *)
Definition is_safe_char (c : ascii) : bool :=
  let n := N_of_ascii c in
  ((48 <=? n) && (n <=? 57) || (65 <=? n) && (n <=? 90) || (97 <=? n) && (n <=? 122))%N
  || char_is "-" "_" c.

Definition safe_name (device_id : string) : string :=
  String.string_of_list_ascii
    (map (λ c, if is_safe_char c then c else "_"%char) (String.list_ascii_of_string device_id)).

Section ownership.
(** The environment variable, the home expansion, the temporary directory and
    the hexadecimal SHA-256 digest *)
Context (broker_dir : option string) (expanduser : string → string) (tempdir : string).
Context (sha256_hex : string → string).

Definition ownership_directory : string :=
  match broker_dir with
  | Some configured =>
      match configured with
      | EmptyString => tempdir +:+ "/rp86-brokers"
      | _ => expanduser configured
      end
  | None => tempdir +:+ "/rp86-brokers"
  end.

Definition ownership_path (device_id : string) : string :=
  ownership_directory +:+ "/" +:+ safe_name device_id +:+ "-" +:+ str_take 12 (sha256_hex device_id)
  +:+ ".owner".

Record DeviceOwnership := mkOwnership {
  ow_device : string;
  ow_path : string;
  ow_file : option nat;
}.

Definition ownership_init (device_id : string) : DeviceOwnership :=
  mkOwnership device_id (ownership_path device_id) None.

(** The locks held, by path, and the next open-file number *)
Record os := mkOs { locks : gmap string nat; next_file : nat }.

(** [failed] is the error of making the directory, of opening the file or of
    writing its octet, if there is one. *)
Definition acquire (failed : option string) (s : os) (o : DeviceOwnership) : os * result DeviceOwnership :=
  match ow_file o with
  | Some _ => (s, Raise (RuntimeError ("device " +:+ ow_device o +:+ " ownership is already held")))
  | None =>
      let handle := next_file s in
      let s := mkOs (locks s) (S handle) in
      match failed with
      | Some exc => (s, Raise (OSError exc))
      | None =>
          match locks s !! ow_path o with
          | Some _ => (s, Raise (RuntimeError ("device " +:+ ow_device o +:+ " already has an active owner")))
          | None => (mkOs (<[ow_path o := handle]> (locks s)) (next_file s),
                     Ok (mkOwnership (ow_device o) (ow_path o) (Some handle)))
          end
      end
  end.

Definition release (s : os) (o : DeviceOwnership) : os * DeviceOwnership :=
  match ow_file o with
  | None => (s, o)
  | Some handle =>
      (mkOs (if bool_decide (locks s !! ow_path o = Some handle)
             then delete (ow_path o) (locks s) else locks s) (next_file s),
       mkOwnership (ow_device o) (ow_path o) None)
  end.

(** ** All owners of the machine *)

Record system := mkSystem { sys_os : os; owners : gmap nat DeviceOwnership }.
Definition system_init : system := mkSystem (mkOs ∅ 0) ∅.

Inductive step : system → system → Prop :=
| step_new s id device :
    owners s !! id = None →
    step s (mkSystem (sys_os s) (<[id := ownership_init device]> (owners s)))
| step_acquire s id o failed os' o' :
    owners s !! id = Some o → acquire failed (sys_os s) o = (os', Ok o') →
    step s (mkSystem os' (<[id := o']> (owners s)))
| step_refused s id o failed os' e :
    owners s !! id = Some o → acquire failed (sys_os s) o = (os', Raise e) →
    step s (mkSystem os' (owners s))
| step_release s id o os' o' :
    owners s !! id = Some o → release (sys_os s) o = (os', o') →
    step s (mkSystem os' (<[id := o']> (owners s)))
| step_crash s id o os' o' :
    owners s !! id = Some o → release (sys_os s) o = (os', o') →
    step s (mkSystem os' (delete id (owners s))).

Definition reachable : system → Prop := rtc step system_init.

(** Held files are locked under the owner's path, and no two owners share one. *)
Record consistent (s : system) : Prop := {
  held_locked : ∀ id o h, owners s !! id = Some o → ow_file o = Some h →
    locks (sys_os s) !! ow_path o = Some h;
  path_of_device : ∀ id o, owners s !! id = Some o → ow_path o = ownership_path (ow_device o);
  files_old : ∀ p h, locks (sys_os s) !! p = Some h → (h < next_file (sys_os s))%nat;
  files_unique : ∀ i j o p h, owners s !! i = Some o → owners s !! j = Some p →
    ow_file o = Some h → ow_file p = Some h → i = j;
}.

Lemma consistent_init : consistent system_init.
Proof. split; cbn; intros; simplify_map_eq. Qed.

Lemma release_locks s o os' o' id h o2 :
  consistent s → owners s !! id = Some o → release (sys_os s) o = (os', o') →
  (∀ j, owners s !! j = Some o2 → j ≠ id → ow_file o2 = Some h →
     locks os' !! ow_path o2 = Some h).
Proof.
  intros [Hh _ _ Hu] Ho Hr j Hj Hne Hf. pose proof (Hh _ _ _ Hj Hf) as Hl.
  unfold release in Hr. destruct (ow_file o) as [g|] eqn:Eg; simplify_eq; [|done].
  cbn. case_bool_decide as Hb; [|done].
  destruct (decide (ow_path o = ow_path o2)) as [E|]; [|by rewrite lookup_delete_ne].
  rewrite E in Hb. assert (g = h) as -> by congruence. destruct Hne. by eapply Hu.
Qed.

Lemma release_next s o os' o' : release s o = (os', o') →
  next_file os' = next_file s ∧ (∀ p h, locks os' !! p = Some h → locks s !! p = Some h)
  ∧ ow_file o' = None ∧ ow_path o' = ow_path o ∧ ow_device o' = ow_device o.
Proof.
  unfold release. destruct (ow_file o) eqn:E; intros; simplify_eq; [|done].
  split; [done|]. split; [|done]. cbn. intros p h. case_bool_decide; [|done].
  intros Hp. apply lookup_delete_Some in Hp. naive_solver.
Qed.

Lemma step_consistent s s' : step s s' → consistent s → consistent s'.
Proof.
  intros Hstep Hc. destruct Hstep as [s id d Hid|s id o failed os' o' Ho Ha|s id o failed os' e Ho Ha
    |s id o os' o' Ho Hr|s id o os' o' Ho Hr].
  - destruct Hc as [Hh Hp Hf Hu]. split; cbn.
    + intros i o h. rewrite lookup_insert_Some. intros [[<- <-]|[? ?]]; [done|by eapply Hh].
    + intros i o. rewrite lookup_insert_Some. intros [[<- <-]|[? ?]]; [done|by eapply Hp].
    + done.
    + intros i j o p h. rewrite !lookup_insert_Some. intros [[<- <-]|[? ?]] [[<- <-]|[? ?]];
        try done. by eapply Hu.
  - unfold acquire in Ha. destruct (ow_file o) eqn:Ef; [done|]. destruct failed; [done|]. cbn [locks next_file] in Ha.
    destruct (locks (sys_os s) !! ow_path o) eqn:El; simplify_eq. destruct Hc as [Hh Hp Hf Hu].
    split; cbn.
    + intros i p h. rewrite lookup_insert_Some. intros [[<- <-]|[Hi Hp']]; cbn.
      { intros [= <-]. apply lookup_insert_eq. }
      intros Hfile. pose proof (Hh _ _ _ Hp' Hfile).
      rewrite lookup_insert_ne; [done|]. intros E. rewrite E in El. congruence.
    + intros i p. rewrite lookup_insert_Some. intros [[<- <-]|[Hi Hp']]; cbn; by eapply Hp.
    + intros p h. rewrite lookup_insert_Some. intros [[<- <-]|[? Hl]]; [lia|].
      apply Hf in Hl. lia.
    + intros i j p q h. rewrite !lookup_insert_Some.
      assert (∀ k r, owners s !! k = Some r → ow_file r = Some (next_file (sys_os s)) → False) as Hnew.
      { intros k r Hk Hr. pose proof (Hf _ _ (Hh _ _ _ Hk Hr)). lia. }
      intros [[<- <-]|[? Hi]] [[<- <-]|[? Hj]] ? ?; cbn in *; simplify_eq; try done;
        [by edestruct Hnew|by edestruct Hnew|by eapply Hu].
  - unfold acquire in Ha. destruct (ow_file o) eqn:Ef; simplify_eq; [by destruct s|].
    assert (os' = mkOs (locks (sys_os s)) (S (next_file (sys_os s)))) as ->
      by (cbn [locks next_file] in Ha; destruct failed, (locks (sys_os s) !! ow_path o); by simplify_eq).
    destruct Hc as [Hh Hp Hf Hu]. split; cbn; try done. intros p h Hl. apply Hf in Hl. lia.
  - pose proof (release_next _ _ _ _ Hr) as (Hn & Hsub & Hfile & Hpath & Hdev).
    pose proof Hc as [Hh Hp Hf Hu]. split; cbn.
    + intros i p h. rewrite lookup_insert_Some. intros [[<- <-]|[Hi Hp']]; [congruence|].
      intros Hfp. exact (release_locks s o os' o' id h p Hc Ho Hr i Hp' (not_eq_sym Hi) Hfp).
    + intros i p. rewrite lookup_insert_Some. intros [[<- <-]|[Hi Hp']]; [|by eapply Hp].
      rewrite Hpath, Hdev. by eapply Hp.
    + intros p h Hl. rewrite Hn. by eapply Hf, Hsub.
    + intros i j p q h. rewrite !lookup_insert_Some.
      intros [[<- <-]|[? Hi]] [[<- <-]|[? Hj]] ? ?; try congruence. by eapply Hu.
  - pose proof (release_next _ _ _ _ Hr) as (Hn & Hsub & _).
    pose proof Hc as [Hh Hp Hf Hu]. split; cbn.
    + intros i p h. rewrite lookup_delete_Some. intros [Hi Hp'] Hfp.
      exact (release_locks s o os' o' id h p Hc Ho Hr i Hp' (not_eq_sym Hi) Hfp).
    + intros i p. rewrite lookup_delete_Some. intros [Hi Hp']. by eapply Hp.
    + intros p h Hl. rewrite Hn. by eapply Hf, Hsub.
    + intros i j p q h. rewrite !lookup_delete_Some. intros [? ?] [? ?] ? ?. by eapply Hu.
Qed.

Lemma reachable_consistent s : reachable s → consistent s.
Proof.
  intros Hr. unfold reachable in Hr.
  assert (∀ a b, rtc step a b → consistent a → consistent b) as Hind.
  { intros a b Hab. induction Hab; [done|]. intros Ha. by eapply IHHab, step_consistent. }
  eapply Hind; [exact Hr|apply consistent_init].
Qed.

(** C32: however the owners of a machine interleave creating, acquiring,
    releasing and dying, and whichever of their files cannot be opened, at most
    one of them holds a device at any time; an owner that asks while another holds
    the device is refused, with [RuntimeError] unless its file could not be
    opened, and changes no lock; and after the holder released it, the device can
    be acquired again. *)
Theorem ownership_exclusive s :
  reachable s →
  (∀ i j o p, owners s !! i = Some o → owners s !! j = Some p →
     ow_device o = ow_device p → ow_file o ≠ None → ow_file p ≠ None → i = j)
  ∧ (∀ i j o p, owners s !! i = Some o → owners s !! j = Some p →
     ow_device o = ow_device p → ow_file o ≠ None →
     (∃ os' msg, acquire None (sys_os s) p = (os', Raise (RuntimeError msg)) ∧ locks os' = locks (sys_os s))
     ∧ ∀ exc, ∃ os' e, acquire (Some exc) (sys_os s) p = (os', Raise e) ∧ locks os' = locks (sys_os s))
  ∧ (∀ i o os' o', owners s !! i = Some o → ow_file o ≠ None → release (sys_os s) o = (os', o') →
     ∃ os'' o'', acquire None os' o' = (os'', Ok o'')).
Proof.
  intros Hr. pose proof (reachable_consistent s Hr) as [Hh Hp Hf Hu].
  split; [|split].
  - intros i j o p Hi Hj Hd Ho Hpf. destruct (ow_file o) as [h|] eqn:Eo; [|done].
    destruct (ow_file p) as [g|] eqn:Ep; [|done].
    pose proof (Hh _ _ _ Hi Eo) as H1. pose proof (Hh _ _ _ Hj Ep) as H2.
    rewrite (Hp _ _ Hi), Hd, <- (Hp _ _ Hj) in H1. assert (h = g) as -> by congruence.
    by eapply Hu.
  - intros i j o p Hi Hj Hd Ho. destruct (ow_file o) as [h|] eqn:Eo; [|done].
    pose proof (Hh _ _ _ Hi Eo) as H1. rewrite (Hp _ _ Hi), Hd, <- (Hp _ _ Hj) in H1.
    unfold acquire. destruct (ow_file p); [split; [|intros exc]; by eexists _, _|]. cbn [locks next_file].
    rewrite H1. split; [|intros exc]; by eexists _, _.
  - intros i o os' o' Hi Ho Hrel. destruct (ow_file o) as [h|] eqn:Eo; [|done].
    pose proof (Hh _ _ _ Hi Eo) as H1. unfold release in Hrel. rewrite Eo in Hrel.
    rewrite bool_decide_eq_true_2 in Hrel by done. simplify_eq.
    unfold acquire. cbn [ow_file ow_path locks]. rewrite lookup_delete_eq. by eexists _, _.
Qed.
End ownership.

(** Two owners of one device; the first acquires it. *)
Definition sample_owner : DeviceOwnership := ownership_init None (λ s, s) "/tmp" (λ s, s) "RP86-1".
Definition one_owner : system := mkSystem (mkOs ∅ 0) (<[2%nat := sample_owner]> ∅).
Definition idle_owners : system := mkSystem (mkOs ∅ 0) (<[1%nat := sample_owner]> (owners one_owner)).
Definition held_owner : DeviceOwnership :=
  match (acquire None (mkOs ∅ 0) sample_owner).2 with Ok o => o | Raise _ => sample_owner end.
Definition two_owners : system :=
  mkSystem (acquire None (mkOs ∅ 0) sample_owner).1 (<[1%nat := held_owner]> (owners idle_owners)).

Lemma two_owners_reachable : reachable None (λ s, s) "/tmp" (λ s, s) two_owners.
Proof.
  apply (rtc_l _ _ one_owner); [by apply (step_new _ _ _ _ system_init 2%nat "RP86-1"%string)|].
  apply (rtc_l _ _ idle_owners); [by apply (step_new _ _ _ _ one_owner 1%nat "RP86-1"%string)|].
  apply rtc_once. apply (step_acquire _ _ _ _ idle_owners 1%nat sample_owner None); [done|].
  vm_compute. reflexivity.
Qed.

Example ownership_exclusive_witness :
  ∃ os' msg, acquire None (sys_os two_owners) sample_owner = (os', Raise (RuntimeError msg)) ∧ locks os' = locks (sys_os two_owners).
Proof.
  destruct (ownership_exclusive None (λ s, s) "/tmp" (λ s, s) two_owners two_owners_reachable)
    as (_ & H & _).
  eapply (H 1%nat 2%nat).
  - vm_compute. reflexivity.
  - vm_compute. reflexivity.
  - reflexivity.
  - discriminate.
Defined.
