(* ===== verification/Broker.v ===== *)
(** * The device broker (host/rp86/broker.py, device.py)

    The broker's life cycle, its registry records, the request handler, the
    queues that feed the single Device Actor, the control audit and the
    published snapshot; and the client side ([BrokerClient], [DeviceClient]).

    A connection's handler runs in two parts: [handle_client] up to the point
    where it waits for the actor, and [complete] when the actor sets its
    future.  [broker_step] interleaves connections, actor and publications; a
    publication is two steps, the copy of the audit and the store of the snapshot.
    JSON text, the text and parsing of floats and the clock are arguments. *)

From S2P Require Import Prelude Struct PyText Json Base64 Protocol Workload.
From Stdlib Require Import Ascii SpecFloat.

Definition BROKER_VERSION : Z := 1.
Definition MAX_RPC_BYTES : Z := 16 * 1024.
Definition HOST_RECORD_SIZE : Z := 64.
Definition HOST_TYPE_WORKLOAD_CONTROL : Z := 0x23.
Definition WORKLOAD_CONTROL_NAMES : list (Z * string) :=
  [(1, "RUN"); (2, "STOP"); (3, "RESTART"); (4, "STATUS")]%string.
Definition CONTROL_AUDIT_LIMIT : Z := 16.

(** ** Life cycle *)

Inductive BrokerState := OPENING | OWNER_ACTIVE | QUIESCING | FAULT | STOPPED.
#[global] Instance broker_state_eq_dec : EqDecision BrokerState.
Proof. solve_decision. Defined.

Definition state_value (s : BrokerState) : string :=
  match s with
  | OPENING => "OPENING" | OWNER_ACTIVE => "OWNER_ACTIVE" | QUIESCING => "QUIESCING"
  | FAULT => "FAULT" | STOPPED => "STOPPED"
  end.

Definition BROKER_TRANSITIONS (s : BrokerState) : list BrokerState :=
  match s with
  | OPENING => [OWNER_ACTIVE; FAULT]
  | OWNER_ACTIVE => [QUIESCING; FAULT]
  | FAULT => [QUIESCING]
  | QUIESCING => [STOPPED]
  | STOPPED => []
  end.

(** ** Registry records *)

Record BrokerRecord := mkBrokerRecord {
  device_id : string;
  tcp_port : Z;
  udp_port : Z;
  pid : Z;
  r_processor : string;
}.

(** [value == 1] for a JSON value: [True] and [1.0] are equal to [1] in Python. *)
Definition float_is_integer (x : spec_float) : bool :=
  match x with
  | S754_zero _ => true
  | S754_finite _ m e => (0 <=? e) || (Zpos m mod 2 ^ (- e) =? 0)
  | _ => false
  end.
Definition jeq_int (j : json) (z : Z) : bool :=
  match j with
  | JInt v => v =? z
  | JBool b => (if b then 1 else 0) =? z
  | JFloat x => float_is_integer x && bool_decide (float_trunc x = Some z)
  | _ => false
  end.

Definition record_as_dict (r : BrokerRecord) : list (string * json) :=
  [("version", JInt BROKER_VERSION); ("device_id", JStr (device_id r)); ("tcp_port", JInt (tcp_port r));
   ("udp_port", JInt (udp_port r)); ("pid", JInt (pid r)); ("processor", JStr (r_processor r))]%string.

(** ** Requests to the actor *)

Record BrokerExchangeRequest := mkExchangeRequest {
  x_client : string;
  x_request : string;
  x_record : bytes;
  x_future : nat;
}.
Record BrokerControlRequest := mkControlRequest {
  c_client : string;
  c_request : string;
  c_command : string;
  c_timeout : spec_float;
  c_future : nat;
}.

(** What a waiting handler remembers: [workload_control_audit] *)
Definition audit_note : Type := option (string * string * list (string * json)).

Record broker := mkBroker {
  b_device : string;
  b_processor : string;
  b_requests : list BrokerExchangeRequest;
  b_controls : list BrokerControlRequest;
  b_subscribers : list (string * Z);
  b_audit : list (list (string * json));
  b_state : BrokerState;
  b_snapshot : list (string * json);
  b_next : nat;                        (** the next connection *)
  b_waiting : gmap nat audit_note;     (** handlers that wait for the actor *)
  b_replies : gmap nat json;           (** responses written *)
  b_aborted : gset nat;                (** handlers ended by another exception *)
}.

Definition broker_init (device processor : string) : broker :=
  mkBroker device processor [] [] [] [] OPENING
    [("state", JStr (state_value OPENING)); ("completed", JInt 0); ("lost", JInt 0); ("sequence", JInt 0);
     ("control_audit", JList [])]%string 0 ∅ ∅ ∅.

Definition set_snapshot (s : list (string * json)) (b : broker) : broker :=
  mkBroker (b_device b) (b_processor b) (b_requests b) (b_controls b) (b_subscribers b) (b_audit b)
    (b_state b) s (b_next b) (b_waiting b) (b_replies b) (b_aborted b).

Definition transition (target : BrokerState) (b : broker) : result broker :=
  if negb (bool_decide (target ∈ BROKER_TRANSITIONS (b_state b)))
  then Raise (RuntimeError ("invalid broker transition: " +:+ state_value (b_state b) +:+ " -> "
                            +:+ state_value target)) else
  Ok (mkBroker (b_device b) (b_processor b) (b_requests b) (b_controls b) (b_subscribers b) (b_audit b)
        target (jset "state" (JStr (state_value target)) (b_snapshot b)) (b_next b) (b_waiting b)
        (b_replies b) (b_aborted b)).

(** The part of [stop] that acts on the broker's own state *)
Definition stop (b : broker) : result broker :=
  b ← (if bool_decide (b_state b = OWNER_ACTIVE) || bool_decide (b_state b = FAULT)
       then transition QUIESCING b else Ok b);
  if bool_decide (b_state b = QUIESCING) then transition STOPPED b else Ok b.

(** ** Audit *)

Definition decode_workload_control (record : bytes) : result (option (list (string * json))) :=
  if negb (len record =? HOST_RECORD_SIZE) then Ok None else
  kind ← item 1 record;
  if negb (byte.unsigned kind =? HOST_TYPE_WORKLOAD_CONTROL) then Ok None else
  let sequence := from_bytes_le (slice 4 8 record) in
  let length := from_bytes_le (slice 8 10 record) in
  if length <? 8 then
    Ok (Some [("sequence", JInt sequence); ("operation", JStr "MALFORMED"); ("operation_code", JNull);
              ("workload_id", JNull)]%string)
  else
    operation ← item 12 record;
    let operation := byte.unsigned operation in
    let workload_id := from_bytes_le (slice 16 20 record) in
    Ok (Some [("sequence", JInt sequence);
              ("operation", JStr (default ("UNKNOWN(" +:+ dec operation +:+ ")")
                                    (z_get operation WORKLOAD_CONTROL_NAMES)));
              ("operation_code", JInt operation); ("workload_id", JInt workload_id)]%string).

(** [del l[:-16]] *)
Definition last_entries {A} (n : Z) (l : list A) : list A := drop (length l - Z.to_nat n) l.

Section broker.
Context (float_repr : spec_float → string) (py_float : json → result spec_float).
Context (json_loads : bytes → result json).

Definition record_from_dict (value : list (string * json)) : result BrokerRecord :=
  if negb (jeq_int (jget "version" value) BROKER_VERSION)
  then Raise (ValueError "unsupported broker registry version") else
  d ← jitem "device_id" value;
  t ← jitem "tcp_port" value; t ← jint t;
  u ← jitem "udp_port" value; u ← jint u;
  p ← jitem "pid" value; p ← jint p;
  q ← jitem "processor" value;
  Ok (mkBrokerRecord (jstr float_repr d) t u p (jstr float_repr q)).

Definition record_control_audit (observed_at client_id request_id : string)
    (decoded : list (string * json)) (response : list (string * json)) (b : broker) : broker :=
  let ok := jtruthy (jget "ok" response) in
  let entry :=
    foldl (λ d '(k, v), jset k v d)
      [("observed_at", JStr observed_at); ("client_id", JStr client_id);
       ("request_id", JStr request_id)]%string decoded in
  let entry := jset "accepted" (JBool ok) entry in
  let error := jget "error" response in
  let entry := if negb ok && jtruthy error then jset "error" (JStr (jstr float_repr error)) entry
               else entry in
  let audit := last_entries CONTROL_AUDIT_LIMIT (b_audit b ++ [entry]) in
  mkBroker (b_device b) (b_processor b) (b_requests b) (b_controls b) (b_subscribers b) audit
    (b_state b) (jset "control_audit" (JList (map JObj audit)) (b_snapshot b)) (b_next b)
    (b_waiting b) (b_replies b) (b_aborted b).

(** ** The request handler *)

(** How the first part of a handler ends: a response, or a wait on the actor *)
Inductive handled :=
| Respond (response : list (string * json))
| WaitExchange (request : BrokerExchangeRequest) (note : audit_note)
| WaitControl (request : BrokerControlRequest)
| Subscribe (peer : string * Z).

(** [str(x or text)] *)
Definition jstr_or (j : json) (text : string) : string :=
  if jtruthy j then jstr float_repr j else text.

(** [base64.b64decode(x, validate=True)] *)
Definition decode_record (j : json) : result bytes :=
  match j with
  | JStr s =>
      if ascii_only (encode_utf8 s) then b64decode (String.list_ascii_of_string s)
      else Raise (ValueError "string argument should contain only ASCII characters")
  | _ => Raise (TypeError "argument should be a bytes-like object or ASCII string")
  end.

Definition handle_request (b : broker) (peer : string) (connection : nat)
    (request : list (string * json)) : result handled :=
  if negb (jeq_int (jget "version" request) BROKER_VERSION)
  then Raise (ValueError "unsupported broker protocol version") else
  let operation := jget "op" request in
  let op_is text := match operation with JStr t => String.eqb t text | _ => false end in
  if op_is "hello"%string then
      Ok (Respond [("ok", JBool true); ("version", JInt BROKER_VERSION); ("device_id", JStr (b_device b));
                   ("processor", JStr (b_processor b)); ("snapshot", JObj (b_snapshot b))]%string)
  else if op_is "subscribe"%string then
      port ← jitem "udp_port" request; port ← jint port;
      Ok (Subscribe (peer, port))
  else if op_is "exchange"%string then
      record ← jitem "record" request; record ← decode_record record;
      if negb (len record =? HOST_RECORD_SIZE)
      then Raise (ValueError "broker exchange requires one 64-byte ABI record") else
      let client_id := jstr_or (jget "client_id" request) "anonymous" in
      let request_id := jstr_or (jget "request_id" request) "" in
      decoded ← decode_workload_control record;
      Ok (WaitExchange (mkExchangeRequest client_id request_id record connection)
            (match decoded with Some d => Some (client_id, request_id, d) | None => None end))
  else if op_is "control"%string then
      command ← jitem "command" request;
      let command := jstr float_repr command in
      if negb (str_in command ["status"; "bootloader"; "reboot"]%string)
      then Raise (ValueError ("unsupported broker control command: " +:+ command)) else
      timeout ← (if jtruthy (jget "timeout" request) then py_float (jget "timeout" request)
                 else Ok (binary_normalize 53 1024 5 0 false));
      Ok (WaitControl (mkControlRequest (jstr_or (jget "client_id" request) "anonymous")
            (jstr_or (jget "request_id" request) "") command timeout connection))
  else Raise (ValueError ("unsupported broker operation: " +:+ jstr float_repr operation)).

(** The [except (ValueError, KeyError, TypeError)] clause of the handler *)
Definition caught (e : exn) : option string :=
  match e with
  | ValueError text | KeyError text | TypeError text => Some text
  | _ => None
  end.
Definition failure (text : string) : list (string * json) := [("ok", JBool false); ("error", JStr text)]%string.

Definition with_reply (connection : nat) (response : json) (b : broker) : broker :=
  mkBroker (b_device b) (b_processor b) (b_requests b) (b_controls b) (b_subscribers b) (b_audit b)
    (b_state b) (b_snapshot b) (b_next b) (b_waiting b) (<[connection := response]> (b_replies b))
    (b_aborted b).

(** One connection, up to its response or its wait *)
Definition handle_client (peer : string) (line : bytes) (b : broker) : broker :=
  let connection := b_next b in
  let b := mkBroker (b_device b) (b_processor b) (b_requests b) (b_controls b) (b_subscribers b)
             (b_audit b) (b_state b) (b_snapshot b) (S connection) (b_waiting b) (b_replies b)
             (b_aborted b) in
  let outcome :=
    if negb (truthy (len line)) || (MAX_RPC_BYTES <? len line)
    then Raise (ValueError "invalid broker request length") else
    request ← json_loads line;
    match request with
    | JObj fields => handle_request b peer connection fields
    | _ => Raise AttributeError
    end in
  match outcome with
  | Ok (Respond response) => with_reply connection (JObj response) b
  | Ok (Subscribe subscriber) =>
      with_reply connection (JObj [("ok", JBool true); ("device_id", JStr (b_device b))]%string)
        (mkBroker (b_device b) (b_processor b) (b_requests b) (b_controls b)
           (if bool_decide (subscriber ∈ b_subscribers b) then b_subscribers b
            else b_subscribers b ++ [subscriber])
           (b_audit b) (b_state b) (b_snapshot b) (b_next b) (b_waiting b) (b_replies b) (b_aborted b))
  | Ok (WaitExchange r note) =>
      mkBroker (b_device b) (b_processor b) (b_requests b ++ [r]) (b_controls b) (b_subscribers b)
        (b_audit b) (b_state b) (b_snapshot b) (b_next b) (<[connection := note]> (b_waiting b))
        (b_replies b) (b_aborted b)
  | Ok (WaitControl r) =>
      mkBroker (b_device b) (b_processor b) (b_requests b) (b_controls b ++ [r]) (b_subscribers b)
        (b_audit b) (b_state b) (b_snapshot b) (b_next b) (<[connection := None]> (b_waiting b))
        (b_replies b) (b_aborted b)
  | Raise e =>
      match caught e with
      | Some text => with_reply connection (JObj (failure text)) b
      | None =>
          mkBroker (b_device b) (b_processor b) (b_requests b) (b_controls b) (b_subscribers b)
            (b_audit b) (b_state b) (b_snapshot b) (b_next b) (b_waiting b) (b_replies b)
            ({[ connection ]} ∪ b_aborted b)
      end
  end.

(** The actor sets the future of a waiting handler, which then audits a
    workload control and writes the response. *)
Definition complete (observed_at : string) (connection : nat) (response : list (string * json))
    (b : broker) : broker :=
  match b_waiting b !! connection with
  | None => b
  | Some note =>
      let b := mkBroker (b_device b) (b_processor b) (b_requests b) (b_controls b) (b_subscribers b)
                 (b_audit b) (b_state b) (b_snapshot b) (b_next b) (delete connection (b_waiting b))
                 (b_replies b) (b_aborted b) in
      let b := match note with
               | Some (client_id, request_id, decoded) =>
                   record_control_audit observed_at client_id request_id decoded response b
               | None => b
               end in
      with_reply connection (JObj response) b
  end.

(** [pending()] and the control queue: the actor takes everything queued. *)
Definition pending (b : broker) : list BrokerExchangeRequest * broker :=
  (b_requests b,
   mkBroker (b_device b) (b_processor b) [] (b_controls b) (b_subscribers b) (b_audit b) (b_state b)
     (b_snapshot b) (b_next b) (b_waiting b) (b_replies b) (b_aborted b)).

(** [publish(snapshot)]: the copy of the audit is made under the lock, the
    snapshot is assigned after the lock was released. *)
Definition publish_copy (b : broker) : list (list (string * json)) := b_audit b.
Definition publish_store (snapshot : list (string * json)) (audit : list (list (string * json))) (b : broker) : broker :=
  set_snapshot (jset "control_audit" (JList (map JObj audit)) snapshot) b.
(** A publication that nothing comes in between *)
Definition publish (snapshot : list (string * json)) (b : broker) : broker :=
  publish_store snapshot (publish_copy b) b.
End broker.

(** ** Client side *)

Definition select_broker (records : list BrokerRecord) (device : option string)
  : result (option BrokerRecord) :=
  let matches :=
    match device with
    | Some d => match d with
                | EmptyString => records
                | _ => List.filter (λ r, String.eqb (device_id r) d) records
                end
    | None => records
    end in
  match matches with
  | [] => Ok None
  | [r] => Ok (Some r)
  | _ => Raise (RuntimeError ("multiple RP86 brokers are active: "
            +:+ str_join ", " (map device_id matches) +:+ "; use --hid-serial DEVICE_ID"))
  end.

(** The payload of [BrokerClient.exchange] *)
Definition exchange_payload (client_id request_id : string) (record : bytes) (timeout : spec_float)
  : list (string * json) :=
  [("version", JInt BROKER_VERSION); ("op", JStr "exchange"); ("client_id", JStr client_id);
   ("request_id", JStr request_id);
   ("record", JStr (String.string_of_list_ascii (b64encode record))); ("timeout", JFloat timeout)]%string.

Definition control_payload (client_id request_id command : string) (timeout : spec_float)
  : list (string * json) :=
  [("version", JInt BROKER_VERSION); ("op", JStr "control"); ("client_id", JStr client_id);
   ("request_id", JStr request_id); ("command", JStr command); ("timeout", JFloat timeout)]%string.

(** [DeviceClient._require_ok] and the reply of [DeviceClient.exchange] *)
Definition require_ok (float_repr : spec_float → string) (response : list (string * json))
  : result (list (string * json)) :=
  if negb (jtruthy (jget "ok" response))
  then Raise (RuntimeError (if jtruthy (jget "error" response) then jstr float_repr (jget "error" response)
                            else "RP86 broker request failed"))
  else Ok response.

Definition exchange_reply (float_repr : spec_float → string) (response : list (string * json))
  : result bytes :=
  response ← require_ok float_repr response;
  match jget "reply_hex" response with
  | JStr encoded =>
      match bytes_fromhex encoded with
      | None => Raise (ValueError "non-hexadecimal number found in fromhex() arg")
      | Some result =>
          if negb (len result =? 64)
          then Raise (RuntimeError "broker returned an invalid RP86 record length") else Ok result
      end
  | _ => Raise (RuntimeError "broker exchange did not return a record")
  end.

Definition client_control_command (command : string) : result string :=
  if negb (str_in command ["status"; "bootloader"; "reboot"]%string)
  then Raise (ValueError ("unsupported RP86 control command: " +:+ command)) else Ok command.

(** ** Reachable brokers *)

Section invariant.
Context (float_repr : spec_float → string) (py_float : json → result spec_float).
Context (json_loads : bytes → result json).

(** The broker; the publication that is under way in the actor's thread: its
    snapshot, the copy it made of the audit, and how many entries were recorded
    since; every version the audit has had; and how many entries were recorded
    during the publication that last assigned the snapshot. *)
Record serving := mkServing {
  sv_broker : broker;
  sv_copied : option (list (string * json) * list (list (string * json)) * nat);
  sv_audits : list (list (list (string * json)));
  sv_missed : nat;
}.
Definition serving_init (device processor : string) : serving :=
  mkServing (broker_init device processor) None [[]] 0.
Definition with_broker_state (b : broker) (v : serving) : serving :=
  mkServing b (sv_copied v) (sv_audits v) (sv_missed v).

(** The event loop runs the handlers and their completions; the actor's thread
    takes requests, publishes and changes the state.  A completion that audits
    does so under the lock and is one step; a publication is two, and the event
    loop may run in between. *)
Inductive broker_step : serving → serving → Prop :=
| step_client peer line v :
    broker_step v (with_broker_state (handle_client float_repr py_float json_loads peer line (sv_broker v)) v)
| step_complete t connection response v :
    (∀ note, b_waiting (sv_broker v) !! connection ≠ Some (Some note)) →
    broker_step v (with_broker_state (complete float_repr t connection response (sv_broker v)) v)
| step_audit t connection response note v :
    b_waiting (sv_broker v) !! connection = Some (Some note) →
    let b := complete float_repr t connection response (sv_broker v) in
    broker_step v (mkServing b (prod_map id S <$> sv_copied v) (sv_audits v ++ [b_audit b]) 0)
| step_pending v : broker_step v (with_broker_state (pending (sv_broker v)).2 v)
| step_controls v :
    let b := sv_broker v in
    broker_step v (with_broker_state
      (mkBroker (b_device b) (b_processor b) (b_requests b) [] (b_subscribers b) (b_audit b)
         (b_state b) (b_snapshot b) (b_next b) (b_waiting b) (b_replies b) (b_aborted b)) v)
| step_copy snapshot v :
    sv_copied v = None →
    broker_step v (mkServing (sv_broker v) (Some (snapshot, publish_copy (sv_broker v), 0%nat)) (sv_audits v) (sv_missed v))
| step_store snapshot audit missed v :
    sv_copied v = Some (snapshot, audit, missed) →
    broker_step v (mkServing (publish_store snapshot audit (sv_broker v)) None (sv_audits v) missed)
| step_transition target b v :
    sv_copied v = None → transition target (sv_broker v) = Ok b → broker_step v (with_broker_state b v).

(** Where a connection is *)
Definition settled (b : broker) (i : nat) : Prop :=
  is_Some (b_replies b !! i) ∨ i ∈ b_aborted b.

Record broker_ok (b : broker) : Prop := {
  bo_audit : len (b_audit b) <= CONTROL_AUDIT_LIMIT;
  bo_records : Forall (λ r, len (x_record r) = HOST_RECORD_SIZE) (b_requests b);
  bo_commands : Forall (λ r, str_in (c_command r) ["status"; "bootloader"; "reboot"]%string = true)
                  (b_controls b);
  bo_cover : ∀ i, (i < b_next b)%nat ↔ is_Some (b_waiting b !! i) ∨ settled b i;
  bo_once : ∀ i, is_Some (b_waiting b !! i) → ¬ settled b i;
  bo_once' : ∀ i, is_Some (b_replies b !! i) → i ∉ b_aborted b;
}.

(** The version the audit had before the last [missed] entries *)
Definition version (v : serving) (missed : nat) (audit : list (list (string * json))) : Prop :=
  (missed < length (sv_audits v))%nat ∧ sv_audits v !! (length (sv_audits v) - 1 - missed)%nat = Some audit.
(** The snapshot shows a version the audit had, and the current one unless
    entries were recorded while the snapshot was being published. *)
Record serving_ok (v : serving) : Prop := {
  so_broker : broker_ok (sv_broker v);
  so_current : version v 0 (b_audit (sv_broker v));
  so_shows : ∃ audit, version v (sv_missed v) audit
    ∧ str_get "control_audit" (b_snapshot (sv_broker v)) = Some (JList (map JObj audit));
  so_copy : ∀ snapshot audit missed, sv_copied v = Some (snapshot, audit, missed) → version v missed audit;
}.

Lemma broker_init_ok device processor : broker_ok (broker_init device processor).
Proof.
  split; cbn; try done; try (constructor; fail).
  - intros i. unfold settled. cbn. rewrite !lookup_empty. split; [lia|].
    intros [[? ?]|[[? ?]|?]]; set_solver.
  - intros i. rewrite lookup_empty. by intros [].
Qed.

Lemma last_entries_len {A} n (l : list A) : 0 <= n → len (last_entries n l) <= n.
Proof. intros. unfold last_entries, len. rewrite length_drop. lia. Qed.

Lemma str_get_foldl_jset key v d decoded :
  str_get key d = Some v → Forall (λ p, p.1 ≠ key) decoded →
  str_get key (foldl (λ d '(k, v), jset k v d) d decoded) = Some v.
Proof.
  revert d. induction decoded as [|[k x] decoded IH]; intros d Hd Hall; [done|].
  apply Forall_cons in Hall as [Hk Hall]. cbn in *. apply IH; [|done].
  by rewrite str_get_jset_ne.
Qed.

(** Moving a waiting or new connection to its reply *)
Lemma with_reply_ok i response b :
  len (b_audit b) <= CONTROL_AUDIT_LIMIT →
  Forall (λ r, len (x_record r) = HOST_RECORD_SIZE) (b_requests b) →
  Forall (λ r, str_in (c_command r) ["status"; "bootloader"; "reboot"]%string = true) (b_controls b) →
  (∀ j, (j < b_next b)%nat ↔ is_Some (b_waiting b !! j) ∨ settled b j ∨ j = i) →
  (∀ j, is_Some (b_waiting b !! j) → ¬ settled b j) →
  (∀ j, is_Some (b_replies b !! j) → j ∉ b_aborted b) →
  b_waiting b !! i = None → i ∉ b_aborted b →
  broker_ok (with_reply i response b).
Proof.
  intros H1 H3 H4 Hc Ho Ho' Hw Ha. split; cbn; try done.
  - intros j. rewrite Hc. unfold settled. cbn. destruct (decide (j = i)) as [->|Hne].
    + rewrite lookup_insert_eq. split; [intros _; right; left; by eexists|tauto].
    + rewrite lookup_insert_ne by done. unfold settled. tauto.
  - intros j Hj. unfold settled. cbn. destruct (decide (j = i)) as [->|Hne].
    + rewrite Hw in Hj. by destruct Hj.
    + rewrite lookup_insert_ne by done. by apply Ho.
  - intros j. destruct (decide (j = i)) as [->|Hne]; [done|]. rewrite lookup_insert_ne by done. apply Ho'.
Qed.

Lemma jset_state_mirror v s d :
  str_get "control_audit" s = d → str_get "control_audit" (jset "state" v s) = d.
Proof. intros <-. by apply str_get_jset_ne. Qed.

(** Facts about a fresh connection *)
Lemma fresh_connection b : broker_ok b →
  b_waiting b !! b_next b = None ∧ (b_next b ∉ b_aborted b) ∧ b_replies b !! b_next b = None.
Proof.
  intros Hb. destruct Hb as [_ _ _ Hc _ _]. specialize (Hc (b_next b)). unfold settled in Hc.
  destruct (b_waiting b !! b_next b) eqn:E1; [exfalso; assert ((b_next b < b_next b)%nat) by (apply Hc; by left); lia|].
  destruct (b_replies b !! b_next b) eqn:E2; [exfalso; assert ((b_next b < b_next b)%nat) by (apply Hc; right; left; by eexists); lia|].
  split; [done|]. split; [|done]. intros Hin.
  assert ((b_next b < b_next b)%nat) by (apply Hc; right; by right). lia.
Qed.

Lemma handle_request_shape b peer i fields h :
  handle_request float_repr py_float b peer i fields = Ok h →
  match h with
  | WaitExchange r _ => len (x_record r) = HOST_RECORD_SIZE
  | WaitControl r => str_in (c_command r) ["status"; "bootloader"; "reboot"]%string = true
  | _ => True
  end.
Proof.
  unfold handle_request. intros H. destruct (negb (jeq_int _ _)); [done|].
  cbv zeta in H. repeat (case_match; [py_inv; cbn; done || lia|]). done.
Qed.

Lemma handle_client_ok peer line b :
  broker_ok b → broker_ok (handle_client float_repr py_float json_loads peer line b).
Proof.
  intros Hb. destruct (fresh_connection b Hb) as (Fw & Fa & Fr).
  pose proof Hb as [H1 H3 H4 Hc Ho Ho'].
  assert (∀ j, (j < S (b_next b))%nat ↔ is_Some (b_waiting b !! j) ∨ settled b j ∨ j = b_next b) as Hc'.
  { intros j. destruct (decide (j = b_next b)) as [->|]; [split; [tauto|lia]|].
    specialize (Hc j). split; [intros; assert ((j < b_next b)%nat) by lia; tauto|].
    intros [?|[?|?]]; [assert ((j < b_next b)%nat) by tauto; lia..|done]. }
  assert (∀ j, is_Some (b_waiting b !! j) → j ≠ b_next b) as Hnw
    by (intros j Hj ->; rewrite Fw in Hj; by destruct Hj).
  unfold handle_client. set (outcome := if negb _ || _ then _ else _).
  destruct outcome as [[response|r note|r|subscriber]|e] eqn:Eo.
  - by apply with_reply_ok.
  - split; cbn; try done.
    + apply Forall_app. split; [done|]. constructor; [|constructor]. unfold outcome in Eo.
      destruct (_ || _); [done|]. apply bind_ok in Eo as ([] & _ & Eo); try done.
      by apply handle_request_shape in Eo.
    + intros j. rewrite Hc'. unfold settled. cbn. destruct (decide (j = b_next b)) as [->|];
        [rewrite lookup_insert_eq|rewrite lookup_insert_ne by done; tauto].
      split; [intros _; left; by eexists|tauto].
    + intros j. unfold settled. cbn. destruct (decide (j = b_next b)) as [->|].
      * intros _. rewrite Fr. intros [[]|]; done.
      * rewrite lookup_insert_ne by done. apply Ho.
  - split; cbn; try done.
    + apply Forall_app. split; [done|]. constructor; [|constructor]. unfold outcome in Eo.
      destruct (_ || _); [done|]. apply bind_ok in Eo as ([] & _ & Eo); try done.
      by apply handle_request_shape in Eo.
    + intros j. rewrite Hc'. unfold settled. cbn. destruct (decide (j = b_next b)) as [->|];
        [rewrite lookup_insert_eq|rewrite lookup_insert_ne by done; tauto].
      split; [intros _; left; by eexists|tauto].
    + intros j. unfold settled. cbn. destruct (decide (j = b_next b)) as [->|].
      * intros _. rewrite Fr. intros [[]|]; done.
      * rewrite lookup_insert_ne by done. apply Ho.
  - by apply with_reply_ok.
  - destruct (caught e); [by apply with_reply_ok|]. split; cbn; try done.
    + intros j. rewrite Hc'. unfold settled. cbn. rewrite elem_of_union, elem_of_singleton. tauto.
    + intros j Hj. unfold settled. cbn. rewrite elem_of_union, elem_of_singleton.
      specialize (Ho j Hj). specialize (Hnw j Hj). unfold settled in Ho. tauto.
    + intros j Hj. rewrite elem_of_union, elem_of_singleton. specialize (Ho' j Hj).
      intros [->|]; [|done]. rewrite Fr in Hj. by destruct Hj.
Qed.

Lemma complete_ok t connection response b :
  broker_ok b → broker_ok (complete float_repr t connection response b).
Proof.
  intros Hb. unfold complete. destruct (b_waiting b !! connection) as [note|] eqn:Ew; [|done].
  pose proof Hb as [H1 H3 H4 Hc Ho Ho'].
  assert (¬ settled b connection) as Hns by (apply Ho; by eexists). unfold settled in Hns.
  assert (∀ j, (j < b_next b)%nat ↔
            is_Some (delete connection (b_waiting b) !! j) ∨ settled b j ∨ j = connection) as Hc'.
  { intros j. rewrite Hc. destruct (decide (j = connection)) as [->|].
    - split; [tauto|]. intros _. left. by exists note.
    - rewrite lookup_delete_ne by done. tauto. }
  assert (∀ j, is_Some (delete connection (b_waiting b) !! j) → ¬ settled b j) as Hod.
  { intros j Hj. apply Ho. apply lookup_delete_is_Some in Hj. naive_solver. }
  destruct note as [[[client_id request_id] decoded]|];
    apply with_reply_ok; cbn; try done; try apply lookup_delete_eq; try tauto.
  by apply last_entries_len.
Qed.

(** Only a completion with a note changes the audit, and then the snapshot with it. *)
Lemma complete_quiet t connection response b :
  (∀ note, b_waiting b !! connection ≠ Some (Some note)) →
  let b' := complete float_repr t connection response b in b_audit b' = b_audit b ∧ b_snapshot b' = b_snapshot b.
Proof. intros Hn. unfold complete. destruct (b_waiting b !! connection) as [[note|]|] eqn:E; [by destruct (Hn note)|done..]. Qed.
Lemma complete_audits t connection response b note :
  b_waiting b !! connection = Some (Some note) →
  let b' := complete float_repr t connection response b in
  str_get "control_audit" (b_snapshot b') = Some (JList (map JObj (b_audit b'))).
Proof. intros Hn. unfold complete. rewrite Hn. destruct note as [[client request] decoded]. cbn. apply str_get_jset_eq. Qed.
Lemma client_quiet peer line b :
  let b' := handle_client float_repr py_float json_loads peer line b in b_audit b' = b_audit b ∧ b_snapshot b' = b_snapshot b.
Proof. unfold handle_client. by repeat case_match. Qed.

(** A step that changes neither the audit nor what the snapshot shows of it *)
Lemma serving_quiet b v :
  broker_ok b → b_audit b = b_audit (sv_broker v) →
  str_get "control_audit" (b_snapshot b) = str_get "control_audit" (b_snapshot (sv_broker v)) →
  serving_ok v → serving_ok (with_broker_state b v).
Proof. intros Hb Ha Hs [_ Hc Hw Hk]. split; cbn; [done|by rewrite Ha|by rewrite Hs|done]. Qed.

(** A new version *)
Lemma version_new b copied v a :
  version (mkServing b copied (sv_audits v ++ [a]) 0) 0 a.
Proof. split; cbn; rewrite length_app; cbn; [lia|]. rewrite lookup_app_r by lia. by replace (_ - _)%nat with 0%nat by lia. Qed.
Lemma version_later b copied v a missed audit :
  version v missed audit → version (mkServing b copied (sv_audits v ++ [a]) 0) (S missed) audit.
Proof.
  intros [Hl Hv]. split; cbn; rewrite length_app; cbn; [lia|]. rewrite lookup_app_l by lia.
  rewrite <- Hv. f_equal. lia.
Qed.

Lemma broker_step_ok v v' : broker_step v v' → serving_ok v → serving_ok v'.
Proof.
  intros Hs Hv. pose proof (so_broker _ Hv) as Hb. destruct Hs as [peer line v|t i response v Hn|t i response note v Hn b|v|v b|
    snapshot v Hn|snapshot audit missed v Hn|target b v Hn Ht].
  - destruct (client_quiet peer line (sv_broker v)). apply serving_quiet; [by apply handle_client_ok|congruence..|done].
  - destruct (complete_quiet t i response (sv_broker v) Hn). apply serving_quiet; [by apply complete_ok|congruence..|done].
  - destruct Hv as [_ Hc Hw Hk]. split; cbn [sv_broker sv_missed sv_copied].
    + by apply complete_ok.
    + apply version_new.
    + exists (b_audit b). split; [apply version_new|]. by eapply complete_audits.
    + intros snapshot audit missed Hm. destruct (sv_copied v) as [[[x y] z]|]; [|done]. injection Hm as <- <- <-.
      eapply version_later, Hk. reflexivity.
  - apply serving_quiet; [by destruct Hb|done..].
  - apply serving_quiet; [by destruct Hb|done..].
  - destruct Hv as [_ Hc Hw Hk]. split; [done..|]. intros ??? [= <- <- <-]. exact Hc.
  - destruct Hv as [_ Hc Hw Hk]. split; cbn; [by destruct Hb|done| |done].
    exists audit. split; [by eapply Hk|apply str_get_jset_eq].
  - unfold transition in Ht. destruct (negb _); [done|]. py_inv. apply serving_quiet; [by destruct Hb|done| |done].
    cbn. by apply jset_state_mirror.
Qed.

Lemma broker_reachable_ok device processor v :
  rtc broker_step (serving_init device processor) v → serving_ok v.
Proof.
  intros Hr. assert (serving_ok (serving_init device processor)) as Hi.
  { split; [apply broker_init_ok|by split; [cbn; lia|]| |done]. exists []. split; [by split; [cbn; lia|]|done]. }
  induction Hr as [|x y z Hxy _ IH]; [done|]. apply IH. by eapply broker_step_ok.
Qed.
End invariant.

(** ** Theorems *)

Lemma control_record_inv op workload_id seq m :
  control_record op workload_id seq = Ok m →
  ∃ code, str_get op CONTROL_OPERATIONS = Some code ∧ 1 <= code <= 4 ∧ u32 workload_id
    ∧ m = request_message TYPE_WORKLOAD_CONTROL seq (pack_bytes CONTROL_FORMAT (code, (workload_id, tt))).
Proof.
  unfold control_record. destruct (str_get op CONTROL_OPERATIONS) as [code|] eqn:E; [|done].
  intros H. py_inv. unfold pack in *. py_inv. exists code. split; [done|].
  split; [|split; [unfold in_width; lia|done]].
  unfold str_get in E. cbn in E.
  repeat (case_match; [injection E as <-; split; vm_compute; discriminate|]). done.
Qed.

(** C33: however connections, the actor, the two halves of publications and
    life-cycle changes interleave, the control audit never exceeds 16 entries and
    what the published snapshot shows is a version the audit had: the current one,
    or, when entries were recorded between the two halves of the publication that
    assigned the snapshot, the version before exactly those entries.  Only 64-byte
    records and known commands reach the actor's queues, and every connection is
    waiting, answered exactly once, or ended by an exception the handler does not
    catch. *)
Theorem broker_invariant float_repr py_float json_loads device processor v :
  rtc (broker_step float_repr py_float json_loads) (serving_init device processor) v →
  serving_ok v ∧ (sv_missed v = 0%nat →
    str_get "control_audit" (b_snapshot (sv_broker v)) = Some (JList (map JObj (b_audit (sv_broker v))))).
Proof.
  intros Hr. apply broker_reachable_ok in Hr. split; [done|]. intros Hm. destruct Hr as [_ [_ Hc] (audit & [_ Hw] & Hs) _].
  rewrite Hm in Hw. congruence.
Qed.

(** A record that asks to stop workload 7 is audited while a publication is under
    way: the snapshot then lacks it. *)
Definition stop_line : list (string * json) := exchange_payload "cli" "1"
  (le_split 1 1 ++ byte.of_Z HOST_TYPE_WORKLOAD_CONTROL :: le_split 2 0 ++ le_split 4 9 ++ le_split 2 8 ++ le_split 2 0
     ++ Byte.x02 :: replicate 3 Byte.x00 ++ le_split 4 7 ++ replicate 44 Byte.x00) (S754_zero false).
Definition overtaken : serving :=
  let no_float : spec_float → string := λ _, EmptyString in
  let b := handle_client no_float (λ _, Raise AttributeError) (λ _, Ok (JObj stop_line)) "127.0.0.1" (lit "x")
             (broker_init "RP86-1" "auto") in
  let b' := complete no_float "now" 0 [("ok", JBool true)]%string b in
  mkServing (publish_store [] [] b') None [[]; b_audit b'] 1.

Example broker_invariant_witness :
  serving_ok overtaken ∧ len (b_audit (sv_broker overtaken)) = 1
  ∧ str_get "control_audit" (b_snapshot (sv_broker overtaken)) = Some (JList []).
Proof.
  split; [|split; reflexivity].
  apply (broker_invariant (λ _, EmptyString) (λ _, Raise AttributeError) (λ _, Ok (JObj stop_line)) "RP86-1" "auto").
  eapply rtc_l; [apply (step_client _ _ _ "127.0.0.1" (lit "x"))|]. eapply rtc_l; [by apply (step_copy _ _ _ [])|].
  eapply rtc_l; [eapply (step_audit _ _ _ "now" 0%nat [("ok", JBool true)]%string); vm_compute; reflexivity|].
  eapply rtc_l; [by eapply step_store|]. apply rtc_refl.
Defined.

(** the audit of a workload control names what was really sent: for any
    control record the Host builds, the broker decodes from the 64 bytes the
    same sequence, operation, operation code and workload id. *)
Theorem audit_provenance op workload_id seq m record :
  control_record op workload_id seq = Ok m → encode m = Ok record →
  ∃ code name, str_get op CONTROL_OPERATIONS = Some code
    ∧ z_get code WORKLOAD_CONTROL_NAMES = Some name
    ∧ decode_workload_control record
      = Ok (Some [("sequence", JInt seq); ("operation", JStr name); ("operation_code", JInt code);
                  ("workload_id", JInt workload_id)]%string).
Proof.
  intros Hc He. destruct (control_record_inv _ _ _ _ Hc) as (code & Hop & Hcode & Hid & ->).
  pose proof (encode_len _ _ He) as Hl. pose proof (encode_inv _ _ He) as Hm.
  rewrite encode_ok in He by done.
  set (p := pack_bytes CONTROL_FORMAT (code, (workload_id, tt))) in *.
  assert (u32 seq) as Hs by (unfold message_ok, header_fits in Hm; py_inv; done).
  assert (record = le_split 1 1 ++ byte.of_Z TYPE_WORKLOAD_CONTROL :: le_split 2 0 ++ le_split 4 seq
            ++ le_split 2 8 ++ le_split 2 0 ++ byte.of_Z code :: replicate 3 Byte.x00
            ++ le_split 4 workload_id ++ replicate 44 Byte.x00) as Hrec.
  { assert (record = pack_bytes MESSAGE_FORMAT (wire (request_message TYPE_WORKLOAD_CONTROL seq p)))
      as -> by congruence.
    cbn [pack_bytes wire MESSAGE_FORMAT request_message fst snd version message_type flags sequence payload
         status]. rewrite (le_split_1 TYPE_WORKLOAD_CONTROL).
    assert (len p = 8) as Hp by (unfold p; apply len_pack_bytes).
    rewrite Hp, pad_to_ljust by lia. unfold p, ljust.
    rewrite length_pack_bytes. cbn [pack_bytes CONTROL_FORMAT fst snd calcsize fwidth].
    rewrite le_split_1. change (Z.to_nat PAYLOAD_SIZE - (1 + (3 + (4 + 0))))%nat with 44%nat.
    cbn [app]. rewrite !app_nil_r, <- !app_assoc. reflexivity. }
  exists code. unfold decode_workload_control. rewrite Hl. cbn [negb Z.eqb].
  change (MESSAGE_SIZE =? HOST_RECORD_SIZE) with true. cbn [negb].
  assert (item 1 record = Ok (byte.of_Z TYPE_WORKLOAD_CONTROL)) as ->
    by (rewrite Hrec; exact (item_field 1 (le_split 1 1) _ _ ltac:(lia) eq_refl)).
  cbn [mbind result_bind].
  rewrite byte.unsigned_of_Z. change (byte.wrap TYPE_WORKLOAD_CONTROL =? HOST_TYPE_WORKLOAD_CONTROL) with true.
  cbn [negb].
  assert (slice 4 8 record = le_split 4 seq) as ->.
  { rewrite Hrec. exact (slice_field 4 8 (le_split 1 1 ++ byte.of_Z TYPE_WORKLOAD_CONTROL :: le_split 2 0)
      (le_split 4 seq) _ eq_refl eq_refl). }
  assert (slice 8 10 record = le_split 2 8) as ->.
  { rewrite Hrec. exact (slice_field 8 10 (le_split 1 1 ++ byte.of_Z TYPE_WORKLOAD_CONTROL :: le_split 2 0
      ++ le_split 4 seq) (le_split 2 8) _ eq_refl eq_refl). }
  assert (item 12 record = Ok (byte.of_Z code)) as ->.
  { rewrite Hrec. exact (item_field 12 (le_split 1 1 ++ byte.of_Z TYPE_WORKLOAD_CONTROL :: le_split 2 0
      ++ le_split 4 seq ++ le_split 2 8 ++ le_split 2 0) (byte.of_Z code) _ ltac:(lia) eq_refl). }
  assert (slice 16 20 record = le_split 4 workload_id) as ->.
  { rewrite Hrec. exact (slice_field 16 20 (le_split 1 1 ++ byte.of_Z TYPE_WORKLOAD_CONTROL :: le_split 2 0
      ++ le_split 4 seq ++ le_split 2 8 ++ le_split 2 0 ++ byte.of_Z code :: replicate 3 Byte.x00)
      (le_split 4 workload_id) _ eq_refl eq_refl). }
  unfold from_bytes_le. rewrite !le_round by (unfold in_width in *; cbn; lia).
  cbn [mbind result_bind]. rewrite byte.unsigned_of_Z.
  assert (byte.wrap code = code) as -> by (unfold byte.wrap; apply Z.mod_small; lia).
  change (8 <? 8) with false. cbv iota.
  assert (∃ name, z_get code WORKLOAD_CONTROL_NAMES = Some name) as [name Hname].
  { assert (code = 1 ∨ code = 2 ∨ code = 3 ∨ code = 4) as [->|[->|[->| ->]]] by lia; by eexists. }
  exists name. rewrite Hname. done.
Qed.

Example audit_provenance_witness :
  ∃ m record, control_record "stop" 7 9 = Ok m ∧ encode m = Ok record
    ∧ ∃ code name, str_get "stop" CONTROL_OPERATIONS = Some code
        ∧ z_get code WORKLOAD_CONTROL_NAMES = Some name
        ∧ decode_workload_control record
          = Ok (Some [("sequence", JInt 9); ("operation", JStr name); ("operation_code", JInt code);
                      ("workload_id", JInt 7)]%string).
Proof.
  destruct (control_record "stop" 7 9) as [m|] eqn:Em; [|vm_compute in Em; discriminate Em].
  destruct (encode m) as [record|] eqn:Er.
  2:{ vm_compute in Em. injection Em as <-. vm_compute in Er. discriminate Er. }
  exists m, record. split; [reflexivity|]. split; [exact Er|].
  exact (audit_provenance "stop" 7 9 m record Em Er).
Defined.

Lemma b64_ascii b : ascii_only (encode_utf8 (String.string_of_list_ascii (b64encode b))) = true.
Proof.
  assert (∀ l, Forall (λ c, (N_of_ascii c < 128)%N) l →
    ascii_only (encode_utf8 (String.string_of_list_ascii l)) = true) as Hl.
  { induction l as [|c l IH]; [done|]. intros Hc. apply Forall_cons in Hc as [Hc Hr].
    change (ascii_only (byte_of_ascii c :: encode_utf8 (String.string_of_list_ascii l)) = true).
    unfold ascii_only in *. cbn [forallb]. rewrite IH, andb_true_r by done.
    revert Hc. destruct c as [[] [] [] [] [] [] [] []]; vm_compute; done. }
  apply Hl. apply b64_chars.
Qed.

(** the broker RPC carries records unchanged in both directions: a 64-byte
    record given to [BrokerClient.exchange] is the one that reaches the actor's
    queue, audited exactly when it is a workload control, and the record the
    actor answers with in hexadecimal is the one [DeviceClient.exchange]
    returns. *)
Theorem broker_rpc_transparent float_repr py_float b peer i client request record timeout :
  len record = HOST_RECORD_SIZE → client ≠ ""%string →
  (∃ note, handle_request float_repr py_float b peer i (exchange_payload client request record timeout)
     = Ok (WaitExchange (mkExchangeRequest client request record i) note)
     ∧ ∀ d, decode_workload_control record = Ok d →
         note = match d with Some d => Some (client, request, d) | None => None end)
  ∧ exchange_reply float_repr [("ok", JBool true); ("reply_hex", JStr (bytes_hex record))]%string = Ok record.
Proof.
  intros Hl Hc. split.
  - assert (∃ d, decode_workload_control record = Ok d) as [d Hd].
    { unfold decode_workload_control. rewrite Hl, Z.eqb_refl. cbn [negb].
      assert (∀ k, 0 <= k < 64 → ∃ x, item k record = Ok x) as Hi.
      { intros k Hk. unfold item. destruct (record !! Z.to_nat k) eqn:E; [by eexists|].
        apply lookup_ge_None in E. unfold len, HOST_RECORD_SIZE in Hl. lia. }
      destruct (Hi 1 ltac:(lia)) as [x1 ->], (Hi 12 ltac:(lia)) as [x12 ->]. cbn [mbind result_bind].
      repeat case_match; by eexists. }
    eexists. split; [|intros d'; rewrite Hd; intros [= <-]; reflexivity].
    unfold handle_request, exchange_payload. cbn [jget str_get find option_map fst snd String.eqb default].
    change (jeq_int _ BROKER_VERSION) with true. cbn [negb].
    cbv zeta. change (jitem "record" _) with (Ok (JStr (String.string_of_list_ascii (b64encode record)))).
    cbn [mbind result_bind decode_record].
    rewrite b64_ascii, String.list_ascii_of_string_of_list_ascii, b64_round_trip. cbn [mbind result_bind].
    rewrite Hl, Z.eqb_refl. cbn [negb]. rewrite Hd. cbn [mbind result_bind].
    unfold jstr_or, jget. cbn. destruct client as [|c client]; [done|]. cbn.
    destruct request; reflexivity.
  - unfold exchange_reply, require_ok, jget. cbn. rewrite fromhex_hex. by rewrite Hl.
Qed.

Example broker_rpc_transparent_witness :
  exchange_reply (λ _, EmptyString)
    [("ok", JBool true); ("reply_hex", JStr (bytes_hex (replicate 64 Byte.x23)))]%string
  = Ok (replicate 64 Byte.x23).
Proof.
  apply (broker_rpc_transparent (λ _, EmptyString) (λ _, Raise AttributeError) (broker_init "RP86-1" "auto")
           "127.0.0.1" 0 "cli" "1" (replicate 64 Byte.x23) (S754_zero false)).
  - vm_compute. reflexivity.
  - discriminate.
Defined.

Lemma transition_state target b b' :
  transition target b = Ok b' →
  target ∈ BROKER_TRANSITIONS (b_state b) ∧ b_state b' = target
  ∧ str_get "state" (b_snapshot b') = Some (JStr (state_value target)).
Proof.
  unfold transition. intros H. py_inv. split; [done|]. split; [done|]. apply str_get_jset_eq.
Qed.

Lemma transition_allowed target b :
  target ∈ BROKER_TRANSITIONS (b_state b) → ∃ b', transition target b = Ok b'.
Proof. intros Ht. unfold transition. rewrite bool_decide_eq_true_2 by done. by eexists. Qed.

Lemma transition_to target b :
  target ∈ BROKER_TRANSITIONS (b_state b) → ∃ b', transition target b = Ok b' ∧ b_state b' = target.
Proof.
  intros Ht. destruct (transition_allowed target b Ht) as [b' E]. exists b'. split; [done|].
  by apply transition_state in E as (_ & ? & _).
Qed.

Lemma stop_ok b :
  ∃ b', stop b = Ok b' ∧ b_state b' = if decide (b_state b = OPENING) then OPENING else STOPPED.
Proof.
  assert (∀ b, b_state b = QUIESCING → ∃ b', transition STOPPED b = Ok b' ∧ b_state b' = STOPPED) as Hq
    by (intros b1 E; apply transition_to; rewrite E; set_solver).
  unfold stop. destruct (decide (b_state b = OPENING ∨ b_state b = QUIESCING ∨ b_state b = STOPPED)) as [Hs|Hs].
  - assert (bool_decide (b_state b = OWNER_ACTIVE) || bool_decide (b_state b = FAULT) = false) as ->
      by (rewrite !bool_decide_eq_false_2 by (intros E; rewrite E in Hs; naive_solver); done).
    cbn [mbind result_bind]. destruct Hs as [Hs|[Hs|Hs]]; rewrite Hs.
    + by exists b.
    + rewrite bool_decide_eq_true_2 by done. by apply Hq.
    + by exists b.
  - assert (bool_decide (b_state b = OWNER_ACTIVE) || bool_decide (b_state b = FAULT) = true) as ->
      by (destruct (b_state b); naive_solver).
    destruct (transition_to QUIESCING b) as (b1 & -> & H1); [destruct (b_state b); set_solver|].
    cbn [mbind result_bind]. rewrite bool_decide_eq_true_2 by done.
    rewrite decide_False by naive_solver. by apply Hq.
Qed.

(** the broker's life cycle: a change of state succeeds exactly along the
    transition table and is what the snapshot then reports; a stopped broker
    never leaves that state and is only entered from QUIESCING; and [stop]
    never fails, taking every state but OPENING (where nothing was published
    yet) to STOPPED. *)
Theorem broker_lifecycle b :
  (∀ target, is_ok (transition target b) = true ↔ target ∈ BROKER_TRANSITIONS (b_state b))
  ∧ (∀ target b', transition target b = Ok b' →
       b_state b' = target ∧ jget "state" (b_snapshot b') = JStr (state_value target)
       ∧ (target = STOPPED → b_state b = QUIESCING) ∧ b_state b ≠ STOPPED)
  ∧ (∃ b', stop b = Ok b' ∧ b_state b' = if decide (b_state b = OPENING) then OPENING else STOPPED).
Proof.
  split; [|split].
  - intros target. split.
    + destruct (transition target b) eqn:E; [|done]. intros _.
      by apply transition_state in E as [? _].
    + intros Ht. by destruct (transition_allowed target b Ht) as [b' ->].
  - intros target b' Ht. destruct (transition_state _ _ _ Ht) as (Hin & Hs & Hj).
    split; [done|]. split; [unfold jget; by rewrite Hj|]. split.
    + intros ->. destruct (b_state b); set_solver.
    + intros Hst. rewrite Hst in Hin. set_solver.
  - apply stop_ok.
Qed.

(** Registry records are read back as they were written. *)
Lemma record_round_trip float_repr r :
  record_from_dict float_repr (record_as_dict r) = Ok r.
Proof. by destruct r. Qed.

Lemma select_broker_spec records device :
  match select_broker records device with
  | Ok (Some r) => r ∈ records ∧ (∀ d, device = Some d → d ≠ ""%string → device_id r = d)
  | Ok None => ∀ r, r ∈ records → ∃ d, device = Some d ∧ device_id r ≠ d
  | Raise e => ∃ msg, e = RuntimeError msg
  end.
Proof.
  unfold select_broker.
  assert (∀ d (l : list BrokerRecord), (∀ r, r ∈ List.filter (λ r, String.eqb (device_id r) d) l ↔
            r ∈ l ∧ device_id r = d)) as Hf.
  { intros d l r. rewrite !list_elem_of_In, filter_In. by rewrite String.eqb_eq. }
  set (matches := match device with Some d => _ | None => _ end).
  assert (∀ r, r ∈ matches ↔ r ∈ records ∧ (∀ d, device = Some d → d ≠ ""%string → device_id r = d)) as Hm.
  { intros r. unfold matches. destruct device as [[|c d]|].
    - split; [|tauto]. intros Hr. split; [done|]. by intros ? [= <-].
    - rewrite Hf. split; [intros [? <-]; split; [done|]; by intros ? [= <-]|].
      intros [? Hd]. split; [done|]. by apply Hd.
    - split; [|tauto]. intros Hr. by split. }
  destruct matches as [|r [|r' l]]; [|by apply Hm, list_elem_of_here|by eexists].
  intros r Hr. destruct device as [[|c d]|]; [exfalso..| |exfalso].
  - assert (r ∈ @nil BrokerRecord) as Hn by (apply Hm; split; [done|]; by intros ? [= <-]). set_solver.
  - exists (String c d). split; [done|]. intros Hd.
    assert (r ∈ @nil BrokerRecord) as Hn by (apply Hm; split; [done|]; by intros ? [= <-]). set_solver.
  - assert (r ∈ @nil BrokerRecord) as Hn by (apply Hm; split; [done|]; by intros ?). set_solver.
Qed.
