(* ===== verification/Rpc.v ===== *)
(** * Finding and calling a broker (host/rp86/broker.py, device.py)

    The line protocol between a client and a broker ([_rpc] and the connection
    of [_handle_client]), the registry of running brokers ([discover_brokers]),
    the clients [BrokerClient] and [DeviceClient], and how a broker starts and
    stops beside the lock and the registry file of its device.  Sockets are the
    class [Network], the registry directory the class [Registry].

    The theorems say that the protocol carries documents unchanged however the
    stream is cut, which brokers discovery returns, and who holds the lock after
    a start or a stop. *)

From S2P Require Import Prelude Struct PyText Json JsonText Base64 Ownership Broker.
From Stdlib Require Import Ascii SpecFloat.

Class Network (W : Type) := {
  net_connect : Z → spec_float → io W nat;      (** [socket.create_connection(("127.0.0.1", port), timeout)] *)
  net_send : nat → bytes → io W unit;           (** [sendall] *)
  net_recv : nat → Z → io W bytes;              (** [recv] *)
  net_close : nat → W → W;
}.
Class Registry (W : Type) := {
  registry_present : W → string → bool;         (** [directory.is_dir()] *)
  registry_files : W → string → list string;    (** [directory.glob("*.json")] *)
  registry_read : string → io W bytes;          (** [path.read_text(encoding="utf-8")], before decoding *)
}.

(** ** Lines *)

(** [json.dumps(payload, separators=(",", ":")).encode("utf-8") + b"\n"] *)
Definition rpc_line `{FloatText} (payload : document) : bytes :=
  encode_utf8 (json_dumps compact (JObj payload)) ++ [newline_byte].

(** [response.split(b"\n", 1)[0]] *)
Fixpoint first_line (b : bytes) : bytes :=
  match b with x :: b => if bool_decide (x = newline_byte) then [] else x :: first_line b | [] => [] end.

Definition float_half : spec_float := binary_normalize 53 1024 1 (-1) false.
(** [0.2] *)
Definition float_fifth : spec_float := binary_normalize 53 1024 0x1999999999999A (-55) false.
Definition plus_one (x : spec_float) : spec_float := SFadd 53 1024 x (binary_normalize 53 1024 1 0 false).

Section rpc.
Context {W : Type} `{Network W} `{FloatText} (complain : bytes → string).

(** The loop that gathers the response.  A chunk that is not empty adds to the
    response, so that the loop runs at most [MAX_RPC_BYTES + 2] times. *)
Fixpoint gather (fuel : nat) (connection : nat) (response : bytes) : io W bytes :=
  match fuel with
  | O => mret response
  | S fuel =>
      if len response <=? MAX_RPC_BYTES then
        chunk ← net_recv connection 4096;
        if bool_decide (chunk = []) then mret response
        else if bool_decide (newline_byte ∈ chunk) then mret (response ++ chunk)
        else gather fuel connection (response ++ chunk)
      else mret response
  end.
Definition gather_fuel : nat := Z.to_nat (MAX_RPC_BYTES + 2).

Definition _rpc (record : BrokerRecord) (payload : document) (timeout : spec_float) : io W document :=
  connection ← net_connect (tcp_port record) timeout;
  response ← finally (_ ← net_send connection (rpc_line payload); gather gather_fuel connection [])
               (net_close connection);
  let line := first_line response in
  if bool_decide (line = []) then raise (RuntimeError "broker returned no response") else
  value ← lift (json_loads complain line);
  match value with
  | JObj d => mret d
  | _ => raise (RuntimeError "broker returned an invalid response")
  end.

(** ** Discovery *)

Definition hello_payload : document := [("version", JInt BROKER_VERSION); ("op", JStr "hello")]%string.

Section discover.
Context `{Registry W} (broker_dir : option string) (expanduser : string → string) (tempdir : string).

Definition broker_registry_dir : string :=
  match broker_dir with
  | Some (String _ _ as configured) => expanduser configured
  | _ => tempdir +:+ "/rp86-brokers"
  end.
Definition broker_registry_dirs : list string := [broker_registry_dir].
Definition _registry_path (device_id : string) : string :=
  broker_registry_dir +:+ "/" +:+ safe_name device_id +:+ ".json".

Definition registered (text : bytes) : result BrokerRecord :=
  value ← json_loads complain text;
  match value with JObj d => record_from_dict float_text d | _ => Raise AttributeError end.

Definition found : Type := list BrokerRecord * list (string * Z).

(** One file of the registry: the body of the [try] *)
Definition probe_file (path : string) (f : found) : io W found :=
  text ← registry_read path;
  record ← lift (registered text);
  let identity := (device_id record, tcp_port record) in
  if bool_decide (identity ∈ f.2) then mret f else
  reply ← _rpc record hello_payload float_fifth;
  if jtruthy (jget "ok" reply) && match jget "device_id" reply with JStr d => String.eqb d (device_id record) | _ => false end
  then mret (f.1 ++ [record], f.2 ++ [identity])
  else mret f.

Fixpoint probe_files (paths : list string) (f : found) : io W found :=
  match paths with
  | [] => mret f
  | path :: paths =>
      f ← catch_classes exchange_error (probe_file path f) (λ _, mret f);
      probe_files paths f
  end.
Fixpoint probe_dirs (dirs : list string) (f : found) : io W found :=
  match dirs with
  | [] => mret f
  | dir :: dirs =>
      present ← gets (λ w, registry_present w dir);
      f ← (if (present : bool) then paths ← gets (λ w, registry_files w dir); probe_files paths f else mret f);
      probe_dirs dirs f
  end.
Definition discover_brokers : io W (list BrokerRecord) :=
  f ← probe_dirs broker_registry_dirs ([], []);
  mret f.1.

(** ** Clients *)

(** [BrokerClient] *)
Record BrokerClient := mkClient { cl_record : BrokerRecord; cl_id : string }.
Definition rpc_hello (c : BrokerClient) : io W document :=
  _rpc (cl_record c) (hello_payload ++ [("client_id"%string, JStr (cl_id c))]) float_half.
Definition rpc_exchange (c : BrokerClient) (record : bytes) (request_id : string) (timeout : spec_float) : io W document :=
  _rpc (cl_record c) (exchange_payload (cl_id c) request_id record timeout) (plus_one timeout).
Definition rpc_subscribe (c : BrokerClient) (port : Z) : io W document :=
  _rpc (cl_record c)
    [("version", JInt BROKER_VERSION); ("op", JStr "subscribe"); ("client_id", JStr (cl_id c)); ("udp_port", JInt port)]%string
    float_half.
Definition rpc_control (c : BrokerClient) (command request_id : string) (timeout : spec_float) : io W document :=
  _rpc (cl_record c) (control_payload (cl_id c) request_id command timeout) (plus_one timeout).

(** [DeviceClient]; [token] is what [secrets.token_hex] returns *)
Definition device_client (record : BrokerRecord) (client_id : option string) (token : string) : BrokerClient :=
  mkClient record (match client_id with Some (String _ _ as id) => id | _ => "rp86-" +:+ token end).
Definition device_discover (device_id client_id : option string) (token : string) : io W BrokerClient :=
  records ← discover_brokers;
  chosen ← lift (select_broker records device_id);
  match chosen with
  | None => raise (RuntimeError "no active RP86 Host broker was found")
  | Some record => mret (device_client record client_id token)
  end.
Definition device_info (c : BrokerClient) : io W document :=
  response ← rpc_hello c; lift (require_ok float_text response).
Definition device_exchange (c : BrokerClient) (record : bytes) (token : string) (timeout : spec_float) : io W bytes :=
  response ← rpc_exchange c record token timeout; lift (exchange_reply float_text response).
Definition device_control (c : BrokerClient) (command token : string) (timeout : spec_float) : io W document :=
  command ← lift (client_control_command command);
  response ← rpc_control c command token timeout;
  lift (require_ok float_text response).
End discover.
End rpc.

(** ** The protocol carries documents *)

Lemma first_line_stop line rest : newline_byte ∉ line → first_line (line ++ newline_byte :: rest) = line.
Proof.
  induction line as [|x line IH]; cbn; intros Hn; [done|]. rewrite bool_decide_false by set_solver. f_equal. apply IH. set_solver.
Qed.
Lemma first_line_prefix a b : newline_byte ∈ a → first_line (a ++ b) = first_line a.
Proof.
  induction a as [|x a IH]; intros Hn; [by apply not_elem_of_nil in Hn|]. cbn. case_bool_decide; [done|]. f_equal. apply IH.
  apply elem_of_cons in Hn as [<-|]; done.
Qed.

(** What comes before a newline: a text without newlines that starts the stream
    starts its first line. *)
Lemma before_newline acc more line rest :
  acc ++ more = line ++ newline_byte :: rest → newline_byte ∉ acc → (length acc ≤ length line)%nat.
Proof.
  intros E Hn. destruct (decide (length acc ≤ length line)%nat) as [|Hlt]; [done|]. exfalso. apply Hn.
  assert (acc = take (length acc) (line ++ newline_byte :: rest)) as -> by (by rewrite <- E, take_app_length).
  rewrite take_app_ge by lia. apply elem_of_app. right.
  destruct (length acc - length line)%nat eqn:El; [lia|]. left.
Qed.

Section stream.
Context {W : Type} `{Network W} `{FloatText} (complain : bytes → string).

(** What a connection will deliver: chunks that are not empty, then the end *)
Inductive stream (c : nat) : W → list bytes → Prop :=
| stream_end w w' : net_recv c 4096 w = (w', Ok []) → stream c w []
| stream_chunk w w' x cs : x ≠ [] → net_recv c 4096 w = (w', Ok x) → stream c w' cs → stream c w (x :: cs).

Lemma gather_line c w cs : stream c w cs → ∀ fuel acc line rest,
  acc ++ concat cs = line ++ newline_byte :: rest → newline_byte ∉ line → newline_byte ∉ acc →
  len line <= MAX_RPC_BYTES → MAX_RPC_BYTES + 1 - len acc < Z.of_nat fuel →
  ∃ w' r, gather fuel c acc w = (w', Ok r) ∧ first_line r = line.
Proof.
  induction 1 as [w w' Hr|w w' x cs Hx Hr Hs IH]; intros fuel acc line rest E Hl Ha Hlen Hf.
  { cbn in E. rewrite app_nil_r in E. exfalso. apply Ha. rewrite E. set_solver. }
  pose proof (before_newline _ _ _ _ E Ha) as Hacc. unfold len in *. destruct fuel as [|fuel]; [lia|]. cbn [gather].
  unfold len. destruct (Z.leb_spec (Z.of_nat (length acc)) MAX_RPC_BYTES); [|lia].
  unfold mbind, io_bind. rewrite Hr, bool_decide_false by done. case_bool_decide as Hx'.
  - exists w', (acc ++ x). split; [done|]. rewrite <- (first_line_prefix _ (concat cs)) by set_solver.
    rewrite <- app_assoc. change (x ++ concat cs) with (concat (x :: cs)). by rewrite E, first_line_stop.
  - apply (IH fuel (acc ++ x) line rest); [by rewrite <- app_assoc|done|set_solver|done|].
    rewrite length_app. destruct x; [done|]. cbn [length]. lia.
Qed.

Lemma rpc_line_newline payload : writable (JObj payload) →
  newline_byte ∉ encode_utf8 (json_dumps compact (JObj payload)).
Proof. apply dump_bytes_no_newline. Qed.

Lemma loads_dump j : writable j → json_loads complain (encode_utf8 (json_dumps compact j)) = Ok j.
Proof. intros Hw. apply (json_encode_ok compact complain j compact_blank Hw). Qed.

(** [json.loads] of a line with its newline *)
Lemma loads_line payload : writable (JObj payload) → json_loads complain (rpc_line payload) = Ok (JObj payload).
Proof.
  intros Hw. pose proof (json_read_back compact complain [] ["010"%char] _ compact_blank Hw eq_refl eq_refl) as Hr.
  change (string_of [] +:+ ?a +:+ string_of ["010"%char]) with (a +:+ newline) in Hr. rewrite encode_app in Hr. exact Hr.
Qed.

(** C11: The line protocol carries documents that JSON can write unchanged.  The
    broker acts on a request line as on the document the client gave; and a
    response whose line has at most 16 KiB + 1 octets is the document [_rpc]
    returns, however the connection cuts it into chunks.  The bound is needed:
    [_rpc] cuts a longer response ([long_audit_hides]). *)
Theorem rpc_round_trip float_repr py_float payload response :
  writable (JObj payload) → writable (JObj response) →
  len (rpc_line response) <= MAX_RPC_BYTES + 1 →
  (∀ b peer, handle_client float_repr py_float (json_loads complain) peer (rpc_line payload) b
             = handle_client float_repr py_float (λ _, Ok (JObj payload)) peer (rpc_line payload) b)
  ∧ (∀ record timeout w w1 w2 c cs,
       net_connect (tcp_port record) timeout w = (w1, Ok c) → net_send c (rpc_line payload) w1 = (w2, Ok tt) →
       stream c w2 cs → concat cs = rpc_line response →
       ∃ w', _rpc complain record payload timeout w = (w', Ok response)).
Proof.
  intros Hp Hr Hl. split.
  - intros b peer. unfold handle_client. by rewrite loads_line.
  - intros record timeout w w1 w2 c cs Hc Hs Hcs E. unfold _rpc, mbind, io_bind. rewrite Hc. unfold finally, mbind, io_bind.
    rewrite Hs. unfold rpc_line in E, Hl. unfold len in Hl. rewrite length_app in Hl. cbn [length] in Hl.
    destruct (gather_line c w2 cs Hcs gather_fuel [] (encode_utf8 (json_dumps compact (JObj response))) [])
      as (w3 & r & Hg & Hf); [done|by apply rpc_line_newline|set_solver|unfold len; lia|vm_compute; done|].
    rewrite Hg. cbn. rewrite Hf, bool_decide_false.
    + unfold lift. rewrite loads_dump by done. by eexists.
    + unfold json_dumps. destruct (dump_starts compact 0 _ Hr) as (d & k & -> & _). done.
Qed.
End stream.

(** A connection that delivers the chunks it was given *)
#[global] Instance scripted : Network (list bytes) := {|
  net_connect := λ _ _ w, (w, Ok 0%nat);
  net_send := λ _ _ w, (w, Ok tt);
  net_recv := λ _ _ w, match w with x :: w => (w, Ok x) | [] => ([], Ok []) end;
  net_close := λ _ w, w;
|}.

Lemma encodable_ascii s : ascii_only (encode_utf8 s) = true → encodable s.
Proof.
  intros Ha. exists (map byte.unsigned (encode_utf8 s)). unfold ascii_only in Ha. rewrite forallb_forall in Ha. split.
  - apply Forall_forall. intros z Hz. apply list_elem_of_fmap in Hz as (x & -> & Hx). apply list_elem_of_In, Ha in Hx.
    apply Z.ltb_lt in Hx. pose proof (byte.unsigned_range x). left. lia.
  - rewrite <- (of_octets_encode s) at 1. f_equal. induction (encode_utf8 s) as [|x l IH]; [done|]. cbn [map]. rewrite bind_cons.
    unfold utf8_char at 1. rewrite (Ha x) by (left; done). cbn [app]. f_equal.
    + symmetry. apply byte.of_Z_unsigned.
    + apply IH. intros y Hy. apply Ha. by right.
Qed.

Definition sample_record : BrokerRecord := mkBrokerRecord "RP86-1" 4000 4001 7 "auto".
Definition sample_chunks : list bytes :=
  let line := @rpc_line few_floats [("ok", JBool true)]%string in [slice 0 9 line; slice_from 9 line].
Example rpc_round_trip_witness :
  ∃ w, @_rpc _ scripted few_floats (λ _, EmptyString) sample_record hello_payload float_fifth sample_chunks
       = (w, Ok [("ok", JBool true)]%string).
Proof.
  assert (∀ s, ascii_only (encode_utf8 s) = true → encodable s) as He by apply encodable_ascii.
  apply (proj2 (@rpc_round_trip _ scripted few_floats (λ _, EmptyString) (λ _, EmptyString) (λ _, Raise AttributeError)
    hello_payload [("ok", JBool true)]%string
    ltac:(repeat split; cbn; try (apply He; reflexivity); try (unfold printable_int; vm_compute; lia); repeat constructor; set_solver)
    ltac:(repeat split; cbn; try (apply He; reflexivity); repeat constructor; set_solver)
    ltac:(vm_compute; discriminate))
    sample_record float_fifth sample_chunks sample_chunks sample_chunks 0%nat sample_chunks).
  - reflexivity.
  - reflexivity.
  - econstructor; [vm_compute; discriminate|reflexivity|]. econstructor; [vm_compute; discriminate|reflexivity|].
    econstructor. reflexivity.
  - vm_compute. reflexivity.
Defined.

(** ** What discovery returns *)

Section discovery.
Context {W : Type} `{Network W} `{FloatText} (complain : bytes → string) `{Registry W}.
Context (broker_dir : option string) (expanduser : string → string) (tempdir : string).

Definition identity (r : BrokerRecord) : string * Z := (device_id r, tcp_port r).
(** The answer to [hello] that makes a record live *)
Definition confirms (r : BrokerRecord) (reply : document) : Prop :=
  jtruthy (jget "ok" reply) = true ∧ jget "device_id" reply = JStr (device_id r).
(** At some moment the file [path] held the record and the broker at its port
    said that it serves this device. *)
Definition live (path : string) (r : BrokerRecord) : Prop :=
  ∃ w w1 w2 text reply, registry_read path w = (w1, Ok text) ∧ registered complain text = Ok r
    ∧ _rpc complain r hello_payload float_fifth w1 = (w2, Ok reply) ∧ confirms r reply.

Definition found_ok (paths : list string) (f : found) : Prop :=
  f.2 = map identity f.1 ∧ NoDup f.2 ∧ Forall (λ r, ∃ path, path ∈ paths ∧ live path r) f.1.

Lemma confirm_spec r reply :
  (jtruthy (jget "ok" reply) && match jget "device_id" reply with JStr d => String.eqb d (device_id r) | _ => false end) = true
  ↔ confirms r reply.
Proof.
  unfold confirms. rewrite andb_true_iff. destruct (jget "device_id" reply); try (split; by intros []).
  rewrite String.eqb_eq. naive_solver.
Qed.

(** The body of the [try]: nothing new, or one live record more *)
Lemma probe_file_spec path f w f' w' :
  probe_file complain path f w = (w', Ok f') →
  f' = f ∨ ∃ r, f' = (f.1 ++ [r], f.2 ++ [identity r]) ∧ (identity r ∉ f.2) ∧ live path r.
Proof.
  unfold probe_file. intros E. io_inv.
  match goal with E : registered _ _ = Ok ?x |- _ => rename x into r; rename E into Hr end.
  match goal with E : registry_read _ _ = _ |- _ => rename E into Hread end.
  case_bool_decide as Hin; io_inv; [by left|].
  match goal with E : _rpc _ _ _ _ _ = (_, Ok ?x) |- _ => rename x into reply; rename E into Hrpc end.
  match goal with E : (if ?b then _ else _) _ = _ |- _ => destruct b eqn:Hc; io_inv end; [|by left].
  right. exists r. split; [done|]. split; [done|]. apply confirm_spec in Hc. unfold live. eauto 10.
Qed.

Lemma found_step paths path f f' : path ∈ paths →
  f' = f ∨ (∃ r, f' = (f.1 ++ [r], f.2 ++ [identity r]) ∧ (identity r ∉ f.2) ∧ live path r) →
  found_ok paths f → found_ok paths f'.
Proof.
  intros Hp [->|(r & -> & Hn & Hl)] (E & Hd & Ha); [by split|]. split_and!; cbn.
  - by rewrite map_app, E.
  - apply NoDup_app. split; [done|]. split; [set_solver|apply NoDup_singleton].
  - apply Forall_app_2; [done|]. constructor; [eauto|constructor].
Qed.

Lemma probe_files_ok all paths f w f' w' :
  probe_files complain paths f w = (w', Ok f') → (∀ p, p ∈ paths → p ∈ all) → found_ok all f → found_ok all f'.
Proof.
  revert f w. induction paths as [|path paths IH]; intros f w; cbn [probe_files]; [by intros E; io_inv|].
  intros E Hall Hok. io_step. match goal with E : catch_classes _ _ _ _ = (?w1, Ok ?x) |- _ => rename x into f1; rename E into Hc end.
  eapply IH; [eassumption|intros; apply Hall; set_solver|].
  apply catch_ok in Hc as [Hc|(w2 & e & t & _ & _ & Hc)]; [|by io_inv].
  apply probe_file_spec in Hc. eapply found_step; [|done|done]. apply Hall. set_solver.
Qed.

Abbreviation discover := (discover_brokers complain broker_dir expanduser tempdir).
Abbreviation directory := (broker_registry_dir broker_dir expanduser tempdir).

Lemma discover_unfold w : discover w
  = (if registry_present w directory
     then let '(w', r) := probe_files complain (registry_files w directory) ([], []) w in
          (w', match r with Ok f => Ok f.1 | Raise e => Raise e end)
     else (w, Ok [])).
Proof.
  unfold discover_brokers, broker_registry_dirs, probe_dirs, gets, mbind, io_bind, mret, io_ret.
  destruct (registry_present w directory); [|done]. by destruct (probe_files _ _ _ _) as [w' [f|e]].
Qed.

(** While nothing changes: the registry and the answers of the brokers *)
Definition steady (w : W) : Prop :=
  (∀ path, (registry_read path w).1 = w) ∧ (∀ r, (_rpc complain r hello_payload float_fifth w).1 = w).
Definition live_at (w : W) (path : string) (r : BrokerRecord) : Prop :=
  ∃ text reply, registry_read path w = (w, Ok text) ∧ registered complain text = Ok r
    ∧ _rpc complain r hello_payload float_fifth w = (w, Ok reply) ∧ confirms r reply.

Lemma probe_file_steady w path f : steady w → (probe_file complain path f w).1 = w.
Proof.
  intros [Hr Hc]. unfold probe_file, mbind, io_bind, lift. specialize (Hr path).
  destruct (registry_read path w) as [w1 [text|e]]; cbn in Hr; subst w1; [|done].
  destruct (registered complain text) as [r|e]; [|done]. cbv zeta. case_bool_decide; [done|]. specialize (Hc r).
  destruct (_rpc complain r hello_payload float_fifth w) as [w1 [reply|e]]; cbn in Hc; subst w1; [|done].
  by destruct (_ && _).
Qed.

Lemma probe_file_live w path f r :
  live_at w path r → probe_file complain path f w
  = (w, Ok (if bool_decide (identity r ∈ f.2) then f else (f.1 ++ [r], f.2 ++ [identity r]))).
Proof.
  intros (text & reply & Hr & Hg & Hc & Hok). unfold probe_file, mbind, io_bind, lift. rewrite Hr, Hg. cbv zeta.
  change (device_id r, tcp_port r) with (identity r). case_bool_decide; [done|]. rewrite Hc.
  apply confirm_spec in Hok. by rewrite Hok.
Qed.

Lemma probe_files_grow w paths f w' f' :
  steady w → probe_files complain paths f w = (w', Ok f') →
  w' = w ∧ (∀ i, i ∈ f.2 → i ∈ f'.2)
  ∧ ∀ path r, path ∈ paths → live_at w path r → identity r ∈ f'.2.
Proof.
  intros Hst. revert f. induction paths as [|path paths IH]; intros f; cbn [probe_files].
  { intros E. io_inv. split_and!; try done. intros ? ? Hp. by apply not_elem_of_nil in Hp. }
  unfold mbind, io_bind, catch_classes. pose proof (probe_file_steady w path f Hst) as Hs.
  pose proof (probe_file_spec path f w) as Hspec. pose proof (probe_file_live w path f) as Hlive.
  destruct (probe_file complain path f w) as [w1 [f1|e]]; cbn in Hs; subst w1.
  - intros E. apply IH in E as (-> & Hg & Hl). split; [done|].
    assert (∀ i, i ∈ f.2 → i ∈ f1.2) as Hm.
    { intros i Hi. destruct (Hspec f1 w eq_refl) as [->|(r & -> & _)]; [done|]. set_solver. }
    split; [auto|]. intros p r Hp Ha. apply elem_of_cons in Hp as [->|Hp]; [|by eapply Hl].
    apply Hg. injection (Hlive r Ha) as ->. case_bool_decide; [done|]. set_solver.
  - destruct (exchange_error e); [|done]. intros E. apply IH in E as (-> & Hg & Hl). split_and!; try done.
    intros p r Hp Ha. apply elem_of_cons in Hp as [->|Hp]; [|by eapply Hl]. discriminate (Hlive r Ha).
Qed.

(** C12: Discovery returns only brokers that are there: each record stood in a
    file of the registry, the broker at its port answered that it serves the
    device of the record, and no broker is returned twice.  While nothing
    changes, it misses none: every broker that is registered and answers is
    returned. *)
Theorem discover_exact w w' records :
  discover w = (w', Ok records) →
  NoDup (map identity records)
  ∧ Forall (λ r, ∃ path, path ∈ registry_files w directory ∧ live path r) records
  ∧ (steady w → registry_present w directory = true →
     ∀ path r, path ∈ registry_files w directory → live_at w path r → identity r ∈ map identity records).
Proof.
  rewrite discover_unfold. destruct (registry_present w directory).
  2:{ intros [= <- <-]. split_and!; [constructor|constructor|done]. }
  destruct (probe_files _ _ _ _) as [w1 [f|e]] eqn:E; [|done]. intros [= <- <-].
  destruct (probe_files_ok (registry_files w directory) _ _ _ _ _ E) as (Hi & Hn & Ha);
    [done|by split_and!; constructor|]. rewrite <- Hi. split_and!; [done|done|].
  intros Hs _ path r Hp Hl. by apply (probe_files_grow _ _ _ _ _ Hs E) with path.
Qed.
End discovery.

(** ** A machine with brokers *)

(** The files of the registry and what listens at the ports *)
Record town := mkTown { t_files : list (string * string); t_ports : list (Z * document) }.
Definition port_answer (w : town) (port : Z) : option document :=
  option_map snd (List.find (λ x, x.1 =? port) (t_ports w)).
Definition town_network `{FloatText} : Network town := {|
  net_connect := λ port _ w,
    (w, match port_answer w port with Some _ => Ok (Z.to_nat port) | None => Raise (OSError "Connection refused") end);
  net_send := λ _ _ w, (w, Ok tt);
  net_recv := λ c n w, (w, Ok (slice 0 n (rpc_line (default [] (port_answer w (Z.of_nat c))))));
  net_close := λ _ w, w;
|}.
#[global] Instance town_registry : Registry town := {|
  registry_present := λ _ _, true;
  registry_files := λ w _, map fst (t_files w);
  registry_read := λ path w,
    (w, match str_get path (t_files w) with Some t => Ok (encode_utf8 t) | None => Raise (OSError path) end);
|}.

Definition record_text (r : BrokerRecord) : string := @json_dumps few_floats indented (JObj (record_as_dict r)) +:+ newline.
Definition town_discover : io town (list BrokerRecord) :=
  @discover_brokers _ (@town_network few_floats) few_floats (λ _, "invalid"%string) _ None (λ x, x) "/tmp".

Definition hello_of (device : string) : document :=
  [("ok", JBool true); ("version", JInt 1); ("device_id", JStr device); ("processor", JStr "auto"); ("snapshot", JObj [])]%string.
Definition record_at (device : string) (port : Z) : BrokerRecord := mkBrokerRecord device port (port + 1) 7 "auto".
(** A live broker, one that died, and one whose port now belongs to another device *)
Definition sample_town : town :=
  mkTown [("a.json", record_text (record_at "A" 4000)); ("b.json", record_text (record_at "B" 5000));
          ("c.json", record_text (record_at "C" 4000)); ("d.json", "{")]%string
         [(4000, hello_of "A")].

Example discover_sample : town_discover sample_town = (sample_town, Ok [record_at "A" 4000]).
Proof. vm_compute. reflexivity. Qed.

Example discover_exact_witness :
  NoDup (map identity [record_at "A" 4000])
  ∧ Forall (λ r, ∃ path, path ∈ ["a.json"; "b.json"; "c.json"; "d.json"]%string
      ∧ @live _ (@town_network few_floats) few_floats (λ _, "invalid"%string) _ path r) [record_at "A" 4000].
Proof.
  destruct (@discover_exact _ (@town_network few_floats) few_floats (λ _, "invalid"%string) _ None (λ x, x) "/tmp"
    sample_town sample_town [record_at "A" 4000]) as (Hn & Hl & _); [vm_compute; reflexivity|].
  split; [exact Hn|exact Hl].
Defined.

(** A registry file whose port is null raises [TypeError], a file that holds a
    list [AttributeError]: neither is among the errors discovery skips, so that
    one such file hides every broker. *)
Example malformed_registry :
  map (λ text, (town_discover (mkTown (("0.json", text) :: t_files sample_town) (t_ports sample_town))%string).2)
    [@json_dumps few_floats compact (JObj (jset "tcp_port" JNull (record_as_dict (record_at "A" 4000)))); "[]"%string]
  = [Raise (TypeError "int() argument must be a string, a bytes-like object or a real number, not 'NoneType'");
     Raise AttributeError].
Proof. vm_compute. reflexivity. Qed.

(** A broker whose audit holds long client names answers with more than
    [_rpc] reads: the answer is cut and does not parse, and the broker, which
    owns its device, is not found any more. *)
Definition long_name : string := string_of (replicate (Z.to_nat 8000) "x"%char).
Definition audited_hello : document :=
  jset "snapshot" (JObj [("control_audit", JList (repeat (JObj [("client_id", JStr long_name)]%string) 3))]%string) (hello_of "A").
(** The answer in chunks of 4096 octets *)
Fixpoint cut (fuel : nat) (b : bytes) : list bytes :=
  match fuel, b with
  | S fuel, _ :: _ => slice 0 4096 b :: cut fuel (slice_from 4096 b)
  | _, _ => []
  end.
Example long_audit_hides :
  (@_rpc _ scripted few_floats (λ _, "invalid"%string) (record_at "A" 4000) hello_payload float_fifth
     (cut 10 (@rpc_line few_floats audited_hello))).2 = Raise (ValueError "invalid").
Proof. vm_compute. reflexivity. Qed.

(** ** Starting and stopping a broker *)

(** The locks of the machine and the files of the registry *)
Record host := mkHost { h_os : os; h_files : gmap string string }.

Record DeviceBroker := mkDeviceBroker {
  d_broker : broker;
  d_ownership : DeviceOwnership;
  d_record : option BrokerRecord;
  d_thread : bool;                     (** [_thread is not None] *)
  d_failed : bool;                     (** [_startup_error is not None] *)
}.

(** How far the thread of the broker gets: the sockets fail, the registry file
    fails, or it listens *)
Inductive thread_outcome := NoSocket | NoFile | Listening.

Section lifecycle.
Context `{FloatText} (broker_dir : option string) (expanduser : string → string) (tempdir : string) (sha256_hex : string → string).
Abbreviation registry_path := (_registry_path broker_dir expanduser tempdir).

Definition device_broker (device processor : string) : DeviceBroker :=
  mkDeviceBroker (broker_init device processor) (ownership_init broker_dir expanduser tempdir sha256_hex device) None false false.

(** [_run] up to [_ready.set()] *)
Definition _run (out : thread_outcome) (tcp udp process : Z) (d : DeviceBroker) (h : host) : DeviceBroker * host :=
  let b := d_broker d in
  let record := mkBrokerRecord (b_device b) tcp udp process (b_processor b) in
  match out with
  | NoSocket => (mkDeviceBroker b (d_ownership d) (d_record d) (d_thread d) true, h)
  | NoFile => (mkDeviceBroker b (d_ownership d) (Some record) (d_thread d) true, h)
  | Listening =>
      let h := mkHost (h_os h) (<[registry_path (b_device b)
                := json_dumps indented (JObj (record_as_dict record)) +:+ newline]> (h_files h)) in
      match transition OWNER_ACTIVE b with
      | Ok b => (mkDeviceBroker b (d_ownership d) (Some record) (d_thread d) (d_failed d), h)
      | Raise _ => (mkDeviceBroker b (d_ownership d) (Some record) (d_thread d) true, h)
      end
  end.

(** [start(timeout)]; [refused] is the error of the lock's file, [thread_starts] and
    [in_time] say whether the thread can be started and whether it is ready in time *)
Definition broker_start (refused : option string) (thread_starts in_time : bool) (out : thread_outcome) (tcp udp process : Z)
    (d : DeviceBroker) (h : host) : host * DeviceBroker * result BrokerRecord :=
  if d_thread d then (h, d, Raise (RuntimeError "broker is already started")) else
  match acquire refused (h_os h) (d_ownership d) with
  | (os, Raise e) => (mkHost os (h_files h), d, Raise e)
  | (os, Ok own) =>
      let retire d h error :=
        let '(os, own) := release (h_os h) (d_ownership d) in
        (mkHost os (h_files h), mkDeviceBroker (d_broker d) own (d_record d) false (d_failed d), Raise error) in
      let h := mkHost os (h_files h) in
      let d := mkDeviceBroker (d_broker d) own (d_record d) true (d_failed d) in
      if negb thread_starts then retire d h (RuntimeError "can't start new thread") else
      let '(d, h) := _run out tcp udp process d h in
      if negb in_time then (h, d, Raise (RuntimeError "broker startup timed out; ownership retained")) else
      match d_failed d, d_record d with
      | false, Some record => (h, d, Ok record)
      | _, _ => retire d h (RuntimeError "broker did not start")
      end
  end.

(** [stop()]; [unlinks] says whether the registry file can be removed *)
Definition broker_stop (unlinks : bool) (d : DeviceBroker) (h : host) : host * DeviceBroker * result unit :=
  match stop (d_broker d) with
  | Raise e => (h, d, Raise e)
  | Ok b =>
      let '(os, own) := release (h_os h) (d_ownership d) in
      (mkHost os (if unlinks then delete (registry_path (b_device b)) (h_files h) else h_files h),
       mkDeviceBroker b own (d_record d) (d_thread d) (d_failed d), Ok tt)
  end.

Definition timed_out : exn := RuntimeError "broker startup timed out; ownership retained".
Definition plain_record (r : BrokerRecord) : Prop :=
  encodable (device_id r) ∧ encodable (r_processor r) ∧ printable_int (tcp_port r) ∧ printable_int (udp_port r) ∧ printable_int (pid r).

Lemma record_writable r : plain_record r → writable (JObj (record_as_dict r)).
Proof.
  intros (? & ? & ? & ? & ?). cbn. split; [repeat constructor; set_solver|].
  repeat split; try done; try (by apply encodable_ascii); unfold printable_int; vm_compute; lia.
Qed.
(** What a broker writes into the registry is the record discovery reads. *)
Lemma registered_written complain r : plain_record r →
  registered complain (encode_utf8 (json_dumps indented (JObj (record_as_dict r)) +:+ newline)) = Ok r.
Proof.
  intros Hr. pose proof (json_read_back indented complain [] ["010"%char] _ indented_blank (record_writable r Hr) eq_refl eq_refl) as E.
  change (string_of [] +:+ ?a +:+ string_of ["010"%char]) with (a +:+ newline) in E.
  unfold registered. rewrite E. cbn [mbind result_bind]. apply record_round_trip.
Qed.

Lemma acquire_fresh refused s o s' o' : ow_file o = None → acquire refused s o = (s', Ok o') →
  ∃ n, locks s !! ow_path o = None ∧ locks s' = <[ow_path o := n]> (locks s)
    ∧ o' = mkOwnership (ow_device o) (ow_path o) (Some n).
Proof.
  intros Hf. unfold acquire. rewrite Hf. cbn. destruct refused; [done|]. destruct (locks s !! ow_path o); [done|]. intros [= <- <-]. cbn. eauto.
Qed.
Lemma release_held s device path n : locks s !! path = Some n →
  release s (mkOwnership device path (Some n)) = (mkOs (delete path (locks s)) (next_file s), mkOwnership device path None).
Proof. intros Hl. unfold release. cbn. by rewrite bool_decide_true. Qed.

Lemma transition_device target b b' : transition target b = Ok b' → b_device b' = b_device b.
Proof. unfold transition. case_bool_decide; cbn [negb]; [|done]. by intros [= <-]. Qed.
Lemma stop_device b b' : stop b = Ok b' → b_device b' = b_device b.
Proof.
  unfold stop. intros E. apply bind_ok in E as (b1 & E1 & E2).
  assert (b_device b1 = b_device b) as <- by (destruct (_ || _); [by apply transition_device in E1|by simplify_eq]).
  case_bool_decide; [by apply transition_device in E2|by simplify_eq].
Qed.

(** A broker that has started holds the lock of its device, is active, and is
    found in the registry as it is; when it stops, the lock is free as before and
    the registry file is gone.  A start that fails leaves every lock as it was,
    except that one that timed out keeps the lock of the device. *)
Theorem broker_start_ownership complain refused thread_starts in_time out tcp udp process device processor h h' d' r :
  plain_record (mkBrokerRecord device tcp udp process processor) →
  broker_start refused thread_starts in_time out tcp udp process (device_broker device processor) h = (h', d', r) →
  match r with
  | Ok record =>
      record = mkBrokerRecord device tcp udp process processor ∧ b_state (d_broker d') = OWNER_ACTIVE
      ∧ locks (h_os h) !! ow_path (d_ownership d') = None ∧ is_Some (locks (h_os h') !! ow_path (d_ownership d'))
      ∧ (∃ text, h_files h' !! registry_path device = Some text ∧ registered complain (encode_utf8 text) = Ok record)
      ∧ ∀ unlinks h2 d2 r2, broker_stop unlinks d' h' = (h2, d2, r2) →
          r2 = Ok tt ∧ locks (h_os h2) = locks (h_os h) ∧ b_state (d_broker d2) = STOPPED
          ∧ (unlinks = true → h_files h2 !! registry_path device = None)
  | Raise e => locks (h_os h') = locks (h_os h)
      ∨ in_time = false ∧ e = timed_out ∧ is_Some (locks (h_os h') !! ow_path (d_ownership d'))
  end.
Proof.
  intros Hp. unfold broker_start. cbn [d_thread device_broker].
  destruct (acquire refused (h_os h) _) as [s [own|e]] eqn:Ea.
  2:{ intros [= <- <- <-]. left. cbn. unfold acquire in Ea. cbn in Ea. repeat case_match; by simplify_eq/=. }
  apply acquire_fresh in Ea as (n & Hfree & Hl & ->); [|done]. 
  set (path := ow_path (d_ownership (device_broker device processor))) in *.
  assert (locks s !! path = Some n) as Hheld by (rewrite Hl; apply lookup_insert_eq).
  assert (delete path (locks s) = locks (h_os h)) as Hback by (rewrite Hl; by apply delete_insert_id).
  destruct thread_starts; cbn [negb].
  2:{ cbn [d_ownership h_os]. rewrite release_held by done. intros [= <- <- <-]. by left. }
  destruct out; unfold _run; cbn [d_broker d_ownership d_record d_thread d_failed h_os h_files device_broker].
  - destruct in_time; cbn [negb d_failed d_record d_ownership h_os].
    + rewrite release_held by done. intros [= <- <- <-]. by left.
    + intros [= <- <- <-]. right. cbn. eauto.
  - destruct in_time; cbn [negb d_failed d_record d_ownership h_os].
    + rewrite release_held by done. intros [= <- <- <-]. by left.
    + intros [= <- <- <-]. right. cbn. eauto.
  - change (b_device (broker_init device processor)) with device.
    change (b_processor (broker_init device processor)) with processor.
    destruct (transition OWNER_ACTIVE (broker_init device processor)) as [b|e] eqn:Et; [|by vm_compute in Et].
    assert (b_state b = OWNER_ACTIVE ∧ b_device b = device) as [Hb Hd] by (cbn in Et; by injection Et as <-).
    destruct in_time; cbn [negb d_failed d_record d_ownership h_os d_broker].
    2:{ intros [= <- <- <-]. right. cbn. eauto. }
    intros [= <- <- <-]. cbn [d_broker d_ownership h_os h_files ow_path].
    do 3 (split; [done|]). split; [rewrite Hheld; by eexists|]. split.
    + eexists. split; [apply lookup_insert_eq|]. by apply registered_written.
    + intros unlinks h2 d2 r2. unfold broker_stop. cbn [d_broker d_ownership h_os h_files].
      destruct (stop_ok b) as (b2 & Hs & Hst). rewrite Hs. rewrite release_held by done. intros [= <- <- <-]. cbn.
      rewrite Hb in Hst. cbn in Hst. split_and!; try done. intros ->.
      apply stop_device in Hs. rewrite Hs, Hd. apply lookup_delete_eq.
Qed.
End lifecycle.

(** Two devices whose names differ in a character that is not safe have two
    locks but one registry file: stopping one broker removes the other, which
    goes on owning its device, from the registry. *)
Definition start_at (device : string) (port : Z) (h : host) : host * DeviceBroker * result BrokerRecord :=
  @broker_start few_floats None (λ x, x) "/tmp" None true true Listening port (port + 1) 7
    (device_broker None (λ x, x) "/tmp" (λ x, x) device "auto") h.
Example registry_collision :
  let '(h1, d1, r1) := start_at "A:1" 4000 (mkHost (mkOs ∅ 0) ∅) in
  let '(h2, d2, r2) := start_at "A/1" 5000 h1 in
  let '(h3, _, _) := broker_stop None (λ x, x) "/tmp" true d1 h2 in
  (is_ok r1, is_ok r2, b_state (d_broker d2), map fst (map_to_list (locks (h_os h3))), map fst (map_to_list (h_files h3)))
  = (true, true, OWNER_ACTIVE, ["/tmp/rp86-brokers/A_1-A/1.owner"]%string, []).
Proof. vm_compute. reflexivity. Qed.

(** ** Telemetry *)

(** The datagrams [publish] sends, one to each subscriber *)
Definition telemetry_payload (b : broker) : document :=
  [("version", JInt BROKER_VERSION); ("device_id", JStr (b_device b)); ("snapshot", JObj (b_snapshot b))]%string.
Definition telemetry_datagrams `{FloatText} (b : broker) : list (bytes * (string * Z)) :=
  map (λ subscriber, (encode_utf8 (json_dumps compact (JObj (telemetry_payload b))), subscriber)) (b_subscribers b).

(** A publication that no audit entry interrupts sends each subscriber the snapshot,
    audit included, that [hello] then reports. *)
Lemma telemetry_read_back `{FloatText} complain snapshot b datagram subscriber :
  writable (JObj (telemetry_payload (publish snapshot b))) →
  (datagram, subscriber) ∈ telemetry_datagrams (publish snapshot b) →
  subscriber ∈ b_subscribers b
  ∧ json_loads complain datagram
    = Ok (JObj [("version", JInt BROKER_VERSION); ("device_id", JStr (b_device b));
                ("snapshot", JObj (jset "control_audit" (JList (map JObj (b_audit b))) snapshot))]%string).
Proof.
  intros Hw Hin. unfold telemetry_datagrams in Hin. apply list_elem_of_fmap in Hin as (s & [= -> ->] & Hs).
  split; [done|]. by rewrite loads_dump.
Qed.
