(* ===== verification/Telemetry.v ===== *)
(** * FreeRTOS telemetry (host/rp86/freertos_system.py)

    Decoders of the RAM-backed witnesses, the symbol lookup in a linker map and
    the seqlock read.  The callable [read_memory] is the class [ReadMemory].
    [Publication] says what a processor that publishes with an odd/even
    sequence does between and during the reads: every octet of a read may come
    from another instant.  The main theorem shows that a snapshot that
    [read_stable_telemetry] accepts is the telemetry of one single instant. *)

From S2P Require Import Prelude Struct PyText Json.
From Stdlib Require Import Ascii.

Definition TELEMETRY_SIZE : Z := 16.
Definition TELEMETRY_SEQUENCE_OFFSET : Z := 8.
Definition PORT_TRACE_SIZE : Z := 14.
Definition _TELEMETRY : list field := [FH; FH; FH; FH; FH; FH; FH; FH].
Definition _PORT_TRACE : list field := [FH; FH; FH; FH; FH; FH; FH].

Definition _EVENT_NAMES : list (Z * string) :=
  [(1, "BOOT"); (2, "LED_ON"); (3, "LED_OFF"); (4, "QUEUE_SEND"); (5, "QUEUE_RECV"); (6, "ERROR")]%string.
Definition _PORT_STAGE_NAMES : list (Z * string) :=
  [(0, "IDLE"); (1, "YIELD_ISR_ENTERED"); (2, "CURRENT_CONTEXT_SAVED"); (3, "SCHEDULER_RETURNED");
   (4, "NEXT_SP_LOADED"); (5, "PRE_IRET")]%string.

Definition stable_sequence (sequence : Z) : bool := Z.land sequence 1 =? 0.

Definition decode_sequence (data : bytes) : result Z :=
  if negb (len data =? 2)
  then Raise (ValueError "telemetry sequence must be exactly 2 bytes")
  else '(v, _) ← unpack [FH] data; Ok v.

(** ** The linker map

    [^\s*([0-9A-Fa-f]{4}):([0-9A-Fa-f]{4})\+?\s+SYMBOL\b] with [re.MULTILINE],
    on ASCII text.  Each part of the pattern is followed by one that cannot
    match the same character, so the greedy match is the only one. *)

Definition is_word (c : ascii) : bool :=
  let n := Z.of_N (N_of_ascii c) in
  ((48 <=? n) && (n <=? 57)) || ((65 <=? n) && (n <=? 90)) || ((97 <=? n) && (n <=? 122)) || (n =? 95).

Fixpoint match_hex (count : nat) (acc : Z) (l : list ascii) : option (Z * list ascii) :=
  match count, l with
  | O, _ => Some (acc, l)
  | S count, c :: l => d ← hex_value c; match_hex count (16 * acc + d) l
  | S _, [] => None
  end.

Fixpoint match_text (text l : list ascii) : option (list ascii) :=
  match text, l with
  | [], _ => Some l
  | t :: text, c :: l => if Ascii.eqb t c then match_text text l else None
  | _ :: _, [] => None
  end.

Definition match_symbol (symbol : string) (l : list ascii) : option (Z * Z) :=
  '(segment, l) ← match_hex 4 0 (skip_spaces l);
  l ← match_text [":"%char] l;
  '(offset, l) ← match_hex 4 0 l;
  let l := default l (match_text ["+"%char] l) in
  match l with
  | c :: l =>
      if str_space c then
        l ← match_text (String.list_ascii_of_string symbol) (skip_spaces l);
        match l with
        | c :: _ => if is_word c then None else Some (segment, offset)
        | [] => Some (segment, offset)
        end
      else None
  | [] => None
  end.

Fixpoint search_symbol (symbol : string) (line_start : bool) (l : list ascii) : option (Z * Z) :=
  match (if line_start then match_symbol symbol l else None), l with
  | Some r, _ => Some r
  | None, c :: l => search_symbol symbol (Ascii.eqb c "010") l
  | None, [] => None
  end.

Definition _physical_address_from_symbol (map_text symbol : string) : result Z :=
  match search_symbol symbol true (String.list_ascii_of_string map_text) with
  | None => Raise (ValueError ("linker map does not contain " +:+ symbol))
  | Some (segment, offset) => Ok (Z.shiftl segment 4 + offset)
  end.

Definition telemetry_address_from_map (map_text : string) : result Z :=
  _physical_address_from_symbol map_text "_gRp86Telemetry".
Definition port_trace_address_from_map (map_text : string) : result Z :=
  _physical_address_from_symbol map_text "_gRp86PortTrace".

Definition counter_delta (previous current : Z) : Z := Z.land (current - previous) 0xFFFF.

(** ** The two witnesses *)

Record FreeRTOSSystemTelemetry := mkTelemetry {
  led_state : Z;
  led_toggle_count : Z;
  queue_tx_count : Z;
  queue_rx_count : Z;
  event_sequence : Z;
  event : Z;
  event_arg : Z;
  error_count : Z;
}.

Definition telemetry_decode (data : bytes) : result FreeRTOSSystemTelemetry :=
  if negb (len data =? TELEMETRY_SIZE)
  then Raise (ValueError ("FreeRTOS telemetry must be exactly " +:+ dec TELEMETRY_SIZE +:+ " bytes"))
  else
    '(a, (b, (c, (d, (e, (f, (g, (h, _)))))))) ← unpack _TELEMETRY data;
    Ok (mkTelemetry a b c d e f g h).

Definition event_name (t : FreeRTOSSystemTelemetry) : string :=
  default ("EVENT_" +:+ dec (event t)) (z_get (event t) _EVENT_NAMES).
Definition stable (t : FreeRTOSSystemTelemetry) : bool := stable_sequence (event_sequence t).

Definition heading_at (heading : string) (address : option Z) : string :=
  match address with Some a => heading +:+ " @ 0x" +:+ hex_upper 5 a | None => heading end.

Definition telemetry_format (t : FreeRTOSSystemTelemetry) (address : option Z) : string :=
  str_join newline [
    heading_at "FreeRTOS system telemetry" address;
    "  LED          " +:+ (if truthy (led_state t) then "ON" else "OFF");
    "  Toggle count " +:+ dec (led_toggle_count t);
    "  Queue TX     " +:+ dec (queue_tx_count t);
    "  Queue RX     " +:+ dec (queue_rx_count t);
    "  Last event   " +:+ event_name t +:+ " arg=" +:+ dec (event_arg t) +:+ " seq=" +:+ dec (event_sequence t);
    "  Errors       " +:+ dec (error_count t)].

Record FreeRTOSPortTrace := mkPortTrace {
  stage : Z;
  old_ss : Z;
  old_sp : Z;
  old_tcb : Z;
  new_ss : Z;
  new_sp : Z;
  new_tcb : Z;
}.

Definition port_trace_decode (data : bytes) : result FreeRTOSPortTrace :=
  if negb (len data =? PORT_TRACE_SIZE)
  then Raise (ValueError ("FreeRTOS port trace must be exactly " +:+ dec PORT_TRACE_SIZE +:+ " bytes"))
  else
    '(a, (b, (c, (d, (e, (f, (g, _))))))) ← unpack _PORT_TRACE data;
    Ok (mkPortTrace a b c d e f g).

Definition stage_name (t : FreeRTOSPortTrace) : string :=
  default ("STAGE_" +:+ dec (stage t)) (z_get (stage t) _PORT_STAGE_NAMES).
Definition same_stack_segment (t : FreeRTOSPortTrace) : bool := old_ss t =? new_ss t.

Definition port_trace_format (t : FreeRTOSPortTrace) (address : option Z) : string :=
  str_join newline [
    heading_at "FreeRTOS port switch trace" address;
    "  Stage        " +:+ dec (stage t) +:+ " (" +:+ stage_name t +:+ ")";
    "  Outgoing     SS:SP=" +:+ hex_upper 4 (old_ss t) +:+ ":" +:+ hex_upper 4 (old_sp t)
      +:+ " TCB=" +:+ hex_upper 4 (old_tcb t);
    "  Incoming     SS:SP=" +:+ hex_upper 4 (new_ss t) +:+ ":" +:+ hex_upper 4 (new_sp t)
      +:+ " TCB=" +:+ hex_upper 4 (new_tcb t);
    "  Stack SS     " +:+ (if same_stack_segment t then "same" else "CHANGED")].

(** ** Reading through the device *)

Class ReadMemory (W : Type) := { read_memory : Z → Z → io W bytes }.

Section read.
Context {W : Type} `{ReadMemory W}.

Fixpoint read_attempts (attempts : nat) (address : Z) : io W FreeRTOSSystemTelemetry :=
  match attempts with
  | O => raise (RuntimeError "processor state changed during every telemetry snapshot")
  | S attempts =>
      b ← read_memory (address + TELEMETRY_SEQUENCE_OFFSET) 2;
      before ← lift (decode_sequence b);
      if negb (stable_sequence before) then read_attempts attempts address else
      raw ← read_memory address TELEMETRY_SIZE;
      a ← read_memory (address + TELEMETRY_SEQUENCE_OFFSET) 2;
      after ← lift (decode_sequence a);
      snapshot ← lift (telemetry_decode raw);
      if (before =? after) && (after =? event_sequence snapshot) && stable snapshot
      then mret snapshot
      else read_attempts attempts address
  end.

Definition read_stable_telemetry (address attempts : Z) : io W FreeRTOSSystemTelemetry :=
  if attempts <? 1
  then raise (ValueError "telemetry attempts must be at least 1")
  else read_attempts (Z.to_nat attempts) address.

Definition read_port_trace (address : Z) : io W FreeRTOSPortTrace :=
  data ← read_memory address PORT_TRACE_SIZE;
  lift (port_trace_decode data).
End read.

Definition append_if (b : bool) (text : string) (failures : list string) : list string :=
  if b then failures ++ [text] else failures.

Definition sustained_progress (first last : FreeRTOSSystemTelemetry) : bool * list string :=
  let failures : list string := [] in
  let failures := append_if (negb (error_count first =? 0) || negb (error_count last =? 0))
    "error_count is non-zero" failures in
  let failures := append_if (counter_delta (led_toggle_count first) (led_toggle_count last) =? 0)
    "LED toggle count did not advance" failures in
  let failures := append_if (counter_delta (queue_tx_count first) (queue_tx_count last) =? 0)
    "queue TX count did not advance" failures in
  let failures := append_if (counter_delta (queue_rx_count first) (queue_rx_count last) =? 0)
    "queue RX count did not advance" failures in
  let failures := append_if (counter_delta (event_sequence first) (event_sequence last) =? 0)
    "event sequence did not advance" failures in
  (match failures with [] => true | _ => false end, failures).

(** ** What a publishing processor does

    [telemetry t] are the sixteen octets at the instant [t] and [version t] the
    number of sequence steps so far, of which the published sequence is the low
    half word.  The writer makes the sequence odd, updates, and makes it even
    again, so the octets stay as they are while an even version lasts.  A read
    takes some time and fetches each octet at some instant of it; fewer than
    256 steps happen during the three reads of one attempt. *)
Class Publication (W : Type) `{ReadMemory W} (address : Z) := {
  clock : W → nat;
  telemetry : nat → bytes;
  version : nat → Z;
  telemetry_length : ∀ t, length (telemetry t) = 16%nat;
  version_mono : ∀ t u, (t ≤ u)%nat → version t <= version u;
  version_published : ∀ t, slice 8 10 (telemetry t) = le_split 2 (version t);
  stable_while_even : ∀ t u, version t = version u → Z.even (version t) = true → telemetry t = telemetry u;
  read_octets : ∀ offset n w w' b,
    0 <= offset → 0 <= n → offset + n <= TELEMETRY_SIZE →
    read_memory (address + offset) n w = (w', Ok b) →
    (clock w ≤ clock w')%nat ∧ len b = n
    ∧ ∀ i x, b !! i = Some x →
        ∃ t, (clock w ≤ t ≤ clock w')%nat ∧ telemetry t !! (Z.to_nat offset + i)%nat = Some x;
  attempt_rate : ∀ w0 w1 w2 w3 b raw a,
    read_memory (address + TELEMETRY_SEQUENCE_OFFSET) 2 w0 = (w1, Ok b) →
    read_memory address TELEMETRY_SIZE w1 = (w2, Ok raw) →
    read_memory (address + TELEMETRY_SEQUENCE_OFFSET) 2 w2 = (w3, Ok a) →
    version (clock w3) - version (clock w0) < 256;
}.

Lemma decode_sequence_low b v :
  decode_sequence b = Ok v → ∃ x y, b = [x; y] ∧ v mod 256 = byte.unsigned x.
Proof.
  unfold decode_sequence. intros Hd. py_inv.
  match goal with H : (len b =? 2) = true |- _ => apply Z.eqb_eq in H; rename H into Hl end.
  destruct b as [|x [|y [|z b]]]; rewrite ?len_cons, ?len_nil in Hl;
    [by cbn in Hl|by cbn in Hl| |pose proof (len_nonneg b); lia].
  exists x, y. split; [done|].
  match goal with H : unpack _ _ = _ |- _ => revert H end. cbn. intros [= <-].
  pose proof (le_combine_firstn 1 [x; y]) as Hf. cbn [firstn] in Hf.
  rewrite le_combine_1 in Hf. by rewrite Hf.
Qed.

Lemma sequence_even v n : stable_sequence v = true → v mod 256 = n mod 256 → Z.even n = true.
Proof.
  unfold stable_sequence. change 1 with (Z.ones 1). rewrite Z.land_ones by lia. intros Hs E.
  apply Z.eqb_eq in Hs. change (2 ^ 1) with 2 in Hs. apply Z.even_spec.
  exists (n / 2). Z.div_mod_to_equations. lia.
Qed.

#[local] Obligation Tactic := idtac.

Section coherence.
Context {W : Type} `{Publication W address}.

(** The low octet of a sequence that was read is that of some version passed. *)
Lemma read_version w w' b v :
  read_memory (address + TELEMETRY_SEQUENCE_OFFSET) 2 w = (w', Ok b) →
  decode_sequence b = Ok v →
  (clock w ≤ clock w')%nat ∧ ∃ t, (clock w ≤ t ≤ clock w')%nat ∧ v mod 256 = version t mod 256.
Proof.
  intros Hr Hd. apply decode_sequence_low in Hd as (x & y & -> & Hv).
  destruct (read_octets TELEMETRY_SEQUENCE_OFFSET 2 _ _ _ ltac:(done) ltac:(done) ltac:(done) Hr)
    as (Hc & _ & Ho).
  split; [done|]. destruct (Ho 0%nat x eq_refl) as (t & Ht & Hx). exists t. split; [done|].
  pose proof (version_published t) as Hp. pose proof (telemetry_length t) as Hl.
  change (Z.to_nat TELEMETRY_SEQUENCE_OFFSET + 0)%nat with 8%nat in Hx.
  assert (slice 8 10 (telemetry t) !! 0%nat = Some x) as Hs.
  { unfold slice. rewrite lookup_take_lt by (cbn; lia). rewrite lookup_drop. exact Hx. }
  rewrite Hp in Hs.
  change (le_split 2 (version t)) with (byte.of_Z (version t) :: le_split 1 (Z.shiftr (version t) 8)) in Hs.
  injection Hs as <-. by rewrite Hv, byte.unsigned_of_Z.
Qed.

(** An accepted attempt saw one version only, so the octets are of one instant. *)
Lemma attempt_coherent w0 w1 w2 w3 b raw a v :
  read_memory (address + TELEMETRY_SEQUENCE_OFFSET) 2 w0 = (w1, Ok b) →
  read_memory address TELEMETRY_SIZE w1 = (w2, Ok raw) →
  read_memory (address + TELEMETRY_SEQUENCE_OFFSET) 2 w2 = (w3, Ok a) →
  decode_sequence b = Ok v → decode_sequence a = Ok v → stable_sequence v = true →
  ∃ t, (clock w0 ≤ t ≤ clock w3)%nat ∧ raw = telemetry t ∧ Z.even (version t) = true.
Proof.
  intros Hb Hraw Ha Hv Hv' Hs. pose proof (attempt_rate _ _ _ _ _ _ _ Hb Hraw Ha) as Hrate.
  destruct (read_version _ _ _ _ Hb Hv) as (Hc01 & t & Ht & Ehead).
  destruct (read_version _ _ _ _ Ha Hv') as (Hc23 & u & Hu & Etail).
  rewrite <- (Z.add_0_r address) in Hraw.
  destruct (read_octets 0 TELEMETRY_SIZE _ _ _ ltac:(done) ltac:(done) ltac:(done) Hraw)
    as (Hc12 & Hlen & Ho).
  assert (version t = version u) as Hsame.
  { pose proof (version_mono t u ltac:(lia)). pose proof (version_mono (clock w0) t ltac:(lia)).
    pose proof (version_mono u (clock w3) ltac:(lia)).
    assert ((version u - version t) mod 256 = 0) as Hm
      by (rewrite Zminus_mod, <- Ehead, <- Etail, Z.sub_diag; done).
    rewrite Z.mod_small in Hm by lia. lia. }
  assert (Z.even (version t) = true) as Heven by by eapply sequence_even.
  exists t. split; [lia|]. split; [|done].
  apply list_eq_same_length with 16%nat;
    [apply telemetry_length|unfold len in Hlen; change TELEMETRY_SIZE with 16 in Hlen; lia|].
  intros i x y _ Hx Hy. destruct (Ho i x Hx) as (s & Hts & Hsx). cbn [Nat.add] in Hsx.
  assert (version t = version s) as Hvs.
  { pose proof (version_mono t s ltac:(lia)). pose proof (version_mono s u ltac:(lia)). lia. }
  rewrite (stable_while_even t s Hvs Heven) in Hy. change (Z.to_nat 0 + i)%nat with i in Hsx. congruence.
Qed.

Lemma read_attempts_coherent attempts w w' snapshot :
  read_attempts attempts address w = (w', Ok snapshot) →
  ∃ t, (clock w ≤ t ≤ clock w')%nat ∧ telemetry_decode (telemetry t) = Ok snapshot
    ∧ Z.even (version t) = true.
Proof.
  revert w. induction attempts as [|attempts IH]; intros w; cbn [read_attempts]; intros Hr; io_inv.
  match goal with H : read_memory _ _ w = _ , D : decode_sequence _ = _ |- _ =>
    rename H into Hb; rename D into Dv; destruct (read_version _ _ _ _ Hb Dv) as [Hc _] end.
  case_match eqn:Hst.
  { match goal with H : read_attempts _ _ _ = _ |- _ => destruct (IH _ H) as (t & ? & ? & ?) end.
    exists t. repeat split; (done || lia). }
  apply negb_false_iff in Hst. io_inv.
  match goal with R : read_memory address _ _ = _, A : read_memory _ 2 ?u = _ |- _ =>
    rename R into Hraw; rename A into Ha end.
  match goal with D : decode_sequence _ = _, A : read_memory _ 2 _ = (?u, Ok ?a) |- _ =>
    match type of D with decode_sequence a = _ => destruct (read_version _ _ _ _ A D) as [Hc' _] end end.
  destruct (read_octets 0 TELEMETRY_SIZE _ _ _ ltac:(done) ltac:(done) ltac:(done)
    (eq_trans (f_equal (λ z, read_memory z _ _) (Z.add_0_r address)) Hraw)) as (Hc'' & _).
  case_match eqn:Hok.
  - io_inv. py_inv. match goal with E : (_ =? _) = true |- _ => apply Z.eqb_eq in E as <- end.
    edestruct attempt_coherent as (t & Ht & Hraw' & He); [exact Hb|exact Hraw|exact Ha|done..|].
    exists t. by rewrite <- Hraw'.
  - match goal with E : read_attempts _ _ _ = _ |- _ => destruct (IH _ E) as (t & ? & ? & ?) end.
    exists t. repeat split; (done || lia).
Qed.

(** A processor that does not publish meanwhile is read in the first attempt. *)
Lemma read_quiescent attempts w w1 w2 w3 b raw a v snapshot :
  1 <= attempts →
  read_memory (address + TELEMETRY_SEQUENCE_OFFSET) 2 w = (w1, Ok b) → decode_sequence b = Ok v →
  stable_sequence v = true →
  read_memory address TELEMETRY_SIZE w1 = (w2, Ok raw) → telemetry_decode raw = Ok snapshot →
  event_sequence snapshot = v →
  read_memory (address + TELEMETRY_SEQUENCE_OFFSET) 2 w2 = (w3, Ok a) → decode_sequence a = Ok v →
  read_stable_telemetry address attempts w = (w3, Ok snapshot).
Proof.
  intros Hn Hb Dv Hs Hraw Dr Hv Ha Da. unfold read_stable_telemetry. guard_false.
  destruct (Z.to_nat attempts) as [|k] eqn:E; [lia|]. cbn [read_attempts].
  unfold mbind, io_bind. rewrite Hb. unfold lift. rewrite Dv, Hs. cbn [negb]. rewrite Hraw, Ha, Da, Dr.
  rewrite Hv, Z.eqb_refl. unfold stable. by rewrite Hv, Hs.
Qed.
End coherence.

(** C20: the seqlock read is coherent.  Whatever the processor publishes
    between and during the reads, and whichever instants the octets of a read
    come from, a snapshot that [read_stable_telemetry] returns is the decoding
    of the sixteen octets at one single instant of the call, at which the
    writer was not in the middle of an update. *)
Theorem telemetry_coherent {W} `{Publication W address} attempts w w' snapshot :
  read_stable_telemetry address attempts w = (w', Ok snapshot) →
  ∃ t, (clock w ≤ t ≤ clock w')%nat ∧ telemetry_decode (telemetry t) = Ok snapshot
    ∧ Z.even (version t) = true.
Proof.
  unfold read_stable_telemetry. case_match; [by intros|]. apply read_attempts_coherent.
Qed.

(** A processor that publishes every 24 ticks and leaves torn values while the
    sequence is odd; a read fetches one octet per tick. *)
Module Sim.
Definition version (t : nat) : Z := Z.of_nat (t / 24).
Definition telemetry (t : nat) : bytes :=
  let v := version t in
  let torn := if Z.even v then 0 else Z.of_nat t in
  pack_bytes _TELEMETRY (1, (v + torn, (v, (v, (v, (4, (torn, (0, tt)))))))).
Definition fetch (offset n : Z) (t : nat) : bytes :=
  imap (λ i _, default Byte.x00 (telemetry (t + i) !! (Z.to_nat offset + i)%nat)) (replicate (Z.to_nat n) tt).
#[global] Instance read_sim : ReadMemory nat := {|
  read_memory := λ a n t, ((t + Z.to_nat n)%nat, Ok (fetch (a - 0x500) n t));
|}.

Lemma telemetry_16 t : length (telemetry t) = 16%nat.
Proof. unfold telemetry. by rewrite length_pack_bytes. Qed.

Lemma fetch_lookup offset n t i x :
  0 <= offset → 0 <= n → offset + n <= TELEMETRY_SIZE → fetch offset n t !! i = Some x →
  (i < Z.to_nat n)%nat ∧ telemetry (t + i) !! (Z.to_nat offset + i)%nat = Some x.
Proof.
  intros ???. change TELEMETRY_SIZE with 16 in *. unfold fetch. rewrite list_lookup_imap.
  destruct (replicate _ _ !! i) as [u|] eqn:E; [|done]. apply lookup_replicate in E as [_ Hi].
  intros Hx. injection Hx as <-. split; [done|]. unfold compose.
  destruct (lookup_lt_is_Some_2 (telemetry (t + i)) (Z.to_nat offset + i)%nat) as [y Hy].
  { rewrite telemetry_16. lia. }
  by rewrite Hy.
Qed.

#[global] Program Instance publication : Publication nat 0x500 := {|
  clock := λ t, t;
  Telemetry.telemetry := telemetry;
  Telemetry.version := version;
  telemetry_length := telemetry_16;
|}.
Next Obligation. intros t u Htu. unfold version. pose proof (Nat.Div0.div_le_mono t u 24 Htu). lia. Qed.
Next Obligation. intros t. with_strategy transparent [le_split] reflexivity. Qed.
Next Obligation.
  intros t u E He. unfold telemetry. by rewrite <- E, He.
Qed.
Next Obligation.
  intros offset n w w' b Ho Hn Hs. cbn [read_memory read_sim]. intros [= <- <-].
  replace (1280 + offset - 1280) with offset by lia. split; [lia|]. split.
  { unfold len, fetch. rewrite length_imap, length_replicate. lia. }
  intros i x Hx. apply fetch_lookup in Hx as [Hi Hx]; try done. exists (w + i)%nat. split; [lia|done].
Qed.
Next Obligation.
  intros w0 w1 w2 w3 b raw a. cbn [read_memory read_sim]. intros [= <- _] [= <- _] [= <- _].
  unfold version. change TELEMETRY_SIZE with 16.
  assert ((w0 + Z.to_nat 2 + Z.to_nat 16 + Z.to_nat 2) / 24 ≤ (w0 + 1 * 24) / 24)%nat as Hd
    by (apply Nat.Div0.div_le_mono; lia).
  rewrite Nat.div_add in Hd by lia. lia.
Qed.
End Sim.

(** Two attempts meet an odd sequence, the third one succeeds. *)
Example telemetry_coherent_witness :
  ∃ w' snapshot, read_stable_telemetry 0x500 5 44%nat = (w', Ok snapshot)
    ∧ ∃ t, (44 ≤ t ≤ w')%nat ∧ telemetry_decode (Sim.telemetry t) = Ok snapshot
        ∧ Z.even (Sim.version t) = true.
Proof.
  destruct (read_stable_telemetry 0x500 5 44%nat) as [w' [s|]] eqn:E; [|vm_compute in E; discriminate E].
  exists w', s. split; [reflexivity|].
  exact (telemetry_coherent (H := Sim.read_sim) (H0 := Sim.publication) 5 44%nat w' s E).
Defined.

(** ** Sustained progress *)

Lemma counter_delta_zero a b : u16 a → u16 b → (counter_delta a b =? 0) = (a =? b).
Proof.
  unfold in_width, counter_delta. change 0xFFFF with (Z.ones 16). rewrite Z.land_ones by lia.
  intros. apply Bool.eq_true_iff_eq. rewrite !Z.eqb_eq. Z.div_mod_to_equations. lia.
Qed.

Lemma append_if_nil b text failures : append_if b text failures = [] ↔ failures = [] ∧ b = false.
Proof. destruct b, failures; cbn; naive_solver. Qed.

(** The verdict: no error in either snapshot and every counter moved. *)
Lemma sustained_progress_spec first last :
  let u16s t := u16 (led_toggle_count t) ∧ u16 (queue_tx_count t) ∧ u16 (queue_rx_count t)
                ∧ u16 (event_sequence t) in
  u16s first → u16s last →
  (sustained_progress first last).1 = true ↔
    error_count first = 0 ∧ error_count last = 0
    ∧ led_toggle_count first ≠ led_toggle_count last ∧ queue_tx_count first ≠ queue_tx_count last
    ∧ queue_rx_count first ≠ queue_rx_count last ∧ event_sequence first ≠ event_sequence last.
Proof.
  intros u16s (? & ? & ? & ?) (? & ? & ? & ?). unfold sustained_progress.
  rewrite !counter_delta_zero by done. cbn [fst].
  assert (∀ l : list string, match l with [] => true | _ => false end = true ↔ l = []) as -> by by intros [].
  rewrite !append_if_nil, orb_false_iff, !negb_false_iff, !Z.eqb_eq, !Z.eqb_neq. naive_solver.
Qed.
