(* ===== verification/Console.v ===== *)
(** * The interactive console (host/rp86/console.py)

    [CdcDisplayStream] turns the CDC byte stream into display events,
    [_read_terminal_command] is the line editor and [ConsoleStatus] draws the
    prompt and the live row.  The editor's buffer is a list of code points,
    since the cursor counts characters; which code points above ASCII are
    printable is a parameter (Python's Unicode tables).  The terminal and the
    Rich renderer are classes.

    The theorems show that the events do not depend on how the stream is cut
    into chunks, that the editor keeps its cursor inside a buffer of printable
    characters, and that redrawing erases exactly the rows it drew. *)

From S2P Require Import Prelude PyText Json Core.
From Stdlib Require Import Ascii.

(** ** The CDC display stream *)

Definition LF : byte := Byte.x0a.
Definition CR : byte := Byte.x0d.

(** [b.partition(LF)] when [LF in b] *)
Fixpoint partition_line (b : bytes) : option (bytes * bytes) :=
  match b with
  | [] => None
  | x :: b =>
      if Byte.eqb x LF then Some ([], b)
      else match partition_line b with
           | Some (raw, remainder) => Some (x :: raw, remainder)
           | None => None
           end
  end.

(** [b.rstrip(CR)] *)
Fixpoint rstrip_cr (b : bytes) : bytes :=
  match b with
  | [] => []
  | x :: b =>
      match rstrip_cr b with
      | [] => if Byte.eqb x CR then [] else [x]
      | b' => x :: b'
      end
  end.

(** [s.lstrip()]: the whitespace characters of a [str] in UTF-8 *)
Fixpoint lstrip_octets (fuel : nat) (b : bytes) : bytes :=
  match fuel with
  | O => b
  | S fuel =>
      match map byte.unsigned b with
      | c :: _ =>
          let code n := lstrip_octets fuel (drop n b) in
          if (9 <=? c) && (c <=? 13) || (28 <=? c) && (c <=? 32) then code 1%nat else
          match map byte.unsigned (take 3 b) with
          | 0xC2 :: d :: _ => if (d =? 0x85) || (d =? 0xA0) then code 2%nat else b
          | [0xE1; 0x9A; 0x80] => code 3%nat
          | [0xE2; 0x80; d] =>
              if (0x80 <=? d) && (d <=? 0x8A) || (d =? 0xA8) || (d =? 0xA9) || (d =? 0xAF) then code 3%nat else b
          | [0xE2; 0x81; 0x9F] => code 3%nat
          | [0xE3; 0x80; 0x80] => code 3%nat
          | _ => b
          end
      | [] => b
      end
  end.
Definition str_lstrip (s : string) : string :=
  let b := encode_utf8 s in of_octets (lstrip_octets (length b) b).

(** [s.removeprefix(p)] *)
Definition str_removeprefix (p s : string) : string :=
  if str_starts p s then String.substring (String.length p) (String.length s - String.length p) s else s.

Record CdcDisplayStream := mkCdc { _pending : bytes; _native_group_open : bool }.
Definition cdc_init : CdcDisplayStream := mkCdc [] false.

(** The body of the loop: one line, without its newline *)
Definition display_line (raw : bytes) (native_group_open : bool) : list string * bool :=
  let line := decode_utf8_replace (rstrip_cr raw) in
  if str_starts "[WORKLOAD START]" line then ([], false)
  else if str_starts "[NATIVE STDOUT]" line then
    let payload := str_lstrip (str_removeprefix "[NATIVE STDOUT]" line) in
    if native_group_open then ([payload], true) else (["[NATIVE OUTPUT]"%string; payload], true)
  else if str_starts "[WORKLOAD COMPLETED]" line || str_starts "[WORKLOAD IDLE]" line then
    (["[WORKLOAD COMPLETED] processor=IDLE / HLT"%string], false)
  else if str_starts "[WORKLOAD FAULT]" line || str_starts "[WORKLOAD TIMEOUT]" line then
    ([line], false)
  else ([], native_group_open).

(** [while LF in self._pending]: every turn removes at least the newline. *)
Fixpoint feed_loop (fuel : nat) (s : CdcDisplayStream) (events : list string) : CdcDisplayStream * list string :=
  match fuel, partition_line (_pending s) with
  | S fuel, Some (raw, remainder) =>
      let '(new, group) := display_line raw (_native_group_open s) in
      feed_loop fuel (mkCdc remainder group) (events ++ new)
  | _, _ => (s, events)
  end.

Definition feed (chunk : bytes) (s : CdcDisplayStream) : CdcDisplayStream * list string :=
  let pending := _pending s ++ chunk in
  feed_loop (length pending) (mkCdc pending (_native_group_open s)) [].

Fixpoint feed_all (chunks : list bytes) (s : CdcDisplayStream) : CdcDisplayStream * list string :=
  match chunks with
  | [] => (s, [])
  | chunk :: chunks =>
      let '(s, events) := feed chunk s in
      let '(s, more) := feed_all chunks s in (s, events ++ more)
  end.

(** *** The stream as a whole: its lines, and the fold of [display_line] *)

Fixpoint split_lines (b : bytes) : list bytes * bytes :=
  match b with
  | [] => ([], [])
  | x :: b =>
      let '(lines, rest) := split_lines b in
      if Byte.eqb x LF then ([] :: lines, rest)
      else match lines with
           | [] => ([], x :: rest)
           | line :: lines => ((x :: line) :: lines, rest)
           end
  end.

Fixpoint display (lines : list bytes) (group : bool) : list string * bool :=
  match lines with
  | [] => ([], group)
  | line :: lines =>
      let '(events, group) := display_line line group in
      let '(more, group) := display lines group in (events ++ more, group)
  end.

Lemma split_partition b :
  split_lines b = match partition_line b with
                  | None => ([], b)
                  | Some (raw, remainder) =>
                      let '(lines, rest) := split_lines remainder in (raw :: lines, rest)
                  end.
Proof.
  induction b as [|x b IH]; [done|]. cbn [split_lines partition_line].
  destruct (Byte.eqb x LF); [done|]. rewrite IH.
  destruct (partition_line b) as [[raw remainder]|]; [|done]. by destruct (split_lines remainder).
Qed.

Lemma partition_shorter b raw remainder :
  partition_line b = Some (raw, remainder) → (length remainder < length b)%nat.
Proof.
  revert raw. induction b as [|x b IH]; intros raw; cbn [partition_line length]; [done|].
  case_match; [intros [= _ <-]; lia|]. destruct (partition_line b) as [[r' m']|]; [|done].
  intros [= _ <-]. specialize (IH _ eq_refl). lia.
Qed.

Lemma feed_loop_lines fuel pending group events :
  (length pending ≤ fuel)%nat →
  feed_loop fuel (mkCdc pending group) events =
  let '(lines, rest) := split_lines pending in
  let '(new, group) := display lines group in (mkCdc rest group, events ++ new).
Proof.
  revert pending group events. induction fuel as [|fuel IH]; intros pending group events Hl.
  { destruct pending; [|cbn in Hl; lia]. cbn. by rewrite app_nil_r. }
  rewrite split_partition. cbn [feed_loop _pending _native_group_open].
  destruct (partition_line pending) as [[raw remainder]|] eqn:E; [|cbn; by rewrite app_nil_r].
  apply partition_shorter in E. destruct (split_lines remainder) as [lines rest] eqn:Es.
  cbn [display]. destruct (display_line raw group) as [new group'].
  rewrite IH by lia. rewrite Es. destruct (display lines group') as [more group''].
  by rewrite app_assoc.
Qed.

Lemma feed_lines chunk s :
  feed chunk s =
  let '(lines, rest) := split_lines (_pending s ++ chunk) in
  let '(new, group) := display lines (_native_group_open s) in (mkCdc rest group, new).
Proof. unfold feed. by rewrite feed_loop_lines. Qed.

Lemma split_app a b :
  split_lines (a ++ b) =
  let '(lines, rest) := split_lines a in
  let '(more, rest) := split_lines (rest ++ b) in (lines ++ more, rest).
Proof.
  induction a as [|x a IH]; cbn [split_lines app]; [by destruct (split_lines b)|].
  rewrite IH. destruct (split_lines a) as [lines rest].
  destruct (split_lines (rest ++ b)) as [more rest'] eqn:Er.
  destruct (Byte.eqb x LF) eqn:Ex; [cbn; by rewrite ?Er|]. destruct lines as [|line lines]; cbn [app].
  - cbn [split_lines]. rewrite Er, Ex. by destruct more.
  - cbn. by rewrite ?Er.
Qed.

Lemma display_app a b group :
  display (a ++ b) group =
  let '(events, group) := display a group in
  let '(more, group) := display b group in (events ++ more, group).
Proof.
  revert group. induction a as [|line a IH]; intros group; cbn [display app]; [by destruct (display b group)|].
  destruct (display_line line group) as [e g]. rewrite IH. destruct (display a g) as [e' g'].
  destruct (display b g') as [e'' g'']. by rewrite app_assoc.
Qed.

Lemma split_rest a : split_lines (split_lines a).2 = ([], (split_lines a).2).
Proof.
  induction a as [|x a IH]; [done|]. cbn [split_lines].
  destruct (split_lines a) as [lines rest] eqn:E. cbn [snd] in IH.
  destruct (Byte.eqb x LF) eqn:Ex; [exact IH|].
  destruct lines; cbn [snd]; [|exact IH]. cbn [split_lines]. by rewrite IH, Ex.
Qed.

(** C22: the console shows the same events however the CDC stream is cut into
    chunks: feeding the chunks one by one produces, in order, the events of the
    complete lines of the whole stream, and leaves its unfinished last line
    pending. *)
Theorem cdc_chunking chunks :
  let '(s, events) := feed_all chunks cdc_init in
  let '(lines, rest) := split_lines (concat chunks) in
  (events, _native_group_open s) = display lines false ∧ _pending s = rest.
Proof.
  enough (∀ s, split_lines (_pending s) = ([], _pending s) →
    feed_all chunks s = let '(lines, rest) := split_lines (_pending s ++ concat chunks) in
      let '(events, group) := display lines (_native_group_open s) in (mkCdc rest group, events)) as Hs.
  { rewrite Hs by done. cbn [cdc_init _pending _native_group_open app].
    destruct (split_lines (concat chunks)) as [lines rest]. by destruct (display lines false). }
  induction chunks as [|chunk chunks IH]; intros s Hs; cbn [feed_all concat].
  { rewrite app_nil_r, Hs. by destruct s. }
  rewrite feed_lines, app_assoc, (split_app (_pending s ++ chunk)).
  pose proof (split_rest (_pending s ++ chunk)) as Hrest.
  destruct (split_lines (_pending s ++ chunk)) as [lines rest]. cbn [snd] in Hrest.
  destruct (display lines (_native_group_open s)) as [new group] eqn:Ed.
  rewrite IH by done. cbn [_pending _native_group_open].
  destruct (split_lines (rest ++ concat chunks)) as [more rest'].
  rewrite display_app, Ed. by destruct (display more group).
Qed.

Example cdc_sample :
  let nl := newline in
  (feed_all [lit "[NATIVE STD"; lit ("OUT] hi" +:+ String "013" nl +:+ "[NATIVE STDOUT]   x" +:+ nl);
             lit ("[WORKLOAD IDLE]" +:+ nl +:+ "[WORK")] cdc_init)
  = (mkCdc (lit "[WORK") false,
     ["[NATIVE OUTPUT]"; "hi"; "x"; "[WORKLOAD COMPLETED] processor=IDLE / HLT"]%string).
Proof. vm_compute. reflexivity. Qed.

(** ** The line editor *)

(** A [str] as its code points *)
Abbreviation text := (list Z).
Definition chars (s : string) : text := map (λ c, Z.of_N (N_of_ascii c)) (String.list_ascii_of_string s).

(** [c.isspace()] of one character *)
Definition char_space (c : Z) : bool :=
  ((9 <=? c) && (c <=? 13)) || ((28 <=? c) && (c <=? 32)) || z_in c [0x85; 0xA0; 0x1680; 0x2028; 0x2029; 0x202F; 0x205F; 0x3000]
  || ((0x2000 <=? c) && (c <=? 0x200A)).

Fixpoint text_lstrip (t : text) : text :=
  match t with c :: t' => if char_space c then text_lstrip t' else t | [] => [] end.
(** [t.strip()] *)
Definition text_strip (t : text) : text := reverse (text_lstrip (reverse (text_lstrip t))).

(** [char in (a, b, ...)] *)
Definition char_in (char : text) (keys : list Z) : bool := existsb (λ k, bool_decide (char = [k])) keys.

(** The Unicode tables behind [str.isprintable] and [str.isalpha] above ASCII and
    [str.upper] *)
Class UnicodeTable := { printable_above : Z → bool; alpha_above : Z → bool; upper : string → string }.

(** [c.isalpha()] of one character *)
Definition char_alpha `{UnicodeTable} (c : Z) : bool :=
  if c <? 128 then ((65 <=? c) && (c <=? 90)) || ((97 <=? c) && (c <=? 122)) else alpha_above c.

Definition char_printable `{UnicodeTable} (c : Z) : bool :=
  if c <? 128 then (32 <=? c) && (c <? 127) else printable_above c.
(** [t.isprintable()], true of the empty string *)
Definition isprintable `{UnicodeTable} (t : text) : bool := forallb char_printable t.

(** (buffer, cursor, command, changed, clear) *)
Definition _apply_input_character `{UnicodeTable} (buffer : text) (cursor : Z) (char : text)
  : text * Z * option text * bool * bool :=
  if char_in char [13; 10] then ([], 0, Some (text_strip buffer), true, false)
  else if char_in char [3] then ([], 0, None, true, false)
  else if char_in char [12] then (buffer, cursor, None, true, true)
  else if char_in char [9] then (buffer, cursor, None, false, false)
  else if char_in char [8; 127] then
    if truthy cursor then (slice 0 (cursor - 1) buffer ++ slice_from cursor buffer, cursor - 1, None, true, false)
    else (buffer, cursor, None, false, false)
  else if isprintable char then (slice 0 cursor buffer ++ char ++ slice_from cursor buffer, cursor + 1, None, true, false)
  else (buffer, cursor, None, false, false).

Record terminal_result := mkTerminal {
  t_buffer : text;
  t_cursor : Z;
  t_command : option text;
  t_changed : bool;
  t_tab_requested : bool;
  t_history_delta : Z;
  t_clear_requested : bool;
}.

(** The terminal: [ready] is [select] with a timeout in milliseconds or
    [msvcrt.kbhit], [getch] reads one character ([stdin.read(1)] or [getwch]);
    it is empty at the end of the input. *)
Class Terminal (W : Type) := {
  isatty : W → bool;
  posix : W → bool;
  ready : Z → W → W * bool;
  getch : W → W * text;
}.

Section editor.
Context {W : Type} `{Terminal W} `{UnicodeTable}.

Definition key_ready (ms : Z) : io W bool := λ w, let '(w, b) := ready ms w in (w, Ok b).
Definition key_get : io W text := λ w, let '(w, c) := getch w in (w, Ok c).

(** What a terminal escape sequence does to the line: the key after the
    introducer, other than the history keys; [None] when it is not an editing key *)
Definition posix_key (third buffer : text) (cursor : Z) : option (text * Z) :=
  if char_in third (chars "C") then Some (buffer, Z.min (len buffer) (cursor + 1))
  else if char_in third (chars "D") then Some (buffer, Z.max 0 (cursor - 1))
  else if char_in third (chars "HF") then Some (buffer, if char_in third (chars "H") then 0 else len buffer)
  else if char_in third (chars "13478") then
    if char_in third (chars "3") && (cursor <? len buffer)
    then Some (slice 0 cursor buffer ++ slice_from (cursor + 1) buffer, cursor)
    else if char_in third (chars "17") then Some (buffer, 0)
    else if char_in third (chars "48") then Some (buffer, len buffer)
    else Some (buffer, cursor)
  else None.

Definition nt_key (key buffer : text) (cursor : Z) : option (text * Z) :=
  if char_in key (chars "K") then Some (buffer, Z.max 0 (cursor - 1))
  else if char_in key (chars "M") then Some (buffer, Z.min (len buffer) (cursor + 1))
  else if char_in key (chars "G") then Some (buffer, 0)
  else if char_in key (chars "O") then Some (buffer, len buffer)
  else if char_in key (chars "S") && (cursor <? len buffer)
  then Some (slice 0 cursor buffer ++ slice_from (cursor + 1) buffer, cursor)
  else None.

(** The loop ends when no character is ready; [None] is "out of fuel". *)
Fixpoint posix_loop (fuel : nat) (buffer : text) (cursor : Z) (changed clear : bool)
  : io W (option terminal_result) :=
  match fuel with
  | O => mret None
  | S fuel =>
      more ← key_ready 0;
      if negb (more : bool) then mret (Some (mkTerminal buffer cursor None changed false 0 clear)) else
      char ← key_get;
      escape ← (if char_in char [27] then key_ready 20 else mret false);
      if (escape : bool) then
        second ← key_get;
        introduced ← (if char_in second (chars "[O") then key_ready 20 else mret false);
        third ← (if (introduced : bool) then key_get else mret []);
        if char_in third (chars "AB")
        then mret (Some (mkTerminal buffer cursor None changed false (if char_in third (chars "A") then -1 else 1) clear))
        else
          _ ← (if char_in third (chars "13478") then
                 suffix ← key_ready 20;
                 if (suffix : bool) then _ ← key_get; mret tt else mret tt
               else mret tt);
          match posix_key third buffer cursor with
          | Some (buffer, cursor) => posix_loop fuel buffer cursor true clear
          | None => posix_loop fuel buffer cursor changed clear
          end
      else
        let '(buffer, cursor, command, one_changed, one_clear) := _apply_input_character buffer cursor char in
        let changed := changed || one_changed in
        let clear := clear || one_clear in
        let tab_requested := char_in char [9] in
        match command, tab_requested with
        | None, false => posix_loop fuel buffer cursor changed clear
        | _, _ => mret (Some (mkTerminal buffer cursor command changed tab_requested 0 clear))
        end
  end.

Fixpoint nt_loop (fuel : nat) (buffer : text) (cursor : Z) (changed clear : bool)
  : io W (option terminal_result) :=
  match fuel with
  | O => mret None
  | S fuel =>
      more ← key_ready 0;
      if negb (more : bool) then mret (Some (mkTerminal buffer cursor None changed false 0 clear)) else
      char ← key_get;
      if char_in char [0; 0xE0] then
        more ← key_ready 0;
        if negb (more : bool) then nt_loop fuel buffer cursor changed clear else
        key ← key_get;
        if char_in key (chars "HP")
        then mret (Some (mkTerminal buffer cursor None changed false (if char_in key (chars "H") then -1 else 1) clear))
        else match nt_key key buffer cursor with
             | Some (buffer, cursor) => nt_loop fuel buffer cursor true clear
             | None => nt_loop fuel buffer cursor changed clear
             end
      else
        let '(buffer, cursor, command, one_changed, one_clear) := _apply_input_character buffer cursor char in
        let changed := changed || one_changed in
        let clear := clear || one_clear in
        let tab_requested := char_in char [9] in
        match command, tab_requested with
        | None, false => nt_loop fuel buffer cursor changed clear
        | _, _ => mret (Some (mkTerminal buffer cursor command changed tab_requested 0 clear))
        end
  end.

Definition _read_terminal_command (fuel : nat) (buffer : text) (cursor : Z) : io W (option terminal_result) :=
  tty ← gets isatty;
  if negb (tty : bool) then mret (Some (mkTerminal buffer cursor None false false 0 false)) else
  p ← gets posix;
  if (p : bool) then posix_loop fuel buffer cursor false false else nt_loop fuel buffer cursor false false.
End editor.

(** *** The editor's invariant *)

Definition line_ok `{UnicodeTable} (buffer : text) (cursor : Z) : bool :=
  (0 <=? cursor) && (cursor <=? len buffer) && isprintable buffer.

(** What the editor returns: a sound line and a clean command *)
Definition editor_ok `{UnicodeTable} (r : terminal_result) : Prop :=
  line_ok (t_buffer r) (t_cursor r) = true
  ∧ match t_command r with
    | None => True
    | Some command => isprintable command = true ∧ t_buffer r = [] ∧ text_strip command = command
    end.

(** A terminal that is not at the end of its input and has [pending] characters *)
Class LiveTerminal (W : Type) `{Terminal W} := {
  pending_chars : W → nat;
  ready_pending : ∀ ms w w' b, ready ms w = (w', b) →
    (pending_chars w' ≤ pending_chars w)%nat ∧ (b = true → (0 < pending_chars w')%nat);
  getch_pending : ∀ w w' c, getch w = (w', c) → (0 < pending_chars w)%nat →
    length c = 1%nat ∧ (pending_chars w' < pending_chars w)%nat;
}.

Lemma lstrip_suffix t : ∃ pre, t = pre ++ text_lstrip t.
Proof.
  induction t as [|c t [pre IH]]; [by exists []|]. cbn [text_lstrip].
  destruct (char_space c); [|by exists []]. exists (c :: pre). cbn. by rewrite <- IH.
Qed.
Lemma lstrip_idem t : text_lstrip (text_lstrip t) = text_lstrip t.
Proof.
  induction t as [|c t IH]; [done|]. cbn [text_lstrip]. destruct (char_space c) eqn:E; [exact IH|].
  cbn [text_lstrip]. by rewrite E.
Qed.

Lemma isprintable_app `{UnicodeTable} a b : isprintable (a ++ b) = isprintable a && isprintable b.
Proof. apply forallb_app. Qed.
Lemma isprintable_reverse `{UnicodeTable} t : isprintable (reverse t) = isprintable t.
Proof.
  induction t as [|c t IH]; [done|]. rewrite reverse_cons, isprintable_app, IH. cbn.
  by rewrite andb_true_r, andb_comm.
Qed.
Lemma isprintable_lstrip `{UnicodeTable} t : isprintable t = true → isprintable (text_lstrip t) = true.
Proof. destruct (lstrip_suffix t) as [pre E]. rewrite E at 1. rewrite isprintable_app. intros. by py_inv. Qed.
Lemma isprintable_strip `{UnicodeTable} t : isprintable t = true → isprintable (text_strip t) = true.
Proof.
  intros. unfold text_strip. rewrite isprintable_reverse. apply isprintable_lstrip.
  rewrite isprintable_reverse. by apply isprintable_lstrip.
Qed.

Lemma lstrip_head t : text_lstrip t = t ↔ match t with c :: _ => char_space c = false | [] => True end.
Proof.
  destruct t as [|c t]; [done|]. cbn. destruct (char_space c) eqn:E; [|done]. split; [|done].
  intros Ht. destruct (lstrip_suffix t) as [pre Hp]. apply (f_equal length) in Ht, Hp.
  rewrite length_app in Hp. cbn in Ht. lia.
Qed.

(** Stripping the right end does not bring whitespace back to the left one. *)
Lemma strip_idem t : text_strip (text_strip t) = text_strip t.
Proof.
  unfold text_strip. set (u := text_lstrip t). set (v := text_lstrip (reverse u)).
  assert (text_lstrip (reverse v) = reverse v) as Hv.
  { apply lstrip_head. destruct (lstrip_suffix (reverse u)) as [pre Hp]. fold v in Hp.
    assert (u = reverse v ++ reverse pre) as Hu by (rewrite <- reverse_app, <- Hp, reverse_involutive; done).
    destruct (reverse v) as [|c rest] eqn:E; [done|].
    assert (text_lstrip u = u) as Hl by apply lstrip_idem. apply lstrip_head in Hl. by rewrite Hu in Hl. }
  rewrite Hv, reverse_involutive. subst v. by rewrite lstrip_idem.
Qed.

Lemma isprintable_slices `{UnicodeTable} a b t mid :
  isprintable t = true → isprintable mid = true → isprintable (slice 0 a t ++ mid ++ slice_from b t) = true.
Proof.
  intros Ht Hm. rewrite !isprintable_app, Hm. cbn [andb]. apply andb_true_intro. split.
  - by apply forallb_take.
  - unfold isprintable in *. rewrite <- (take_drop (Z.to_nat b) t), forallb_app in Ht. by py_inv.
Qed.

(** Replacing [n] characters at the cursor by [mid] *)
Lemma len_splice {A} a b (t mid : list A) :
  0 <= a → a <= b → b <= len t → len (slice 0 a t ++ mid ++ slice_from b t) = len t + len mid - (b - a).
Proof. intros. rewrite !len_app, len_slice, len_slice_from by lia. lia. Qed.

Lemma apply_input_ok `{UnicodeTable} buffer cursor char buffer' cursor' command one_changed one_clear :
  line_ok buffer cursor = true → length char = 1%nat →
  _apply_input_character buffer cursor char = (buffer', cursor', command, one_changed, one_clear) →
  editor_ok (mkTerminal buffer' cursor' command one_changed false 0 one_clear).
Proof.
  unfold line_ok, _apply_input_character. intros Hl Hc.
  assert (len char = 1) as Hone by (unfold len; lia). py_inv.
  repeat case_match; intros; simplify_eq; unfold editor_ok; cbn [t_buffer t_cursor t_command]; unfold line_ok.
  - split; [done|]. split; [by apply isprintable_strip|]. by rewrite strip_idem.
  - done.
  - split; [|done]. lia.
  - split; [|done]. lia.
  - unfold truthy in *. split; [|done]. rewrite <- (app_nil_l (slice_from _ _)).
    rewrite len_splice, isprintable_slices by (done || lia). change (@len Z []) with 0. lia.
  - split; [|done]. lia.
  - split; [|done]. rewrite len_splice, isprintable_slices by (done || lia). lia.
  - split; [|done]. lia.
Qed.

Lemma delete_ok `{UnicodeTable} buffer cursor :
  line_ok buffer cursor = true → (cursor <? len buffer) = true →
  line_ok (slice 0 cursor buffer ++ slice_from (cursor + 1) buffer) cursor = true.
Proof.
  unfold line_ok. intros ? ?. py_inv. rewrite <- (app_nil_l (slice_from _ _)).
  rewrite len_splice, isprintable_slices by (done || lia). change (@len Z []) with 0. lia.
Qed.

Lemma move_ok `{UnicodeTable} buffer cursor cursor' :
  line_ok buffer cursor = true → 0 <= cursor' <= len buffer → line_ok buffer cursor' = true.
Proof. unfold line_ok. intros ? ?. py_inv. lia. Qed.

Lemma line_ok_range `{UnicodeTable} buffer cursor :
  line_ok buffer cursor = true → 0 <= cursor <= len buffer.
Proof. unfold line_ok. intros. py_inv. lia. Qed.

Lemma posix_key_ok `{UnicodeTable} third buffer cursor buffer' cursor' :
  line_ok buffer cursor = true → posix_key third buffer cursor = Some (buffer', cursor') →
  line_ok buffer' cursor' = true.
Proof.
  intros Hl. pose proof (line_ok_range _ _ Hl). unfold posix_key.
  repeat case_match; intros; simplify_eq; py_inv; first [by apply delete_ok | apply (move_ok _ _ _ Hl); lia].
Qed.

Lemma nt_key_ok `{UnicodeTable} key buffer cursor buffer' cursor' :
  line_ok buffer cursor = true → nt_key key buffer cursor = Some (buffer', cursor') →
  line_ok buffer' cursor' = true.
Proof.
  intros Hl. pose proof (line_ok_range _ _ Hl). unfold nt_key.
  repeat case_match; intros; simplify_eq; py_inv; first [by apply delete_ok | apply (move_ok _ _ _ Hl); lia].
Qed.

Section editor_facts.
Context {W : Type} `{LiveTerminal W} `{UnicodeTable}.

(** A loop that has fuel for every pending character returns a sound line. *)
Definition settles (m : io W (option terminal_result)) (w : W) : Prop :=
  ∃ w' r, m w = (w', Ok (Some r)) ∧ editor_ok r.

(** Reading one key when one is ready *)
Lemma settles_ready ms (k : bool → io W (option terminal_result)) w :
  (∀ w' b, (pending_chars w' ≤ pending_chars w)%nat → (b = true → (0 < pending_chars w')%nat) → settles (k b) w') →
  settles (key_ready ms ≫= k) w.
Proof.
  intros Hk. unfold settles, mbind, io_bind, key_ready.
  destruct (ready ms w) as [w' b] eqn:E. apply ready_pending in E as [? ?]. by apply Hk.
Qed.

Lemma settles_get (k : text → io W (option terminal_result)) w :
  (0 < pending_chars w)%nat →
  (∀ w' c, (pending_chars w' < pending_chars w)%nat → length c = 1%nat → settles (k c) w') →
  settles (key_get ≫= k) w.
Proof.
  intros Hp Hk. unfold settles, mbind, io_bind, key_get.
  destruct (getch w) as [w' c] eqn:E. apply getch_pending in E as [? ?]; [|done]. by apply Hk.
Qed.

Lemma settles_ret r w : editor_ok r → settles (mret (Some r)) w.
Proof. intros. by exists w, r. Qed.

Lemma bind_ret_l {A B} (a : A) (k : A → io W B) w : (mret a ≫= k) w = k a w.
Proof. reflexivity. Qed.
Lemma bind_bind {A B C} (m : io W A) (f : A → io W B) (g : B → io W C) w :
  ((m ≫= f) ≫= g) w = (m ≫= λ a, f a ≫= g) w.
Proof. unfold mbind, io_bind. by destruct (m w) as [w' [a|e]]. Qed.

Lemma settles_same (m n : io W (option terminal_result)) w : n w = m w → settles m w → settles n w.
Proof. unfold settles. by intros ->. Qed.
(** The common end of both loops: one ordinary character *)
Lemma settles_apply buffer cursor char changed clear w (loop : text → Z → bool → bool → io W (option terminal_result)) :
  line_ok buffer cursor = true → length char = 1%nat →
  (∀ buffer cursor changed clear, line_ok buffer cursor = true → settles (loop buffer cursor changed clear) w) →
  settles (let '(buffer, cursor, command, one_changed, one_clear) := _apply_input_character buffer cursor char in
           match command, char_in char [9] with
           | None, false => loop buffer cursor (changed || one_changed) (clear || one_clear)
           | _, _ => mret (Some (mkTerminal buffer cursor command (changed || one_changed) (char_in char [9]) 0
                                   (clear || one_clear)))
           end) w.
Proof.
  intros Hl Hc Hloop.
  destruct (_apply_input_character buffer cursor char) as [[[[buffer' cursor'] command] oc] ocl] eqn:E.
  pose proof (apply_input_ok _ _ _ _ _ _ _ _ Hl Hc E) as Hok.
  destruct command as [command|]; [by apply settles_ret|].
  destruct (char_in char [9]); [by apply settles_ret|]. apply Hloop. apply Hok.
Qed.

(** ... and of the editing keys *)
Lemma settles_edit (o : option (text * Z)) buffer cursor changed clear w
    (loop : text → Z → bool → bool → io W (option terminal_result)) :
  line_ok buffer cursor = true → (∀ b c, o = Some (b, c) → line_ok b c = true) →
  (∀ buffer cursor changed clear, line_ok buffer cursor = true → settles (loop buffer cursor changed clear) w) →
  settles (match o with
           | Some (buffer, cursor) => loop buffer cursor true clear
           | None => loop buffer cursor changed clear
           end) w.
Proof. intros Hl Ho Hloop. destruct o as [[b c]|]; apply Hloop; [by apply Ho|done]. Qed.

Lemma posix_loop_settles fuel buffer cursor changed clear w :
  (pending_chars w < fuel)%nat → line_ok buffer cursor = true →
  settles (posix_loop fuel buffer cursor changed clear) w.
Proof.
  revert buffer cursor changed clear w. induction fuel as [|fuel IH]; intros buffer cursor changed clear w Hf Hl; [lia|].
  cbn [posix_loop]. apply settles_ready. intros w1 more Hq1 Hmore.
  destruct more; cbn [negb]; [|by apply settles_ret].
  apply settles_get; [by apply Hmore|]. intros w2 char Hq2 Hc.
  assert (∀ w', (pending_chars w' ≤ pending_chars w2)%nat → ∀ b c ch cl, line_ok b c = true →
    settles (posix_loop fuel b c ch cl) w') as Hloop by (intros; apply IH; [lia|done]).
  destruct (char_in char [27]).
  2:{ eapply settles_same; [apply bind_ret_l|]. apply settles_apply; [done..|]. by apply Hloop. }
  apply settles_ready. intros w3 escape Hq3 Hescape.
  destruct escape; [|apply settles_apply; [done..|]; by apply Hloop].
  apply settles_get; [by apply Hescape|]. intros w4 second Hq4 _.
  assert (∀ third w', (pending_chars w' ≤ pending_chars w4)%nat →
    settles (if char_in third (chars "AB")
      then mret (Some (mkTerminal buffer cursor None changed false (if char_in third (chars "A") then -1 else 1) clear))
      else _ ← (if char_in third (chars "13478") then
                  suffix ← key_ready 20;
                  if (suffix : bool) then _ ← key_get; mret tt else mret tt
                else mret tt);
           match posix_key third buffer cursor with
           | Some (buffer, cursor) => posix_loop fuel buffer cursor true clear
           | None => posix_loop fuel buffer cursor changed clear
           end) w') as Hthird.
  { intros third w' Hw'. destruct (char_in third (chars "AB")); [by apply settles_ret|].
    assert (∀ w'', (pending_chars w'' ≤ pending_chars w4)%nat →
      settles (match posix_key third buffer cursor with
               | Some (buffer, cursor) => posix_loop fuel buffer cursor true clear
               | None => posix_loop fuel buffer cursor changed clear
               end) w'') as Hend.
    { intros w'' Hw. apply settles_edit; [done|intros; by eapply posix_key_ok|]. apply Hloop. lia. }
    destruct (char_in third (chars "13478")); [|eapply settles_same; [apply bind_ret_l|]; by apply Hend].
    eapply settles_same; [apply bind_bind|]. apply settles_ready. intros w5 suffix Hq5 Hs.
    destruct suffix; [|eapply settles_same; [apply bind_ret_l|]; apply Hend; lia].
    eapply settles_same; [apply bind_bind|]. apply settles_get; [by apply Hs|]. intros w6 c Hq6 _.
    eapply settles_same; [apply bind_ret_l|]. apply Hend. lia. }
  destruct (char_in second (chars "[O")).
  2:{ eapply settles_same; [apply bind_ret_l|]. eapply settles_same; [apply bind_ret_l|]. by apply Hthird. }
  apply settles_ready. intros w5 introduced Hq5 Hi.
  destruct introduced; [|eapply settles_same; [apply bind_ret_l|]; apply Hthird; lia].
  apply settles_get; [by apply Hi|]. intros w6 third Hq6 _. apply Hthird. lia.
Qed.

Lemma nt_loop_settles fuel buffer cursor changed clear w :
  (pending_chars w < fuel)%nat → line_ok buffer cursor = true →
  settles (nt_loop fuel buffer cursor changed clear) w.
Proof.
  revert buffer cursor changed clear w. induction fuel as [|fuel IH]; intros buffer cursor changed clear w Hf Hl; [lia|].
  cbn [nt_loop]. apply settles_ready. intros w1 more Hq1 Hmore.
  destruct more; cbn [negb]; [|by apply settles_ret].
  apply settles_get; [by apply Hmore|]. intros w2 char Hq2 Hc.
  destruct (char_in char [0; 0xE0]).
  2:{ apply settles_apply; [done..|]. intros. apply IH; [lia|done]. }
  apply settles_ready. intros w3 key Hq3 Hkey. destruct key; cbn [negb]; [|apply IH; [lia|done]].
  apply settles_get; [by apply Hkey|]. intros w4 key Hq4 _.
  destruct (char_in key (chars "HP")); [by apply settles_ret|].
  apply settles_edit; [done|intros; by eapply nt_key_ok|]. intros. apply IH; [lia|done].
Qed.
End editor_facts.

(** C21: the line editor always comes back while characters are pending and keeps
    the line sound: from a line with the cursor inside a buffer of printable
    characters, on both platforms and for every sequence of keys, it ends within
    the pending characters with such a line again; a command it delivers is
    printable, stripped and taken out of the buffer. *)
Theorem line_editor_sound {W} `{LiveTerminal W} `{UnicodeTable} fuel buffer cursor w :
  (pending_chars w < fuel)%nat → line_ok buffer cursor = true →
  ∃ w' r, _read_terminal_command fuel buffer cursor w = (w', Ok (Some r)) ∧ editor_ok r.
Proof.
  intros Hf Hl. unfold _read_terminal_command.
  change (settles (tty ← gets isatty;
    if negb (tty : bool) then mret (Some (mkTerminal buffer cursor None false false 0 false)) else
    p ← gets posix;
    if (p : bool) then posix_loop fuel buffer cursor false false else nt_loop fuel buffer cursor false false) w).
  unfold settles, mbind, io_bind, gets. destruct (isatty w); cbn [negb]; [|by apply settles_ret].
  destruct (posix w); [by apply posix_loop_settles|by apply nt_loop_settles].
Qed.

(** The keys that are waiting, as a terminal *)
#[local] Instance ascii_table : UnicodeTable := {| printable_above := λ _, true; alpha_above := λ _, true; upper := str_upper |}.
#[local] Instance typed : Terminal text := {|
  isatty := λ _, true; posix := λ _, true;
  ready := λ _ w, (w, match w with [] => false | _ => true end);
  getch := λ w, match w with [] => ([], []) | c :: w => (w, [c]) end;
|}.
#[local] Program Instance typed_live : LiveTerminal text := {| pending_chars := length |}.
Next Obligation. intros ms [|c w] w' b [= <- <-]; cbn; [done|]. split; [done|]. intros _. lia. Qed.
Next Obligation. intros [|c w] w' k; cbn; [lia|]. intros [= <- <-]. cbn. lia. Qed.

Example line_editor_sound_witness :
  let keys := chars "ex" ++ [27; 91; 68] ++ chars "it " ++ [127; 13] ++ chars "more" in
  ∃ w' r, _read_terminal_command 20 [] 0 keys = (w', Ok (Some r)) ∧ editor_ok r
    ∧ t_command r = Some (chars "eitx") ∧ w' = chars "more".
Proof.
  intros keys. destruct (line_editor_sound 20 [] 0 keys) as (w' & r & E & Hr).
  - vm_compute. lia.
  - reflexivity.
  - exists w', r. split; [exact E|]. split; [exact Hr|]. vm_compute in E. injection E as <- <-. split; reflexivity.
Defined.

(** At the end of the input [select] reports the terminal ready, [read(1)]
    returns the empty string, and the empty string is printable: the cursor
    runs away and the loop never comes back. *)
Lemma posix_eof_spins {W} `{Terminal W} `{UnicodeTable} fuel buffer cursor changed clear w :
  (∀ ms, ready ms w = (w, true)) → getch w = (w, []) →
  posix_loop fuel buffer cursor changed clear w = (w, Ok None).
Proof.
  intros Hr Hg. revert buffer cursor changed clear. induction fuel as [|fuel IH]; intros; [done|].
  cbn [posix_loop]. unfold mbind, io_bind, key_ready. rewrite Hr. cbn [negb]. unfold key_get. rewrite Hg. apply IH.
Qed.

(** ** The prompt and the live row

    Standard output is the list of strings written to it.  The Rich library,
    where it is installed, turns panels and styled lines into text. *)

Record ConsoleStatus := mkConsole {
  _rows : Z;
  _tty : bool;
  _live : bool;
  _processor : string;
  _prompt : string;
  _workload_state : string;
  _clock_mode : string;
  _workload_cycles : Z;
  _processor_state : string;
  stdout : list string;
}.

(** [Text(text, style=style)] *)
Abbreviation styled := (string * option string)%type.
(** [Table.grid] in a [Panel]: a column is its ratio and [no_wrap] *)
Record Panel := mkPanel {
  p_columns : list (Z * bool);
  p_rows : list (list styled);
  p_title : styled;
  p_border : string;
}.
Class RichLibrary := {
  rich_installed : bool;
  rich_capture : Panel → string;  (** [with capture(): print(panel, end=EMPTY)] *)
  rich_rule : styled → string;    (** what [rule] and [print] write *)
  rich_print : styled → string;
}.

Definition _prompt_for (processor : string) : string :=
  if String.eqb processor "intel-8086" then "8086"
  else if String.eqb processor "nec-v30" then "V30" else "CPU".

Definition console_init (processor : string) (live tty : bool) (out : list string) : ConsoleStatus :=
  mkConsole 0 tty live processor (_prompt_for processor) "EMPTY" "AUTO" 0 "ACTIVE" out.

Definition set_processor (processor : string) (c : ConsoleStatus) : ConsoleStatus :=
  mkConsole (_rows c) (_tty c) (_live c) processor (_prompt_for processor) (_workload_state c) (_clock_mode c)
    (_workload_cycles c) (_processor_state c) (stdout c).

Definition set_runtime (workload_state clock_mode : string) (workload_cycles : Z) (processor_state : string)
    (c : ConsoleStatus) : ConsoleStatus :=
  mkConsole (_rows c) (_tty c) (_live c) (_processor c) (_prompt c) workload_state clock_mode workload_cycles
    processor_state (stdout c).

Definition write (s : string) (c : ConsoleStatus) : ConsoleStatus :=
  mkConsole (_rows c) (_tty c) (_live c) (_processor c) (_prompt c) (_workload_state c) (_clock_mode c)
    (_workload_cycles c) (_processor_state c) (stdout c ++ [s]).
Definition set_rows (rows : Z) (c : ConsoleStatus) : ConsoleStatus :=
  mkConsole rows (_tty c) (_live c) (_processor c) (_prompt c) (_workload_state c) (_clock_mode c)
    (_workload_cycles c) (_processor_state c) (stdout c).

Definition escape (s : string) : string := String "027" s.
Definition erase_line : string := String "013" (escape "[2K").
Definition up_and_erase : string := escape "[1A" +:+ erase_line.

Definition _erase (c : ConsoleStatus) : ConsoleStatus :=
  if (_rows c =? 0) || negb (_tty c) then c
  else Nat.iter (Z.to_nat (_rows c - 1)) (write up_and_erase) (write erase_line c).

Definition _rich `{RichLibrary} (c : ConsoleStatus) : bool := _tty c && _live c && rich_installed.
Definition renderer_name `{RichLibrary} (c : ConsoleStatus) : string :=
  if _rich c then "rich-live" else if _live c then "basic-live" else "plain".

(** The black diamond U+25C6 in UTF-8 *)
Definition diamond : string := of_octets [Byte.xe2; Byte.x97; Byte.x86].
Definition _status_text (processor workload_state clock_mode : string) (workload_cycles : Z)
    (processor_state : string) : result string :=
  match str_get processor PROCESSOR_NAMES with
  | None => Raise (KeyError (py_repr processor))
  | Some processor_name =>
      Ok ("| " +:+ diamond +:+ " " +:+ processor_name +:+ "  workload=" +:+ workload_state +:+ "  "
          +:+ "clock=" +:+ clock_mode +:+ "  cycles=" +:+ dec workload_cycles +:+ "  "
          +:+ "processor=" +:+ processor_state)
  end.

(** A format with thousands separators *)
Fixpoint group_three (l : list ascii) : list ascii :=
  match l with
  | a :: b :: c :: (_ :: _) as l' => a :: b :: c :: "," :: group_three l'
  | _ => l
  end%char.
Definition commas (z : Z) : string :=
  (if z <? 0 then "-" else EmptyString)
  +:+ String.string_of_list_ascii (reverse (group_three (reverse (ascii_list (dec (Z.abs z)))))).

(** The middle dot U+00B7 in UTF-8 *)
Definition dot : string := of_octets [Byte.xc2; Byte.xb7].
(** [s.rstrip(LF)] *)
Definition rstrip_newlines (s : string) : string :=
  String.string_of_list_ascii (reverse (skip_char "010" (reverse (ascii_list s)))).

Definition panel_of (processor_name : string) (c : ConsoleStatus) : Panel :=
  let processor_name := if String.eqb (_processor c) "auto" then "8086-CLASS"%string else processor_name in
  let state := if String.eqb (_processor_state c) "STOPPED / RESET" then "RESET"%string
               else if negb (String.eqb (_workload_state c) "EMPTY") then _workload_state c else "ACTIVE"%string in
  let state_style := if str_in state ["ACTIVE"; "COMPLETED"]%string then "bold green"%string else "bold yellow"%string in
  let identity := if negb (String.eqb (_processor c) "auto") then "identified"%string else "identity not probed"%string in
  let detail := _processor_state c +:+ "  " +:+ dot +:+ "  " +:+ identity in
  mkPanel [(2, true); (2, true); (4, false)]
    [[(processor_name, Some "bold cyan"); (state, Some state_style);
      (_clock_mode c +:+ "  " +:+ dot +:+ "  IRAM", Some "magenta")];
     [("Workload " +:+ _workload_state c, None); ("Bus cycles " +:+ commas (_workload_cycles c), None);
      (detail, Some "dim")]]%string
    ("RP86 Runtime", Some "bold")%string "cyan".
Definition _rich_panel `{RichLibrary} (c : ConsoleStatus) : result string :=
  match str_get (_processor c) PROCESSOR_NAMES with
  | None => Raise (KeyError (py_repr (_processor c)))
  | Some processor_name => Ok (rstrip_newlines (rich_capture (panel_of processor_name c)))
  end.

(** One line of an event *)
Definition event_line `{RichLibrary} `{UnicodeTable} (line : string) : string :=
  let u := upper line in
  if String.eqb line "[NATIVE OUTPUT]" then rich_rule ("Native output", Some "bold cyan")%string
  else if str_starts "[WORKLOAD COMPLETED]" line then rich_print (line, Some "bold green"%string)
  else if existsb (λ word, str_contains word u) ["FAILED"; "FAULT"; " LOST"]%string
  then rich_print (line, Some "bold red"%string)
  else if existsb (λ word, str_contains word u) ["PASS"; "ACCEPTED"]%string then rich_print (line, Some "green"%string)
  else if str_contains "SUSPENDED" u then rich_print (line, Some "yellow"%string)
  else rich_print (line, None).
Definition write_event `{RichLibrary} `{UnicodeTable} (text : string) (c : ConsoleStatus) : ConsoleStatus :=
  if negb (_rich c) then write (text +:+ newline) c else
  let lines := map of_octets (splitlines (encode_utf8 text)) in
  foldl (λ c line, write (event_line line) c) c (match lines with [] => [EmptyString] | _ => lines end).

(** [len(s.splitlines())] *)
Definition splitlines_count (s : string) : Z := len (splitlines (encode_utf8 s)).

(** A text in UTF-8 *)
Definition utf8_text (t : text) : string := of_octets (t ≫= utf8_char).
Definition text_of (s : string) : text := utf8_points (map byte.unsigned (encode_utf8 s)).

Definition move_cursor (command_buffer : text) (cursor : option Z) (c : ConsoleStatus) : ConsoleStatus :=
  let cursor := default (len command_buffer) cursor in
  if cursor <? len command_buffer
  then write (escape ("[" +:+ dec (len command_buffer - cursor) +:+ "D")) c else c.

Definition render_prompt (command_buffer : text) (cursor : option Z) (c : ConsoleStatus) : ConsoleStatus :=
  if negb (_tty c) then c else
  let c := _erase c in
  let c := write (_prompt c +:+ "> " +:+ utf8_text command_buffer) c in
  let c := move_cursor command_buffer cursor c in
  set_rows 1 c.

(** Both renderers look the processor's name up first; the exception leaves what
    was erased erased. *)
Definition render `{RichLibrary} (command_buffer : text) (cursor : option Z) : io ConsoleStatus unit := λ c,
  if negb (_tty c) then (c, Ok tt) else
  if negb (_live c) then (render_prompt command_buffer cursor c, Ok tt) else
  let c := _erase c in
  let status :=
    if _rich c then panel ← _rich_panel c; Ok (panel, splitlines_count panel)
    else text ← _status_text (_processor c) (_workload_state c) (_clock_mode c) (_workload_cycles c) (_processor_state c);
         Ok (text, 1) in
  match status with
  | Raise e => (c, Raise e)
  | Ok (status, status_rows) =>
      let c := write (status +:+ newline +:+ _prompt c +:+ "> " +:+ utf8_text command_buffer) c in
      let c := move_cursor command_buffer cursor c in
      (set_rows (status_rows + 1) c, Ok tt)
  end.

Definition clear (c : ConsoleStatus) : ConsoleStatus := set_rows 0 (_erase c).

(** *** Rows on the screen

    How far a write moves the terminal's cursor down *)
Definition newlines (s : string) : Z := len (filter (λ x, x = LF) (encode_utf8 s)).
Definition row_move (s : string) : Z := newlines s - (if String.eqb s up_and_erase then 1 else 0).
Definition row (c : ConsoleStatus) : Z := foldr Z.add 0 (map row_move (stdout c)).

(** The rows of the literal texts *)
Ltac literal_rows :=
  repeat match goal with |- context [newlines (String ?a ?b)] =>
    let n := eval vm_compute in (newlines (String a b)) in change (newlines (String a b)) with n end.

Lemma newlines_app a b : newlines (a +:+ b) = newlines a + newlines b.
Proof. unfold newlines. by rewrite encode_app, filter_app, len_app. Qed.
Lemma has_char_app x a b : has_char x (a +:+ b) = has_char x a || has_char x b.
Proof.
  unfold has_char. induction a as [|y a IH]; [done|].
  change (String y a +:+ b) with (String y (a +:+ b)). cbn [String.list_ascii_of_string existsb].
  by rewrite IH, orb_assoc.
Qed.
Lemma row_write s c : row (write s c) = row c + row_move s.
Proof.
  unfold row. cbn [stdout write]. rewrite map_app, foldr_app. cbn [map foldr].
  generalize (row_move s). intros z. induction (stdout c) as [|x l IH]; cbn [map foldr]; [lia|]. rewrite IH. lia.
Qed.

(** A string that contains a character other than those of [up_and_erase] *)
Lemma row_move_other s : has_char ">" s = true → row_move s = newlines s.
Proof.
  unfold row_move. intros H. destruct (String.eqb s up_and_erase) eqn:E; [|lia].
  apply String.eqb_eq in E. subst. discriminate H.
Qed.

(** Erasing goes back to the first row that was drawn. *)
Lemma row_erase c : _tty c = true → 1 <= _rows c → row (_erase c) = row c - (_rows c - 1).
Proof.
  intros Ht Hr. unfold _erase. rewrite Ht. guard_false.
  assert (∀ n d, row (Nat.iter n (write up_and_erase) d) = row d - Z.of_nat n) as Hiter.
  { induction n as [|n IH]; intros d; cbn [Nat.iter nat_rect]; [lia|].
    change (row (write up_and_erase (Nat.iter n (write up_and_erase) d)) = row d - Z.of_nat (S n)).
    rewrite row_write, IH. change (row_move up_and_erase) with (-1). lia. }
  rewrite Hiter, row_write. change (row_move erase_line) with 0. lia.
Qed.

(** The drawing in progress: [base] is the row it starts at. *)
Definition drawn_at (base : Z) (c : ConsoleStatus) : Prop :=
  _tty c = true ∧ 0 <= _rows c ∧ row c = base + Z.max 0 (_rows c - 1) ∧ newlines (_prompt c) = 0.

Lemma erase_fields c :
  _tty (_erase c) = _tty c ∧ _live (_erase c) = _live c ∧ _prompt (_erase c) = _prompt c ∧ _rows (_erase c) = _rows c.
Proof.
  unfold _erase. destruct (_ || _); [done|].
  induction (Z.to_nat (_rows c - 1)) as [|n IH]; [done|]. exact IH.
Qed.

Lemma row_erase_drawn base c : drawn_at base c → row (_erase c) = base.
Proof.
  intros (Ht & Hr & Hrow & _). destruct (decide (_rows c = 0)) as [E|].
  - unfold _erase. rewrite E in *. cbn. lia.
  - rewrite row_erase by (done || lia). lia.
Qed.

Lemma newlines_pretty_go x s : newlines (pretty_N_go x s) = newlines s.
Proof.
  revert s. induction (N.lt_wf_0 x) as [x _ IH]; intros s.
  destruct (decide (x = 0%N)) as [->|Hx]; [by rewrite pretty_N_go_0|].
  rewrite pretty_N_go_step, IH by (try apply N.div_lt; lia).
  change (String (pretty_N_char (x `mod` 10)) s) with (String (pretty_N_char (x `mod` 10)) EmptyString +:+ s).
  rewrite newlines_app. enough (newlines (String (pretty_N_char (x `mod` 10)) EmptyString) = 0) by lia.
  unfold pretty_N_char. by repeat case_match.
Qed.
Lemma newlines_dec z : newlines (dec z) = 0.
Proof.
  assert (∀ p, newlines (pretty (Npos p)) = 0) as Hp
    by (intros p; unfold pretty, pretty_N; by rewrite decide_False, newlines_pretty_go by done).
  destruct z as [|p|p]; [done|apply Hp|]. unfold dec, pretty, pretty_Z.
  rewrite newlines_app. change (newlines "-") with 0. rewrite Z.add_0_l. apply Hp.
Qed.

Lemma row_cursor command_buffer cursor c :
  row (move_cursor command_buffer cursor c) = row c
  ∧ _tty (move_cursor command_buffer cursor c) = _tty c
  ∧ _prompt (move_cursor command_buffer cursor c) = _prompt c.
Proof.
  unfold move_cursor. destruct (_ <? _); [|done]. rewrite row_write. split; [|done].
  unfold row_move. destruct (String.eqb _ _) eqn:E.
  - exfalso. apply String.eqb_eq in E. apply (f_equal (has_char "D")) in E.
    change (has_char "D" up_and_erase) with false in E. revert E. unfold escape.
    match goal with |- has_char _ (String ?x ?s) = _ → _ => change (String x s) with (String x EmptyString +:+ s) end.
    by rewrite !has_char_app, !orb_true_r.
  - unfold escape.
    match goal with |- _ + (newlines (String ?x ?s) - _) = _ => change (String x s) with (String x EmptyString +:+ s) end.
    rewrite !newlines_app, newlines_dec. etransitivity; [|apply Z.add_0_r]. by f_equal.
Qed.

(** One draw: what is written below the prompt *)
Lemma draw_row base c s command_buffer cursor rows :
  drawn_at base c → has_char ">" s = true → newlines s = rows - 1 → 1 <= rows →
  drawn_at base (set_rows rows (move_cursor command_buffer cursor (write s (_erase c)))).
Proof.
  intros Hd Hs Hn Hr. pose proof (row_erase_drawn _ _ Hd) as Hrow. destruct Hd as (Ht & _ & _ & Hp).
  destruct (row_cursor command_buffer cursor (write s (_erase c))) as (E & Et & Ep).
  destruct (erase_fields c) as (Et' & _ & Ep' & _).
  unfold drawn_at. cbn [set_rows _tty _rows _prompt]. rewrite Et, Ep. cbn [write _tty _prompt]. rewrite Et', Ep'.
  split; [done|]. split; [lia|]. split; [|done].
  change (row (set_rows rows ?d)) with (row d). rewrite E, row_write, row_move_other by done. lia.
Qed.

(** What the renderer may draw: a panel without a final newline, a status row of one line *)
Definition drawable `{RichLibrary} (c : ConsoleStatus) : Prop :=
  newlines (_workload_state c) = 0 ∧ newlines (_clock_mode c) = 0 ∧ newlines (_processor_state c) = 0
  ∧ ∀ panel, _rich_panel (_erase c) = Ok panel → splitlines_count panel = newlines panel + 1.

Lemma erase_status c :
  _processor (_erase c) = _processor c ∧ _workload_state (_erase c) = _workload_state c
  ∧ _clock_mode (_erase c) = _clock_mode c ∧ _workload_cycles (_erase c) = _workload_cycles c
  ∧ _processor_state (_erase c) = _processor_state c.
Proof.
  unfold _erase. destruct (_ || _); [done|].
  induction (Z.to_nat (_rows c - 1)) as [|n IH]; [done|]. exact IH.
Qed.

Lemma status_one_line processor ws cm cycles ps s :
  _status_text processor ws cm cycles ps = Ok s →
  newlines ws = 0 → newlines cm = 0 → newlines ps = 0 → newlines s = 0.
Proof.
  unfold _status_text. destruct (str_get processor PROCESSOR_NAMES) as [name|] eqn:E; [|done].
  intros [= <-] ???. rewrite !newlines_app, newlines_dec.
  assert (newlines name = 0) as ->.
  { unfold str_get in E. cbn in E. repeat (case_match; cbn in *; simplify_eq; try reflexivity). }
  literal_rows. change (newlines diamond) with 0. lia.
Qed.

(** Redrawing never drifts: whatever has been drawn before, after a redraw, a
    prompt or a clear the console knows exactly how many rows its drawing takes
    from the row it started at, so that the next erase goes back to that row. *)
Lemma console_redraw `{RichLibrary} base c command_buffer cursor :
  drawn_at base c → drawable c → newlines (utf8_text command_buffer) = 0 →
  (∀ c' , render command_buffer cursor c = (c', Ok tt) → drawn_at base c')
  ∧ drawn_at base (render_prompt command_buffer cursor c)
  ∧ (_rows (clear c) = 0 ∧ row (clear c) = base)
  ∧ row (_erase c) = base.
Proof.
  intros Hd (Hws & Hcm & Hps & Hrich) Hb. pose proof (row_erase_drawn _ _ Hd) as Hrow.
  pose proof Hd as (Ht & _ & _ & Hp).
  assert (∀ head, has_char ">" (head +:+ _prompt (_erase c) +:+ "> " +:+ utf8_text command_buffer) = true) as Hgt.
  { intros head. rewrite !has_char_app. by rewrite !orb_true_r. }
  destruct (erase_fields c) as (Et & El & Ep & _).
  assert (drawn_at base (render_prompt command_buffer cursor c)) as Hprompt.
  { unfold render_prompt. rewrite Ht. cbn [negb]. apply draw_row; [done|apply (Hgt EmptyString)| |lia].
    rewrite !newlines_app, Hb, Ep, Hp. done. }
  split; [|done]. intros c'. unfold render. rewrite Ht. cbn [negb].
  destruct (_live c); cbn [negb]; [|by intros [= <-]].
  destruct (erase_status c) as (-> & -> & -> & -> & ->).
  destruct (_rich (_erase c)); cbn [mbind result_bind].
  1: destruct (_rich_panel (_erase c)) as [panel|] eqn:Er; [|done].
  2: destruct (_status_text _ _ _ _ _) as [s|] eqn:Es; [|done]; apply status_one_line in Es; [|done..].
  all: cbn [mbind result_bind]; intros [= <-]; (apply draw_row; [done| |..]).
  - rewrite has_char_app. by rewrite Hgt, orb_true_r.
  - rewrite !newlines_app, Hb, Ep, Hp, (Hrich _ eq_refl). change (newlines newline) with 1. change (newlines "> ") with 0. lia.
  - rewrite (Hrich _ eq_refl). unfold newlines. pose proof (len_nonneg (filter (λ x, x = LF) (encode_utf8 panel))). lia.
  - rewrite has_char_app. by rewrite Hgt, orb_true_r.
  - rewrite !newlines_app, Hb, Ep, Hp, Es. done.
  - lia.
Qed.
