(* ===== verification/Transport.v ===== *)
(** * The USB transports (host/rp86/transport.py)

    The CDC requests that wait for a marker, the runtime control over HID, and
    the selection of the device's interfaces.  pyserial, hidapi, the clock and
    the standard output are the class [SerialWorld] and [HidWorld]; the clock
    counts milliseconds and a timeout is a float of seconds.  The waiting loops
    take fuel; [None] is "out of fuel".

    The theorems say which octets a CDC request returns, what an acknowledged
    runtime control certifies, and that a device is chosen only when it is the
    only candidate. *)

From S2P Require Import Prelude Struct PyText Json Protocol Core RequestChannel Console.
From Stdlib Require Import SpecFloat.

(** ** Octet search *)

(** [b.find(p)] counted from [i], and [b.rfind(p)] *)
Fixpoint find_from (p b : bytes) (i : Z) : option Z :=
  if starts_with p b then Some i else
  match b with [] => None | _ :: b => find_from p b (i + 1) end.
Definition bytes_find (p b : bytes) : option Z := find_from p b 0.
Definition bytes_in (p b : bytes) : bool := bool_decide (is_Some (bytes_find p b)).
Fixpoint rfind_from (p b : bytes) (i : Z) : option Z :=
  match (match b with [] => None | _ :: b' => rfind_from p b' (i + 1) end) with
  | Some j => Some j
  | None => if starts_with p b then Some i else None
  end.
Definition bytes_rfind (p b : bytes) : option Z := rfind_from p b 0.

(** [now <= began + timeout], in milliseconds *)
Definition within (began : Z) (timeout : spec_float) (now : Z) : bool :=
  match timeout with
  | S754_nan => false
  | S754_infinity negative => negb negative
  | S754_zero _ => now - began <=? 0
  | S754_finite negative m e =>
      let v := (if negative then - Zpos m else Zpos m) * 1000 in
      if 0 <=? e then now - began <=? v * 2 ^ e else (now - began) * 2 ^ (- e) <=? v
  end.

(** ** CDC requests *)

Class SerialWorld (W : Type) := {
  serial_write : bytes → io W unit;
  serial_flush : io W unit;
  serial_read : Z → io W bytes;
  serial_monotonic : W → W * Z;
  serial_sleep : Z → W → W;
}.

Section cdc.
Context {W : Type} `{SerialWorld W}.

Definition serial_now : io W Z := λ w, let '(w, t) := serial_monotonic w in (w, Ok t).

(** The loop of the three requests: [check] looks at what was received when a
    chunk arrived, [lost] is the [except OSError] clause. *)
Fixpoint await_reply (fuel : nat) (check : bytes → result (option bytes)) (lost : string → bytes → result bytes)
    (expired : string) (began : Z) (timeout : spec_float) (received : bytes) : io W (option bytes) :=
  match fuel with
  | O => mret None
  | S fuel =>
      now ← serial_now;
      if negb (within began timeout now) then raise (RuntimeError expired) else λ w,
      match serial_read 4096 w with
      | (w, Raise (OSError exc)) => (b ← lift (lost exc received); mret (Some b)) w
      | (w, Raise e) => (w, Raise e)
      | (w, Ok chunk) =>
          let received := received ++ chunk in
          (found ← lift (if truthy (len chunk) then check received else Ok None);
           match found with
           | Some b => mret (Some b)
           | None => _ ← modify (serial_sleep 5);
                     await_reply fuel check lost expired began timeout received
           end) w
      end
  end.

Definition cdc_request (fuel : nat) (request : bytes) (check : bytes → result (option bytes))
    (lost : string → bytes → result bytes) (expired : string) (timeout : spec_float) : io W (option bytes) :=
  _ ← serial_write request;
  _ ← serial_flush;
  began ← serial_now;
  await_reply fuel check lost expired began timeout [].

Definition acknowledged (ack : bytes) (received : bytes) : result (option bytes) :=
  Ok (if bytes_in ack received then Some received else None).
Definition lost_ack (ack : bytes) (name exc : string) (received : bytes) : result bytes :=
  if bytes_in ack received then Ok received
  else Raise (RuntimeError ("CDC disconnected before " +:+ name +:+ " ACK: " +:+ exc)).

Definition send_bootloader_request (fuel : nat) (timeout : spec_float) : io W (option bytes) :=
  cdc_request fuel BOOTLOADER_REQUEST (acknowledged BOOTLOADER_ACK) (lost_ack BOOTLOADER_ACK "bootloader")
    "timed out waiting for RP2350 bootloader ACK" timeout.
Definition send_reboot_request (fuel : nat) (timeout : spec_float) : io W (option bytes) :=
  cdc_request fuel REBOOT_REQUEST (acknowledged REBOOT_ACK) (lost_ack REBOOT_ACK "reboot")
    "timed out waiting for RP2350 reboot ACK" timeout.

(** The status block that ends with the first end marker *)
Definition marked_block (begin_marker end_marker received : bytes) : result (option bytes) :=
  match bytes_find end_marker received with
  | None => Ok None
  | Some stop =>
      match bytes_rfind begin_marker (slice 0 stop received) with
      | None => Raise (RuntimeError "status end marker arrived without begin marker")
      | Some begin => Ok (Some (slice begin (stop + len end_marker) received))
      end
  end.
Definition status_block : bytes → result (option bytes) := marked_block STATUS_BEGIN STATUS_END.
Definition send_status_request (fuel : nat) (timeout : spec_float) : io W (option bytes) :=
  cdc_request fuel STATUS_REQUEST status_block
    (λ exc _, Raise (RuntimeError ("CDC disconnected before status completed: " +:+ exc)))
    "timed out waiting for complete RP2350 status" timeout.
End cdc.

(** ** Runtime control over HID *)

Section control.
Context {W : Type} `{HidWorld W}.

(** The checks on one report *)
Definition control_ack (operation sequence : Z) (candidate : bytes) : result Message :=
  record ← normalize_hid_input candidate;
  reply ← decode record;
  if negb (message_type reply =? TYPE_RUNTIME_STATUS)
  then Raise (RuntimeError ("unexpected runtime control reply type: " +:+ dec (message_type reply))) else
  if negb (Protocol.sequence reply =? sequence)
  then Raise (RuntimeError ("runtime control sequence mismatch: " +:+ dec (Protocol.sequence reply)
                            +:+ " != " +:+ dec sequence)) else
  if negb (status reply =? STATUS_OK)
  then Raise (RuntimeError ("runtime control status is not OK: " +:+ dec (status reply))) else
  if negb (bytes_eqb (payload reply) [byte.of_Z operation])
  then Raise (RuntimeError "runtime control operation ACK mismatch") else
  Ok reply.

Fixpoint await_ack (fuel : nat) (operation sequence began : Z) (timeout : spec_float) : io W (option Message) :=
  match fuel with
  | O => mret None
  | S fuel =>
      t ← now;
      if negb (within began timeout t) then raise (RuntimeError "timed out waiting for HID runtime control ACK") else
      candidate ← hid_read (MESSAGE_SIZE + 1);
      if truthy (len candidate) then
        reply ← lift (control_ack operation sequence candidate);
        mret (Some reply)
      else _ ← pause 1; await_ack fuel operation sequence began timeout
  end.

Definition exchange_hid_runtime_control (fuel : nat) (operation sequence : Z) (timeout : spec_float)
  : io W (option Message) :=
  drained ← drain_input fuel;
  if negb (drained : bool) then mret None else
  record ← lift (encode (request_message TYPE_RUNTIME_CONTROL sequence [byte.of_Z operation]));
  report ← lift (hid_output_report record);
  written ← hid_write report;
  if negb (written =? MESSAGE_SIZE + 1)
  then raise (RuntimeError ("short HID control write: " +:+ dec written +:+ "/" +:+ dec (MESSAGE_SIZE + 1)
                            +:+ " bytes")) else
  began ← now;
  await_ack fuel operation sequence began timeout.
End control.

(** ** The waiting loops end

    [limit] bounds the timeout, in milliseconds; a client may ask for any. *)

Section ends.
Context (timeout : spec_float) (limit : Z).
Hypothesis limited : ∀ began t, within began timeout t = true → t <= began + limit.

Section serial.
Context {W : Type} `{SerialWorld W} (clock : W → Z).
Hypothesis now_law : ∀ w, clock w <= clock (serial_monotonic w).1 ∧ (serial_monotonic w).2 = clock (serial_monotonic w).1.
Hypothesis read_later : ∀ n w, clock w <= clock (serial_read n w).1.
Hypothesis sleep_later : ∀ ms w, 0 <= ms → clock w + ms <= clock (serial_sleep ms w).

Lemma await_reply_ends fuel check lost expired began received w w' :
  (Z.to_nat (began + limit + 1 - clock w) < fuel)%nat →
  await_reply fuel check lost expired began timeout received w ≠ (w', Ok None).
Proof using limited now_law read_later sleep_later.
  revert received w. induction fuel as [|fuel IH]; intros received w Hf; [lia|]. cbn [await_reply].
  unfold mbind at 1, io_bind at 1, serial_now. pose proof (now_law w) as [Hl Ht].
  destruct (serial_monotonic w) as [w1 t]. cbn [fst snd] in *. subst t.
  destruct (within began timeout (clock w1)) eqn:Hw; cbn [negb]; [|done]. apply limited in Hw.
  pose proof (read_later 4096 w1) as Hr. destruct (serial_read 4096 w1) as [w2 [chunk|e]]; cbn [fst] in Hr.
  - cbv zeta. intros E. io_step. case_match; io_inv. eapply IH; [|eassumption].
    pose proof (sleep_later 5 x ltac:(lia)). unfold lift in *. simplify_eq. lia.
  - destruct e; try done. intros E. io_inv.
Qed.
Lemma cdc_request_ends fuel request check lost expired w w' :
  (Z.to_nat (limit + 1) < fuel)%nat → cdc_request fuel request check lost expired timeout w ≠ (w', Ok None).
Proof using limited now_law read_later sleep_later.
  intros Hf E. unfold cdc_request in E. io_inv. rename select (serial_now _ = _) into Hn. unfold serial_now in Hn.
  match type of Hn with context [serial_monotonic ?u] => pose proof (now_law u) as [_ Ht]; destruct (serial_monotonic u) end.
  injection Hn as <- <-. cbn in Ht. subst. eapply await_reply_ends; [|eassumption]. lia.
Qed.
End serial.

Lemma await_ack_ends {W} `{FiniteWorld W} fuel operation sequence began w w' :
  (Z.to_nat (began + limit + 1 - clock w) < fuel)%nat → await_ack fuel operation sequence began timeout w ≠ (w', Ok None).
Proof using limited.
  revert w. induction fuel as [|fuel IH]; intros w Hf; [lia|]. cbn [await_ack]. intros E. io_inv.
  rename select (now w = _) into Hn. apply later_now in Hn as [Hl ->].
  case_match eqn:Hw; [by io_inv|]. apply negb_false_iff, limited in Hw. io_step.
  rename select (hid_read _ _ = _) into Hr. apply later_read in Hr as [Hr _]. case_match; io_inv.
  rename select (pause 1 _ = _) into Hp. apply later_pause in Hp as [_ Hp]. unfold later in *.
  eapply IH; [|eassumption]. lia.
Qed.
Lemma runtime_control_ends {W} `{FiniteWorld W} fuel operation sequence w w' :
  (pending w + Z.to_nat (limit + 1) < fuel)%nat →
  exchange_hid_runtime_control fuel operation sequence timeout w ≠ (w', Ok None).
Proof using limited.
  intros Hf E. unfold exchange_hid_runtime_control in E. io_step. rename select (drain_input _ _ = _) into Hd.
  destruct x0; cbn [negb] in *.
  - io_inv. case_match; io_inv. rename select (now _ = _) into Hn. apply later_now in Hn as [_ ->].
    eapply await_ack_ends; [|eassumption]. lia.
  - revert Hd. apply drain_input_ends. lia.
Qed.
End ends.

(** ** The interfaces of a device *)

(** An entry of [hid.enumerate]; the path is what [open_path] takes. *)
Record hid_item := mkHid {
  hi_vendor : Z;
  hi_product_id : Z;
  hi_product : option string;
  hi_serial : option string;
  hi_interface : option Z;
  hi_usage_page : option Z;
  hi_usage : option Z;
  hi_path : option bytes;
}.
Definition or_empty (s : option string) : string := default EmptyString s.

(** The public part of the entry of [list_hid_devices] *)
Definition hid_identity (i : hid_item) : document :=
  [("vid", JStr (hex_upper 4 (hi_vendor i))); ("pid", JStr (hex_upper 4 (hi_product_id i)));
   ("product", JStr (or_empty (hi_product i))); ("serial", JStr (or_empty (hi_serial i)));
   ("interface", jopt JInt (hi_interface i)); ("usage_page", jopt JInt (hi_usage_page i));
   ("usage", jopt JInt (hi_usage i));
   ("path", JStr (match hi_path i with Some p => decode_utf8_replace p | None => EmptyString end))]%string.

(** [x or text] in the messages *)
Definition shown (s : string) : string := str_or s "<none>".
Definition listed (l : list string) : string := str_or (str_join ", " l) "none".

(** [_open_hid], up to opening the path: the entry that is opened *)
Definition _open_hid (enumerated : list hid_item) (serial_number : option string) : result hid_item :=
  let matches := match serial_number with
                 | None => enumerated
                 | Some n => filter (λ i, String.eqb (or_empty (hi_serial i)) n = true) enumerated
                 end in
  match matches with
  | [i] => Ok i
  | _ => Raise (RuntimeError ("expected exactly one pi86-rp2350 HID interface (VID " +:+ hex_upper 4 USB_VID
           +:+ ", PID " +:+ hex_upper 4 USB_PID +:+ "); found " +:+ dec (len matches) +:+ ": "
           +:+ listed (map (λ i, "serial=" +:+ shown (or_empty (hi_serial i)) +:+ " interface="
                                 +:+ match hi_interface i with Some n => dec n | None => "None" end) matches)))
  end.

(** The USB libraries of the Host, which may not be installed *)
Class UsbHost (W : Type) := {
  serial_installed : W → bool;
  hid_installed : W → bool;
  hid_enumerate : io W (list hid_item);          (** [hid.enumerate(USB_VID, USB_PID)] *)
  open_path : option bytes → io W unit;          (** [device.open_path] and [set_nonblocking] *)
}.

Section usb.
Context {W : Type} `{UsbHost W}.

Definition module_required (package : string) : string :=
  package +:+ " is required; run: py -m pip install -r host/rp86/requirements.txt".
Definition _serial_module : io W unit :=
  found ← gets serial_installed; if (found : bool) then mret tt else raise (RuntimeError (module_required "pyserial")).
Definition _hid_module : io W unit :=
  found ← gets hid_installed; if (found : bool) then mret tt else raise (RuntimeError (module_required "hidapi")).
Definition list_hid_devices : io W (list hid_item) := _ ← _hid_module; hid_enumerate.

(** [_open_hid]: the device is opened; its identity *)
Definition open_hid (serial_number : option string) : io W document :=
  _ ← _hid_module;
  enumerated ← list_hid_devices;
  item ← lift (_open_hid enumerated serial_number);
  _ ← open_path (hi_path item);
  mret (hid_identity item).
End usb.

(** [default_output_dir], with the variable RP86_VALIDATION_LOG_DIR *)
Definition default_output_dir (configured : option string) (expanduser : string → string) (home : string)
    (is_dir : string → bool) (join : string → string → string) : string :=
  match configured with
  | Some (String _ _ as configured) => expanduser configured
  | _ =>
      let documents := join home "Documents" in
      join (if is_dir documents then documents else home) "pi86-validation-logs"
  end.

(** A port of [list_ports.comports] *)
Record com_port := mkPort {
  cp_vid : option Z;
  cp_pid : option Z;
  cp_device : string;
  cp_serial : option string;
  cp_description : option string;
}.
Record cdc_port := mkCdcPort { port : string; port_serial : string; description : string }.

Definition list_cdc_ports (ports : list com_port) : list cdc_port :=
  map (λ p, mkCdcPort (cp_device p) (or_empty (cp_serial p)) (or_empty (cp_description p)))
    (filter (λ p, cp_vid p = Some USB_VID ∧ cp_pid p = Some USB_PID) ports).

Definition select_cdc_port (candidates : list cdc_port) (serial_number : option string) : result string :=
  let matches := match serial_number with
                 | None => candidates
                 | Some n => filter (λ c, String.eqb (port_serial c) n = true) candidates
                 end in
  match matches with
  | [c] => Ok (port c)
  | _ =>
      let qualifier := match serial_number with
                       | Some (String _ _ as n) => " with serial " +:+ n
                       | _ => EmptyString
                       end in
      Raise (RuntimeError ("expected exactly one pi86-rp2350 CDC interface (VID " +:+ hex_upper 4 USB_VID
        +:+ ", PID " +:+ hex_upper 4 USB_PID +:+ ")" +:+ qualifier +:+ "; found " +:+ dec (len matches) +:+ ": "
        +:+ listed (map (λ c, port c +:+ " (serial=" +:+ shown (port_serial c) +:+ ")") matches)
        +:+ ". Use --port COMxx to select manually."))
  end.

Definition resolve_cdc_port (ports : list com_port) (explicit_port serial_number : option string)
  : result (string * bool) :=
  match explicit_port with
  | Some (String _ _ as p) => Ok (p, false)
  | _ => p ← select_cdc_port (list_cdc_ports ports) serial_number; Ok (p, true)
  end.

Definition cdc_serial_for_port (fold : string → string) (name : string) (candidates : list cdc_port) : option string :=
  match filter (λ c, String.eqb (fold (port c)) (fold name) = true) candidates with
  | [c] => match port_serial c with String _ _ => Some (port_serial c) | EmptyString => None end
  | _ => None
  end.

(** ** The one-shot commands *)

Class SerialPort (W : Type) `{SerialWorld W} := {
  open_port : string → io W unit;             (** [serial.Serial(...)] *)
  set_dtr : io W unit;                        (** [connection.dtr = True] *)
  close_port : io W unit;
  emit : bool → string → W → W;               (** [print]; [true] is [sys.stderr] *)
}.

(** [text.replace(CRLF, LF)] *)
Fixpoint replace_crlf (b : bytes) : bytes :=
  match b with
  | Byte.x0d :: (Byte.x0a :: _) as rest => replace_crlf rest
  | x :: b => x :: replace_crlf b
  | [] => []
  end.

Definition drop_last_if (marker : bytes) (lines : list bytes) : list bytes :=
  match last lines with
  | Some l => if bytes_eqb l marker then take (pred (length lines)) lines else lines
  | None => lines
  end.
Definition status_lines (evidence : bytes) : list bytes :=
  let lines := splitlines (replace_crlf (encode_utf8 (decode_utf8_replace evidence))) in
  let lines := match lines with
               | l :: rest => if bytes_eqb l STATUS_BEGIN then rest else lines
               | [] => lines
               end in
  drop_last_if STATUS_END lines.

Section commands.
Context {W : Type} `{SerialPort W}.

Definition say (text : string) : io W unit := modify (emit false text).
Definition complain (text : string) : io W unit := modify (emit true text).

Definition print_status_evidence (evidence : bytes) : io W unit :=
  _ ← say (str_join newline (map of_octets (status_lines evidence)));
  say "RP2350 STATUS RESULT      = PASS".

(** [try: open, request  except: report  finally: close]: a port that was
    opened is closed; a failure to close it is ignored.  The first [None] is
    the reported failure. *)
Definition with_port (name : string) (request : io W (option bytes)) : io W (option (option bytes)) := λ w,
  let reported (r : result (option bytes)) : io W (option (option bytes)) :=
    match r with
    | Ok evidence => mret (Some evidence)
    | Raise e => match os_runtime_error e with
                 | Some exc => _ ← complain ("ERROR: " +:+ exc); mret None
                 | None => raise e
                 end
    end in
  match open_port name w with
  | (w, Raise e) => reported (Raise e) w
  | (w, Ok _) =>
      let '(w, r) := (_ ← set_dtr; _ ← modify (serial_sleep 100); request) w in
      let '(w, r) := reported r w in
      match close_port w with
      | (w, Ok _) | (w, Raise (OSError _)) => (w, r)
      | (w, Raise e) => (w, Raise e)
      end
  end.

(** The exit code; [None] is "out of fuel". *)
Definition port_command (name : string) (request : io W (option bytes)) (done : bytes → io W unit) : io W (option Z) :=
  outcome ← with_port name request;
  match outcome with
  | None => mret (Some TRANSPORT_EXIT)
  | Some None => mret None
  | Some (Some evidence) => _ ← done evidence; mret (Some PASS_EXIT)
  end.

Definition say_evidence (evidence : bytes) : io W unit :=
  if truthy (len evidence) then say ("CDC evidence bytes        = " +:+ dec (len evidence)) else mret tt.

Definition request_status (fuel : nat) (name : string) (timeout : spec_float) : io W (option Z) :=
  port_command name (send_status_request fuel timeout) print_status_evidence.
Definition request_bootloader (fuel : nat) (name : string) (timeout : spec_float) : io W (option Z) :=
  port_command name (send_bootloader_request fuel timeout)
    (λ evidence, _ ← say "RP2350 bootloader request = ACKNOWLEDGED";
                 _ ← say "RP2350 UF2 bootloader     = ENTERING"; say_evidence evidence).
Definition request_reboot_cdc (fuel : nat) (name : string) (timeout : spec_float) : io W (option Z) :=
  port_command name (send_reboot_request fuel timeout)
    (λ evidence, _ ← say "RP2350 reboot request     = ACKNOWLEDGED VIA CDC FALLBACK";
                 _ ← say "RP2350 canonical runtime  = RESTARTING"; say_evidence evidence).
End commands.

(** ** Facts about the search *)

Lemma starts_with_spec p b : starts_with p b = true ↔ ∃ post, b = p ++ post.
Proof.
  split.
  - revert b. induction p as [|x p IH]; intros b Hs; [by exists b|]. destruct b as [|y b]; [done|].
    cbn in Hs. apply andb_true_iff in Hs as [Hx Hs]. apply Byte.byte_dec_bl in Hx as ->.
    destruct (IH b Hs) as (post & ->). by exists post.
  - intros (post & ->). apply starts_with_app.
Qed.

Lemma find_from_sound p b i j :
  find_from p b i = Some j →
  ∃ pre post, b = pre ++ p ++ post ∧ j = i + len pre
    ∧ ∀ pre' post', b = pre' ++ p ++ post' → len pre <= len pre'.
Proof.
  revert i. induction b as [|x b IH]; intros i; cbn [find_from]; destruct (starts_with p _) eqn:Hs.
  1,3: intros [= <-]; apply starts_with_spec in Hs as (post & ->); exists [], post; split_and!;
       [done|rewrite len_nil; lia|intros; rewrite len_nil; apply len_nonneg].
  - done.
  - intros Hf. destruct (IH _ Hf) as (pre & post & -> & -> & Hmin). exists (x :: pre), post.
    split_and!; [done|rewrite len_cons; lia|]. intros [|y pre'] post' E.
    + exfalso. assert (starts_with p (x :: pre ++ p ++ post) = true) as Ht; [|congruence].
      apply starts_with_spec. by exists post'.
    + rewrite !len_cons. injection E as -> E. specialize (Hmin _ _ E). lia.
Qed.

Lemma find_from_complete p pre post i : ∃ j, find_from p (pre ++ p ++ post) i = Some j ∧ j <= i + len pre.
Proof.
  revert i. induction pre as [|x pre IH]; intros i.
  - exists i. split; [|rewrite len_nil; lia]. cbn [app]. destruct (p ++ post) eqn:E; cbn [find_from];
      rewrite <- E, starts_with_app; done.
  - cbn [app find_from]. destruct (starts_with p _); [exists i; split; [done|pose proof (len_nonneg (x :: pre)); lia]|].
    destruct (IH (i + 1)) as (j & Hj & Hle). exists j. split; [done|]. rewrite len_cons. lia.
Qed.

Lemma bytes_in_spec p b : bytes_in p b = true ↔ ∃ pre post, b = pre ++ p ++ post.
Proof.
  unfold bytes_in, bytes_find. rewrite bool_decide_eq_true. split.
  - intros (j & Hj). destruct (find_from_sound _ _ _ _ Hj) as (pre & post & -> & _). by exists pre, post.
  - intros (pre & post & ->). destruct (find_from_complete p pre post 0) as (j & -> & _). by exists j.
Qed.

Lemma find_none_prefix p b c : bytes_find p (b ++ c) = None → bytes_find p b = None.
Proof.
  intros Hn. destruct (bytes_find p b) as [j|] eqn:E; [|done].
  destruct (find_from_sound _ _ _ _ E) as (pre & post & -> & _).
  destruct (find_from_complete p pre (post ++ c) 0) as (k & Hk & _).
  unfold bytes_find in Hn. rewrite <- !app_assoc in Hn. congruence.
Qed.

Lemma rfind_from_complete p pre post i : is_Some (rfind_from p (pre ++ p ++ post) i).
Proof.
  revert i. induction pre as [|x pre IH]; intros i.
  - cbn [app]. assert (starts_with p (p ++ post) = true) as Hs by apply starts_with_app.
    destruct (p ++ post); cbn [rfind_from]; rewrite Hs; [done|]. by destruct (rfind_from p l (i + 1)).
  - cbn [app rfind_from]. destruct (IH (i + 1)) as (j & ->). done.
Qed.

Lemma rfind_from_sound p b i j :
  rfind_from p b i = Some j →
  ∃ pre post, b = pre ++ p ++ post ∧ j = i + len pre
    ∧ ∀ pre' post', b = pre' ++ p ++ post' → len pre' <= len pre.
Proof.
  revert i. induction b as [|x b IH]; intros i; cbn [rfind_from].
  - destruct (starts_with p []) eqn:Hs; [|done]. intros [= <-]. apply starts_with_spec in Hs as (post & E).
    exists [], post. split_and!; [done|rewrite len_nil; lia|]. intros pre' post' E'.
    symmetry in E'. apply app_eq_nil in E' as [-> _]. rewrite len_nil. lia.
  - destruct (rfind_from p b (i + 1)) as [k|] eqn:Hr.
    + intros [= <-]. destruct (IH _ Hr) as (pre & post & -> & -> & Hmax). exists (x :: pre), post.
      split_and!; [done|rewrite len_cons; lia|]. intros [|y pre'] post' E; rewrite ?len_cons, ?len_nil.
      * pose proof (len_nonneg pre). lia.
      * injection E as -> E. specialize (Hmax _ _ E). lia.
    + destruct (starts_with p _) eqn:Hs; [|done]. intros [= <-]. apply starts_with_spec in Hs as (post & E).
      exists [], post. split_and!; [done|rewrite len_nil; lia|]. intros [|y pre'] post' E'; [rewrite len_nil; lia|].
      injection E' as -> ->. destruct (rfind_from_complete p pre' post' (i + 1)) as (k & Hk). congruence.
Qed.

(** ** The status block *)

Section markers.
Context (B E : bytes).

(** [block] is the part of [received] from the last begin marker before the
    first end marker up to that end marker. *)
Definition framed (received block : bytes) : Prop :=
  ∃ noise body tail, received = noise ++ block ++ tail
    ∧ block = B ++ body ++ E
    ∧ (∀ pre post, received = pre ++ E ++ post → len (noise ++ B ++ body) <= len pre)
    ∧ (∀ pre post, noise ++ B ++ body = pre ++ B ++ post → len pre <= len noise).

Lemma marked_block_framed received block : marked_block B E received = Ok (Some block) → framed received block.
Proof.
  unfold marked_block. destruct (bytes_find E received) as [stop|] eqn:Hf; [|done].
  destruct (find_from_sound _ _ _ _ Hf) as (pre & tail & -> & -> & Hmin). rewrite Z.add_0_l.
  rewrite slice_app_l by done. destruct (bytes_rfind B pre) as [begin|] eqn:Hr; [|done].
  destruct (rfind_from_sound _ _ _ _ Hr) as (noise & body & -> & -> & Hmax). rewrite Z.add_0_l. intros [= <-].
  exists noise, body, tail. replace (slice _ _ _) with (B ++ body ++ E).
  - split_and!; [by rewrite <- !app_assoc|done| |exact Hmax]. intros pre post F. apply (Hmin pre post).
    rewrite <- F, <- !app_assoc. done.
  - symmetry. rewrite <- !app_assoc.
    replace (noise ++ B ++ body ++ E ++ tail)
      with (noise ++ (B ++ body ++ E) ++ tail) by by rewrite <- !app_assoc.
    apply (slice_field _ _ noise (B ++ body ++ E) tail); rewrite ?len_app; lia.
Qed.

Lemma framed_unique received b c : framed received b → framed received c → b = c.
Proof.
  intros (n & y & t & D & -> & Hmin & Hmax) (n' & y' & t' & D' & -> & Hmin' & Hmax').
  assert (received = (n ++ B ++ y) ++ E ++ t) as F by (rewrite D, <- !app_assoc; done).
  assert (received = (n' ++ B ++ y') ++ E ++ t') as F' by (rewrite D', <- !app_assoc; done).
  pose proof (Hmin _ _ F'). pose proof (Hmin' _ _ F).
  assert (n ++ B ++ y = n' ++ B ++ y') as G.
  { rewrite F in F'. apply app_inj_1 in F' as [G _]; [done|]. unfold len in *. lia. }
  pose proof (Hmax _ _ G). pose proof (Hmax' _ _ (eq_sym G)).
  apply app_inj_1 in G as [_ G]; [|unfold len in *; lia]. by rewrite !(assoc_L (++)), G.
Qed.

Lemma framed_marked_block received block : framed received block → marked_block B E received = Ok (Some block).
Proof.
  intros Hb. assert (∃ c, marked_block B E received = Ok (Some c)) as (c & Hc).
  { destruct Hb as (n & y & t & -> & -> & Hmin & _). unfold marked_block.
    destruct (find_from_complete E (n ++ B ++ y) t 0) as (j & Hj & Hle).
    replace ((n ++ B ++ y) ++ E ++ t) with (n ++ (B ++ y ++ E) ++ t) in Hj
      by by rewrite <- !app_assoc.
    unfold bytes_find. rewrite Hj. destruct (find_from_sound _ _ _ _ Hj) as (p & q & F & -> & _).
    specialize (Hmin _ _ F). replace (slice 0 _ _) with (n ++ B ++ y).
    - destruct (rfind_from_complete B n y 0) as (k & Hk). unfold bytes_rfind. rewrite Hk. by eexists.
    - symmetry. rewrite Z.add_0_l in *. replace (n ++ (B ++ y ++ E) ++ t)
        with ((n ++ B ++ y) ++ E ++ t) by by rewrite <- !app_assoc.
      apply (slice_app_l _ (n ++ B ++ y)). lia. }
  rewrite Hc. f_equal. f_equal. eapply framed_unique; [by apply marked_block_framed|done].
Qed.
End markers.

(** ** A scripted serial line

    The chunks that successive reads give; [None] is a disconnection, and a line
    that has nothing more to say is silent. *)

Record line := mkLine { ln_clock : Z; ln_chunks : list (option bytes); ln_sent : bytes }.

#[export] Instance line_serial : SerialWorld line := {|
  serial_write := λ b w, (mkLine (ln_clock w) (ln_chunks w) (ln_sent w ++ b), Ok tt);
  serial_flush := λ w, (w, Ok tt);
  serial_read := λ _ w,
    match ln_chunks w with
    | [] => (w, Ok [])
    | Some b :: l => (mkLine (ln_clock w) l (ln_sent w), Ok b)
    | None :: l => (mkLine (ln_clock w) l (ln_sent w), Raise (OSError "gone"))
    end;
  serial_monotonic := λ w, (w, ln_clock w);
  serial_sleep := λ ms w, mkLine (ln_clock w + ms) (ln_chunks w) (ln_sent w);
|}.

Lemma within_earlier began timeout now now' :
  within began timeout now' = true → now <= now' → within began timeout now = true.
Proof.
  unfold within. intros Hw Hle. destruct timeout as [|[]| |s m e]; try done; [lia|].
  destruct (0 <=? e); [lia|]. pose proof (Z.pow_nonneg 2 (- e)). nia.
Qed.

(** The loop reads chunk after chunk until the check succeeds. *)
Lemma await_script fuel check lost expired began timeout received chunks chunk rest b w :
  ln_chunks w = map Some chunks ++ Some chunk :: rest →
  (length chunks < fuel)%nat → chunk ≠ [] →
  (∀ k, (k ≤ length chunks)%nat → check (received ++ concat (take k chunks)) = Ok None) →
  check (received ++ concat chunks ++ chunk) = Ok (Some b) →
  within began timeout (ln_clock w + 5 * len chunks) = true →
  await_reply fuel check lost expired began timeout received w
  = (mkLine (ln_clock w + 5 * len chunks) rest (ln_sent w), Ok (Some b)).
Proof.
  revert fuel received w. induction chunks as [|c chunks IH]; intros [|fuel] received [clk l sent]; cbn [ln_chunks ln_clock ln_sent];
    intros -> Hf Hne Hnone Hc Ht; try (cbn in Hf; lia); cbn [await_reply].
  - change (len (@nil bytes)) with 0 in *. rewrite Z.mul_0_r, Z.add_0_r in *. unfold mbind, io_bind, serial_now. cbn. rewrite Ht. cbn.
    destruct (truthy (len chunk)) eqn:Hl; [|unfold truthy in Hl; pose proof (len_ne_pos chunk Hne); lia].
    cbn in Hc. rewrite Hc. done.
  - rewrite len_cons in *. assert (within began timeout clk = true) as Hw.
    { eapply within_earlier; [exact Ht|]. pose proof (len_nonneg chunks). lia. }
    unfold mbind, io_bind, serial_now. cbn [serial_monotonic line_serial ln_clock]. rewrite Hw. cbn [negb].
    cbn [serial_read line_serial map app ln_chunks]. unfold lift, modify. cbn [serial_sleep line_serial].
    assert ((if truthy (len c) then check (received ++ c) else Ok None) = Ok None) as ->.
    { destruct (truthy (len c)); [|done]. specialize (Hnone 1%nat). cbn in Hnone.
      rewrite app_nil_r in Hnone. apply Hnone. lia. }
    erewrite (IH fuel (received ++ c)); cbn [ln_chunks ln_clock ln_sent]; [|done|cbn in Hf; lia|done| | |].
    + do 2 f_equal. lia.
    + intros k Hk. specialize (Hnone (S k)). cbn in Hnone. rewrite <- app_assoc. apply Hnone. lia.
    + rewrite <- !app_assoc. by cbn in Hc; rewrite <- !app_assoc in Hc.
    + replace (clk + 5 + 5 * len chunks) with (clk + 5 * (1 + len chunks)) by lia. done.
Qed.

Lemma concat_take_prefix {A} (l : list (list A)) k : ∃ rest, concat l = concat (take k l) ++ rest.
Proof. exists (concat (drop k l)). by rewrite <- concat_app, take_drop. Qed.

(** Any request over the script *)
Lemma cdc_request_script fuel request check lost expired timeout clk chunks chunk rest sent b :
  (length chunks < fuel)%nat → chunk ≠ [] →
  (∀ k, (k ≤ length chunks)%nat → check (concat (take k chunks)) = Ok None) →
  check (concat chunks ++ chunk) = Ok (Some b) →
  within clk timeout (clk + 5 * len chunks) = true →
  cdc_request fuel request check lost expired timeout (mkLine clk (map Some chunks ++ Some chunk :: rest) sent)
  = (mkLine (clk + 5 * len chunks) rest (sent ++ request), Ok (Some b)).
Proof.
  intros Hf Hne Hnone Hc Ht. unfold cdc_request. unfold mbind, io_bind. cbn.
  by rewrite (await_script _ _ _ _ _ _ _ chunks chunk rest b).
Qed.

Lemma not_in_prefix p chunks k : bytes_in p (concat chunks) = false → bytes_find p (concat (take k chunks)) = None.
Proof.
  intros Hn. destruct (concat_take_prefix chunks k) as (r & Hr). rewrite Hr in Hn.
  apply (find_none_prefix _ _ r). unfold bytes_in in Hn. apply bool_decide_eq_false in Hn.
  destruct (bytes_find p _); [|done]. by destruct Hn.
Qed.

(** ** Theorems *)

(** a status request writes exactly the request, and returns the status
    block of the device, from the last begin marker before the first end marker
    to that end marker, however the octets are cut into chunks, whatever
    precedes the block or follows it, and it reads no further than the chunk
    that completes the block. *)
Theorem status_request_block fuel timeout clk chunks chunk rest sent block :
  (length chunks < fuel)%nat → chunk ≠ [] →
  framed STATUS_BEGIN STATUS_END (concat chunks ++ chunk) block →
  bytes_in STATUS_END (concat chunks) = false →
  within clk timeout (clk + 5 * len chunks) = true →
  send_status_request fuel timeout (mkLine clk (map Some chunks ++ Some chunk :: rest) sent)
  = (mkLine (clk + 5 * len chunks) rest (sent ++ STATUS_REQUEST), Ok (Some block)).
Proof.
  intros Hf Hne Hb Hn Ht. unfold send_status_request. apply cdc_request_script; try done.
  - intros k Hk. unfold status_block, marked_block. by rewrite not_in_prefix.
  - by apply framed_marked_block.
Qed.

(** A result of any loop passed the check, or came from a disconnection. *)
Lemma await_result {W} `{SerialWorld W} fuel check lost expired began timeout received (w w' : W) b :
  await_reply fuel check lost expired began timeout received w = (w', Ok (Some b)) →
  (∃ r, check r = Ok (Some b)) ∨ (∃ exc r, lost exc r = Ok b).
Proof.
  revert received w. induction fuel as [|fuel IH]; intros received w; cbn [await_reply]; intros E; io_inv.
  case_match; [io_inv|]. destruct (serial_read 4096 _) as [w2 [chunk|[]]]; io_inv; try done.
  - rename select (option (list _)) into o. destruct o; io_inv; [|by eapply IH].
    left. destruct (truthy (len chunk)); [by eexists|done].
  - right. by eexists _, _.
Qed.
Lemma cdc_request_acknowledged {W} `{SerialWorld W} fuel request ack name expired timeout (w w' : W) b :
  cdc_request fuel request (acknowledged ack) (lost_ack ack name) expired timeout w = (w', Ok (Some b)) →
  bytes_in ack b = true.
Proof.
  unfold cdc_request. intros E. io_inv. rename select (await_reply _ _ _ _ _ _ _ _ = _) into Ha.
  apply await_result in Ha as [(r & Hr)|(exc & r & Hr)]; unfold acknowledged, lost_ack in Hr;
    destruct (bytes_in ack r) eqn:Hin; naive_solver.
Qed.

Lemma status_framed {W} `{SerialWorld W} fuel timeout (w w' : W) b :
  send_status_request fuel timeout w = (w', Ok (Some b)) → ∃ r, framed STATUS_BEGIN STATUS_END r b.
Proof.
  unfold send_status_request, cdc_request. intros E. io_inv. rename select (await_reply _ _ _ _ _ _ _ _ = _) into Ha.
  apply await_result in Ha as [(r & Hr)|(exc & r & Hr)]; [|done]. exists r. by apply marked_block_framed.
Qed.

(** a reboot or bootloader request over CDC writes exactly the request and
    returns as soon as the acknowledgement is complete, with every octet read
    so far, however they are cut into chunks; and whatever the line does, a
    request that succeeds was acknowledged. *)
Theorem cdc_acknowledged fuel timeout clk chunks chunk rest sent :
  (length chunks < fuel)%nat → chunk ≠ [] →
  within clk timeout (clk + 5 * len chunks) = true →
  (bytes_in BOOTLOADER_ACK (concat chunks) = false → bytes_in BOOTLOADER_ACK (concat chunks ++ chunk) = true →
   send_bootloader_request fuel timeout (mkLine clk (map Some chunks ++ Some chunk :: rest) sent)
   = (mkLine (clk + 5 * len chunks) rest (sent ++ BOOTLOADER_REQUEST), Ok (Some (concat chunks ++ chunk))))
  ∧ (bytes_in REBOOT_ACK (concat chunks) = false → bytes_in REBOOT_ACK (concat chunks ++ chunk) = true →
     send_reboot_request fuel timeout (mkLine clk (map Some chunks ++ Some chunk :: rest) sent)
     = (mkLine (clk + 5 * len chunks) rest (sent ++ REBOOT_REQUEST), Ok (Some (concat chunks ++ chunk))))
  ∧ (∀ W `{SerialWorld W} (w w' : W) b,
       (send_bootloader_request fuel timeout w = (w', Ok (Some b)) → bytes_in BOOTLOADER_ACK b = true)
       ∧ (send_reboot_request fuel timeout w = (w', Ok (Some b)) → bytes_in REBOOT_ACK b = true)).
Proof.
  intros Hf Hne Ht. split_and!.
  1,2: intros Hn Hy; apply cdc_request_script; try done; unfold acknowledged; [|by rewrite Hy];
       intros k Hk; unfold bytes_in; by rewrite not_in_prefix.
  intros W ? w w' b. split; apply cdc_request_acknowledged.
Qed.


(** [reply] acknowledges this very control. *)
Definition acknowledges (operation sequence : Z) (reply : Message) : Prop :=
  message_type reply = TYPE_RUNTIME_STATUS ∧ Protocol.sequence reply = sequence ∧ status reply = STATUS_OK
  ∧ payload reply = [byte.of_Z operation].

Lemma control_ack_spec operation sequence report reply :
  control_ack operation sequence report = Ok reply
  ↔ received report reply ∧ acknowledges operation sequence reply.
Proof.
  unfold control_ack, received, acknowledges. split.
  - intros E. py_inv. rename select (bytes_eqb _ _ = true) into Hb. apply bytes_eqb_eq in Hb.
    split; [by eexists|]. split_and!; try lia. done.
  - intros [(record & Hr & Hd) (Ht & Hs & Hst & Hp)]. rewrite Hr. cbn. rewrite Hd. cbn.
    by rewrite Ht, Hs, Hst, Hp, !Z.eqb_refl, bytes_eqb_refl.
Qed.

Lemma await_ack_genuine {W} `{HidWorld W} fuel operation sequence began timeout (w w' : W) reply :
  await_ack fuel operation sequence began timeout w = (w', Ok (Some reply)) →
  ∃ w1 w2 report, hid_read (MESSAGE_SIZE + 1) w1 = (w2, Ok report)
    ∧ received report reply ∧ acknowledges operation sequence reply.
Proof.
  revert w. induction fuel as [|fuel IH]; intros w; cbn [await_ack]; intros E; io_inv.
  case_match; io_inv. case_match; io_inv; [|by eapply IH].
  rename select (control_ack _ _ _ = Ok _) into Hc. apply control_ack_spec in Hc as [??]. by eexists _, _, _.
Qed.

(** Silence costs a millisecond per read; the first report decides. *)
Lemma await_ack_script fuel operation sequence began timeout clk n report rest sent :
  (n < fuel)%nat → report ≠ [] → sent ≠ [] → within began timeout (clk + Z.of_nat n) = true →
  (await_ack fuel operation sequence began timeout (mkScript clk [] (replicate n [] ++ report :: rest) sent)).2
  = (reply ← control_ack operation sequence report; Ok (Some reply)).
Proof.
  revert fuel clk. induction n as [|n IH]; intros [|fuel] clk Hf Hr Hs Ht; try lia; cbn [await_ack].
  - destruct sent as [|b sent]; [done|]. rewrite Z.add_0_r in Ht. unfold mbind, io_bind, now. cbn. rewrite Ht. cbn.
    destruct (truthy (len report)) eqn:Hl; [|unfold truthy in Hl; pose proof (len_ne_pos report Hr); lia].
    unfold lift. by destruct (control_ack operation sequence report).
  - assert (within began timeout clk = true) as Hw by (eapply within_earlier; [exact Ht|lia]).
    destruct sent as [|b sent]; [done|]. unfold mbind, io_bind, now. cbn. rewrite Hw. cbn.
    apply IH; try done; [lia|]. rewrite <- Ht. f_equal. cbn [sc_clock]. lia.
Qed.

Lemma control_genuine {W} `{HidWorld W} fuel operation sequence timeout (w w' : W) reply :
  exchange_hid_runtime_control fuel operation sequence timeout w = (w', Ok (Some reply)) →
  ∃ w1 w2 report, hid_read (MESSAGE_SIZE + 1) w1 = (w2, Ok report)
    ∧ received report reply ∧ acknowledges operation sequence reply.
Proof.
  intros E. unfold exchange_hid_runtime_control in E. io_inv.
  case_match; io_inv. case_match; io_inv. by eapply await_ack_genuine.
Qed.

(** a runtime control that succeeds was acknowledged by a report read from
    the device with this sequence and this operation.  After the old reports
    are drained and the request is written, the first report that arrives in
    time decides: it is the acknowledgement, or its defect is the error. *)
Theorem runtime_control_decided fuel operation sequence timeout clk old n report rest record :
  (∀ W `{HidWorld W} (w w' : W) reply,
     exchange_hid_runtime_control fuel operation sequence timeout w = (w', Ok (Some reply)) →
     ∃ w1 w2 report, hid_read (MESSAGE_SIZE + 1) w1 = (w2, Ok report)
       ∧ received report reply ∧ acknowledges operation sequence reply)
  ∧ (encode (request_message TYPE_RUNTIME_CONTROL sequence [byte.of_Z operation]) = Ok record →
     Forall (λ b, b ≠ []) old → (length old < fuel)%nat → (n < fuel)%nat → report ≠ [] →
     within clk timeout (clk + Z.of_nat n) = true →
     (exchange_hid_runtime_control fuel operation sequence timeout
        (mkScript clk old (replicate n [] ++ report :: rest) [])).2
     = (reply ← control_ack operation sequence report; Ok (Some reply))).
Proof.
  split.
  - intros W ? w w' reply. apply control_genuine.
  - intros He Ho Hf Hn Hr Ht. unfold exchange_hid_runtime_control. pose proof (encode_len _ _ He) as Hlen.
    unfold mbind at 1, io_bind at 1. rewrite script_drain_input by done. cbn [negb sc_clock sc_new].
    assert (hid_output_report record = Ok (Byte.x00 :: record)) as Hrep
      by (unfold hid_output_report; by rewrite Hlen, Z.eqb_refl).
    rewrite He. unfold lift at 1. unfold mbind at 1, io_bind at 1.
    unfold lift at 1. unfold mbind at 1, io_bind at 1. rewrite Hrep.
    unfold mbind at 1, io_bind at 1. cbn [hid_write script_world sc_clock sc_old sc_new sc_sent app].
    rewrite len_cons, Hlen. change (1 + MESSAGE_SIZE =? MESSAGE_SIZE + 1) with true. cbn [negb].
    unfold mbind at 1, io_bind at 1, now at 1. cbn [monotonic script_world sc_clock].
    by apply await_ack_script.
Qed.

(** ** The choice of a port *)

(** The port is an interface of the device, with the serial number that was asked for. *)
Definition candidate (serial_number : option string) (p : com_port) : bool :=
  bool_decide (cp_vid p = Some USB_VID) && bool_decide (cp_pid p = Some USB_PID)
  && match serial_number with Some n => String.eqb (or_empty (cp_serial p)) n | None => true end.

Definition as_cdc (p : com_port) : cdc_port :=
  mkCdcPort (cp_device p) (or_empty (cp_serial p)) (or_empty (cp_description p)).

Lemma candidates_filter n ports :
  match n with
  | None => list_cdc_ports ports
  | Some s => filter (λ c, String.eqb (port_serial c) s = true) (list_cdc_ports ports)
  end = map as_cdc (filter (λ p, candidate n p = true) ports).
Proof.
  unfold list_cdc_ports. fold as_cdc.
  assert (∀ p, candidate n p = true ↔ (cp_vid p = Some USB_VID ∧ cp_pid p = Some USB_PID)
    ∧ match n with Some s => String.eqb (or_empty (cp_serial p)) s = true | None => True end) as Hc.
  { intros p. unfold candidate. rewrite !andb_true_iff, !bool_decide_eq_true. destruct n; naive_solver. }
  destruct n as [s|]; induction ports as [|p ports IH]; try done; rewrite !filter_cons.
  - specialize (Hc p). case_decide as Hv.
    + cbn [map]. rewrite filter_cons. cbn [port_serial]. repeat case_decide; cbn [map]; rewrite <- ?IH; naive_solver.
    + rewrite decide_False by naive_solver. exact IH.
  - specialize (Hc p). repeat case_decide; cbn [map]; rewrite <- ?IH; naive_solver.
Qed.

Lemma filter_one {A} (P : A → Prop) `{∀ x, Decision (P x)} l x :
  filter P l = [x] ↔ ∃ pre post, l = pre ++ x :: post ∧ P x ∧ Forall (λ y, ¬ P y) (pre ++ post).
Proof.
  split.
  - induction l as [|y l IH]; [done|]. rewrite filter_cons. case_decide as Hy.
    + intros [= -> Hn]. exists [], l. split; [done|]. split; [done|]. cbn.
      apply Forall_forall. intros z Hz Hpz. assert (z ∈ filter P l) as Hin by (by apply list_elem_of_filter).
      rewrite Hn in Hin. by apply not_elem_of_nil in Hin.
    + intros Hl. destruct (IH Hl) as (pre & post & -> & Hx & Hf). exists (y :: pre), post.
      split; [done|]. split; [done|]. by constructor.
  - intros (pre & post & -> & Hx & [Hpre Hpost]%Forall_app). rewrite filter_app, filter_cons_True by done.
    assert (∀ k, Forall (λ y, ¬ P y) k → filter P k = []) as Hnil.
    { induction 1; [done|]. by rewrite filter_cons_False. }
    by rewrite !Hnil.
Qed.

Lemma select_one ports n p :
  select_cdc_port (list_cdc_ports ports) n = Ok p
  ↔ ∃ x, filter (λ q, candidate n q = true) ports = [x] ∧ p = cp_device x.
Proof.
  unfold select_cdc_port. rewrite candidates_filter.
  destruct (filter _ ports) as [|x [|y l]]; cbn [map]; naive_solver.
Qed.

(** without an explicit port a port is chosen exactly when it is the only
    interface of a device with the wanted serial number; one of several is
    never picked, and the order in which the system lists the ports does not
    matter. *)
Theorem port_selection ports ports' serial_number p :
  (resolve_cdc_port ports None serial_number = Ok (p, true)
   ↔ ∃ pre x post, ports = pre ++ x :: post ∧ p = cp_device x ∧ candidate serial_number x = true
       ∧ Forall (λ y, candidate serial_number y ≠ true) (pre ++ post))
  ∧ (ports ≡ₚ ports' →
     resolve_cdc_port ports None serial_number = Ok (p, true)
     ↔ resolve_cdc_port ports' None serial_number = Ok (p, true)).
Proof.
  assert (∀ l, resolve_cdc_port l None serial_number = Ok (p, true)
            ↔ ∃ x, filter (λ q, candidate serial_number q = true) l = [x] ∧ p = cp_device x) as Hr.
  { intros l. unfold resolve_cdc_port. rewrite <- select_one. destruct (select_cdc_port _ _); cbn; naive_solver. }
  rewrite !Hr. split.
  - split.
    + intros (x & Hx & ->). apply filter_one in Hx as (pre & post & ? & ? & ?). by exists pre, x, post.
    + intros (pre & x & post & ? & -> & ? & ?). exists x. split; [|done]. apply filter_one. by exists pre, post.
  - intros Hp. assert (∀ x, filter (λ q, candidate serial_number q = true) ports = [x]
                         ↔ filter (λ q, candidate serial_number q = true) ports' = [x]) as He; [|by setoid_rewrite He].
    intros x. split; intros Hx; apply Permutation_singleton_r; rewrite <- Hx; [symmetry|]; by apply filter_Permutation.
Qed.

(** ** Witnesses *)

Definition five_seconds : spec_float := S754_finite false 5 0.
Definition status_text : bytes := lit "noise RP86 STATUS BEGIN..core=ok..RP86 STATUS END..more".

Example status_request_block_witness :
  send_status_request 10 five_seconds
    (mkLine 0 (map Some [slice 0 30 status_text] ++ [Some (slice_from 30 status_text)]) [])
  = (mkLine 5 [] STATUS_REQUEST, Ok (Some (lit "RP86 STATUS BEGIN..core=ok..RP86 STATUS END"))).
Proof.
  apply (status_request_block 10 five_seconds 0 [slice 0 30 status_text] (slice_from 30 status_text) [] []).
  - vm_compute. lia.
  - vm_compute. discriminate.
  - apply (marked_block_framed STATUS_BEGIN STATUS_END). vm_compute. reflexivity.
  - vm_compute. reflexivity.
  - vm_compute. reflexivity.
Defined.

Example cdc_acknowledged_witness :
  send_reboot_request 10 five_seconds (mkLine 0 (map Some [lit "RP86 REB"] ++ [Some (lit "OOT ACK")]) [])
  = (mkLine 5 [] REBOOT_REQUEST, Ok (Some (lit "RP86 REBOOT ACK"))).
Proof.
  destruct (cdc_acknowledged 10 five_seconds 0 [lit "RP86 REB"] (lit "OOT ACK") [] []) as (_ & Hr & _).
  - vm_compute. lia.
  - vm_compute. discriminate.
  - vm_compute. reflexivity.
  - apply Hr; vm_compute; reflexivity.
Defined.

(** A report that is no record ends the control with [ValueError], which the
    session does not expect there. *)
Example control_malformed_report :
  (exchange_hid_runtime_control 10 RUNTIME_CONTROL_REBOOT 1 five_seconds (mkScript 0 [] [lit "short"] [])).2
  = Raise (ValueError "HID reply must contain exactly 64 ABI bytes; got 5").
Proof. vm_compute. reflexivity. Qed.
