(* ===== verification/Evidence.v ===== *)
(** * Evidence of one session (host/rp86/session_evidence.py)

    [SessionEvidence] collects the captured stream, the events, the terminal
    workload results, the errors and the bus diagnostics of a session.  The
    wall-clock text of each record is an argument.  [observation_step] is one
    call the session makes; the theorem follows every sequence of calls and
    shows where a recorded PASS and the metadata of an image come from. *)

From S2P Require Import Prelude Struct PyText Json Protocol Memory Workload RuntimeState Diagnostics.
From Stdlib Require Import Ascii.


Definition regression_failure_reasons (state : WorkloadRuntimeState) : list string :=
  let checks :=
    [(w_completed state, "workload did not complete");
     (passed state, "native PASS flag absent");
     (processor_identified state, "validated processor identity unavailable");
     ((completion_reason state =? 2)%Z, "completion reason is not NATIVE_HLT");
     (bytes_eqb (native_output state) (lit "RESULT: PASS"), "native output is not exact RESULT: PASS")]%string in
  map snd (List.filter (λ c : bool * string, negb c.1) checks).

Record SessionEvidence := mkEvidence {
  captured : bytes;
  events : list document;
  workload_results : list document;
  errors : list document;
  bus_diagnostics : list document;
  _image : option document;
  _image_workload_id : option Z;
  _last_terminal : option document;
}.

(** [create]: the two paths are derived from the start time. *)
Definition evidence_paths (timestamp : string) : string * string :=
  ("runtime_session_" +:+ timestamp +:+ ".log", "runtime_session_" +:+ timestamp +:+ ".json").
Definition evidence_init : SessionEvidence := mkEvidence [] [] [] [] [] None None None.

Definition capture (data : bytes) (s : SessionEvidence) : SessionEvidence :=
  mkEvidence (captured s ++ data) (events s) (workload_results s) (errors s) (bus_diagnostics s)
    (_image s) (_image_workload_id s) (_last_terminal s).

Definition record (event : document) (s : SessionEvidence) : SessionEvidence :=
  mkEvidence (captured s) (events s ++ [event]) (workload_results s) (errors s) (bus_diagnostics s)
    (_image s) (_image_workload_id s) (_last_terminal s).

(** [s.replace(BACKSLASH, SLASH).rsplit(SLASH, 1)[-1]] *)
Fixpoint base_name (s : string) : string :=
  match s with
  | EmptyString => EmptyString
  | String c s' =>
      if has_char "/" s' || has_char backslash s' then base_name s'
      else if Ascii.eqb c "/" || Ascii.eqb c backslash then s' else s
  end.

(** [asdict(manifest)] *)
Definition manifest_asdict (m : WorkloadManifest) : document :=
  [("image_size", JInt (image_size m)); ("image_crc32", JInt (image_crc32 m));
   ("load_address", JInt (load_address m)); ("entry_segment", JInt (entry_segment m));
   ("entry_offset", JInt (entry_offset m)); ("stack_segment", JInt (stack_segment m));
   ("stack_offset", JInt (stack_offset m)); ("shared_base", JInt (shared_base m));
   ("shared_size", JInt (shared_size m)); ("flags", JInt (m_flags m))]%string.

Definition image_document (source : string) (manifest : WorkloadManifest) : document :=
  [("source", JStr source); ("name", JStr (base_name source));
   ("metadata_source", JStr "host_accepted_upload")]%string ++ manifest_asdict manifest.

Definition bind_workload (workload_id : Z) (source : string) (manifest : WorkloadManifest)
    (s : SessionEvidence) : SessionEvidence :=
  mkEvidence (captured s) (events s) (workload_results s) (errors s) (bus_diagnostics s)
    (Some (image_document source manifest)) (Some workload_id) (_last_terminal s).

Definition failure (now operation reason : string) (details : document) (s : SessionEvidence) : SessionEvidence :=
  mkEvidence (captured s) (events s) (workload_results s)
    (errors s ++ [[("observed_at", JStr now); ("operation", JStr operation); ("reason", JStr reason)]%string ++ details])
    (bus_diagnostics s) (_image s) (_image_workload_id s) (_last_terminal s).

(** The verdict of a snapshot: [passed] (Python's [True], [False] or [None]) and
    the reason of a failure *)
Definition verdict (state : WorkloadRuntimeState) : option bool * option string :=
  let p := if structured_result state && w_completed state then Some (passed state) else None in
  if z_in (lifecycle state) [6; 7] then (Some false, Some (completion_reason_name state))
  else if w_completed state && bool_decide (p = Some false) then (p, Some "native PASS flag absent"%string)
  else if w_completed state && negb (structured_result state) then (p, Some "structured result unavailable"%string)
  else (p, None).

Definition outcome (state : WorkloadRuntimeState) (p : option bool) : string :=
  match p with
  | Some true => "PASS"
  | Some false => "FAIL"
  | None => if w_completed state then "UNPROVEN" else "INCOMPLETE"
  end.

Definition workload_snapshot (state : WorkloadRuntimeState) (s : SessionEvidence) : result document :=
  let '(p, failure_reason) := verdict state in
  processor ← runtime_processor state;
  Ok [("workload_id", JInt (workload_id state));
      ("image", if bool_decide (_image_workload_id s = Some (workload_id state))
                then jopt JObj (_image s) else JNull);
      ("lifecycle", JStr (lifecycle_name state));
      ("lifecycle_code", JInt (lifecycle state));
      ("detail", JInt (detail state));
      ("clock_mode", JStr (clock_name state));
      ("cycles", JInt (cycles state));
      ("processor_state", JStr (processor_state state));
      ("processor_flags", JInt (processor_flags state));
      ("processor_identity", JObj
        [("processor", jopt JStr processor);
         ("signature", JInt (processor_signature state));
         ("validated", JBool (processor_identified state));
         ("source", if processor_identified state then JStr "firmware_boot_aad16" else JNull);
         ("fresh_liveness_proof", JBool false)]);
      ("structured", JBool (structured_result state));
      ("completion_reason", JStr (completion_reason_name state));
      ("completion_reason_code", JInt (completion_reason state));
      ("result_flags", JInt (result_flags state));
      ("native_output", JObj
        [("hex", JStr (bytes_hex (native_output state)));
         ("byte_length", JInt (len (native_output state)));
         ("text", JStr (decode_utf8_replace (native_output state)));
         ("truncated", JBool (has_bit (result_flags state) RESULT_FLAG_NATIVE_OUTPUT_TRUNCATED))]);
      ("passed", jopt JBool p);
      ("outcome", JStr (outcome state p));
      ("failure_reason", jopt JStr failure_reason)]%string.

Definition set_image (image : option document) (id : option Z) (s : SessionEvidence) : SessionEvidence :=
  mkEvidence (captured s) (events s) (workload_results s) (errors s) (bus_diagnostics s) image id (_last_terminal s).
Definition set_terminal (results : list document) (last : option document) (s : SessionEvidence) : SessionEvidence :=
  mkEvidence (captured s) (events s) results (errors s) (bus_diagnostics s) (_image s) (_image_workload_id s) last.

Definition observe_workload (now : string) (state : WorkloadRuntimeState) : io SessionEvidence unit := λ s,
  let s := if bool_decide (_image_workload_id s = Some (workload_id state)) then s else set_image None None s in
  if negb (z_in (lifecycle state) [4; 5; 6; 7]) then (set_terminal (workload_results s) None s, Ok tt)
  else match workload_snapshot state s with
       | Raise e => (s, Raise e)
       | Ok snapshot =>
           if match _last_terminal s with Some last => json_eqb (JObj snapshot) (JObj last) | None => false end
           then (s, Ok tt)
           else (set_terminal (workload_results s ++ [("observed_at", JStr now)%string :: snapshot]) (Some snapshot) s, Ok tt)
       end.

Definition retain_diagnostics (now : string) (snapshot : BusDiagnostics) : io SessionEvidence unit := λ s,
  match diagnostics_as_dict snapshot with
  | Raise e => (s, Raise e)
  | Ok document =>
      if match last (bus_diagnostics s) with
         | Some previous => forallb (λ '(key, value), json_eqb (jget key previous) value) document
         | None => false
         end
      then (s, Ok tt)
      else (mkEvidence (captured s) (events s) (workload_results s) (errors s)
              (bus_diagnostics s ++ [("observed_at", JStr now)%string :: document])
              (_image s) (_image_workload_id s) (_last_terminal s), Ok tt)
  end.

(** [write]: the octets of the log and the document of the JSON file *)
Definition evidence_write (summary : document) (raw_path : string) (s : SessionEvidence) : bytes * document :=
  let d := jset "events" (JList (map JObj (events s))) summary in
  let d := jset "workload_results" (JList (map JObj (workload_results s))) d in
  let d := jset "errors" (JList (map JObj (errors s))) d in
  let d := jset "bus_diagnostics" (JList (map JObj (bus_diagnostics s))) d in
  let d := jset "raw_cdc_log" (JStr raw_path) d in
  (captured s, d).

(** ** Theorems *)

(** The list of reasons is empty exactly when the physical regression passed. *)
Lemma regression_reasons_empty state :
  regression_failure_reasons state = [] ↔ physical_regression_passed state = true.
Proof.
  unfold regression_failure_reasons, physical_regression_passed.
  destruct (w_completed state), (passed state), (processor_identified state), (completion_reason state =? 2),
    (bytes_eqb (native_output state) (lit "RESULT: PASS")); cbn; naive_solver.
Qed.

(** One call of the session *)
Inductive evidence_call :=
| Capture (data : bytes)
| Record_ (event : document)
| Bind (id : Z) (source : string) (manifest : WorkloadManifest)
| Failure (now operation reason : string) (details : document)
| Observe (now : string) (state : WorkloadRuntimeState)
| Diagnose (now : string) (snapshot : BusDiagnostics).

Definition evidence_step (c : evidence_call) (s : SessionEvidence) : SessionEvidence :=
  match c with
  | Capture data => capture data s
  | Record_ event => record event s
  | Bind id source manifest => bind_workload id source manifest s
  | Failure now operation reason details => failure now operation reason details s
  | Observe now state => (observe_workload now state s).1
  | Diagnose now snapshot => (retain_diagnostics now snapshot s).1
  end.
Definition evidence_run (calls : list evidence_call) : SessionEvidence :=
  foldl (λ s c, evidence_step c s) evidence_init calls.

(** Where one recorded result comes from *)
Definition result_provenance (calls : list evidence_call) (r : document) : Prop :=
  ∃ now state, Observe now state ∈ calls ∧ jget "observed_at" r = JStr now
    ∧ jget "workload_id" r = JInt (workload_id state)
    ∧ lifecycle state ∈ [4; 5; 6; 7]
    ∧ (jget "outcome" r = JStr "PASS" →
       w_completed state = true ∧ structured_result state = true ∧ passed state = true)
    ∧ (∀ d, jget "image" r = JObj d →
       ∃ source manifest, Bind (workload_id state) source manifest ∈ calls ∧ d = image_document source manifest).

Definition evidence_inv (calls : list evidence_call) (s : SessionEvidence) : Prop :=
  (∀ d, _image s = Some d → ∃ id source manifest,
     _image_workload_id s = Some id ∧ Bind id source manifest ∈ calls ∧ d = image_document source manifest)
  ∧ captured s = concat (omap (λ c, match c with Capture data => Some data | _ => None end) calls)
  ∧ events s = omap (λ c, match c with Record_ e => Some e | _ => None end) calls
  ∧ ∀ r, r ∈ workload_results s → result_provenance calls r.

Lemma result_provenance_mono calls c r :
  result_provenance calls r → result_provenance (calls ++ [c]) r.
Proof.
  intros (now & state & Hin & ? & ? & ? & Hp & Hi). exists now, state.
  split; [set_solver|]. split; [done|]. split; [done|]. split; [done|]. split; [done|].
  intros d Hd. destruct (Hi d Hd) as (source & manifest & ? & ?). exists source, manifest. set_solver.
Qed.

Lemma verdict_pass state :
  (verdict state).1 = Some true → w_completed state = true ∧ structured_result state = true ∧ passed state = true.
Proof.
  unfold verdict. destruct (z_in _ _); [done|].
  destruct (structured_result state), (w_completed state), (passed state); cbn; naive_solver.
Qed.

(** A snapshot of a state, taken while the image was bound by one of the calls *)
Lemma snapshot_provenance calls now state s snapshot :
  Observe now state ∈ calls → z_in (lifecycle state) [4; 5; 6; 7] = true →
  (∀ d, _image s = Some d → ∃ id source manifest,
     _image_workload_id s = Some id ∧ Bind id source manifest ∈ calls ∧ d = image_document source manifest) →
  workload_snapshot state s = Ok snapshot →
  result_provenance calls (("observed_at"%string, JStr now) :: snapshot).
Proof.
  intros Hin Hl Himg. unfold workload_snapshot.
  destruct (verdict state) as [p fr] eqn:Hv. intros Hs. py_inv. exists now, state.
  split; [done|]. split; [done|]. split; [done|]. split; [by apply z_in_spec|]. split.
  - intros [= Ho]. apply verdict_pass. rewrite Hv. cbn. unfold outcome in Ho.
    destruct p as [[]|]; [done|done|by destruct (w_completed state)].
  - intros d. unfold jget, str_get. cbn. case_bool_decide as Hid; [|done].
    destruct (_image s) as [d'|] eqn:E; [|done]. cbn. intros [= ->].
    destruct (Himg d eq_refl) as (id & source & manifest & Hid' & ? & ?).
    assert (id = workload_id state) as -> by congruence. by exists source, manifest.
Qed.

Lemma set_image_inv calls s id :
  evidence_inv calls s →
  evidence_inv calls (if bool_decide (_image_workload_id s = Some id) then s else set_image None None s).
Proof. intros (? & ? & ? & ?). case_bool_decide; [done|]. by split. Qed.

Lemma evidence_step_inv calls c s :
  evidence_inv calls s → evidence_inv (calls ++ [c]) (evidence_step c s).
Proof.
  intros (Himg & Hcap & Hev & Hres).
  assert (evidence_inv (calls ++ [c])
    (mkEvidence (captured s ++ match c with Capture data => data | _ => [] end)
       (events s ++ match c with Record_ e => [e] | _ => [] end)
       (workload_results s) (errors s) (bus_diagnostics s) (_image s) (_image_workload_id s) (_last_terminal s)))
    as Hbase.
  { split; [|split; [|split]]; cbn.
    - intros d Hd. destruct (Himg d Hd) as (id & source & manifest & ? & ? & ?).
      exists id, source, manifest. set_solver.
    - rewrite omap_app, concat_app, Hcap. destruct c; cbn; by rewrite ?app_nil_r.
    - rewrite omap_app, Hev. by destruct c.
    - intros r Hr. by apply result_provenance_mono, Hres. }
  destruct c; cbn in Hbase |- *; rewrite ?app_nil_r in Hbase; try exact Hbase.
  - destruct Hbase as (_ & ? & ? & ?). split; [|done]. cbn. intros d [= <-].
    exists id, source, manifest. set_solver.
  - unfold observe_workload. destruct s as [cap ev res er bd im iid lt]. cbn in Hbase.
    pose proof (set_image_inv _ _ (workload_id state) Hbase) as Hs.
    set (s' := if bool_decide _ then _ else _) in *. clearbody s'.
    destruct (z_in (lifecycle state) [4; 5; 6; 7]) eqn:Hl; cbn [negb]; [|exact Hs].
    destruct (workload_snapshot state s') as [snapshot|] eqn:E; [|exact Hs].
    destruct (match _last_terminal s' with Some _ => _ | None => _ end); [exact Hs|].
    destruct Hs as (Hi & ? & ? & Hr). split; [done|]. split; [done|]. split; [done|]. cbn.
    intros r [Hin| ->%list_elem_of_singleton]%elem_of_app; [by apply Hr|].
    apply (snapshot_provenance _ now state s'); [set_solver|done|exact Hi|exact E].
  - unfold retain_diagnostics. destruct s. repeat case_match; exact Hbase.
Qed.

(** C18: what a session's evidence says is grounded in what happened: for every
    sequence of calls, the captured stream is the concatenation of what was
    captured and the events are those recorded, in order; every workload result
    stems from an observation of a terminal state, says PASS only if that state
    was completed with a structured result and the native PASS flag, and names
    an image only if an accepted upload bound that image to that workload. *)
Theorem evidence_provenance calls :
  let s := evidence_run calls in
  captured s = concat (omap (λ c, match c with Capture data => Some data | _ => None end) calls)
  ∧ events s = omap (λ c, match c with Record_ e => Some e | _ => None end) calls
  ∧ ∀ r, r ∈ workload_results s → result_provenance calls r.
Proof.
  enough (evidence_inv calls (evidence_run calls)) as (_ & H) by exact H.
  induction calls as [|c calls IH] using rev_ind; [by split_and!; [| | |set_solver]|].
  unfold evidence_run. rewrite foldl_app. by apply evidence_step_inv.
Qed.
