(* ===== verification/Shell.v ===== *)
(** * The shell's vocabulary (host/rp86/shell_commands.py)

    The command table, the history, the parser of command lines (Python's
    [shlex] in POSIX mode with [whitespace_split] and without comments and
    escapes), help and completion.  Host directories are read by the operating
    system: completion takes the Host matches as an argument.  [lower] and
    [casefold] are those of ASCII text.

    The theorems show that the parser gives back every list of quoted words,
    that it resolves exactly the names and aliases of the table, and that the
    history browses its entries and comes back to the draft. *)

From S2P Require Import Prelude PyText Json.
From Stdlib Require Import Ascii.

Record CommandSpec := mkSpec {
  name : string;
  usage : string;
  group : string;
  summary : string;
  capability : option string;
  aliases : list string;
}.

Record ShellCommand := mkCommand { spec : CommandSpec; arguments : list string; raw : string }.

Definition COMMANDS : list CommandSpec := [
   mkSpec "help" "help [command]" "shell"
     "show commands or command help" None ["?"];
   mkSpec "pwd" "pwd" "shell"
     "show the current Host directory" None [];
   mkSpec "cd" "cd [<Host path>]" "shell"
     "change the current Host directory" None [];
   mkSpec "status" "status" "observe"
     "show a concise runtime status" None [];
   mkSpec "top" "top" "observe"
     "show the live physical-processor summary" None [];
   mkSpec "info" "info" "observe"
     "show negotiated Host/RP2350 capabilities" None [];
   mkSpec "probe" "probe" "observe"
     "run one prepared-runtime processor identity/liveness diagnostic" None [];
   mkSpec "load" "load <Host bin|p86w|flash:/file.p86w> [--address N] [--entry CS:IP] [--stack SS:SP] [--clock MODE]" "workload"
     "load a native workload" (Some "workload") [];
   mkSpec "run" "run" "workload"
     "start the loaded workload" (Some "workload") [];
   mkSpec "stop" "stop" "workload"
     "stop the active workload safely" (Some "workload") [];
   mkSpec "restart" "restart" "workload"
     "reset and restart the workload" (Some "restart") [];
   mkSpec "bootloader" "bootloader" "control"
     "stop the processor and enter RP2350 UF2 download mode" (Some "bootloader") ["bootsel"];
   mkSpec "send" "send <text>" "console"
     "send stdin/command text to the processor" (Some "console") [];
   mkSpec "calc" "calc <lhs> <+|-|*|/> <rhs>" "console"
     "calculate on the physical processor" (Some "console") [];
   mkSpec "console" "console" "console"
     "enter or describe the interactive console" (Some "console") [];
   mkSpec "stdin" "stdin <file>" "console"
     "stream a Host file to processor stdin" (Some "console") [];
   mkSpec "stdout" "stdout <file|off>" "console"
     "capture processor stdout" (Some "console") [];
   mkSpec "ls" "ls [flash:/path|<Host path>]" "files"
     "list an RP-FLASH or Host directory" (Some "filesystem") [];
   mkSpec "cat" "cat <flash:|sd:/file>" "files"
     "read a shared file" (Some "filesystem") [];
   mkSpec "put" "put <host-file> <flash:|sd:/path>" "files"
     "upload an existing Host file; example: put README.md flash:/README.TXT" (Some "filesystem") [];
   mkSpec "get" "get <flash:|sd:/file> [host-file]" "files"
     "download a shared file" (Some "filesystem") [];
   mkSpec "rm" "rm <flash:|sd:/path>" "files"
     "remove a shared file" (Some "filesystem") [];
   mkSpec "mv" "mv <source> <destination>" "files"
     "rename a shared file" (Some "filesystem") [];
   mkSpec "df" "df [flash:|sd:]" "storage"
     "show storage capacity and availability" (Some "storage") [];
   mkSpec "mount" "mount sd:" "storage"
     "mount removable SD storage" (Some "sd") [];
   mkSpec "unmount" "unmount sd:" "storage"
     "flush and unmount SD storage" (Some "sd") [];
   mkSpec "sync" "sync [flash:|sd:]" "storage"
     "flush persistent filesystem state" (Some "storage") [];
   mkSpec "mem" "mem read|write|load|save ..." "memory"
     "inspect or change processor-visible memory" (Some "memory") [];
   mkSpec "mailbox" "mailbox <text>" "memory"
     "exchange one message through shared Internal SRAM" (Some "memory") [];
   mkSpec "trace" "trace [save <host-file>]" "observe"
     "read/save the stopped executor's last bus cycle and fault flags" (Some "trace") [];
   mkSpec "selftest" "selftest [psram|all]" "observe"
     "run a canonical runtime resource self-test" (Some "selftest") [];
   mkSpec "timeout" "timeout [seconds|off]" "control"
     "query/set the RP2350 general-workload execution limit" (Some "watchdog") [];
   mkSpec "regs" "regs" "observe"
     "show workload-published processor registers" (Some "registers") [];
   mkSpec "quiet" "quiet" "shell"
     "show errors and command results only" None [];
   mkSpec "verbose" "verbose" "shell"
     "show every native diagnostic probe result" None [];
   mkSpec "quit" "quit" "shell"
     "close the Host shell" None ["exit"]]%string.

Definition COMMAND_INDEX : list (string * CommandSpec) :=
  COMMANDS ≫= λ s, (name s, s) :: map (λ alias, (alias, s)) (aliases s).

(** ** [shlex] *)

(** The state of the lexer: between words, in a word, in quotes *)
Inductive lex_state :=
| LexSpace
| LexWord
| LexQuote (quote : ascii).

Definition lex_whitespace (c : ascii) : bool := has_char c (String " " (String "009" (String "013" (String "010" EmptyString)))).
Definition lex_quote (c : ascii) : bool := Ascii.eqb c single_quote || Ascii.eqb c double_quote.

(** One run over the line; [token] is reversed, [quoted] says whether the token
    has seen quotes. *)
Fixpoint lex (l : list ascii) (state : lex_state) (token : list ascii) (quoted : bool) : result (list string) :=
  let word := String.string_of_list_ascii (reverse token) in
  let finished := match token with [] => quoted | _ => true end in
  match l with
  | [] =>
      match state with
      | LexSpace => Ok []
      | LexWord => Ok (if finished then [word] else [])
      | LexQuote _ => Raise (ValueError "No closing quotation")
      end
  | c :: l =>
      match state with
      | LexSpace =>
          if lex_whitespace c then lex l LexSpace token quoted
          else if lex_quote c then lex l (LexQuote c) token quoted
          else lex l LexWord [c] quoted
      | LexQuote q =>
          if Ascii.eqb c q then lex l LexWord token true else lex l (LexQuote q) (c :: token) true
      | LexWord =>
          if lex_whitespace c then
            if finished then words ← lex l LexSpace [] false; Ok (word :: words)
            else lex l LexSpace token quoted
          else if lex_quote c then lex l (LexQuote c) token quoted
          else lex l LexWord (c :: token) quoted
      end
  end.
Definition shlex_split (line : string) : result (list string) :=
  lex (String.list_ascii_of_string line) LexSpace [] false.

Definition parse_command (line : string) : result (option ShellCommand) :=
  match shlex_split line with
  | Raise (ValueError exc) => Raise (ValueError ("command syntax error: " +:+ exc))
  | Raise e => Raise e
  | Ok [] => Ok None
  | Ok (word :: words) =>
      match str_get (str_lower word) COMMAND_INDEX with
      | None => Raise (ValueError ("unknown command: " +:+ py_repr word +:+ "; type help"))
      | Some s => Ok (Some (mkCommand s words line))
      end
  end.

(** ** Help *)

(** [f"{s:<n}"] *)
Definition ljust (n : nat) (s : string) : string :=
  s +:+ String.string_of_list_ascii (replicate (n - String.length s) " "%char).

Definition groups_of (commands : list CommandSpec) : list string :=
  foldl (λ groups s, if str_in (group s) groups then groups else groups ++ [group s]) [] commands.

Definition command_help (topic : option string) : result string :=
  match topic with
  | Some (String _ _ as topic) =>
      match str_get (str_lower topic) COMMAND_INDEX with
      | None => Raise (ValueError ("unknown command: " +:+ py_repr topic))
      | Some s =>
          let availability := match capability s with
                              | Some (String _ _ as c) => "available when capability is negotiated: " +:+ c
                              | _ => "Host shell command"%string
                              end in
          Ok (usage s +:+ newline +:+ "  " +:+ summary s +:+ newline +:+ "  " +:+ availability)
      end
  | _ =>
      Ok (str_join newline ("Commands:"%string :: (groups_of COMMANDS ≫= λ g,
            ("  " +:+ g +:+ ":") ::
            (COMMANDS ≫= λ s, if String.eqb (group s) g
                              then ["    " +:+ ljust 44 (usage s) +:+ " " +:+ summary s] else []))))
  end.

Definition unavailable_message (command : ShellCommand) : string :=
  let capability := match capability (spec command) with
                    | Some (String _ _ as c) => c
                    | _ => name (spec command)
                    end in
  name (spec command) +:+ ": NOT AVAILABLE (RP2350 capability " +:+ py_repr capability +:+ " was not negotiated)".

Definition is_device_path (path : string) : bool :=
  let lowered := str_lower path in
  String.eqb lowered "flash:" || str_starts "flash:/" lowered || String.eqb lowered "sd:" || str_starts "sd:/" lowered.

(** ** History *)

Record CommandHistory := mkHistory { _entries : list string; _cursor : Z; _draft : string }.
Definition history_init : CommandHistory := mkHistory [] 0 EmptyString.

Definition remember (command : string) (h : CommandHistory) : CommandHistory :=
  let command := str_strip command in
  let entries :=
    if negb (String.eqb command EmptyString) && negb (bool_decide (last (_entries h) = Some command))
    then _entries h ++ [command] else _entries h in
  mkHistory entries (len entries) EmptyString.

Definition edit (buffer : string) (h : CommandHistory) : CommandHistory :=
  mkHistory (_entries h) (len (_entries h)) buffer.

Definition move (buffer : string) (delta : Z) (h : CommandHistory) : result (CommandHistory * string) :=
  if (len (_entries h) =? 0) || (delta =? 0) then Ok (h, buffer) else
  let h := if _cursor h =? len (_entries h) then mkHistory (_entries h) (_cursor h) buffer else h in
  if (delta <? 0) && (0 <? _cursor h) then
    e ← item (_cursor h - 1) (_entries h);
    Ok (mkHistory (_entries h) (_cursor h - 1) (_draft h), e)
  else if (0 <? delta) && (_cursor h <? len (_entries h) - 1) then
    e ← item (_cursor h + 1) (_entries h);
    Ok (mkHistory (_entries h) (_cursor h + 1) (_draft h), e)
  else if (0 <? delta) && (_cursor h =? len (_entries h) - 1) then
    Ok (mkHistory (_entries h) (len (_entries h)) (_draft h), _draft h)
  else Ok (h, buffer).

(** ** Completion *)

(** [line[max(line.rfind(SPACE), line.rfind(TAB)) + 1 :]] and what precedes it *)
Fixpoint split_last (l : list ascii) : list ascii * list ascii :=
  match l with
  | [] => ([], [])
  | c :: l' =>
      let '(head, tail) := split_last l' in
      match head with
      | [] => if Ascii.eqb c " " || Ascii.eqb c "009" then ([c], tail) else ([], c :: tail)
      | _ => (c :: head, tail)
      end
  end.
Definition last_token (line : string) : string * string :=
  let '(head, tail) := split_last (String.list_ascii_of_string line) in
  (String.string_of_list_ascii head, String.string_of_list_ascii tail).

Definition _replace_last_token (line replacement : string) : string := (last_token line).1 +:+ replacement.

(** [s.strip(QUOTE)] *)
Definition strip_quotes (s : string) : string :=
  String.string_of_list_ascii (reverse (skip_char double_quote (reverse (skip_char double_quote (String.list_ascii_of_string s))))).

Definition completion_token (line : string) : string := strip_quotes (last_token line).2.

(** [token[: slash + 1]] and [token[slash + 1 :]] for [slash = token.rfind(SLASH)],
    [None] when there is no slash *)
Fixpoint split_slash (l : list ascii) : option (list ascii * list ascii) :=
  match l with
  | [] => None
  | c :: l' =>
      match split_slash l' with
      | Some (base, prefix) => Some (c :: base, prefix)
      | None => if Ascii.eqb c "/" then Some ([c], l') else None
      end
  end.

Definition device_matches (token : string) (remote_entries : list (string * bool)) : list string :=
  let '(base, prefix) :=
    match split_slash (String.list_ascii_of_string token) with
    | Some (base, prefix) => (String.string_of_list_ascii base, String.string_of_list_ascii prefix)
    | None => (token +:+ "/", EmptyString)
    end in
  remote_entries ≫= λ '(entry, directory),
    if str_starts (str_lower prefix) (str_lower entry)
    then [base +:+ entry +:+ (if (directory : bool) then "/" else EmptyString)] else [].

(** [host_matches token] are the candidates of the Host directory. *)
Definition complete_shell_input (host_matches : string → list string) (line : string)
    (remote_entries : list (string * bool)) : string * list string :=
  let token := completion_token line in
  if String.eqb (str_strip line) EmptyString
     || negb (has_char " " line) && negb (has_char "009" line) then
    let prefix := str_lower (str_strip line) in
    let names := COMMANDS ≫= λ s, if str_starts prefix (str_lower (name s)) then [name s] else [] in
    match names with
    | [n] => (n +:+ " ", names)
    | _ => (line, names)
    end
  else
    let matches :=
      if str_starts "flash:" (str_lower token) || str_starts "sd:" (str_lower token)
      then device_matches token remote_entries else host_matches token in
    match matches with
    | [replacement] =>
        let replacement :=
          if has_char " " replacement && negb (str_starts (String double_quote EmptyString) replacement)
          then String double_quote (replacement +:+ String double_quote EmptyString) else replacement in
        (_replace_last_token line replacement, matches)
    | _ => (line, matches)
    end.

(** ** Theorems *)

Definition quote_word (w : string) : string := String double_quote (w +:+ String double_quote EmptyString).
Definition plain_char (c : ascii) : bool := negb (lex_whitespace c) && negb (lex_quote c).
Definition plain_word (w : string) : bool := negb (String.eqb w EmptyString) && forallb plain_char (ascii_list w).
Definition quotable (w : string) : bool := negb (has_char double_quote w).

(** A command line: a plain word and quoted arguments *)
Definition command_line (word : string) (arguments : list string) : string :=
  word +:+ foldr (λ a line, " " +:+ quote_word a +:+ line) EmptyString arguments.

Lemma lex_in_quote w rest token quoted :
  quotable w = true →
  lex (ascii_list w ++ double_quote :: rest) (LexQuote double_quote) token quoted
  = lex rest LexWord (reverse (ascii_list w) ++ token) true.
Proof.
  unfold quotable, has_char. revert token quoted. induction w as [|c w IH]; intros token quoted Hq; [done|].
  cbn [ascii_list app existsb] in *. rewrite negb_orb in Hq. py_inv. cbn [lex].
  rewrite Ascii.eqb_sym. match goal with H : Ascii.eqb _ _ = false |- _ => rewrite H end.
  rewrite IH by (by rewrite negb_true_iff). by rewrite reverse_cons, <- app_assoc.
Qed.

Lemma lex_plain l rest token quoted :
  forallb plain_char l = true → lex (l ++ rest) LexWord token quoted = lex rest LexWord (reverse l ++ token) quoted.
Proof.
  revert token. induction l as [|c l IH]; intros token; [done|]. cbn [forallb app lex]. unfold plain_char at 1.
  intros Hp. py_inv. repeat match goal with H : _ c = false |- _ => rewrite H end.
  rewrite IH by done. by rewrite reverse_cons, <- app_assoc.
Qed.

(** A finished word, then quoted words up to the end of the line *)
Lemma lex_arguments arguments token quoted :
  forallb quotable arguments = true → token ≠ [] ∨ quoted = true →
  lex (ascii_list (foldr (λ a line, " " +:+ quote_word a +:+ line) EmptyString arguments)) LexWord token quoted
  = Ok (String.string_of_list_ascii (reverse token) :: arguments).
Proof.
  revert token quoted. induction arguments as [|a arguments IH]; intros token quoted Ha Ht; cbn [foldr].
  - cbn [ascii_list lex]. destruct token; [|done]. by destruct Ht as [?| ->].
  - cbn [forallb] in Ha. py_inv. unfold quote_word.
    match goal with |- lex (ascii_list (" " +:+ ?s)) _ _ _ = _ =>
      change (ascii_list (" " +:+ s)) with (" "%char :: ascii_list s) end.
    cbn [lex]. change (lex_whitespace " ") with true. cbn iota.
    assert (match token with [] => quoted | _ => true end = true) as -> by (destruct token; naive_solver).
    match goal with |- context [ascii_list (String ?q ?s +:+ ?r)] =>
      change (ascii_list (String q s +:+ r)) with (q :: ascii_list (s +:+ r)) end.
    cbn [lex]. change (lex_whitespace double_quote) with false. change (lex_quote double_quote) with true. cbn iota.
    rewrite !ascii_list_app, <- app_assoc.
    change (ascii_list (String double_quote EmptyString)) with [double_quote]. cbn [app].
    rewrite lex_in_quote, app_nil_r by done. rewrite IH by (try done; by right). cbn [mbind result_bind].
    by rewrite reverse_involutive, String.string_of_list_ascii_of_string.
Qed.

Lemma shlex_command_line word arguments :
  plain_word word = true → forallb quotable arguments = true →
  shlex_split (command_line word arguments) = Ok (word :: arguments).
Proof.
  unfold plain_word, shlex_split, command_line. intros Hw Ha. py_inv. rewrite ascii_list_app.
  destruct word as [|c word]; [done|].
  match goal with H : forallb plain_char _ = true |- _ => rename H into Hp end.
  cbn [ascii_list forallb] in Hp. py_inv. cbn [ascii_list app lex].
  match goal with H : plain_char c = true |- _ => unfold plain_char in H end. py_inv.
  repeat match goal with H : _ c = false |- _ => rewrite H end.
  rewrite lex_plain by done. rewrite lex_arguments; [|done|left; by destruct (reverse (ascii_list word))].
  rewrite reverse_app, reverse_involutive. change (reverse [c]) with [c]. cbn [app].
  cbn [String.string_of_list_ascii]. by rewrite String.string_of_list_ascii_of_string.
Qed.

(** Every name and alias is plain, in lower case and denotes one command. *)
Lemma index_sound :
  forallb (λ '(n, s), plain_word n && String.eqb (str_lower n) n
             && match str_get n COMMAND_INDEX with Some s' => String.eqb (name s) (name s') | None => false end)
    COMMAND_INDEX = true
  ∧ NoDup (map fst COMMAND_INDEX).
Proof. split; [vm_compute; reflexivity|]. apply (bool_decide_unpack _). vm_compute. exact I. Qed.

Lemma str_get_in {A} k (d : list (string * A)) v : str_get k d = Some v → (k, v) ∈ d.
Proof.
  unfold str_get. induction d as [|[k' v'] d IH]; cbn; [done|].
  destruct (String.eqb k k') eqn:E; cbn.
  - intros [= ->]. apply String.eqb_eq in E as ->. set_solver.
  - intros H. apply IH in H. set_solver.
Qed.
Lemma str_get_nodup {A} k (d : list (string * A)) v : NoDup (map fst d) → (k, v) ∈ d → str_get k d = Some v.
Proof.
  unfold str_get. induction d as [|[k' v'] d IH]; cbn [map find option_map fst]; intros Hn Hin; [set_solver|].
  apply NoDup_cons in Hn as [Hk Hn]. apply elem_of_cons in Hin as [[= -> ->]|Hin].
  - by rewrite String.eqb_refl.
  - destruct (String.eqb k k') eqn:E; [|by apply IH].
    apply String.eqb_eq in E as ->. exfalso. apply Hk. apply list_elem_of_fmap. by exists (k', v).
Qed.

(** C19: the shell executes what is typed: a line that starts with the name or
    an alias of a command of the table, in any case, followed by quoted
    arguments is parsed as that command with exactly those arguments, and
    whatever line is accepted denotes a command of the table under one of its
    names; an unknown word or an open quotation is a ValueError. *)
Theorem shell_parse :
  (∀ n s word arguments, (n, s) ∈ COMMAND_INDEX → plain_word word = true → str_lower word = n →
     forallb quotable arguments = true →
     parse_command (command_line word arguments)
     = Ok (Some (mkCommand s arguments (command_line word arguments))))
  ∧ (∀ line c, parse_command line = Ok (Some c) →
     spec c ∈ COMMANDS ∧ raw c = line
     ∧ ∃ word, shlex_split line = Ok (word :: arguments c)
         ∧ (str_lower word = name (spec c) ∨ str_lower word ∈ aliases (spec c)))
  ∧ (∀ line e, parse_command line = Raise e → ∃ text, e = ValueError text).
Proof.
  split; [|split].
  - intros n s word arguments Hin Hw Hn Ha. unfold parse_command.
    rewrite shlex_command_line by done. rewrite Hn.
    by rewrite (str_get_nodup _ _ _ (proj2 index_sound) Hin).
  - intros line c. unfold parse_command. destruct (shlex_split line) as [[|word words]|e] eqn:E; [done| |].
    2:{ by destruct e. }
    destruct (str_get _ _) as [s|] eqn:Es; [|done]. intros [= <-]. cbn [spec raw arguments].
    apply str_get_in in Es. apply list_elem_of_bind in Es as (s' & Hs & Hin).
    apply elem_of_cons in Hs as [[= Hn ->]|Ha].
    + split; [done|]. split; [done|]. exists word. naive_solver.
    + apply list_elem_of_fmap in Ha as (alias & [= Hn ->] & Ha). split; [done|]. split; [done|].
      exists word. rewrite Hn. naive_solver.
  - intros line e. unfold parse_command, shlex_split.
    assert (∀ l st token quoted e, lex l st token quoted = Raise e → ∃ text, e = ValueError text) as Hlex.
    { induction l as [|c l IH]; intros st token quoted e'; cbn [lex].
      - destruct st; [done|done|]. intros [= <-]. by eexists.
      - destruct st; repeat case_match; try by apply IH.
        all: destruct (lex l LexSpace [] false) eqn:El; cbn; [done|]; intros [= <-]; by eapply IH. }
    destruct (lex _ _ _ _) as [[|word words]|e'] eqn:E; [done| |].
    + destruct (str_get _ _); [done|]. intros [= <-]. by eexists.
    + apply Hlex in E as (text & ->). intros [= <-]. by eexists.
Qed.

(** *** The history *)

Definition history_ok (h : CommandHistory) : bool := (0 <=? _cursor h) && (_cursor h <=? len (_entries h)).

(** Pressing a history key [n] times: each press gets the line the last one showed. *)
Fixpoint presses (n : nat) (delta : Z) (h : CommandHistory) (line : string) : result (CommandHistory * string) :=
  match n with
  | O => Ok (h, line)
  | S n => '(h, line) ← move line delta h; presses n delta h line
  end.

Lemma item_ok {A} i (l : list A) : 0 <= i < len l → ∃ x, item i l = Ok x ∧ l !! Z.to_nat i = Some x.
Proof.
  intros Hi. unfold item, len in *. destruct (lookup_lt_is_Some_2 l (Z.to_nat i)) as [x Hx]; [lia|].
  rewrite Hx. by exists x.
Qed.

Lemma move_total buffer delta h :
  history_ok h = true →
  ∃ h' line, move buffer delta h = Ok (h', line) ∧ history_ok h' = true ∧ _entries h' = _entries h.
Proof.
  unfold history_ok, move. intros Hh. py_inv. destruct (_ || _); [by eexists _, _; split; [done|]; split; [lia|]|].
  set (h1 := if _cursor h =? len (_entries h) then _ else h).
  assert (_cursor h1 = _cursor h ∧ _entries h1 = _entries h) as [Ec Ee] by (unfold h1; by case_match).
  rewrite Ec, Ee. clearbody h1.
  destruct ((delta <? 0) && (0 <? _cursor h)) eqn:E1.
  { destruct (item_ok (_cursor h - 1) (_entries h)) as (x & -> & _); [lia|]. cbn [mbind result_bind].
    eexists _, _. split; [done|]. cbn. split; [lia|done]. }
  destruct ((0 <? delta) && (_cursor h <? len (_entries h) - 1)) eqn:E2.
  { destruct (item_ok (_cursor h + 1) (_entries h)) as (x & -> & _); [lia|]. cbn [mbind result_bind].
    eexists _, _. split; [done|]. cbn. split; [lia|done]. }
  destruct ((0 <? delta) && (_cursor h =? len (_entries h) - 1)); eexists _, _; (split; [reflexivity|]); cbn; rewrite ?Ec, ?Ee; split; (done || lia).
Qed.

(** Browsing: the cursor [c] is below the draft [d] *)
Lemma move_up entries c d line :
  0 < c <= len entries →
  ∃ x, entries !! Z.to_nat (c - 1) = Some x
    ∧ move line (-1) (mkHistory entries c d)
      = Ok (mkHistory entries (c - 1) (if c =? len entries then line else d), x).
Proof.
  intros Hc. destruct (item_ok (c - 1) entries) as (x & Hi & Hx); [lia|]. exists x. split; [done|].
  unfold move. cbn [_entries _cursor]. guard_false.
  destruct (c =? len entries); cbn [_entries _cursor _draft]; guard_true; by rewrite Hi.
Qed.

Lemma move_down entries c d line :
  0 <= c < len entries →
  move line 1 (mkHistory entries c d)
  = Ok (mkHistory entries (c + 1) d, default d (entries !! Z.to_nat (c + 1))).
Proof.
  intros Hc. unfold move. cbn [_entries _cursor _draft]. guard_false.
  assert ((c =? len entries) = false) as -> by lia. cbn [_entries _cursor _draft].
  change (1 <? 0) with false. change (0 <? 1) with true. rewrite andb_false_l, !andb_true_l.
  destruct (c <? len entries - 1) eqn:E.
  - destruct (item_ok (c + 1) entries) as (x & -> & ->); [lia|]. done.
  - guard_true. rewrite lookup_ge_None_2 by (unfold len in *; lia). cbn. do 3 f_equal. lia.
Qed.

Lemma presses_up n entries c d line :
  (0 < n)%nat → Z.of_nat n <= c → c <= len entries →
  ∃ x, entries !! Z.to_nat (c - Z.of_nat n) = Some x
    ∧ presses n (-1) (mkHistory entries c d) line
      = Ok (mkHistory entries (c - Z.of_nat n) (if c =? len entries then line else d), x).
Proof.
  revert c d line. induction n as [|n IH]; intros c d line Hn Hc Hl; [lia|]. cbn [presses].
  destruct (move_up entries c d line) as (x & Hx & ->); [lia|]. cbn [mbind result_bind].
  destruct n as [|n]; [cbn [presses]; replace (c - Z.of_nat 1) with (c - 1) by lia; by exists x|].
  destruct (IH (c - 1) (if c =? len entries then line else d) x) as (y & Hy & ->); [lia..|].
  replace (c - 1 - Z.of_nat (S n)) with (c - Z.of_nat (S (S n))) in * by lia.
  exists y. split; [done|]. by assert ((c - 1 =? len entries) = false) as -> by lia.
Qed.

Lemma presses_down n entries c d line :
  (0 < n)%nat → 0 <= c → c + Z.of_nat n <= len entries →
  presses n 1 (mkHistory entries c d) line
  = Ok (mkHistory entries (c + Z.of_nat n) d, default d (entries !! Z.to_nat (c + Z.of_nat n))).
Proof.
  revert c line. induction n as [|n IH]; intros c line Hn Hc Hl; [lia|]. cbn [presses].
  rewrite move_down by lia. cbn [mbind result_bind].
  destruct n as [|n]; [cbn [presses]; by replace (c + Z.of_nat 1) with (c + 1) by lia|].
  rewrite IH by lia. by replace (c + 1 + Z.of_nat (S n)) with (c + Z.of_nat (S (S n))) by lia.
Qed.

(** the history never fails and never loses the draft: with its cursor in
    range every key press succeeds and leaves the entries alone; from the line
    being typed, [n] presses of Up show the [n]-th last entry, and [n] presses
    of Down afterwards bring the typed line back. *)
Theorem history_browse :
  (∀ buffer delta h, history_ok h = true →
     ∃ h' line, move buffer delta h = Ok (h', line) ∧ history_ok h' = true ∧ _entries h' = _entries h)
  ∧ (∀ entries draft line n, (0 < n ≤ length entries)%nat →
     ∃ h e, presses n (-1) (mkHistory entries (len entries) draft) line = Ok (h, e)
       ∧ entries !! (length entries - n)%nat = Some e
       ∧ presses n 1 h e = Ok (mkHistory entries (len entries) line, line))
  ∧ ∀ command h, history_ok (remember command h) = true ∧ history_ok (edit command h) = true.
Proof.
  split; [apply move_total|]. split.
  - intros entries draft line n Hn.
    destruct (presses_up n entries (len entries) draft line) as (e & He & Hp); [lia|unfold len; lia|lia|].
    eexists _, e. split; [exact Hp|]. rewrite Z.eqb_refl.
    split; [by replace (length entries - n)%nat with (Z.to_nat (len entries - Z.of_nat n)) by (unfold len; lia)|].
    rewrite presses_down by (unfold len in *; lia). replace (len entries - Z.of_nat n + Z.of_nat n) with (len entries) by lia.
    rewrite lookup_ge_None_2 by (unfold len; lia). done.
  - intros command h. unfold history_ok, remember, edit. cbn.
    pose proof (len_nonneg (_entries h)). split; [|lia]. case_match; rewrite ?len_app; [|lia].
    match goal with |- context [len [?x]] => change (len [x]) with 1 end. lia.
Qed.
