(* ===== verification/Remote.v ===== *)
(** * The network gateway (host/apps/remote/rp86_remote.py)

    [PublicSession] gives one browser exclusive ownership of the device; the
    handler lets a request through to the Web API only for the owner.  The Web
    API behind it is the class [Api]; [json.loads] is a parameter, the path of a
    request is the one [urlparse] returns, the clock and the random token are
    arguments.  Each method of [PublicSession] holds its lock throughout, so it
    is one step; [do_POST] is [post_enter], which looks at the session, and then
    [post_call], which calls the API.  [Http] interleaves the two with other
    requests; here requests are served one after the other.

    The theorems show that as long as nobody presents the owner's token nobody
    else reaches the device, takes the session over, ends it, or learns the
    token. *)

From S2P Require Import Prelude PyText Json Core.
From Stdlib Require Import Ascii.

Abbreviation document := (list (string * json)).

Definition MAX_REQUEST_BYTES : Z := 2 * 1024 * 1024.

Record PublicSession := mkPublic {
  _token : option string;
  _owner : option string;
  _acquired_at : option float;
  _last_seen : option float;
}.
Definition public_init : PublicSession := mkPublic None None None None.

(** [secrets.compare_digest] on [str]: ASCII only *)
Definition compare_digest (a b : string) : result bool :=
  if ascii_only (encode_utf8 a) && ascii_only (encode_utf8 b) then Ok (String.eqb a b)
  else Raise (TypeError "comparing strings with non-ASCII characters is not supported").

(** [token and compare_digest(token, t)]: the truth value *)
Definition token_matches (token : option string) (t : string) : result bool :=
  match token with
  | None | Some EmptyString => Ok false
  | Some token => compare_digest token t
  end.

Definition _snapshot_unlocked (s : PublicSession) : document :=
  [("owned", JBool (bool_decide (is_Some (_token s))));
   ("owner", jopt JStr (_owner s));
   ("acquired_at", jopt JFloat (_acquired_at s));
   ("last_seen", jopt JFloat (_last_seen s))]%string.

Definition session_snapshot (token : option string) (s : PublicSession) : result document :=
  mine ← match _token s with
         | None => Ok false
         | Some t => token_matches token t
         end;
  Ok (_snapshot_unlocked s ++ [("mine", JBool mine)]%string).

Definition seen (now : float) (s : PublicSession) : PublicSession :=
  mkPublic (_token s) (_owner s) (_acquired_at s) (Some now).

(** The status codes of [http.HTTPStatus] the gateway uses *)
Definition HTTP_OK : Z := 200.
Definition HTTP_BAD_REQUEST : Z := 400.
Definition HTTP_FORBIDDEN : Z := 403.
Definition HTTP_NOT_FOUND : Z := 404.
Definition HTTP_CONFLICT : Z := 409.

Definition granted (resumed : bool) (t : string) (s : PublicSession) : document :=
  [("ok", JBool true); ("resumed", JBool resumed); ("token", JStr t);
   ("session", JObj (_snapshot_unlocked s))]%string.

(** [fresh] is [secrets.token_urlsafe(32)]. *)
Definition session_acquire (now : float) (fresh : string) (token owner : option string)
  : io PublicSession (document * Z) := λ s,
  match _token s with
  | Some t =>
      match token_matches token t with
      | Raise e => (s, Raise e)
      | Ok true => let s := seen now s in (s, Ok (granted true t s, HTTP_OK))
      | Ok false =>
          (s, Ok ([("ok", JBool false); ("error", JStr "physical processor is already owned");
                   ("session", JObj (_snapshot_unlocked s))]%string, HTTP_CONFLICT))
      end
  | None =>
      let s := mkPublic (Some fresh) (Some (str_or (default EmptyString owner) "browser")) (Some now) (Some now) in
      (s, Ok (granted false fresh s, HTTP_OK))
  end.

Definition session_release (token : option string) : io PublicSession (document * Z) := λ s,
  match _token s with
  | None =>
      (s, Ok ([("ok", JBool true); ("released", JBool false);
               ("session", JObj (_snapshot_unlocked s))]%string, HTTP_OK))
  | Some t =>
      match token_matches token t with
      | Raise e => (s, Raise e)
      | Ok false => (s, Ok ([("ok", JBool false); ("error", JStr "session ownership required")]%string, HTTP_FORBIDDEN))
      | Ok true =>
          let s := public_init in
          (s, Ok ([("ok", JBool true); ("released", JBool true);
                   ("session", JObj (_snapshot_unlocked s))]%string, HTTP_OK))
      end
  end.

Definition authorize (now : float) (token : option string) : io PublicSession bool := λ s,
  match _token s with
  | None => (s, Ok false)
  | Some t =>
      match token_matches token t with
      | Raise e => (s, Raise e)
      | Ok false => (s, Ok false)
      | Ok true => (seen now s, Ok true)
      end
  end.

(** ** The handler *)

(** The device API behind the gateway *)
Class Api (W : Type) := {
  api_get : string → io W (document * Z);
  api_post : string → document → io W (document * Z);
}.

Record http_request := mkHttp {
  h_path : string;
  h_content_length : option string;  (** header Content-Length *)
  h_session : option string;         (** header X-RP86-Session *)
  h_body : bytes;                    (** what [rfile] holds *)
}.

Inductive response :=
| Html
| Json (payload : document) (status : Z).

Section handler.
Context {W : Type} `{Api W} (json_loads : bytes → result json).

(** [json_loads] decodes UTF-8 and parses; its errors are subclasses of ValueError. *)
Definition _read_json (r : http_request) : result document :=
  length ← on_value_error (py_int 10 (default "0"%string (h_content_length r))) "invalid Content-Length";
  if (length <? 0) || (MAX_REQUEST_BYTES <? length)
  then Raise (ValueError "request body is too large") else
  let raw := if truthy length then slice 0 length (h_body r) else lit "{}" in
  value ← on_value_error (json_loads raw) "request body must be a JSON object";
  match value with
  | JObj d => Ok d
  | _ => Raise (ValueError "request body must be a JSON object")
  end.

Definition _session_token (r : http_request) (payload : option document) : option string :=
  match h_session r with
  | Some (String _ _ as header) => Some header
  | _ =>
      match payload with
      | None => None
      | Some d => match jget "token" d with
                  | JStr (String _ _ as value) => Some value
                  | _ => None
                  end
      end
  end.

(** The state of the server: the session and what is behind the API *)
Record gateway := mkGateway { sessions : PublicSession; behind : W }.
Definition on_session {A} (m : io PublicSession A) : io gateway A := λ g,
  let '(s, r) := m (sessions g) in (mkGateway s (behind g), r).
Definition on_api {A} (m : io W A) : io gateway A := λ g,
  let '(w, r) := m (behind g) in (mkGateway (sessions g) w, r).

Definition not_found : response :=
  Json [("ok", JBool false); ("error", JStr "not found")]%string HTTP_NOT_FOUND.

Definition do_GET (r : http_request) : io gateway response :=
  let path := h_path r in
  if String.eqb path "/" then mret Html
  else if String.eqb path "/api/session" then
    s ← gets sessions;
    d ← lift (session_snapshot (_session_token r None) s);
    mret (Json d HTTP_OK)
  else if str_in path ["/api/processor"; "/api/status"; "/api/devices"] then
    '(result, status) ← on_api (api_get path);
    mret (Json result status)
  else mret not_found.

(** The first part of [do_POST], up to [authorize]: the response, or the form of
    a request that is let through to the API *)
Definition post_enter (now : float) (fresh : string) (r : http_request) : io gateway (response + document) :=
  let path := h_path r in
  match _read_json r with
  | Raise (ValueError exc) => mret (inl (Json [("ok", JBool false); ("error", JStr exc)]%string HTTP_BAD_REQUEST))
  | Raise e => raise e
  | Ok payload =>
      let token := _session_token r (Some payload) in
      if String.eqb path "/api/acquire" then
        let owner := match jget "owner" payload with JStr (String _ _ as o) => Some o | _ => None end in
        '(result, status) ← on_session (session_acquire now fresh token owner);
        mret (inl (Json result status))
      else if String.eqb path "/api/release" then
        '(result, status) ← on_session (session_release token);
        mret (inl (Json result status))
      else
        allowed ← on_session (authorize now token);
        if negb (allowed : bool)
        then mret (inl (Json [("ok", JBool false); ("error", JStr "session ownership required")]%string HTTP_FORBIDDEN))
        else mret (inr payload)
  end.
(** The second part: the lock of the session is no longer held. *)
Definition post_call (r : http_request) (payload : document) : io gateway response :=
  '(result, status) ← on_api (api_post (h_path r) payload);
  mret (Json result status).
Definition do_POST (now : float) (fresh : string) (r : http_request) : io gateway response :=
  entered ← post_enter now fresh r;
  match entered with
  | inl response => mret response
  | inr payload => post_call r payload
  end.

(** ** Ownership *)

(** The token a request presents, in the header or in its body *)
Definition presents (r : http_request) (t : string) : Prop :=
  _session_token r None = Some t
  ∨ ∃ payload, _read_json r = Ok payload ∧ _session_token r (Some payload) = Some t.

(** One request, of either method *)
Inductive http :=
| Get (r : http_request)
| Post (now : float) (fresh : string) (r : http_request).
Definition http_request_of (h : http) : http_request := match h with Get r => r | Post _ _ r => r end.
Definition serve (h : http) : io gateway response :=
  match h with Get r => do_GET r | Post now fresh r => do_POST now fresh r end.

Lemma token_matches_true token t : token_matches token t = Ok true → token = Some t.
Proof.
  unfold token_matches, compare_digest. destruct token as [[|c u]|]; [done| |done].
  case_match; [|done]. intros Hm. f_equal. apply String.eqb_eq. congruence.
Qed.

Lemma token_matches_self t :
  t ≠ EmptyString → ascii_only (encode_utf8 t) = true → token_matches (Some t) t = Ok true.
Proof.
  intros Hne Ha. unfold token_matches, compare_digest. rewrite Ha.
  destruct t; [done|]. cbn [andb]. by rewrite String.eqb_refl.
Qed.

(** The owner's request is let through, to the API; and only the owner's. *)
Lemma post_enter_behind now fresh r g : behind (post_enter now fresh r g).1 = behind g.
Proof.
  unfold post_enter. destruct (_read_json r) as [d|[]]; try done.
  unfold mbind, io_bind, on_session. destruct g as [s w]. cbn [sessions behind].
  destruct (String.eqb _ "/api/acquire"); [by destruct (session_acquire _ _ _ _ _) as [? [[]|]]|].
  destruct (String.eqb _ "/api/release"); [by destruct (session_release _ _) as [? [[]|]]|].
  by destruct (authorize _ _ _) as [? [[]|]].
Qed.
Lemma post_enter_owner now fresh r payload t g :
  _token (sessions g) = Some t → t ≠ EmptyString → ascii_only (encode_utf8 t) = true →
  _read_json r = Ok payload → _session_token r (Some payload) = Some t →
  h_path r ≠ "/api/acquire"%string → h_path r ≠ "/api/release"%string →
  post_enter now fresh r g = (mkGateway (seen now (sessions g)) (behind g), Ok (inr payload)).
Proof.
  intros Ht Hne Ha Hr Htok Hacq Hrel. unfold post_enter. rewrite Hr.
  rewrite (proj2 (String.eqb_neq _ _) Hacq), (proj2 (String.eqb_neq _ _) Hrel).
  unfold mbind, io_bind, on_session, authorize. by rewrite Ht, Htok, token_matches_self.
Qed.
Lemma post_enter_through now fresh r payload t g g' :
  _token (sessions g) = Some t → post_enter now fresh r g = (g', Ok (inr payload)) →
  _token (sessions g') = Some t ∧ behind g' = behind g ∧ _session_token r (Some payload) = Some t.
Proof.
  intros Ht. unfold post_enter, mbind, io_bind, on_session. destruct g as [s w]. cbn [sessions behind] in *.
  destruct (_read_json r) as [d|[]]; try done.
  destruct (String.eqb _ "/api/acquire").
  { intros E. by repeat case_match; simplify_eq. }
  destruct (String.eqb _ "/api/release").
  { intros E. by repeat case_match; simplify_eq. }
  unfold authorize. cbn [sessions behind]. rewrite Ht. destruct (token_matches _ t) as [[]|] eqn:Em; [|done..].
  intros [= <- <-]. split; [done|]. split; [done|]. by apply token_matches_true.
Qed.
End handler.
Arguments mkGateway {W} _ _.
Arguments sessions {W} _.
Arguments behind {W} _.

(** The API with a log of the calls that reach the device *)
#[global] Instance logged_api {W} `{Api W} : Api (W * list (string * document)) := {|
  api_get := λ path '(w, log), let '(w, r) := api_get path w in ((w, log), r);
  api_post := λ path payload '(w, log), let '(w, r) := api_post path payload w in ((w, log ++ [(path, payload)]), r);
|}.

(** What a request that does not know the token gets *)
Definition refused (h : http) (res : result response) : Prop :=
  match res with
  | Raise _ => True
  | Ok Html => True
  | Ok (Json d status) =>
      match h with
      | Get _ => True
      | Post _ _ _ => jget "token" d = JNull ∧ status ∈ [HTTP_BAD_REQUEST; HTTP_FORBIDDEN; HTTP_CONFLICT]
      end
  end.

(** A request that does not present the token changes behind the API only what
    reading the API changes. *)
Section strangers.
Context {W : Type} `{Api W} (json_loads : bytes → result json).
Context (R : W → W → Prop) `{!Reflexive R} (Hread : ∀ path w, R w (api_get path w).1).

Lemma get_keeps_session r (g g' : gateway (W := W)) res :
  do_GET r g = (g', res) → sessions g' = sessions g ∧ R (behind g) (behind g').
Proof.
  unfold do_GET. destruct (String.eqb _ _); [by intros [= <- _]|].
  destruct (String.eqb _ _).
  { unfold mbind, io_bind, gets, lift. destruct (session_snapshot _ _); by intros [= <- _]. }
  destruct (str_in _ _); [|by intros [= <- _]].
  unfold mbind, io_bind, on_api. pose proof (Hread (h_path r) (behind g)) as Hr.
  destruct (api_get (h_path r) (behind g)) as [w' [[d st]|e]]; by intros [= <- _].
Qed.

Lemma stranger_step h (g g' : gateway (W := W)) t res :
  _token (sessions g) = Some t → ¬ presents json_loads (http_request_of h) t →
  serve json_loads h g = (g', res) →
  sessions g' = sessions g ∧ R (behind g) (behind g') ∧ refused h res.
Proof.
  intros Ht Hp. destruct h as [r|now fresh r]; cbn [serve http_request_of] in *.
  { intros Hg. apply get_keeps_session in Hg as [-> Hr]. split; [done|]. split; [done|]. by destruct res as [[]|]. }
  unfold do_POST, post_enter. destruct (_read_json json_loads r) as [payload|e] eqn:Er.
  2:{ destruct e; intros [= <- <-]; (split; [done|]); (split; [done|]); cbn; try done. split; [done|set_solver]. }
  set (token := _session_token r (Some payload)).
  assert (token_matches token t ≠ Ok true) as Hm.
  { intros Hm. apply token_matches_true in Hm. apply Hp. right. by exists payload. }
  destruct g as [s w]. cbn [sessions] in Ht.
  destruct (String.eqb (h_path r) "/api/acquire"), (String.eqb (h_path r) "/api/release");
    unfold mbind, io_bind, on_session, session_acquire, session_release, authorize; cbn [sessions behind];
    rewrite Ht; destruct (token_matches token t) as [[]|e]; try done;
    intros [= <- <-]; (split; [done|]); (split; [done|]); try done; cbn; (split; [done|set_solver]).
Qed.
(** Serving a list of requests, whatever becomes of each *)
Definition serve_all (hs : list http) (g : gateway) : gateway :=
  foldl (λ g h, (serve json_loads h g).1) g hs.

Lemma strangers_all hs (g : gateway (W := W)) t :
  Transitive R → _token (sessions g) = Some t →
  Forall (λ h, ¬ presents json_loads (http_request_of h) t) hs →
  sessions (serve_all hs g) = sessions g ∧ R (behind g) (behind (serve_all hs g)).
Proof.
  intros HR Ht Hhs. unfold serve_all. induction hs as [|h hs IH] using rev_ind; [done|].
  apply Forall_app in Hhs as [Hhs Hh]. apply Forall_cons in Hh as [Hh _].
  rewrite foldl_app. destruct (IH Hhs) as [IHs IHl]. cbn [foldl].
  destruct (serve json_loads h (foldl _ g hs)) as [g' res] eqn:E.
  apply (stranger_step h _ _ t) in E as (E1 & E2 & _); [|by rewrite IHs|exact Hh].
  cbn [fst]. split; [by rewrite E1|by etrans].
Qed.
End strangers.

(** The gateway gives the device to one browser at a time.  While the
    session is owned by [t], requests that do not present [t], however many and
    whatever they are, do not reach the device, do not take over or end the
    session, and a POST among them is refused with 400, 403 or 409 in a response
    that does not disclose a token; a POST of the owner reaches the device. *)
Theorem remote_exclusive {W} `{Api W} json_loads t (g : gateway (W := W * list (string * document))) :
  _token (sessions g) = Some t →
  (∀ hs, Forall (λ h, ¬ presents json_loads (http_request_of h) t) hs →
     sessions (serve_all json_loads hs g) = sessions g
     ∧ (behind (serve_all json_loads hs g)).2 = (behind g).2
     ∧ ∀ h, ¬ presents json_loads (http_request_of h) t →
         refused h (serve json_loads h (serve_all json_loads hs g)).2)
  ∧ (∀ now fresh r payload, t ≠ EmptyString → ascii_only (encode_utf8 t) = true →
     _read_json json_loads r = Ok payload → _session_token r (Some payload) = Some t →
     h_path r ≠ "/api/acquire"%string → h_path r ≠ "/api/release"%string →
     (behind (do_POST json_loads now fresh r g).1).2 = (behind g).2 ++ [(h_path r, payload)]).
Proof.
  intros Ht. set (same := λ w w' : W * list (string * document), w'.2 = w.2).
  assert (∀ path w, same w (api_get path w).1) as Hread.
  { intros path [w log]. cbn. by destruct (api_get path w). }
  assert (Reflexive same) as Hrefl by done. assert (Transitive same) as Htrans by (intros ???; unfold same; congruence).
  split.
  - intros hs Hhs. destruct (strangers_all json_loads same Hread hs g t Htrans Ht Hhs) as [Hs Hlog].
    split; [done|]. split; [done|]. intros h Hh.
    destruct (serve json_loads h (serve_all json_loads hs g)) as [g' res] eqn:E.
    apply (stranger_step json_loads same Hread h _ _ t) in E as (_ & _ & E); [exact E|by rewrite Hs|exact Hh].
  - intros now fresh r payload Hne Ha Hr Htok Hacq Hrel. unfold do_POST, mbind, io_bind.
    rewrite (post_enter_owner json_loads now fresh r payload t g) by done. destruct g as [s [w log]].
    unfold post_call, mbind, io_bind, on_api. cbn [behind sessions api_post logged_api].
    by destruct (api_post (h_path r) payload w) as [w' [[d st]|e]].
Qed.

(** A device that counts the calls, and a parser of the empty object *)
#[local] Instance counting_api : Api Z := {|
  api_get := λ _ n, (n, Ok ([], HTTP_OK));
  api_post := λ _ _ n, (n + 1, Ok ([("ok", JBool true)]%string, HTTP_OK));
|}.
Definition empty_object (b : bytes) : result json :=
  if bytes_eqb b (lit "{}") then Ok (JObj []) else Raise (ValueError "invalid JSON").

Example remote_exclusive_witness :
  let g := mkGateway (mkPublic (Some "secret"%string) (Some "browser"%string) None None) (0, []) in
  let stranger := Post fzero "new"%string (mkHttp "/api/memory" None (Some "guess"%string) []) in
  let owner := mkHttp "/api/memory" None (Some "secret"%string) [] in
  sessions (serve_all empty_object [stranger] g) = sessions g
  ∧ (behind (serve_all empty_object [stranger] g)).2 = []
  ∧ (behind (do_POST empty_object fzero "new" owner g).1).2 = [("/api/memory"%string, [])].
Proof.
  intros g stranger owner.
  assert (¬ presents empty_object (http_request_of stranger) "secret"%string) as Hs.
  { intros [Hp|(payload & _ & Hp)]; discriminate Hp. }
  destruct (remote_exclusive empty_object "secret"%string g eq_refl) as [Hall Hown].
  destruct (Hall [stranger]) as (H1 & H2 & _); [by constructor|].
  split; [exact H1|]. split; [exact H2|].
  apply (Hown fzero "new"%string owner []); [done|reflexivity..|done|done].
Defined.

(** A token outside ASCII makes the comparison raise; no response is sent. *)
Lemma non_ascii_token now t token s :
  _token s = Some t → token ≠ EmptyString → ascii_only (encode_utf8 token) = false →
  authorize now (Some token) s
  = (s, Raise (TypeError "comparing strings with non-ASCII characters is not supported")).
Proof.
  intros Ht Hne Ha. unfold authorize, token_matches, compare_digest. rewrite Ht.
  destruct token; [done|]. by rewrite Ha.
Qed.
