(* ===== verification/WebApi.v ===== *)
(** * The Web API (host/apps/web/rp86_web_api.py, rp86_web_view.py)

    [WebApi] turns HTTP requests into broker RPCs.  Everything outside the
    process (broker discovery, the broker's RPC, child processes, time, the
    [rp86] command's process) is the class [WebWorld]; [request_lock] serialises the
    requests, so each one is a single run.  [float_repr], [py_float] and
    [json_loads] are Python's float printing, [float()] and [json.loads].

    The theorems show that memory that is displayed was sent by the device for
    this very request, and that an upload that reports success had every one of
    its records accepted, in order, after a running workload was stopped. *)

From S2P Require Import Prelude Struct PyText Json Base64 Protocol Core Memory Workload RuntimeState Broker.
From Stdlib Require Import Ascii SpecFloat.

Abbreviation document := (list (string * json)).

(** What [subprocess.run] of the [rp86] command ends with.  [TimeoutExpired]
    holds what was captured as bytes, or [None] when nothing was. *)
Inductive completion :=
| Completed (returncode : Z) (stdout stderr : string)
| TimeoutExpired (stdout stderr : option bytes).

Class WebWorld (W : Type) := {
  discover : io W (list BrokerRecord);
  hello_rpc : BrokerRecord → string → io W document;
  exchange_rpc : BrokerRecord → string → string → bytes → io W document;
  subprocess_run : list string → Z → io W completion;  (** the arguments, the timeout in seconds *)
  popen : io W Z;
  poll : Z → W → W * option Z;
  terminate : Z → W → W;
  kill : Z → W → W;
  wait : Z → float → W → W * bool;   (** false: timeout expired *)
  web_monotonic : W → W * Z;         (** in milliseconds *)
  web_sleep : Z → W → W;
  transfer_bits : W → W * Z;         (** [secrets.randbits(32)] *)
}.

(** The state of the [WebApi] object *)
Record web (W : Type) := mkWeb {
  outside : W;
  owned_runtime : option Z;
  owner_mode : string;
  owner_error : option string;
  recovery_active : bool;
  recoveries : Z;                    (** recovery threads started *)
}.
Arguments mkWeb {W} _ _ _ _ _ _.
Arguments outside {W} _.
Arguments owned_runtime {W} _.
Arguments owner_mode {W} _.
Arguments owner_error {W} _.
Arguments recovery_active {W} _.
Arguments recoveries {W} _.

(** [{"ok": False, "error": text}] *)
Definition fail_with (text : string) : document := [("ok", JBool false); ("error", JStr text)]%string.
Definition invalid (text : string) : document := fail_with text ++ [("validation_error", JBool true)]%string.

Section dictionary.
Context (float_repr : spec_float → string).

(** A key of a dictionary, as JSON writes it *)
Definition dict_key (k : json) : result string :=
  match k with
  | JStr s => Ok s
  | JNull => Ok "null"%string
  | JBool b => Ok (if b then "true"%string else "false"%string)
  | JInt z => Ok (dec z)
  | JFloat x => Ok (float_repr x)
  | JList _ | JObj _ => Raise (TypeError ("unhashable type: '" +:+ type_name k +:+ "'"))
  | JBytes _ => Raise (TypeError "keys must be str, int, float, bool or None")
  end.

(** What iterating over an element gives: the items, the characters or the keys *)
Definition iterated (j : json) : option (list json) :=
  match j with
  | JList l => Some l
  | JStr s => Some (map (λ c, JStr (of_octets (utf8_char c))) (utf8_points (map byte.unsigned (encode_utf8 s))))
  | JObj d => Some (map (λ x, JStr x.1) d)
  | _ => None
  end.

(** [dict(l)] of a sequence of pairs *)
Fixpoint dict_of_pairs (i : Z) (l : list json) (d : document) : result document :=
  match l with
  | [] => Ok d
  | x :: l =>
      match iterated x with
      | None => Raise (TypeError ("cannot convert dictionary update sequence element #" +:+ dec i +:+ " to a sequence"))
      | Some [k; v] => k ← dict_key k; dict_of_pairs (i + 1) l (jset k v d)
      | Some items =>
          Raise (ValueError ("dictionary update sequence element #" +:+ dec i +:+ " has length " +:+ dec (len items)
                             +:+ "; 2 is required"))
      end
  end.

(** [dict(x or {})] *)
Definition dict_or_empty (j : json) : result document :=
  if negb (jtruthy j) then Ok [] else
  match j with
  | JObj d => Ok d
  | _ => match iterated j with
         | Some l => dict_of_pairs 0 l []
         | None => Raise (TypeError ("'" +:+ type_name j +:+ "' object is not iterable"))
         end
  end.
End dictionary.

Section api.
Context (float_repr : spec_float → string) (py_float : json → result spec_float) (json_loads : string → result json).
Context {W : Type} `{WebWorld W}.

Definition outer {A} (m : io W A) : io (web W) A := λ s,
  let '(w, r) := m (outside s) in
  (mkWeb w (owned_runtime s) (owner_mode s) (owner_error s) (recovery_active s) (recoveries s), r).
Definition outer_total {A} (m : W → W * A) : io (web W) A := outer (λ w, let '(w, a) := m w in (w, Ok a)).
Definition outer_do (f : W → W) : io (web W) unit := outer (λ w, (f w, Ok tt)).
Definition set_owner (mode : string) (error : option string) : io (web W) unit := modify (λ s,
  mkWeb (outside s) (owned_runtime s) mode error (recovery_active s) (recoveries s)).
Definition set_error (error : string) : io (web W) unit := modify (λ s,
  mkWeb (outside s) (owned_runtime s) (owner_mode s) (Some error) (recovery_active s) (recoveries s)).
Definition set_runtime (p : option Z) : io (web W) unit := modify (λ s,
  mkWeb (outside s) p (owner_mode s) (owner_error s) (recovery_active s) (recoveries s)).
Definition set_recovery (active : bool) (n : Z) : io (web W) unit := modify (λ s,
  mkWeb (outside s) (owned_runtime s) (owner_mode s) (owner_error s) active (recoveries s + n)).

Definition active_broker : io (web W) (option BrokerRecord) :=
  records ← outer discover;
  lift (select_broker records None).

(** [str(d.get(key) or text)] *)
Definition get_or (key : string) (d : document) (text : string) : string := jstr_or float_repr (jget key d) text.

Definition captured_or_empty (out : option bytes) : json :=
  match out with Some (x :: b) => JBytes (x :: b) | _ => JStr "" end.

Definition run_rp86 (args : list string) (timeout : Z) : io (web W) document :=
  completed ← outer (subprocess_run args timeout);
  mret match completed with
       | TimeoutExpired stdout stderr =>
           [("ok", JBool false); ("error", JStr ("RP86 command timed out after " +:+ dec timeout +:+ ".0s"));
            ("stdout", captured_or_empty stdout); ("stderr", captured_or_empty stderr)]%string
       | Completed returncode stdout stderr =>
           [("ok", JBool (returncode =? 0)%Z); ("returncode", JInt returncode); ("stdout", JStr stdout);
            ("stderr", JStr stderr); ("command", JList (map JStr args))]%string
       end.

(** ** The runtime owner *)

Definition owner_ok (mode : string) (r : BrokerRecord) : document :=
  [("ok", JBool true); ("mode", JStr mode); ("device_id", JStr (device_id r))]%string.

(** The wait for the child's broker; [reboot] is the recovery when it is allowed.
    [None] is "out of fuel". *)
Fixpoint owner_wait (fuel : nat) (process deadline : Z) (recover : option (io (web W) (option document)))
  : io (web W) (option document) :=
  match fuel with
  | O => mret None
  | S fuel =>
      t ← outer_total web_monotonic;
      if negb (t <? deadline) then
        let text := "background RP86 runtime is still starting; no Host Broker yet"%string in
        _ ← set_owner "starting" (Some text);
        mret (Some (fail_with text))
      else
        exit ← outer_total (poll process);
        match exit with
        | Some exit_code =>
            match recover with
            | Some again =>
                reboot ← run_rp86 ["--reboot"; "--timeout"; "5"]%string 8;
                if jtruthy (jget "ok" reboot) then
                  _ ← set_runtime None;
                  _ ← outer_do (web_sleep 1500);
                  again
                else
                  let recovery := str_strip
                    (if jtruthy (jget "error" reboot) then jstr float_repr (jget "error" reboot)
                     else get_or "stderr" reboot "HID reboot failed") in
                  let text := "background RP86 runtime exited before publishing a Host Broker (exit "
                                +:+ dec exit_code +:+ "); recovery failed: " +:+ recovery in
                  _ ← set_error text;
                  mret (Some (fail_with text))
            | None =>
                let text := "background RP86 runtime exited before publishing a Host Broker (exit "
                              +:+ dec exit_code +:+ ")" in
                _ ← set_error text;
                mret (Some (fail_with text))
            end
        | None =>
            broker ← catch_classes runtime_error (r ← active_broker; mret (inl r)) (λ text, mret (inr text));
            match broker with
            | inr text => _ ← set_error text; mret (Some (fail_with text))
            | inl (Some record) => _ ← set_owner "web-owned" None; mret (Some (owner_ok "web-owned" record))
            | inl None => _ ← outer_do (web_sleep 100); owner_wait fuel process deadline recover
            end
        end
  end.

Definition ensure_once (fuel : nat) (wait_ms : Z) (recover : option (io (web W) (option document)))
  : io (web W) (option document) :=
  broker ← catch_classes runtime_error (r ← active_broker; mret (inl r)) (λ text, mret (inr text));
  match broker with
  | inr text => _ ← set_error text; mret (Some (fail_with text))
  | inl (Some record) => _ ← set_owner "existing" None; mret (Some (owner_ok "existing" record))
  | inl None =>
      started ← catch_os_error (p ← outer popen; mret (inl p)) (λ text, mret (inr text));
      match started with
      | inr exc =>
          let text := "failed to start background RP86 runtime: " +:+ exc in
          _ ← set_error text; mret (Some (fail_with text))
      | inl process =>
          _ ← set_runtime (Some process);
          t ← outer_total web_monotonic;
          owner_wait fuel process (t + wait_ms) recover
      end
  end.

Definition ensure_runtime_owner (fuel : nat) (wait_ms : Z) (allow_reboot_recovery : bool) : io (web W) (option document) :=
  ensure_once fuel wait_ms (if allow_reboot_recovery then Some (ensure_once fuel wait_ms None) else None).

Definition two_seconds : float := float_of_Z 2.

Definition stop_owned_runtime : io (web W) unit :=
  process ← gets owned_runtime;
  match process with
  | None => mret tt
  | Some p =>
      exit ← outer_total (poll p);
      match exit with
      | Some _ => mret tt
      | None =>
          _ ← outer_do (terminate p);
          ended ← outer_total (wait p two_seconds);
          _ ← (if (ended : bool) then mret tt else
                 _ ← outer_do (kill p);
                 gone ← outer_total (wait p two_seconds);
                 if (gone : bool) then mret tt else raise ChildTimeout);
          set_runtime None
      end
  end.

(** The thread that is started is [recover] below. *)
Definition start_runtime_recovery (reason : string) : io (web W) unit :=
  mode ← gets owner_mode;
  active ← gets recovery_active;
  if negb (String.eqb mode "web-owned") || (active : bool) then mret tt else
  _ ← set_recovery true 1;
  set_error ("RP86 runtime restarting: " +:+ reason).

(** The body of the recovery thread; the flag is cleared in any case. *)
Definition recover (fuel : nat) : io (web W) (option unit) := finally
  (_ ← outer_do (web_sleep 1500);
   process ← gets owned_runtime;
   _ ← match process with
       | None => mret tt
       | Some p =>
           exit ← outer_total (poll p);
           _ ← match exit with None => _ ← outer_total (wait p (float_of_Z 5)); mret tt | Some _ => mret tt end;
           exit ← outer_total (poll p);
           match exit with Some _ => set_runtime None | None => mret tt end
       end;
   result ← ensure_runtime_owner fuel 75000 true;
   match result with
   | None => mret None
   | Some d =>
       _ ← (if jtruthy (jget "ok" d) then mret tt
            else set_error (get_or "error" d "RP86 runtime recovery failed"));
       mret (Some tt)
   end)
  (λ s, mkWeb (outside s) (owned_runtime s) (owner_mode s) (owner_error s) false (recoveries s)).

(** ** Telemetry *)

Definition processor_view (mode : string) (r : BrokerRecord) (reply : document) : result document :=
  snapshot ← dict_or_empty float_repr (jget "snapshot" reply);
  let identity_policy := default (JStr (r_processor r)) (str_get "processor" reply) in
  let native := jget "native_processor" snapshot in
  Ok [("ok", JBool true); ("owner_mode", JStr mode); ("device_id", JStr (device_id r));
      ("processor", if jtruthy native then native else identity_policy);
      ("identity_policy", identity_policy); ("tcp_port", JInt (tcp_port r)); ("udp_port", JInt (udp_port r));
      ("snapshot", JObj snapshot)]%string.

Definition processor_snapshot : io (web W) document :=
  broker ← catch_classes runtime_error (r ← active_broker; mret (inl r)) (λ text, mret (inr text));
  match broker with
  | inr text =>
      mode ← gets owner_mode;
      mret (fail_with text ++ [("owner_mode", JStr mode)]%string)
  | inl None =>
      mode ← gets owner_mode;
      process ← gets owned_runtime;
      gone ← match process with
             | None => mret true
             | Some p => if String.eqb mode "web-owned"
                         then exit ← outer_total (poll p); mret (bool_decide (is_Some exit)) else mret false
             end;
      _ ← (if String.eqb mode "web-owned" && (gone : bool)
           then start_runtime_recovery "Web-owned processor session exited" else mret tt);
      error ← gets owner_error;
      mode ← gets owner_mode;
      mret (fail_with (str_or (default EmptyString error) "No active RP86 Host Broker.")
            ++ [("owner_mode", JStr mode)]%string)
  | inl (Some record) =>
      reply ← catch_classes os_runtime_value_error (r ← outer (hello_rpc record "web"); mret (inl r)) (λ text, mret (inr text));
      match reply with
      | inr text => mret (fail_with ("Host Broker telemetry failed: " +:+ text))
      | inl reply =>
          if negb (jtruthy (jget "ok" reply)) then mret (fail_with (get_or "error" reply "broker hello failed"))
          else mode ← gets owner_mode; lift (processor_view mode record reply)
      end
  end.

(** ** Requests to the device *)

(** The broker a request goes to, or the document that refuses it *)
Definition with_broker (k : BrokerRecord → io (web W) document) : io (web W) document :=
  broker ← catch_classes runtime_error (r ← active_broker; mret (inl r)) (λ text, mret (inr text));
  match broker with
  | inr text => mret (fail_with text)
  | inl None => mret (fail_with "No active RP86 Host Broker.")
  | inl (Some record) => k record
  end.

Definition _sequence_from_hello (hello : document) : result Z :=
  snapshot ← dict_or_empty float_repr (jget "snapshot" hello);
  let value := jget "request_sequence" snapshot in
  sequence ← (if jtruthy value then jint value else Ok 1);
  Ok (or_one (mask32 sequence)).

Definition _next_sequence (sequence : Z) : Z := next_seq sequence.

(** [client.hello()] and the check every operation makes of it *)
Definition checked_hello (record : BrokerRecord) (prefix : string) : io (web W) document :=
  hello ← outer (hello_rpc record prefix);
  if negb (jtruthy (jget "ok" hello)) then raise (RuntimeError (get_or "error" hello "broker hello failed"))
  else mret hello.

(** [Message.decode(bytes.fromhex(str(result["reply_hex"])))] *)
Definition decode_reply (result : document) : Prelude.result Message :=
  h ← jitem "reply_hex" result;
  match bytes_fromhex (jstr float_repr h) with
  | None => Raise (ValueError "non-hexadecimal number found in fromhex() arg")
  | Some b => decode b
  end.

Definition _workload_state (reply : Message) : result document :=
  state ← from_payload (payload reply);
  processor ← runtime_processor state;
  Ok [("workload_id", JInt (workload_id state)); ("state", JStr (lifecycle_name state));
      ("detail", JInt (detail state)); ("clock", JStr (clock_name state)); ("cycles", JInt (cycles state));
      ("processor_state", JStr (processor_state state)); ("processor_flags", JInt (processor_flags state));
      ("result_structured", JBool (structured_result state)); ("result_pass", JBool (passed state));
      ("completion_reason", JStr (completion_reason_name state)); ("processor", jopt JStr processor);
      ("native_output", JStr (native_output_text state))]%string.

(** The reply, or the text of the error *)
Definition _exchange_workload_record (record : BrokerRecord) (request : Message) (operation : string)
  : io (web W) (Message + string) :=
  catch_classes exchange_error
    (encoded ← lift (encode request);
     result ← outer (exchange_rpc record "web-workload" operation encoded);
     if negb (jtruthy (jget "ok" result)) then mret (inr (get_or "error" result (operation +:+ " failed"))) else
     reply ← lift (decode_reply result);
     if negb (status reply =? STATUS_OK)
     then mret (inr (operation +:+ " rejected by RP2350 (status " +:+ dec (status reply) +:+ ")"))
     else mret (inl reply))
    (λ text, mret (inr text)).

(** Two attempts; an attempt ends with a document, or with an error and whether
    it was raised (a pause follows the first one then). *)
Definition attempts (once : string → io (web W) (document + string)) (last_error : string) : io (web W) document :=
  first ← catch_classes exchange_error
            (r ← once last_error; mret (match r with inl d => inl d | inr text => inr (text, false) end))
            (λ text, mret (inr (text, true)));
  match first with
  | inl d => mret d
  | inr (text, raised) =>
      _ ← (if (raised : bool) then outer_do (web_sleep 30) else mret tt);
      second ← catch_classes exchange_error (once text) (λ text, mret (inr text));
      match second with
      | inl d => mret d
      | inr text => mret (fail_with text)
      end
  end.

(** [float(result.get("latency_ms") or 0.0)] *)
Definition latency_of (result : document) : Prelude.result json :=
  let value := jget "latency_ms" result in
  if jtruthy value then x ← py_float value; Ok (JFloat x) else Ok (JFloat fzero).

Definition processor_command (command_text : string) : io (web W) document :=
  let command := encode_utf8 command_text in
  if negb (truthy (len command)) then mret (fail_with "command is empty")
  else if 14 <? len command then mret (fail_with "command exceeds the 14-byte native mailbox limit")
  else with_broker (λ record, attempts (λ last_error,
    hello ← checked_hello record "web-console";
    sequence ← lift (_sequence_from_hello hello);
    let request := request_message TYPE_COMMAND sequence command in
    encoded ← lift (encode request);
    result ← outer (exchange_rpc record "web-console" "console" encoded);
    if negb (jtruthy (jget "ok" result)) then mret (inr (get_or "error" result last_error)) else
    reply ← lift (decode_reply result);
    witness ← lift (witness_decode (payload reply));
    latency ← lift (latency_of result);
    mret (inl [("ok", JBool true); ("processor", jopt JStr (witness_processor witness));
               ("reply", JStr (decode_ascii_replace (Protocol.text witness)));
               ("request_sequence", JInt sequence); ("boot_id", JInt (boot_id witness));
               ("cpu_sequence", JInt (cpu_sequence witness));
               ("command_sequence", JInt (command_sequence witness)); ("latency_ms", latency)]%string))
    "processor command failed").

Definition memory_read (address_value length_value : json) : io (web W) document :=
  match py_int 0 (jstr float_repr address_value), py_int 0 (jstr float_repr length_value) with
  | Ok address, Ok length =>
      if negb ((1 <=? length) && (length <=? 40)) then mret (fail_with "memory viewer length must be 1-40 bytes")
      else with_broker (λ record, attempts (λ last_error,
        hello ← checked_hello record "web-memory";
        sequence ← lift (_sequence_from_hello hello);
        request ← lift (memory_read_request address length sequence);
        encoded ← lift (encode request);
        result ← outer (exchange_rpc record "web-memory" "memory" encoded);
        if negb (jtruthy (jget "ok" result)) then mret (inr (get_or "error" result last_error)) else
        reply ← lift (decode_reply result);
        data ← lift (parse_memory_read reply request);
        latency ← lift (latency_of result);
        mret (inl [("ok", JBool true); ("address", JInt address); ("length", JInt (len data));
                   ("hex", JStr (bytes_hex data)); ("dump", JStr (format_memory_dump address data));
                   ("request_sequence", JInt sequence); ("latency_ms", latency)]%string))
        "memory read failed")
  | _, _ => mret (fail_with "address and length must be integers")
  end.

(** [isinstance(x, str) and x] *)
Definition nonempty_str (j : json) : option string :=
  match j with JStr (String _ _ as s) => Some s | _ => None end.

(** [base64.b64decode(encoded, validate=True)] *)
Definition decode_upload (encoded : string) : option bytes :=
  match decode_record (JStr encoded) with Ok b => Some b | Raise _ => None end.

(** The options of a raw image, in this order *)
Definition upload_arguments (filename : string) (form : document) : list string :=
  filename ::
  (if str_ends ".p86w" (str_lower filename) then []
   else [("address", "--address"); ("entry", "--entry"); ("stack", "--stack"); ("clock", "--clock")]%string
     ≫= λ '(key, option),
          match jget key form with
          | JNull => []
          | value =>
              match str_strip (jstr float_repr value) with
              | EmptyString => []
              | stripped => [option; stripped]
              end
          end).

(** [for index, request in enumerate(records, 1)]: the last reply, or the refusal *)
Fixpoint upload_loop (record : BrokerRecord) (count index : Z) (records : list Message) (final : option Message)
  : io (web W) (option Message + document) :=
  match records with
  | [] => mret (inl final)
  | request :: records =>
      answer ← _exchange_workload_record record request ("load-" +:+ dec index);
      match answer with
      | inr error =>
          mret (inr (fail_with (str_or error "workload upload failed")
                     ++ [("failed_record", JInt index); ("record_count", JInt count)]%string))
      | inl reply => upload_loop record count (index + 1) records (Some reply)
      end
  end.

Definition far (segment offset : Z) : string := hex_upper 4 segment +:+ ":" +:+ hex_upper 4 offset.

(** A workload that runs or has completed is stopped first: the next sequence, or
    the refusal *)
Definition stop_before_load (record : BrokerRecord) (snapshot : document) (sequence : Z) : io (web W) (Z + document) :=
  if str_in (get_or "workload_state" snapshot EmptyString) ["RUNNING"; "COMPLETED"]%string then
    stop ← lift (control_record "stop" 0 sequence);
    answer ← _exchange_workload_record record stop "stop-before-load";
    match answer with
    | inr error => mret (inr (fail_with (str_or error "workload stop failed")))
    | inl _ => mret (inl (_next_sequence (Protocol.sequence stop)))
    end
  else mret (inl sequence).

Definition upload_body (filename : string) (data : bytes) (arguments : list string) (record : BrokerRecord)
  : io (web W) document :=
  hello ← checked_hello record "web-workload";
  snapshot ← lift (dict_or_empty float_repr (jget "snapshot" hello));
  sequence ← lift (_sequence_from_hello hello);
  stopped ← stop_before_load record snapshot sequence;
  match stopped with
  | inr refusal => mret refusal
  | inl sequence =>
      transfer_id ← outer_total transfer_bits;
      '(manifest, image, records) ← lift (workload_from_bytes data arguments transfer_id sequence);
      outcome ← upload_loop record (len records) 1 records None;
      match outcome with
      | inr refusal => mret refusal
      | inl None => raise AssertionError
      | inl (Some final_reply) =>
          workload ← lift (_workload_state final_reply);
          mret [("ok", JBool true); ("name", JStr filename); ("image_size", JInt (len image));
                ("load_address", JInt (load_address manifest));
                ("entry", JStr (far (entry_segment manifest) (entry_offset manifest)));
                ("stack", JStr (far (stack_segment manifest) (stack_offset manifest)));
                ("flags", JInt (m_flags manifest)); ("crc32", JStr (hex_upper 8 (image_crc32 manifest)));
                ("record_count", JInt (len records)); ("workload", JObj workload)]%string
      end
  end.

Definition workload_upload (form : document) : io (web W) document :=
  match nonempty_str (jget "name" form), nonempty_str (jget "data" form) with
  | None, _ => mret (invalid "workload name is required")
  | _, None => mret (invalid "workload data is required")
  | Some filename, Some encoded =>
      match decode_upload encoded with
      | None => mret (invalid "workload data must be valid base64")
      | Some data =>
          with_broker (λ record, λ s,
            match upload_body filename data (upload_arguments filename form) record s with
            | (s, Raise (OSError text)) | (s, Raise (RuntimeError text)) => (s, Ok (fail_with text))
            | (s, Raise (ValueError text)) => (s, Ok (invalid text))
            | r => r
            end)
      end
  end.

(** [x in {...}] of strings: an unhashable [x] raises TypeError. *)
Definition in_set (j : json) (names : list string) : result bool :=
  match j with
  | JStr s => Ok (str_in s names)
  | JList _ => Raise (TypeError "unhashable type: 'list'")
  | JObj _ => Raise (TypeError "unhashable type: 'dict'")
  | _ => Ok false
  end.

Definition workload_control (action : json) : io (web W) document :=
  known ← lift (in_set action ["run"; "stop"; "restart"; "status"]%string);
  if negb (known : bool) then mret (invalid "unsupported workload action") else
  let operation := jstr float_repr action in
  with_broker (λ record, catch_classes os_runtime_value_error
    (hello ← checked_hello record "web-workload";
     sequence ← lift (_sequence_from_hello hello);
     request ← lift (control_record operation 0 sequence);
     answer ← _exchange_workload_record record request operation;
     match answer with
     | inr error => mret (fail_with (str_or error ("workload " +:+ operation +:+ " failed")))
     | inl reply =>
         workload ← lift (_workload_state reply);
         mret [("ok", JBool true); ("action", action); ("workload", JObj workload)]%string
     end)
    (λ text, mret (fail_with text))).

(** ** The routes *)

(** [200 if result["ok"] else status] *)
Definition ok_status (result : document) (status : Z) : Prelude.result (document * Z) :=
  ok ← jitem "ok" result;
  Ok (result, if jtruthy ok then 200 else status).

Definition validation_status (result : document) : Prelude.result (document * Z) :=
  ok_status result (if jtruthy (jget "validation_error" result) then 400 else 503).

Definition web_get (path : string) : io (web W) (document * Z) :=
  if String.eqb path "/api/processor" then
    result ← processor_snapshot; lift (ok_status result 503)
  else
    let command := if String.eqb path "/api/status" then Some ["--status"; "--timeout"; "3"]%string
                   else if String.eqb path "/api/devices" then Some ["--list-devices"; "--json"]%string else None in
    match command with
    | None => mret (fail_with "not found", 404)
    | Some command =>
        result ← run_rp86 command 5;
        if String.eqb path "/api/status" || negb (jtruthy (jget "ok" result))
        then mret (result, if jtruthy (jget "ok" result) then 200 else 503)
        else
          stdout ← lift (jitem "stdout" result);
          match json_loads (jstr float_repr stdout) with
          | Ok value => mret ([("ok", JBool true); ("devices", value)]%string, 200)
          | Raise (ValueError exc) => mret (fail_with ("invalid JSON: " +:+ exc), 500)
          | Raise e => raise e
          end
    end.

Definition web_post (path : string) (form : document) : io (web W) (document * Z) :=
  if String.eqb path "/api/console" then
    match jget "text" form with
    | JStr t => result ← processor_command t; lift (ok_status result 503)
    | _ => mret (fail_with "text must be a string", 400)
    end
  else if String.eqb path "/api/memory" then
    result ← memory_read (jget "address" form) (jget "length" form);
    let error := jstr float_repr (jget "error" result) in
    let validation := existsb (λ t, str_contains t error) ["integer"; "1-40"; "Internal SRAM"]%string in
    lift (ok_status result (if validation then 400 else 503))
  else if String.eqb path "/api/workload" then
    result ← workload_upload form; lift (validation_status result)
  else if String.eqb path "/api/workload/control" then
    result ← workload_control (jget "action" form); lift (validation_status result)
  else if negb (String.eqb path "/api/control") then mret (fail_with "not found", 404)
  else
    let action := jget "action" form in
    known ← lift (in_set action ["reboot"; "bootloader"]%string);
    if negb (known : bool) then mret (fail_with "unsupported control action", 400) else
    let reboot := match action with JStr t => String.eqb t "reboot" | _ => false end in
    result ← run_rp86 [if reboot then "--reboot" else "--bootloader"; "--timeout"; "5"]%string 8;
    _ ← (if reboot && jtruthy (jget "ok" result)
         then start_runtime_recovery "RP2350 reboot acknowledged" else mret tt);
    lift (ok_status result 503).
End api.

(** ** Theorems *)

(** A world that keeps the records sent to the device and the answers *)
Abbreviation exchange_log := (list (bytes * document)).
Definition on_fst {W L A} (m : W → W * A) : W * L → (W * L) * A := λ '(w, log),
  let '(w, a) := m w in ((w, log), a).
#[global] Instance logged_web {W} `{WebWorld W} : WebWorld (W * exchange_log) := {|
  discover := on_fst discover;
  hello_rpc := λ r p, on_fst (hello_rpc r p);
  exchange_rpc := λ r p l b '(w, log),
    let '(w, x) := exchange_rpc r p l b w in ((w, match x with Ok d => log ++ [(b, d)] | Raise _ => log end), x);
  subprocess_run := λ args timeout, on_fst (subprocess_run args timeout);
  popen := on_fst popen;
  poll := λ p, on_fst (poll p);
  terminate := λ p '(w, log), (terminate p w, log);
  kill := λ p '(w, log), (kill p w, log);
  wait := λ p t, on_fst (wait p t);
  web_monotonic := on_fst web_monotonic;
  web_sleep := λ t '(w, log), (web_sleep t w, log);
  transfer_bits := on_fst transfer_bits;
|}.

(** An accepted answer *)
Definition accepted (float_repr : spec_float → string) (d : document) (reply : Message) : Prop :=
  jtruthy (jget "ok" d) = true ∧ decode_reply float_repr d = Ok reply ∧ status reply = STATUS_OK.

Section facts.
Context (float_repr : spec_float → string) (py_float : json → result spec_float).
Context {W : Type} `{WebWorld W}.

Abbreviation state := (web (W * exchange_log)).
Definition log_of (s : state) : exchange_log := (outside s).2.

Lemma outer_fst_log {A} (m : W → W * result A) (s s' : state) r :
  outer (on_fst m) s = (s', r) → log_of s' = log_of s.
Proof.
  unfold outer, log_of, on_fst. destruct (outside s) as [w log]. destruct (m w). by intros [= <- _].
Qed.

Lemma transfer_log (s s' : state) r : outer_total transfer_bits s = (s', r) → log_of s' = log_of s.
Proof.
  unfold outer_total, outer, log_of. destruct (outside s) as [w log]. cbn [transfer_bits logged_web on_fst].
  destruct (transfer_bits w). by intros [= <- _].
Qed.

Lemma active_broker_log (s s' : state) r : active_broker s = (s', r) → log_of s' = log_of s.
Proof.
  unfold active_broker, mbind, io_bind. destruct (outer discover s) as [s1 [l|e]] eqn:E;
    apply outer_fst_log in E; unfold lift; by intros [= <- _].
Qed.

(** The requests of [with_broker] go to the selected broker. *)
Lemma with_broker_ok (k : BrokerRecord → io state document) s s' d :
  with_broker k s = (s', Ok d) →
  (∃ text, d = fail_with text) ∨ ∃ record s1, log_of s1 = log_of s ∧ k record s1 = (s', Ok d).
Proof.
  unfold with_broker. intros Hr. io_step.
  match goal with E : catch_classes _ _ _ s = _ |- _ =>
    apply catch_ok in E as [E|(s2 & e & text & _ & _ & E)] end; io_inv.
  - match goal with E : active_broker s = _ |- _ => apply active_broker_log in E end.
    case_match; [right; by eexists _, _|left; io_inv; by eexists].
  - left. io_inv. by eexists.
Qed.

Lemma checked_hello_log record prefix (s s' : state) d :
  checked_hello float_repr record prefix s = (s', Ok d) → log_of s' = log_of s.
Proof.
  unfold checked_hello. intros Hr. io_step.
  match goal with E : outer _ s = _ |- _ => apply outer_fst_log in E end.
  case_match; io_inv. done.
Qed.

Lemma checked_hello_said record prefix (s s' : state) d :
  checked_hello float_repr record prefix s = (s', Ok d) → ∃ w w' : W * exchange_log, hello_rpc record prefix w = (w', Ok d).
Proof.
  unfold checked_hello. intros Hr. io_step. rename select (outer _ s = _) into Hx.
  case_match; io_inv. unfold outer in Hx. destruct (hello_rpc record prefix (outside s)) as [w' r] eqn:E.
  injection Hx as _ ->. by exists (outside s), w'.
Qed.

Lemma exchange_record_ok record request operation (s s' : state) reply :
  _exchange_workload_record float_repr record request operation s = (s', Ok (inl reply)) →
  ∃ encoded d, encode request = Ok encoded ∧ log_of s' = log_of s ++ [(encoded, d)] ∧ accepted float_repr d reply.
Proof.
  unfold _exchange_workload_record. intros Hr.
  apply catch_ok in Hr as [Hr|(s1 & e & text & _ & _ & Hr)]; [|by io_inv].
  io_step. match goal with E : lift (encode _) _ = _ |- _ => unfold lift in E; injection E as <- He end.
  io_step. rename select (outer _ _ = _) into Hx.
  case_match eqn:Hok; [by io_inv|]. io_step. rename select (lift _ _ = _) into Hd.
  unfold lift in Hd. injection Hd as <- Hd. case_match eqn:Hst; io_inv.
  eexists _, _. split; [done|]. apply negb_false_iff in Hok, Hst.
  unfold outer, log_of in *. destruct (outside s) as [w log]. cbn [exchange_rpc logged_web] in Hx.
  destruct (exchange_rpc record "web-workload" operation _ w) as [w' x]. injection Hx as <- ->.
  split; [done|]. split; [done|]. split; [done|lia].
Qed.
(** A record that was sent and accepted *)
Definition sent (request : Message) (entry : bytes * document) : Prop :=
  encode request = Ok entry.1 ∧ ∃ reply, accepted float_repr entry.2 reply.

Lemma upload_loop_sent record count index records final (s s' : state) f :
  upload_loop float_repr record count index records final s = (s', Ok (inl f)) →
  ∃ entries, log_of s' = log_of s ++ entries ∧ Forall2 sent records entries.
Proof.
  revert index final s. induction records as [|request records IH]; intros index final s; cbn [upload_loop]; intros Hr.
  { io_inv. exists []. by rewrite app_nil_r. }
  io_step. case_match; [|by io_inv].
  rename select (_exchange_workload_record _ _ _ _ _ = _) into Hx. simplify_eq.
  apply exchange_record_ok in Hx as (encoded & d & He & Hl & Ha).
  match goal with E : upload_loop _ _ _ _ _ _ _ = _ |- _ => apply IH in E as (entries & Hl' & Hs) end.
  exists ((encoded, d) :: entries). rewrite Hl', Hl, <- app_assoc. split; [done|].
  constructor; [|done]. split; [done|]. by eexists.
Qed.

(** What the broker said of the device before the upload decides about the stop:
    a workload that runs or has completed is stopped, and no other. *)
Definition stopped_first (snapshot : document) (seq : Z) (stops : list Message) (first : Z) : Prop :=
  if str_in (get_or float_repr "workload_state" snapshot EmptyString) ["RUNNING"; "COMPLETED"]%string
  then ∃ stop, control_record "stop" 0 seq = Ok stop ∧ stops = [stop] ∧ first = next_seq seq
  else stops = [] ∧ first = seq.

(** What a successful upload did *)
Definition uploaded (arguments : list string) (data : bytes) (s s' : state) : Prop :=
  ∃ record hello snapshot seq stops transfer first manifest image records entries,
    (∃ w w' : W * exchange_log, hello_rpc record "web-workload" w = (w', Ok hello))
    ∧ dict_or_empty float_repr (jget "snapshot" hello) = Ok snapshot ∧ _sequence_from_hello float_repr hello = Ok seq
    ∧ stopped_first snapshot seq stops first
    ∧ workload_from_bytes data arguments transfer first = Ok (manifest, image, records)
    ∧ device_upload records = Some (mkUpload transfer manifest image)
    ∧ log_of s' = log_of s ++ entries
    ∧ Forall2 sent (stops ++ records) entries.

Lemma workload_records data arguments transfer first manifest image records :
  workload_from_bytes data arguments transfer first = Ok (manifest, image, records) →
  device_upload records = Some (mkUpload transfer manifest image).
Proof.
  unfold workload_from_bytes. destruct arguments as [|source arguments]; [done|]. intros Hw.
  apply bind_ok in Hw as (o & _ & Hw). apply bind_ok in Hw as ([m i] & _ & Hw).
  apply bind_ok in Hw as (r & Hu & Hw). simplify_eq.
  destruct (upload_records_inv _ _ _ _ _ Hu) as (Hm & Hs & Hi & Ht).
  destruct (upload_records_spec manifest image transfer first Hm Hs Hi Ht) as (r & Hr & Hd & _).
  congruence.
Qed.

Lemma stop_before_load_sent record snapshot sequence (s s' : state) next :
  stop_before_load float_repr record snapshot sequence s = (s', Ok (inl next)) →
  ∃ stops entries, log_of s' = log_of s ++ entries ∧ Forall2 sent stops entries ∧ stopped_first snapshot sequence stops next.
Proof.
  unfold stop_before_load, stopped_first. destruct (str_in _ _).
  2:{ intros Hr. io_inv. exists [], []. rewrite app_nil_r. by split_and!. }
  intros Hr. io_step. rename select (lift _ _ = _) into Hl. pose proof (f_equal snd Hl : control_record "stop" 0 sequence = Ok x0) as Hc.
  apply (f_equal fst) in Hl; cbn in Hl; subst.
  assert (Protocol.sequence x0 = sequence) as Hseq.
  { destruct (control_record_inv _ _ _ _ Hc) as (? & _ & _ & _ & ->). done. }
  io_step. rename select (_exchange_workload_record _ _ _ _ _ = _) into Hx.
  case_match; [|by io_inv]. io_inv. apply exchange_record_ok in Hx as (encoded & d & He & Hl & Ha).
  exists [x0], [(encoded, d)]. split; [exact Hl|].
  split; [constructor; [|constructor]; split; [exact He|by eexists]|].
  exists x0. split; [exact Hc|]. by split.
Qed.

(** A refusal never says ok. *)
Lemma stop_refusal record snapshot sequence (s s' : state) d :
  stop_before_load float_repr record snapshot sequence s = (s', Ok (inr d)) → jget "ok" d = JBool false.
Proof.
  unfold stop_before_load. case_match; [|intros; by io_inv]. intros Hr. io_step. io_step.
  case_match; io_inv. done.
Qed.
Lemma loop_refusal record count index records final (s s' : state) d :
  upload_loop float_repr record count index records final s = (s', Ok (inr d)) → jget "ok" d = JBool false.
Proof.
  revert index final s. induction records as [|request records IH]; intros index final s; cbn [upload_loop]; intros Hr.
  { by io_inv. }
  io_step. case_match; [|by io_inv]. by eapply IH.
Qed.

Lemma upload_body_sent filename data arguments record (s s' : state) d :
  upload_body float_repr filename data arguments record s = (s', Ok d) → jget "ok" d = JBool true →
  uploaded arguments data s s'.
Proof.
  unfold upload_body. intros Hr Hok. io_step.
  rename select (checked_hello _ _ _ _ = _) into Hh.
  pose proof (checked_hello_said _ _ _ _ _ Hh) as Hsaid. apply checked_hello_log in Hh.
  io_step. rename select (lift (dict_or_empty _ _) _ = _) into Hd. injection Hd as <- Hd.
  io_step. rename select (lift (_sequence_from_hello _ _) _ = _) into Hq. injection Hq as <- Hq.
  io_step. rename select (stop_before_load _ _ _ _ _ = _) into Hstop.
  case_match; [|io_inv; apply stop_refusal in Hstop; congruence].
  subst. apply stop_before_load_sent in Hstop as (stops & entries & Hl & Hs & Hstopped).
  io_step. rename select (outer_total _ _ = _) into Ht. apply transfer_log in Ht.
  io_step. rename select (lift (workload_from_bytes _ _ _ _) _ = _) into Hw.
  unfold lift in Hw. injection Hw as <- Hw. case_match. case_match. subst.
  io_step. rename select (upload_loop _ _ _ _ _ _ _ = _) into Hloop.
  case_match; [|io_inv; apply loop_refusal in Hloop; congruence]. subst.
  apply upload_loop_sent in Hloop as (more & Hl' & Hs').
  case_match; [|by io_inv]. io_step. rename select (lift (_workload_state _) _ = _) into Hst. injection Hst as <- _.
  io_inv. eexists record, _, _, _, stops, _, _, _, _, _, (entries ++ more).
  split; [exact Hsaid|]. split; [exact Hd|]. split; [exact Hq|]. split; [exact Hstopped|]. split; [exact Hw|]. split; [by eapply workload_records|]. split; [by rewrite Hl', Ht, Hl, Hh, app_assoc|].
  by apply Forall2_app.
Qed.
End facts.

(** C17: an upload over the Web that reports success is complete.  The name and
    the base64 image of the form were well formed; the records the device
    accepted, in the order in which they were sent and with nothing in between,
    are the stop, exactly when the broker had just reported a running or completed
    workload, and then every record of the upload, numbered after it from the
    broker's sequence; and the device reassembles from them the very manifest and
    image that were read from the form. *)
Theorem web_upload_complete float_repr {W} `{WebWorld W} form (s s' : web (W * exchange_log)) d :
  workload_upload float_repr form s = (s', Ok d) → jget "ok" d = JBool true →
  ∃ filename encoded data, jget "name" form = JStr filename ∧ jget "data" form = JStr encoded
    ∧ decode_upload encoded = Some data
    ∧ uploaded float_repr (upload_arguments float_repr filename form) data s s'.
Proof.
  unfold workload_upload. intros Hr Hok.
  destruct (nonempty_str (jget "name" form)) as [filename|] eqn:En; [|io_inv; discriminate Hok].
  destruct (nonempty_str (jget "data" form)) as [encoded|] eqn:Ee; [|io_inv; discriminate Hok].
  destruct (decode_upload encoded) as [data|] eqn:Ed; [|io_inv; discriminate Hok].
  apply with_broker_ok in Hr as [[text ->]|(record & s1 & Hl & Hr)]; [discriminate Hok|].
  exists filename, encoded, data.
  assert (∀ j x, nonempty_str j = Some x → j = JStr x) as Hstr.
  { intros j x Hx. destruct j as [| | | |[|c t]| | |]; try discriminate Hx. by injection Hx as ->. }
  split; [by apply Hstr|]. split; [by apply Hstr|]. split; [done|].
  destruct (upload_body float_repr filename data _ record s1) as [s2 [d'|e]] eqn:Eb.
  - injection Hr as <- <-. apply upload_body_sent in Eb; [|done].
    destruct Eb as (rec & hello & snapshot & seq & stops & transfer & first & m & i & r & entries & Hb).
    exists rec, hello, snapshot, seq, stops, transfer, first, m, i, r, entries. by rewrite <- Hl.
  - destruct e; try discriminate Hr; injection Hr as <- <-; discriminate Hok.
Qed.

(** A device that accepts every record with an all-zero status payload *)
Definition zero_status (b : bytes) : document :=
  let reply := mkMessage TYPE_WORKLOAD_RESULT 1 (replicate 52 Byte.x00) 0 STATUS_OK PROTOCOL_VERSION in
  [("ok", JBool true);
   ("reply_hex", JStr (bytes_hex (match encode reply with Ok e => e | Raise _ => [] end)))]%string.
#[local] Instance accepting : WebWorld unit := {|
  discover := λ w, (w, Ok [mkBrokerRecord "dev" 1 2 3 "auto"]);
  hello_rpc := λ _ _ w, (w, Ok [("ok", JBool true);
    ("snapshot", JObj [("request_sequence", JInt 9); ("workload_state", JStr "RUNNING")])]%string);
  exchange_rpc := λ _ _ _ b w, (w, Ok (zero_status b));
  subprocess_run := λ _ _ w, (w, Ok (TimeoutExpired (Some (lit "partial")) None));
  popen := λ w, (w, Raise (OSError "no child"));
  poll := λ _ w, (w, None);
  terminate := λ _ w, w;
  kill := λ _ w, w;
  wait := λ _ _ w, (w, true);
  web_monotonic := λ w, (w, 0);
  web_sleep := λ _ w, w;
  transfer_bits := λ w, (w, 77);
|}.

Example web_upload_complete_witness :
  let form := [("name", JStr "demo.bin"); ("data", JStr "UlA4Ng=="); ("address", JStr "0x10000")]%string in
  let s := mkWeb (tt, []) None "existing" None false 0 in
  ∃ s' d, workload_upload (λ _, EmptyString) form s = (s', Ok d) ∧ jget "ok" d = JBool true
    ∧ len (log_of s') = 4
    ∧ ∃ filename encoded data, jget "name" form = JStr filename ∧ jget "data" form = JStr encoded
        ∧ decode_upload encoded = Some data
        ∧ uploaded (λ _, EmptyString) (upload_arguments (λ _, EmptyString) filename form) data s s'.
Proof.
  intros form s. destruct (workload_upload (λ _, EmptyString) form s) as [s' [d|]] eqn:E;
    [|vm_compute in E; discriminate E].
  assert (jget "ok" d = JBool true) as Hok by (vm_compute in E; injection E as _ <-; reflexivity).
  exists s', d. split; [reflexivity|]. split; [exact Hok|].
  split; [vm_compute in E; injection E as <- _; reflexivity|].
  exact (web_upload_complete (λ _, EmptyString) form s s' d E Hok).
Defined.

(** *** Reading memory *)

Lemma attempts_ok {W} `{WebWorld W} (once : string → io (web W) (document + string)) last_error s s' d :
  attempts once last_error s = (s', Ok d) → jget "ok" d = JBool true →
  ∃ error s1 s2, once error s1 = (s2, Ok (inl d)).
Proof.
  unfold attempts. intros Hr Hok. io_step.
  match goal with E : catch_classes _ _ _ s = _ |- _ =>
    apply catch_ok in E as [E|(s2 & e & text & _ & _ & E)] end; io_inv.
  - match goal with E : once last_error s = (_, Ok ?x) |- _ => destruct x as [d1|text1] end; io_inv; [by eauto|].
    match goal with E : catch_classes _ _ _ _ = _ |- _ =>
      apply catch_ok in E as [E|(s2 & e & text & _ & _ & E)] end; io_inv; try discriminate Hok.
    case_match; io_inv; try discriminate Hok; by eauto.
  - match goal with E : catch_classes _ _ _ _ = _ |- _ =>
      apply catch_ok in E as [E|(s3 & e' & text' & _ & _ & E)] end; io_inv; try discriminate Hok.
    case_match; io_inv; try discriminate Hok; by eauto.
Qed.

Lemma with_broker_run {W} `{WebWorld W} (k : BrokerRecord → io (web W) document) s s' d :
  with_broker k s = (s', Ok d) → jget "ok" d = JBool true → ∃ record s1, k record s1 = (s', Ok d).
Proof.
  unfold with_broker. intros Hr Hok. io_step.
  match goal with E : catch_classes _ _ _ s = _ |- _ =>
    apply catch_ok in E as [E|(s2 & e & text & _ & _ & E)] end; io_inv; try discriminate Hok.
  case_match; [by eexists _, _|io_inv; try discriminate Hok].
Qed.

(** memory shown in the browser is what the device sent for this very
    request: when [memory_read] reports success, the address and the length of
    the form are a range of 1 to 40 octets inside the processor's SRAM, and the
    hexadecimal text is exactly the data of a reply of the device that echoes
    the operation, address and length of the request that was sent. *)
Theorem web_memory_genuine float_repr py_float {W} `{WebWorld W} address_value length_value (s s' : web W) d :
  memory_read float_repr py_float address_value length_value s = (s', Ok d) → jget "ok" d = JBool true →
  ∃ address length seq request record result reply data w w',
    py_int 0 (jstr float_repr address_value) = Ok address ∧ py_int 0 (jstr float_repr length_value) = Ok length
    ∧ 1 <= length <= 40 ∧ memory_read_request address length seq = Ok request
    ∧ (∃ encoded, encode request = Ok encoded
        ∧ exchange_rpc record "web-memory" "memory" encoded w = (w', Ok result))
    ∧ decode_reply float_repr result = Ok reply ∧ parse_memory_read reply request = Ok data
    ∧ jget "address" d = JInt address ∧ jget "length" d = JInt (len data)
    ∧ jget "hex" d = JStr (bytes_hex data) ∧ jget "dump" d = JStr (format_memory_dump address data).
Proof.
  unfold memory_read. intros Hr Hok.
  destruct (py_int 0 (jstr float_repr address_value)) as [address|] eqn:Ea; [|io_inv; discriminate Hok].
  destruct (py_int 0 (jstr float_repr length_value)) as [length|] eqn:El; [|io_inv; discriminate Hok].
  case_match eqn:Hrange; [io_inv; discriminate Hok|]. apply negb_false_iff, andb_prop in Hrange as [? ?].
  apply with_broker_run in Hr as (record & s1 & Hr); [|done].
  apply attempts_ok in Hr as (error & s2 & s3 & Hr); [|done].
  do 4 io_step. rename select (lift (_sequence_from_hello _ _) _ = _) into Hq.
  match goal with E : lift (memory_read_request _ _ _) _ = _ |- _ => unfold lift in E; injection E as <- Hreq end.
  match goal with E : lift (encode _) _ = _ |- _ => unfold lift in E; injection E as <- Henc end.
  io_step. rename select (outer _ _ = _) into Hx. case_match; [by io_inv|].
  do 3 io_step.
  match goal with E : lift (decode_reply _ _) _ = _ |- _ => unfold lift in E; injection E as <- Hdec end.
  match goal with E : lift (parse_memory_read _ _) _ = _ |- _ => unfold lift in E; injection E as <- Hparse end.
  rename select (lift (latency_of _ _) _ = _) into Hlat. injection Hlat as <- _.
  unfold mret, io_ret in *. simplify_eq.
  unfold outer in Hx. match type of Hx with context [exchange_rpc _ _ _ ?b ?w] => destruct (exchange_rpc record "web-memory" "memory" b w) as [w' r] eqn:Ew end.
  injection Hx as _ ->.
  eexists address, length, _, _, record, _, _, _, _, w'. split; [done|]. split; [done|]. split; [lia|].
  split; [exact Hreq|]. split; [eexists; split; [exact Henc|exact Ew]|]. split; [exact Hdec|]. by split.
Qed.

(** A device whose memory holds 'A' everywhere *)
Definition letters (b : bytes) : document :=
  match decode b with
  | Ok request =>
      let count := from_bytes_le (slice 8 12 (payload request)) in
      let reply := mkMessage TYPE_MEMORY_RESULT (Protocol.sequence request)
                     (payload request ++ replicate (Z.to_nat count) Byte.x41) 0 STATUS_OK PROTOCOL_VERSION in
      [("ok", JBool true);
       ("reply_hex", JStr (bytes_hex (match encode reply with Ok e => e | Raise _ => [] end)))]%string
  | Raise _ => []
  end.
Definition lettered : WebWorld unit := {|
  discover := discover;
  hello_rpc := λ _ _ w, (w, Ok [("ok", JBool true)]%string);
  exchange_rpc := λ _ _ _ b w, (w, Ok (letters b));
  subprocess_run := subprocess_run; popen := popen; poll := poll; terminate := terminate; kill := kill; wait := wait;
  web_monotonic := web_monotonic; web_sleep := web_sleep; transfer_bits := transfer_bits;
|}.

Example web_memory_genuine_witness :
  let s := mkWeb tt None "existing" None false 0 in
  ∃ s' d, memory_read (H := lettered) (λ _, EmptyString) (λ _, Raise IndexError) (JStr "0x500") (JInt 4) s = (s', Ok d)
    ∧ jget "hex" d = JStr "41414141" ∧ ∃ data, jget "hex" d = JStr (bytes_hex data).
Proof.
  intros s.
  destruct (memory_read (H := lettered) (λ _, EmptyString) (λ _, Raise IndexError) (JStr "0x500") (JInt 4) s)
    as [s' [d|]] eqn:E; [|vm_compute in E; discriminate E].
  assert (jget "ok" d = JBool true) as Hok by (vm_compute in E; injection E as _ <-; reflexivity).
  exists s', d. split; [reflexivity|].
  split; [vm_compute in E; injection E as _ <-; reflexivity|].
  destruct (web_memory_genuine (H := lettered) (λ _, EmptyString) (λ _, Raise IndexError) (JStr "0x500") (JInt 4) s s' d E Hok)
    as (address & length & seq & request & record & result & reply & data & w & w' & Hall).
  exists data. tauto.
Defined.

(** An action that is a JSON list or object raises TypeError: no document is built. *)
Example unhashable_action :
  (web_post (λ _, EmptyString) (λ _, Raise IndexError) "/api/workload/control" [("action"%string, JList [])]
     (mkWeb tt None "existing" None false 0)).2 = Raise (TypeError "unhashable type: 'list'").
Proof. reflexivity. Qed.
