(* ===== verification/WebTypes.v ===== *)
(** * The types of the Web API's answers

    Every route of [WebApi] answers with a document of one of a few types, which
    its status tells apart; the theorem is the contract that the pages and other
    clients of the API rely on. *)

From S2P Require Import Prelude Struct PyText Json Schema Protocol Core Memory Workload RuntimeState Broker WebApi.
From Stdlib Require Import SpecFloat.

(** ** The types *)

Abbreviation is_true := (TIs true).
Abbreviation is_false := (TIs false).

Definition failure : ty := TObj [("ok", is_false); ("error", TStr)]%string.
Definition refusal : ty := TObj [("ok", is_false); ("error", TStr); ("validation_error", is_true)]%string.
Definition record_failure : ty :=
  TObj [("ok", is_false); ("error", TStr); ("failed_record", TInt); ("record_count", TInt)]%string.
Definition processor_failure : ty := TObj [("ok", is_false); ("error", TStr); ("owner_mode", TStr)]%string.

(** What the [rp86] command printed; after a timeout it may be bytes. *)
Definition finished (ok : bool) : ty :=
  TObj [("ok", TIs ok); ("returncode", TInt); ("stdout", TStr); ("stderr", TStr); ("command", TList TStr)]%string.
Definition timed_out : ty :=
  TObj [("ok", is_false); ("error", TStr); ("stdout", TOr TStr TBytes); ("stderr", TOr TStr TBytes)]%string.

Definition workload_type : ty :=
  TObj [("workload_id", TInt); ("state", TStr); ("detail", TInt); ("clock", TStr); ("cycles", TInt);
        ("processor_state", TStr); ("processor_flags", TInt); ("result_structured", TBool); ("result_pass", TBool);
        ("completion_reason", TStr); ("processor", TOption TStr); ("native_output", TStr)]%string.

Definition command_answer : ty :=
  TObj [("ok", is_true); ("processor", TOption TStr); ("reply", TStr); ("request_sequence", TInt); ("boot_id", TInt);
        ("cpu_sequence", TInt); ("command_sequence", TInt); ("latency_ms", TFloat)]%string.
Definition memory_answer : ty :=
  TObj [("ok", is_true); ("address", TInt); ("length", TInt); ("hex", TStr); ("dump", TStr);
        ("request_sequence", TInt); ("latency_ms", TFloat)]%string.
Definition upload_answer : ty :=
  TObj [("ok", is_true); ("name", TStr); ("image_size", TInt); ("load_address", TInt); ("entry", TStr); ("stack", TStr);
        ("flags", TInt); ("crc32", TStr); ("record_count", TInt); ("workload", workload_type)]%string.
Definition control_answer : ty := TObj [("ok", is_true); ("action", TStr); ("workload", workload_type)]%string.
Definition processor_answer : ty :=
  TObj [("ok", is_true); ("owner_mode", TStr); ("device_id", TStr); ("processor", TAny); ("identity_policy", TAny);
        ("tcp_port", TInt); ("udp_port", TInt); ("snapshot", TDict)]%string.
Definition devices_answer : ty := TObj [("ok", is_true); ("devices", TAny)]%string.

(** The type of the answer to a route, for each status it can have *)
Definition answers := (list (Z * ty)).
Definition post_answers (path : string) : answers :=
  if String.eqb path "/api/console" then [(200, command_answer); (400, failure); (503, failure)]
  else if String.eqb path "/api/memory" then [(200, memory_answer); (400, failure); (503, failure)]
  else if String.eqb path "/api/workload" then [(200, upload_answer); (400, refusal); (503, TOr failure record_failure)]
  else if String.eqb path "/api/workload/control" then [(200, control_answer); (400, refusal); (503, failure)]
  else if String.eqb path "/api/control" then [(200, finished true); (400, failure); (503, TOr (finished false) timed_out)]
  else [(404, failure)].
Definition get_answers (path : string) : answers :=
  if String.eqb path "/api/processor" then [(200, processor_answer); (503, TOr failure processor_failure)]
  else if String.eqb path "/api/status" then [(200, finished true); (503, TOr (finished false) timed_out)]
  else if String.eqb path "/api/devices" then
    [(200, devices_answer); (500, failure); (503, TOr (finished false) timed_out)]
  else [(404, failure)].

Definition typed_answer (types : answers) (answer : document * Z) : Prop :=
  ∃ t, (answer.2, t) ∈ types ∧ conforms t (JObj answer.1) = true.
Definition typed_document (t : ty) (d : document) : Prop := conforms t (JObj d) = true.

(** ** Proofs *)

Lemma typed_fail text : typed_document failure (fail_with text).
Proof. done. Qed.
Lemma typed_left a b d : typed_document a d → typed_document (TOr a b) d.
Proof. unfold typed_document. cbn. by intros ->. Qed.
Lemma typed_right a b d : typed_document b d → typed_document (TOr a b) d.
Proof. unfold typed_document. cbn. intros ->. apply orb_true_r. Qed.
Lemma typed_or a b d : typed_document (TOr a b) d → typed_document a d ∨ typed_document b d.
Proof. unfold typed_document. cbn [conforms]. intros Hd. by apply orb_prop in Hd. Qed.
#[export] Hint Resolve typed_fail typed_left typed_right : typed.

(** [200 if result["ok"] else status] of a document of a known type *)
Lemma ok_status_typed b fs d status :
  typed_document (TObj (("ok"%string, TIs b) :: fs)) d → ok_status d status = Ok (d, if b then 200 else status).
Proof. intros Hd. unfold ok_status. rewrite (conforms_ok _ _ _ Hd). by destruct b. Qed.

Section operations.
Context (float_repr : spec_float → string) (py_float : json → result spec_float) (json_loads : string → result json).
Context {W : Type} `{WebWorld W}.

(** What an attempt ends with: a document of the type, or a text *)
Definition attempt_typed (t : ty) (r : document + string) : Prop := match r with inl d => typed_document t d | inr _ => True end.

Lemma attempts_typed t (once : string → io (web W) (document + string)) last_error :
  (∀ error, yields (attempt_typed t) (once error)) → yields (typed_document (TOr t failure)) (attempts once last_error).
Proof.
  intros Ho. unfold attempts.
  apply (yields_bind (λ r, match r with inl d => typed_document t d | inr _ => True end)).
  { apply yields_catch; [|intros text; by apply yields_ret].
    apply (yields_bind (attempt_typed t)); [apply Ho|intros [d|text] Hd; by apply yields_ret]. }
  intros [d|[text raised]] Hd; [apply yields_ret; auto with typed|]. apply yields_any; intros _.
  apply (yields_bind (attempt_typed t)).
  { apply yields_catch; [apply Ho|intros text'; by apply yields_ret]. }
  intros [d|text'] Hd'; apply yields_ret; auto with typed.
Qed.

Lemma with_broker_typed t (k : BrokerRecord → io (web W) document) :
  (∀ record, yields (typed_document (TOr t failure)) (k record)) → yields (typed_document (TOr t failure)) (with_broker k).
Proof.
  intros Hk. unfold with_broker. apply yields_any; intros [[record|]|text]; [apply Hk|..]; apply yields_ret; auto with typed.
Qed.

Lemma latency_typed result a : latency_of py_float result = Ok a → ∃ x, a = JFloat x.
Proof. unfold latency_of. case_match; intros E; [apply bind_ok in E as (x & _ & E)|]; injection E as <-; by eexists. Qed.

Lemma state_typed reply d : _workload_state reply = Ok d → typed_document workload_type d.
Proof.
  unfold _workload_state. intros E. apply bind_ok in E as (state & _ & E). apply bind_ok in E as (processor & _ & E).
  injection E as <-. unfold typed_document. cbn. by destruct (structured_result state), (passed state), processor.
Qed.

Lemma command_typed text : yields (typed_document (TOr command_answer failure)) (processor_command float_repr py_float text).
Proof.
  unfold processor_command. destruct (negb _); [apply yields_ret; auto with typed|].
  destruct (_ <? _); [apply yields_ret; auto with typed|]. apply with_broker_typed. intros record. apply attempts_typed. intros error.
  typed; [done|]. rename select (latency_of _ _ = _) into Hl. apply latency_typed in Hl as [x ->].
  unfold attempt_typed, typed_document. cbn. by destruct (witness_processor _).
Qed.

Lemma memory_typed address length :
  yields (typed_document (TOr memory_answer failure)) (memory_read float_repr py_float address length).
Proof.
  unfold memory_read. destruct (py_int _ _); [|apply yields_ret; auto with typed].
  destruct (py_int _ _); [|apply yields_ret; auto with typed].
  destruct (negb _); [apply yields_ret; auto with typed|]. apply with_broker_typed. intros record. apply attempts_typed. intros error.
  typed; [done|]. rename select (latency_of _ _ = _) into Hl. by apply latency_typed in Hl as [x ->].
Qed.

(** The answers of an upload and of a control that are not a refusal of the form *)
Definition upload_failure : ty := TOr failure record_failure.

Lemma upload_loop_typed record count index records final :
  yields (λ r, match r with inl _ => True | inr d => typed_document record_failure d end)
    (upload_loop float_repr record count index records final : io (web W) _).
Proof.
  revert index final. induction records as [|request records IH]; intros index final; cbn [upload_loop].
  { by apply yields_ret. }
  apply yields_any; intros [reply|error]; [apply IH|by apply yields_ret].
Qed.
Lemma stop_before_typed record snapshot sequence :
  yields (λ r, match r with inl _ => True | inr d => typed_document failure d end)
    (stop_before_load float_repr record snapshot sequence : io (web W) _).
Proof. unfold stop_before_load. typed; done. Qed.

Lemma upload_body_typed filename data arguments record :
  yields (typed_document (TOr upload_answer upload_failure)) (upload_body float_repr filename data arguments record : io (web W) _).
Proof.
  unfold upload_body. apply yields_any; intros hello. apply yields_bind_lift; intros snapshot _.
  apply yields_bind_lift; intros sequence _. eapply yields_bind; [apply stop_before_typed|].
  intros [sequence'|d] Hd; [|apply yields_ret; unfold upload_failure; auto with typed].
  apply yields_any; intros transfer. apply yields_bind_lift; intros [[manifest image] records] _.
  eapply yields_bind; [apply upload_loop_typed|].
  intros [[final|]|d] Hloop; [|apply yields_raise|apply yields_ret; unfold upload_failure; auto with typed].
  apply yields_bind_lift; intros workload Hw%state_typed. apply yields_ret, typed_left.
  apply conforms_fields. by repeat constructor.
Qed.

Lemma upload_typed form :
  yields (typed_document (TOr (TOr upload_answer refusal) upload_failure)) (workload_upload float_repr form : io (web W) _).
Proof.
  assert (∀ text, typed_document (TOr (TOr upload_answer refusal) upload_failure) (invalid text)) as Hinvalid.
  { intros text. apply typed_left, typed_right. done. }
  assert (∀ text, typed_document (TOr (TOr upload_answer refusal) upload_failure) (fail_with text)) as Hfail.
  { intros text. apply typed_right, typed_left. done. }
  unfold workload_upload. destruct (nonempty_str _); [|by apply yields_ret]. destruct (nonempty_str _); [|by apply yields_ret].
  destruct (decode_upload _) as [data|]; [|by apply yields_ret]. unfold with_broker.
  apply yields_any; intros [[record|]|text]; [|by apply yields_ret..].
  intros w w' d. destruct (upload_body _ _ _ _ _ w) as [w2 [d'|e]] eqn:E.
  - intros [= _ <-]. apply upload_body_typed in E. apply typed_or in E as [E|E]; [by apply typed_left, typed_left|by apply typed_right].
  - destruct e; try done; intros [= _ <-]; auto.
Qed.

Lemma control_typed action :
  yields (typed_document (TOr (TOr control_answer refusal) failure)) (workload_control float_repr action : io (web W) _).
Proof.
  unfold workload_control. apply yields_bind_lift; intros known Hk. destruct known; cbn [negb].
  2:{ apply yields_ret. by apply typed_left, typed_right. }
  assert (∃ text, action = JStr text) as [text ->] by (destruct action; try done; by eexists).
  apply with_broker_typed. intros record. apply yields_catch; [|intros; apply yields_ret; auto with typed].
  apply yields_any; intros hello. apply yields_bind_lift; intros sequence _. apply yields_bind_lift; intros request _.
  apply yields_any; intros [reply|error]; [|apply yields_ret; auto with typed].
  apply yields_bind_lift; intros workload Hw%state_typed. apply yields_ret, typed_left, typed_left.
  apply conforms_fields. by repeat constructor.
Qed.

Lemma run_typed args timeout :
  yields (typed_document (TOr (finished true) (TOr (finished false) timed_out))) (run_rp86 args timeout : io (web W) _).
Proof.
  unfold run_rp86. apply yields_any; intros [code stdout stderr|stdout stderr]; apply yields_ret.
  - destruct (code =? 0); [apply typed_left|apply typed_right, typed_left]; unfold typed_document; cbn; by rewrite conforms_str.
  - apply typed_right, typed_right. by destruct stdout as [[|]|], stderr as [[|]|].
Qed.

Lemma snapshot_typed :
  yields (typed_document (TOr processor_answer (TOr failure processor_failure))) (processor_snapshot float_repr : io (web W) _).
Proof.
  unfold processor_snapshot. apply yields_any; intros [[record|]|text].
  - apply yields_any; intros [reply|text]; [|apply yields_ret; auto with typed].
    destruct (negb _); [apply yields_ret; auto with typed|]. apply yields_any; intros mode. apply yields_lift. intros d Hd.
    unfold processor_view in Hd. apply bind_ok in Hd as (snapshot & _ & Hd). injection Hd as <-. by apply typed_left.
  - do 6 (apply yields_any; intros ?). apply yields_ret. by apply typed_right, typed_right.
  - apply yields_any; intros mode. apply yields_ret. by apply typed_right, typed_right.
Qed.

(** ** The routes *)

Definition route_typed (types : answers) (m : io (web W) (document * Z)) : Prop := yields (typed_answer types) m.

(** The answer of one of the types, decided by its status *)
Lemma typed_answer_intro types d status t :
  (status, t) ∈ types → typed_document t d → typed_answer types (d, status).
Proof. intros Ht Hd. by exists t. Qed.

Lemma ok_route types (m : io (web W) document) status fs bad :
  yields (typed_document (TOr (TObj (("ok"%string, TIs true) :: fs)) bad)) m →
  (∀ d, typed_document bad d → ∃ gs, typed_document (TObj (("ok"%string, TIs false) :: gs)) d) →
  (200, TObj (("ok"%string, TIs true) :: fs)) ∈ types → (∀ d, typed_document bad d → typed_answer types (d, status d)) →
  route_typed types (d ← m; lift (ok_status d (status d))).
Proof.
  intros Hm Hbad Hok Hst. eapply yields_bind; [exact Hm|]. intros d Hd. apply yields_lift. intros a Ha.
  apply typed_or in Hd as [Hd|Hd].
  - rewrite (ok_status_typed _ _ _ _ Hd) in Ha. injection Ha as <-. by eapply typed_answer_intro.
  - destruct (Hbad d Hd) as [gs Hg]. rewrite (ok_status_typed _ _ _ _ Hg) in Ha. injection Ha as <-. auto.
Qed.

(** The fields of a document of a known type *)
Ltac fields Hd :=
  apply conforms_fields in Hd;
  repeat match goal with
  | H : Forall2 _ (_ :: _) _ |- _ => inversion H; clear H; subst
  | H : Forall2 _ [] _ |- _ => inversion H; clear H; subst
  | x : (string * json)%type |- _ => destruct x
  | H : _ ∧ _ |- _ => destruct H
  end; cbn [fst snd] in *; subst.

Lemma validation_absent d : typed_document failure d ∨ typed_document record_failure d → jget "validation_error" d = JNull.
Proof. intros [Hd|Hd]; by fields Hd. Qed.
Lemma validation_present d : typed_document refusal d → jget "validation_error" d = JBool true.
Proof. intros Hd. fields Hd. cbn. match goal with |- ?x = _ => destruct x as [|[]| | | | | |]; done end. Qed.

Lemma false_first d :
  typed_document failure d ∨ typed_document refusal d ∨ typed_document record_failure d ∨ typed_document processor_failure d
  ∨ typed_document (finished false) d ∨ typed_document timed_out d →
  ∃ gs, typed_document (TObj (("ok"%string, TIs false) :: gs)) d.
Proof. intros Hd. destruct_or! Hd; eexists; exact Hd. Qed.

(** The forms that are refused have 400, every other failure 503. *)
Lemma validation_route types m fs bad :
  yields (typed_document (TOr (TOr (TObj (("ok"%string, TIs true) :: fs)) refusal) bad)) (m : io (web W) document) →
  (∀ d, typed_document bad d → typed_document failure d ∨ typed_document record_failure d) →
  types = [(200, TObj (("ok"%string, TIs true) :: fs)); (400, refusal); (503, bad)] →
  route_typed types (d ← m; lift (validation_status d)).
Proof.
  intros Hm Hbad ->. unfold validation_status.
  apply (ok_route _ _ (λ d, if jtruthy (jget "validation_error" d) then 400 else 503) fs (TOr refusal bad)).
  - eapply yields_mono; [exact Hm|]. intros d Hd. apply typed_or in Hd as [Hd|Hd]; [|auto with typed].
    apply typed_or in Hd as [Hd|Hd]; auto with typed.
  - intros d Hd. apply typed_or in Hd as [Hd|Hd]; [|apply Hbad in Hd as [Hd|Hd]]; apply false_first; tauto.
  - set_solver.
  - intros d Hd. apply typed_or in Hd as [Hd|Hd].
    + rewrite (validation_present d Hd). eapply typed_answer_intro; [|exact Hd]. set_solver.
    + rewrite (validation_absent d (Hbad d Hd)). eapply typed_answer_intro; [|exact Hd]. set_solver.
Qed.

Lemma post_typed path form : route_typed (post_answers path) (web_post float_repr py_float path form : io (web W) _).
Proof.
  unfold web_post, post_answers. destruct (String.eqb path "/api/console").
  { destruct (jget "text" form); try (apply yields_ret; eapply typed_answer_intro; [|apply typed_fail]; set_solver).
    eapply (ok_route _ _ (λ _, 503) _ failure); [apply command_typed| |set_solver|].
    - intros d Hd. apply false_first. tauto.
    - intros d Hd. eapply typed_answer_intro; [|exact Hd]. set_solver. }
  destruct (String.eqb path "/api/memory").
  { eapply (ok_route _ _ (λ d, if existsb _ _ then 400 else 503) _ failure); [apply memory_typed| |set_solver|].
    - intros d Hd. apply false_first. tauto.
    - intros d Hd. eapply typed_answer_intro; [|exact Hd]. destruct (existsb _ _); set_solver. }
  destruct (String.eqb path "/api/workload").
  { eapply validation_route; [apply upload_typed| |done]. intros d Hd%typed_or. tauto. }
  destruct (String.eqb path "/api/workload/control").
  { eapply validation_route; [apply control_typed| |done]. tauto. }
  destruct (String.eqb path "/api/control"); cbn [negb].
  2:{ apply yields_ret. eapply typed_answer_intro; [|apply typed_fail]. set_solver. }
  apply yields_bind_lift; intros known _. destruct known; cbn [negb].
  2:{ apply yields_ret. eapply typed_answer_intro; [|apply typed_fail]. set_solver. }
  eapply yields_bind; [apply run_typed|]. intros d Hd. apply yields_any; intros _. apply yields_lift. intros a Ha.
  apply typed_or in Hd as [Hd|Hd].
  - rewrite (ok_status_typed _ _ _ _ Hd) in Ha. injection Ha as <-. eapply typed_answer_intro; [|exact Hd]. set_solver.
  - assert (∃ gs, typed_document (TObj (("ok"%string, TIs false) :: gs)) d) as [gs Hg].
    { apply typed_or in Hd as [Hd'|Hd']; apply false_first; tauto. }
    rewrite (ok_status_typed _ _ _ _ Hg) in Ha. injection Ha as <-. eapply typed_answer_intro; [|exact Hd]. set_solver.
Qed.

(** [ok] is true for 200 and false for every other status. *)
Definition ok_type (ok : bool) (t : ty) : Prop := ∀ d, typed_document t d → jitem "ok" d = Ok (JBool ok).
Lemma ok_first ok fs : ok_type ok (TObj (("ok"%string, TIs ok) :: fs)).
Proof. intros d. apply conforms_ok. Qed.
Lemma ok_either ok a b : ok_type ok a → ok_type ok b → ok_type ok (TOr a b).
Proof. intros Ha Hb d Hd. apply typed_or in Hd as [Hd|Hd]; auto. Qed.
Definition ok_answers (types : answers) : Prop := Forall (λ '(status, t), ok_type (status =? 200) t) types.
Lemma post_ok path : ok_answers (post_answers path).
Proof.
  unfold post_answers. repeat case_match; repeat (apply Forall_cons_2 || apply Forall_nil_2);
    repeat (apply ok_either); apply ok_first.
Qed.
Lemma get_ok path : ok_answers (get_answers path).
Proof.
  unfold get_answers. repeat case_match; repeat (apply Forall_cons_2 || apply Forall_nil_2);
    repeat (apply ok_either); apply ok_first.
Qed.
Lemma answer_ok types d status t :
  ok_answers types → (status, t) ∈ types → conforms t (JObj d) = true → jitem "ok" d = Ok (JBool (status =? 200)).
Proof. intros Hok Ht Hd. unfold ok_answers in Hok. rewrite Forall_forall in Hok. by apply (Hok _ Ht). Qed.

(** The [rp86] command's answer, by its status *)
Lemma finished_answer d :
  typed_document (TOr (finished true) (TOr (finished false) timed_out)) d →
  (jtruthy (jget "ok" d) = true ∧ typed_document (finished true) d)
  ∨ (jtruthy (jget "ok" d) = false ∧ typed_document (TOr (finished false) timed_out) d).
Proof.
  intros Hd. apply typed_or in Hd as [Hd|Hd].
  - left. split; [|done]. pose proof (conforms_ok _ _ _ Hd) as Hok. unfold jitem in Hok. unfold jget.
    destruct (str_get "ok" d); [by injection Hok as ->|done].
  - right. split; [|done]. assert (∃ gs, typed_document (TObj (("ok"%string, TIs false) :: gs)) d) as [gs Hg].
    { apply typed_or in Hd as [Hd|Hd]; apply false_first; tauto. }
    pose proof (conforms_ok _ _ _ Hg) as Hok. unfold jitem in Hok. unfold jget.
    destruct (str_get "ok" d); [by injection Hok as ->|done].
Qed.

Lemma get_typed path : route_typed (get_answers path) (web_get float_repr json_loads path : io (web W) _).
Proof.
  unfold web_get, get_answers. destruct (String.eqb path "/api/processor").
  { eapply (ok_route _ _ (λ _, 503) _ (TOr failure processor_failure)); [apply snapshot_typed| |set_solver|].
    - intros d Hd%typed_or. apply false_first. tauto.
    - intros d Hd. eapply typed_answer_intro; [|exact Hd]. set_solver. }
  destruct (String.eqb path "/api/status").
  { eapply yields_bind; [apply run_typed|]. intros d Hd. cbn [orb]. apply yields_ret.
    apply finished_answer in Hd as [[-> Hd]|[-> Hd]]; (eapply typed_answer_intro; [|exact Hd]); set_solver. }
  destruct (String.eqb path "/api/devices").
  2:{ apply yields_ret. eapply typed_answer_intro; [|apply typed_fail]. set_solver. }
  eapply yields_bind; [apply run_typed|]. intros d Hd. cbn [orb].
  apply finished_answer in Hd as [[-> Hd]|[-> Hd]]; cbn [negb].
  - apply yields_bind_lift; intros stdout _. destruct (json_loads _) as [value|[]]; try apply yields_raise; apply yields_ret.
    + apply (typed_answer_intro _ _ _ devices_answer); [set_solver|done].
    + eapply typed_answer_intro; [|apply typed_fail]. set_solver.
  - apply yields_ret. eapply typed_answer_intro; [|exact Hd]. set_solver.
Qed.
End operations.

Lemma control_200 t : (200, t) ∈ post_answers "/api/workload/control" → t = control_answer.
Proof. cbn. set_unfold. naive_solver. Qed.

(** C14: The answers of the Web API are well typed.  Whatever the broker, the
    device, the child processes and the clock do, and whatever the form holds, an
    answer of a route has one of the statuses the route has, and the type that
    this status has there: exactly these fields, in this order and of these types,
    with [ok] true exactly for 200. *)
Theorem web_answers_typed float_repr py_float json_loads {W} `{WebWorld W} :
  (∀ path form (s s' : web W) d status, web_post float_repr py_float path form s = (s', Ok (d, status)) →
     ∃ t, (status, t) ∈ post_answers path ∧ conforms t (JObj d) = true ∧ jitem "ok" d = Ok (JBool (status =? 200)))
  ∧ (∀ path (s s' : web W) d status, web_get float_repr json_loads path s = (s', Ok (d, status)) →
     ∃ t, (status, t) ∈ get_answers path ∧ conforms t (JObj d) = true ∧ jitem "ok" d = Ok (JBool (status =? 200))).
Proof.
  split.
  - intros path form s s' d status Hr. destruct (post_typed float_repr py_float json_loads path form s s' _ Hr) as (t & Ht & Hd). exists t. split; [done|]. split; [done|].
    eapply answer_ok; [apply post_ok|done|done].
  - intros path s s' d status Hr. destruct (get_typed float_repr py_float json_loads path s s' _ Hr) as (t & Ht & Hd). exists t. split; [done|]. split; [done|].
    eapply answer_ok; [apply get_ok|done|done].
Qed.

Example web_answers_typed_witness :
  let s := mkWeb tt None "existing" None false 0 in
  let run := web_post (H := accepting) (λ _, EmptyString) (λ _, Raise IndexError)
               "/api/workload/control" [("action", JStr "stop")]%string s in
  ∃ d, run.2 = Ok (d, 200) ∧ jget "action" d = JStr "stop" ∧ conforms control_answer (JObj d) = true.
Proof.
  intros s run. destruct run as [s' [[d status]|]] eqn:E; [|vm_compute in E; discriminate E].
  assert (status = 200 ∧ jget "action" d = JStr "stop") as [-> Ha] by (vm_compute in E; injection E as _ <- <-; split; reflexivity).
  exists d. split; [reflexivity|]. split; [exact Ha|].
  destruct (web_answers_typed (H := accepting) (λ _, EmptyString) (λ _, Raise IndexError) (λ _, Raise IndexError)) as [Hpost _].
  destruct (Hpost _ _ _ _ _ _ E) as (t & Ht & Hd & _).
  rewrite <- (control_200 t Ht). exact Hd.
Defined.
