(* ===== verification/Http.v ===== *)
(** * The HTTP servers (host/apps/remote/rp86_remote.py, host/apps/web/rp86_web.py)

    The responses of both servers octet by octet, over the part of
    [http.server] they use; the request handler of the local server; the start
    and the end of both programs.  The page of a server is an argument, and so
    are the clock and the version of the interpreter that the library puts into
    its headers.  The gateway of [Remote] is put on top of the Web API here: the
    class [Api] is discharged by [web_api].

    The theorems show that a client reads from the octets exactly the status, the
    headers and the document that were meant, that while somebody owns the
    gateway's session nobody else sends a record to the device, also when the
    requests run in threads of their own, and how the programs end. *)

From S2P Require Import Prelude PyText Json JsonText Protocol Core Broker Remote WebApi.
From Stdlib Require Import Ascii SpecFloat.

(** ** Responses ([http.server.BaseHTTPRequestHandler]) *)

(** What the library knows of the request that is answered *)
Record conversation := mkConversation {
  x_address : string;          (** [address_string()] *)
  x_requestline : string;
  x_simple : bool;             (** an HTTP/0.9 request, which is answered without headers *)
  x_date : string;             (** [date_time_string()] *)
  x_python : string;           (** [sys_version] *)
}.

(** The headers that wait, the octets that were sent, the lines that were printed *)
Record wire := mkWire { w_headers : bytes; w_sent : bytes; w_printed : list string }.

Definition crlf : bytes := [Byte.x0d; Byte.x0a].

(** The phrases of [http.HTTPStatus] *)
Definition reason (status : Z) : string := default EmptyString (snd <$> find (λ '(code, _), code =? status)
  [(200, "OK"); (400, "Bad Request"); (403, "Forbidden"); (404, "Not Found"); (409, "Conflict");
   (500, "Internal Server Error"); (503, "Service Unavailable")]%string).

Section library.
Context (c : conversation).

Definition buffer_line (line : bytes) (w : wire) : wire :=
  if x_simple c then w else mkWire (w_headers w ++ line ++ crlf) (w_sent w) (w_printed w).
Definition header_line (name value : string) : bytes := encode_utf8 name ++ lit ": " ++ encode_utf8 value.
Definition send_header (name value : string) : wire → wire := buffer_line (header_line name value).
Definition status_line (status : Z) : bytes :=
  encode_utf8 ("HTTP/1.0 " +:+ dec status +:+ " " +:+ reason status).
Definition send_response (log_message : string → wire → wire) (server_version : string) (status : Z) (w : wire) : wire :=
  let quote := String double_quote EmptyString in
  let w := log_message (quote +:+ x_requestline c +:+ quote +:+ " " +:+ dec status +:+ " -") w in
  let w := buffer_line (status_line status) w in
  let w := send_header "Server" (server_version +:+ " " +:+ x_python c) w in
  send_header "Date" (x_date c) w.
Definition end_headers (w : wire) : wire :=
  if x_simple c then w else mkWire [] (w_sent w ++ w_headers w ++ crlf) (w_printed w).
Definition wfile_write (raw : bytes) (w : wire) : wire := mkWire (w_headers w) (w_sent w ++ raw) (w_printed w).
Definition print_line (text : string) (w : wire) : wire := mkWire (w_headers w) (w_sent w) (w_printed w ++ [text]).
End library.

(** ** The responses of both servers *)

Section responses.
Context `{FloatText} (complain : bytes → string).
Context (c : conversation).

(** [json.dumps(payload, ensure_ascii=False).encode("utf-8")] *)
Definition body_of (payload : document) : result bytes := json_encode verbatim complain (JObj payload).

(** The gateway *)
Definition public_version : string := "RP86Public/0.2".
Definition public_log (message : string) : wire → wire :=
  print_line ("[RP86 PUBLIC] " +:+ x_address c +:+ " - " +:+ message).
Definition security_policy : string :=
  "default-src 'self'; style-src 'self' 'unsafe-inline'; script-src 'self' 'unsafe-inline'; connect-src 'self'; img-src 'self' data:; frame-ancestors 'none'".
Definition _security_headers (w : wire) : wire :=
  let w := send_header c "Cache-Control" "no-store" w in
  let w := send_header c "X-Content-Type-Options" "nosniff" w in
  let w := send_header c "Referrer-Policy" "no-referrer" w in
  send_header c "Content-Security-Policy" security_policy w.

Definition public_send_json (payload : document) (status : Z) : io wire unit := λ w,
  match body_of payload with
  | Raise e => (w, Raise e)
  | Ok raw =>
      let w := send_response c public_log public_version status w in
      let w := send_header c "Content-Type" "application/json; charset=utf-8" w in
      let w := send_header c "Content-Length" (dec (len raw)) w in
      let w := _security_headers w in
      let w := end_headers c w in
      (wfile_write raw w, Ok tt)
  end.
Definition public_send_html (text : string) (status : Z) : io wire unit := λ w,
  let raw := encode_utf8 text in
  let w := send_response c public_log public_version status w in
  let w := send_header c "Content-Type" "text/html; charset=utf-8" w in
  let w := send_header c "Content-Length" (dec (len raw)) w in
  let w := _security_headers w in
  let w := end_headers c w in
  (wfile_write raw w, Ok tt).

(** The local server *)
Definition local_version : string := "RP86Web/3.8".
Definition local_log (message : string) : wire → wire :=
  print_line ("[rp86-web] " +:+ x_address c +:+ " - " +:+ message).
Definition local_send_json (payload : document) (status : Z) : io wire unit := λ w,
  match body_of payload with
  | Raise e => (w, Raise e)
  | Ok raw =>
      let w := send_response c local_log local_version status w in
      let w := send_header c "Content-Type" "application/json; charset=utf-8" w in
      let w := send_header c "Content-Length" (dec (len raw)) w in
      let w := send_header c "Cache-Control" "no-store" w in
      let w := end_headers c w in
      (wfile_write raw w, Ok tt)
  end.
Definition local_send_html (page : string) : io wire unit := λ w,
  let raw := encode_utf8 page in
  let w := send_response c local_log local_version HTTP_OK w in
  let w := send_header c "Content-Type" "text/html; charset=utf-8" w in
  let w := send_header c "Content-Length" (dec (len raw)) w in
  let w := send_header c "Cache-Control" "no-store" w in
  let w := end_headers c w in
  (wfile_write raw w, Ok tt).

(** The response a handler decides on; the page is [INDEX_HTML]. *)
Definition public_respond (page : string) (r : response) : io wire unit :=
  match r with Html => public_send_html page HTTP_OK | Json payload status => public_send_json payload status end.
Definition local_respond (page : string) (r : response) : io wire unit :=
  match r with Html => local_send_html page | Json payload status => local_send_json payload status end.

(** A handler over its own state, and the sending of what it decided *)
Definition answering {G} (respond : response → io wire unit) (handler : io G response) : io (G * wire) unit := λ '(g, w),
  match handler g with
  | (g, Raise e) => ((g, w), Raise e)
  | (g, Ok r) => let '(w, x) := respond r w in ((g, w), x)
  end.
End responses.

(** ** The local server *)

(** [json.detect_encoding]: whether the octets are taken as plain UTF-8 *)
Definition zero_at (b : bytes) (n : nat) : bool := match b !! n with Some x => byte.unsigned x =? 0 | None => false end.
Definition plain_utf8 (b : bytes) : bool :=
  negb (existsb (λ mark, starts_with mark b)
          [[Byte.x00; Byte.x00; Byte.xfe; Byte.xff]; [Byte.xff; Byte.xfe; Byte.x00; Byte.x00];
           [Byte.xfe; Byte.xff]; [Byte.xff; Byte.xfe]; [Byte.xef; Byte.xbb; Byte.xbf]])
  && (if 4 <=? len b then negb (zero_at b 0) && negb (zero_at b 1)
      else if len b =? 2 then negb (zero_at b 0) && negb (zero_at b 1) else true).

(** [b.decode("utf-8", "surrogatepass")] succeeds: the code points of [b] are
    encoded as [b] itself. *)
Definition utf8_surrogates (b : bytes) : bool :=
  let points := utf8_points (map byte.unsigned b) in
  bytes_eqb (points ≫= utf8_char) b && forallb (λ c, c <? 0x110000) points.

Section local.
Context `{FloatText} (complain : bytes → string).
(** [json.loads] of octets with a byte order mark, or in UTF-16 or UTF-32 *)
Context (loads_marked : bytes → result (option json)).

(** [json.loads(b)]: [None] is a [JSONDecodeError] *)
Definition loads_bytes (b : bytes) : result (option json) :=
  if negb (plain_utf8 b) then loads_marked b
  else if negb (utf8_surrogates b) then Raise (ValueError (complain b))
  else Ok (json_scan (ascii_list (of_octets b))).

Context (float_repr : spec_float → string) (py_float : json → result spec_float) (json_loads : string → result json).
Context {W : Type} `{WebWorld W}.

(** [API.post(path, payload)] of any JSON value: the routes call [payload.get]. *)
Definition post_value (path : string) (payload : json) : io (web W) (document * Z) :=
  match payload with
  | JObj form => web_post float_repr py_float path form
  | _ =>
      if str_in path ["/api/console"; "/api/memory"; "/api/workload"; "/api/workload/control"; "/api/control"]%string
      then raise AttributeError
      else mret (fail_with "not found", 404)
  end.

Definition local_do_GET (path : string) : io (web W) response :=
  if String.eqb path "/" then mret Html else
  '(result, status) ← web_get float_repr json_loads path;
  mret (Json result status).

(** [rfile.read(length)]: a negative length reads to the end *)
Definition rfile_read (length : Z) (body : bytes) : bytes := if length <? 0 then body else slice 0 length body.

Definition local_do_POST (r : http_request) : io (web W) response :=
  length ← lift (py_int 10 (str_or (default "0"%string (h_content_length r)) "0"));
  let raw := rfile_read length (h_body r) in
  decoded ← lift (loads_bytes (if bytes_eqb raw [] then lit "{}" else raw));
  match decoded with
  | None => mret (Json [("ok", JBool false); ("error", JStr "invalid JSON body")]%string HTTP_BAD_REQUEST)
  | Some payload =>
      '(result, status) ← post_value (h_path r) payload;
      mret (Json result status)
  end.
End local.

(** The gateway's device: the Web API behind the interface of [Remote] *)
Definition web_api (float_repr : spec_float → string) (py_float : json → result spec_float)
    (json_loads : string → result json) {W} `{WebWorld W} : Api (web W) := {|
  api_get := web_get float_repr json_loads;
  api_post := web_post float_repr py_float;
|}.

(** ** The programs *)

(** How [serve_forever] ends *)
Inductive interruption :=
| KeyboardInterrupt
| Returned
| Failed (e : exn).

(** The parsed options; [parser.error] is [SystemExit]. *)
Record local_options := mkLocal { l_host : string; l_port : Z }.
Record public_options := mkPublicOptions { p_host : string; p_port : Z; p_no_runtime_owner : bool }.

Section programs.
Context (float_repr : spec_float → string).
Context {W : Type} `{WebWorld W}.

(** The Web API's state and the lines that were printed *)
Record program := mkProgram { api : web W; printed : list string }.
Definition say (text : string) : io program unit := modify (λ s, mkProgram (api s) (printed s ++ [text])).
Definition on_web {A} (m : io (web W) A) : io program A := λ s, let '(w, r) := m (api s) in (mkProgram w (printed s), r).

(** [ThreadingHTTPServer((host, port), Handler)] and its address;
    [serve_forever], with the thread that was started before; [server_close] *)
Context (bind_server : string → Z → io program (string * Z)).
Context (serve_forever : option (io program (option unit)) → program → program * interruption).
Context (server_close : program → program).

(** [try: serve_forever() except KeyboardInterrupt: pass finally: ...]: an
    exception of the last part replaces the one of the first. *)
Definition serve_until_interrupted (thread : option (io program (option unit))) : io program unit := λ s,
  let '(s, i) := serve_forever thread s in
  match on_web stop_owned_runtime (server_close s) with
  | (s, Raise e) => (s, Raise e)
  | (s, Ok _) => (s, match i with Failed e => Raise e | _ => Ok tt end)
  end.

Definition local_hosts : list string := ["127.0.0.1"; "localhost"; "::1"].

(** The fuel and [None] are those of [ensure_runtime_owner]. *)
Definition local_main (fuel : nat) (args : local_options) : io program (option Z) :=
  if negb (str_in (l_host args) local_hosts)
  then raise (SystemExit "rp86-web is intentionally local-only; use 127.0.0.1") else
  ownership ← on_web (ensure_runtime_owner float_repr fuel 75000 true);
  match ownership with
  | None => mret None
  | Some ownership =>
      _ ← (if jtruthy (jget "ok" ownership) then
             mode ← lift (jitem "mode" ownership);
             say ("RP86 runtime: "
                  +:+ (if json_eqb mode (JStr "existing") then "attached to existing Host Broker" else "background owner started")
                  +:+ " (" +:+ jstr float_repr (default (JStr "unknown") (str_get "device_id" ownership)) +:+ ")")
           else
             _ ← say ("RP86 runtime warning: " +:+ jstr float_repr (jget "error" ownership));
             say "The Web console will still start so device/runtime state is visible.");
      _ ← bind_server (l_host args) (l_port args);
      _ ← say ("RP86 Development Console: http://" +:+ l_host args +:+ ":" +:+ dec (l_port args));
      _ ← say "Press Ctrl+C to stop.";
      _ ← serve_until_interrupted None;
      mret (Some 0)
  end.

Definition _start_runtime_owner (fuel : nat) : io program (option unit) :=
  result ← on_web (ensure_runtime_owner float_repr fuel 75000 true);
  match result with
  | None => mret None
  | Some result =>
      _ ← (if jtruthy (jget "ok" result) then mret tt
           else say ("RP86 runtime owner unavailable: " +:+ jstr float_repr (jget "error" result)));
      mret (Some tt)
  end.

Definition public_main (fuel : nat) (args : public_options) : io program Z :=
  if negb ((0 <=? p_port args) && (p_port args <=? 65535))
  then raise (SystemExit "--port must be between 0 and 65535") else
  let thread := if p_no_runtime_owner args then None else Some (_start_runtime_owner fuel) in
  '(host, port) ← bind_server (p_host args) (p_port args);
  _ ← say ("RP86 Public Web = http://" +:+ host +:+ ":" +:+ dec port);
  _ ← say "Cloudflare Tunnel should target this local HTTP endpoint.";
  _ ← serve_until_interrupted thread;
  mret 0.
End programs.
Arguments mkProgram {W} _ _.
Arguments api {W} _.
Arguments printed {W} _.

(** The program that [rp86.py] starts, and the arguments it leaves *)
Inductive entry := PublicGateway | WebConsole | StartWorkload | CommandLine.
Fixpoint remove_first (word : string) (argv : list string) : list string :=
  match argv with
  | [] => []
  | a :: argv => if String.eqb a word then argv else a :: remove_first word argv
  end.
Definition rp86_entry (argv : list string) : entry * list string :=
  if str_in "--public" argv then (PublicGateway, remove_first "--public" argv)
  else if str_in "--web" argv then (WebConsole, remove_first "--web" argv)
  else if str_in "--start-workload" argv then (StartWorkload, argv)
  else (CommandLine, argv).

(** ** What a client reads *)

Fixpoint read_line (l : bytes) : option (bytes * bytes) :=
  match l with
  | [] => None
  | x :: l' =>
      match x, l' with
      | Byte.x0d, Byte.x0a :: rest => Some ([], rest)
      | _, _ => match read_line l' with Some (line, rest) => Some (x :: line, rest) | None => None end
      end
  end.
Fixpoint read_header (l : bytes) : option (bytes * bytes) :=
  match l with
  | [] => None
  | x :: l' =>
      match x, l' with
      | Byte.x3a, Byte.x20 :: value => Some ([], value)
      | _, _ => match read_header l' with Some (name, value) => Some (x :: name, value) | None => None end
      end
  end.
Fixpoint read_headers (fuel : nat) (l : bytes) : option (list (string * string) * bytes) :=
  match fuel with
  | O => None
  | S fuel =>
      '(line, rest) ← read_line l;
      match line with
      | [] => Some ([], rest)
      | _ => '(name, value) ← read_header line;
             '(headers, body) ← read_headers fuel rest;
             Some ((of_octets name, of_octets value) :: headers, body)
      end
  end.
Definition read_digits (s : string) : option Z :=
  let l := ascii_list s in if forallb is_digit l && (0 <? len l) then Some (digits_value 0 l) else None.

(** The status, the headers and the body of a response: the body is as long as
    the header Content-Length says. *)
Definition read_http (l : bytes) : option (Z * list (string * string) * bytes) :=
  '(line, rest) ← read_line l;
  status ← (if starts_with (lit "HTTP/1.0 ") line then read_digits (of_octets (slice 9 12 line)) else None);
  '(headers, body) ← read_headers (length rest) rest;
  size ← read_digits (default EmptyString (str_get "Content-Length" headers));
  if size =? len body then Some (status, headers, body) else None.

(** Membership by computation *)
Lemma absent (x : byte) (l : bytes) : forallb (λ y, negb (byte.unsigned y =? byte.unsigned x)) l = true → x ∉ l.
Proof.
  rewrite forallb_forall. intros Hl Hx. apply list_elem_of_In, Hl in Hx. by rewrite Z.eqb_refl in Hx.
Qed.

(** Text without a carriage return *)
Definition one_line (s : string) : Prop := Byte.x0d ∉ encode_utf8 s.

Lemma read_line_octets line rest : Byte.x0d ∉ line → read_line (line ++ crlf ++ rest) = Some (line, rest).
Proof.
  induction line as [|x line IH]; [done|]. intros Hl. apply not_elem_of_cons in Hl as [Hx Hl].
  cbn [app read_line]. rewrite IH by done. by destruct x.
Qed.
Lemma read_header_octets name value :
  Byte.x3a ∉ name → read_header (name ++ Byte.x3a :: Byte.x20 :: value) = Some (name, value).
Proof.
  induction name as [|x name IH]; [done|]. intros Hl. apply not_elem_of_cons in Hl as [Hx Hl].
  cbn [app read_header]. rewrite IH by done. by destruct x.
Qed.

Definition well_formed (header : string * string) : Prop :=
  one_line header.1 ∧ (Byte.x3a ∉ encode_utf8 header.1) ∧ one_line header.2.
Definition header_octets (header : string * string) : bytes := header_line header.1 header.2 ++ crlf.

Lemma read_headers_octets headers body fuel :
  Forall well_formed headers → (length headers < fuel)%nat →
  read_headers fuel ((headers ≫= header_octets) ++ crlf ++ body) = Some (headers, body).
Proof.
  intros Hh. revert fuel. induction Hh as [|[name value] headers (Hn & Hc & Hv) _ IH]; intros [|fuel] Hf; cbn in Hf; try lia.
  { reflexivity. }
  rewrite bind_cons. unfold header_octets at 1. rewrite <- !app_assoc. cbn [read_headers fst snd].
  rewrite read_line_octets.
  2:{ unfold header_line. rewrite !not_elem_of_app. split; [done|]. split; [|done]. cbn. set_solver. }
  cbn [mbind option_bind]. destruct (header_line name value) eqn:E.
  { by apply app_eq_nil in E as [_ E]. }
  rewrite <- E. unfold header_line. change (lit ": ") with [Byte.x3a; Byte.x20]. cbn [app].
  rewrite read_header_octets by done. cbn [mbind option_bind]. rewrite IH by lia.
  cbn [mbind option_bind]. by rewrite !of_octets_encode.
Qed.

Lemma read_digits_dec n : 0 <= n → read_digits (dec n) = Some n.
Proof.
  intros Hn. unfold read_digits. destruct (dec_split n) as (l & E & (Hd & Hv & c & ds & Hl & _) & _).
  rewrite (proj2 (Z.ltb_ge n 0)) in E by done. cbn [app] in E. rewrite E, Hd, Hv. subst l.
  cbn [andb]. rewrite (proj2 (Z.ltb_lt _ _)) by (rewrite Hl; by apply len_ne_pos). by rewrite Z.abs_eq.
Qed.

(** ** The responses are what a client reads *)

Definition known_status (status : Z) : Prop := status ∈ [200; 400; 403; 404; 409; 500; 503].

Lemma status_read status :
  known_status status → (Byte.x0d ∉ status_line status) ∧ starts_with (lit "HTTP/1.0 ") (status_line status) = true
  ∧ read_digits (of_octets (slice 9 12 (status_line status))) = Some status.
Proof.
  unfold known_status. intros Hs.
  repeat (apply elem_of_cons in Hs as [->|Hs];
    [split; [by apply absent|by split]|]).
  by apply not_elem_of_nil in Hs.
Qed.

(** The octets of a response *)
Definition response_octets (status : Z) (headers : list (string * string)) (body : bytes) : bytes :=
  status_line status ++ crlf ++ (headers ≫= header_octets) ++ crlf ++ body.

Lemma read_response status headers body :
  known_status status → Forall well_formed headers → str_get "Content-Length" headers = Some (dec (len body)) →
  read_http (response_octets status headers body) = Some (status, headers, body).
Proof.
  intros Hs Hh Hl. destruct (status_read status Hs) as (Hr & Hp & Hd). unfold read_http, response_octets.
  rewrite read_line_octets by done. cbn [mbind option_bind]. rewrite Hp, Hd. cbn [mbind option_bind].
  rewrite read_headers_octets; [|done|].
  - cbn [mbind option_bind]. rewrite Hl. change (default EmptyString (Some ?x)) with x. rewrite read_digits_dec by apply len_nonneg.
    cbn [mbind option_bind]. by rewrite Z.eqb_refl.
  - rewrite !length_app. cbn [length crlf]. clear. induction headers as [|h headers IH]; [cbn; lia|].
    rewrite bind_cons, length_app. unfold header_octets at 1. rewrite length_app. cbn [length crlf] in *. lia.
Qed.

Definition content_type (r : response) : string :=
  match r with Html => "text/html; charset=utf-8" | Json _ _ => "application/json; charset=utf-8" end.
Definition response_status (r : response) : Z := match r with Html => HTTP_OK | Json _ status => status end.

(** The headers of a response with the octets [raw], of each server *)
Definition common_headers (version : string) (c : conversation) (r : response) (raw : bytes) : list (string * string) :=
  [("Server", version +:+ " " +:+ x_python c); ("Date", x_date c);
   ("Content-Type", content_type r); ("Content-Length", dec (len raw)); ("Cache-Control", "no-store")]%string.
Definition public_headers (c : conversation) (r : response) (raw : bytes) : list (string * string) :=
  common_headers public_version c r raw
  ++ [("X-Content-Type-Options", "nosniff"); ("Referrer-Policy", "no-referrer");
      ("Content-Security-Policy", security_policy)]%string.
Definition local_headers := common_headers local_version.

Lemma dec_octets n : 0 <= n → forallb (λ y, negb (byte.unsigned y =? 13)) (encode_utf8 (dec n)) = true.
Proof.
  intros Hn. destruct (dec_split n) as (l & E & (Hd & _) & _). rewrite (proj2 (Z.ltb_ge n 0)) in E by done. cbn [app] in E.
  unfold encode_utf8, String.list_byte_of_string. rewrite E. clear E. rewrite forallb_forall in Hd. apply forallb_forall.
  intros x Hx. apply in_map_iff in Hx as (d & <- & Hin). apply Hd in Hin. by each_digit Hin.
Qed.

Lemma common_well_formed version c r raw :
  one_line version → one_line (x_python c) → one_line (x_date c) → Forall well_formed (common_headers version c r raw).
Proof.
  intros Hv Hp Hd. unfold common_headers.
  repeat (apply Forall_cons_2 || apply Forall_nil_2); (split; [by apply absent|]); (split; [by apply absent|]); cbn [snd];
    unfold one_line; try (by apply absent).
  - rewrite !encode_app, !not_elem_of_app. split; [done|]. split; [by apply absent|done].
  - done.
  - destruct r; by apply absent.
  - apply absent, dec_octets, len_nonneg.
Qed.
Lemma public_well_formed c r raw : one_line (x_python c) → one_line (x_date c) → Forall well_formed (public_headers c r raw).
Proof.
  intros Hp Hd. apply Forall_app. split; [apply common_well_formed; [by apply absent|done|done]|].
  repeat (apply Forall_cons_2 || apply Forall_nil_2); (split; [by apply absent|]); split; by apply absent.
Qed.

Section delivery.
Context `{FloatText} (complain : bytes → string).

(** The octets of the content *)
Definition content (page : string) (r : response) : result bytes :=
  match r with Html => Ok (encode_utf8 page) | Json payload _ => body_of complain payload end.

(** Each server sends the content with its headers, or raises before the first octet. *)
Definition sends (respond : conversation → string → response → io wire unit)
    (headers : conversation → response → bytes → list (string * string)) : Prop :=
  ∀ c page r w, x_simple c = false → w_headers w = [] →
  match content page r with
  | Raise e => respond c page r w = (w, Raise e)
  | Ok raw => ∃ printed, respond c page r w
      = (mkWire [] (w_sent w ++ response_octets (response_status r) (headers c r raw) raw) printed, Ok tt)
  end.

(** All the headers of a response, in order *)
Definition emit (c : conversation) (status : Z) (headers : list (string * string)) (raw : bytes) (w : wire) : wire :=
  wfile_write raw (end_headers c
    (foldl (λ w h, send_header c h.1 h.2 w) (buffer_line c (status_line status) w) headers)).

Lemma emit_ok c status headers raw w :
  x_simple c = false → w_headers w = [] →
  emit c status headers raw w = mkWire [] (w_sent w ++ response_octets status headers raw) (w_printed w).
Proof.
  intros Hs Hw. unfold emit.
  assert (∀ w, foldl (λ w h, send_header c h.1 h.2 w) w headers
               = mkWire (w_headers w ++ (headers ≫= header_octets)) (w_sent w) (w_printed w)) as ->.
  { induction headers as [|h headers IH]; intros [hd out pr]; cbn [foldl]; [by rewrite app_nil_r|].
    rewrite IH, bind_cons. unfold send_header, buffer_line. rewrite Hs. cbn [w_headers w_sent w_printed].
    by rewrite <- app_assoc. }
  unfold end_headers, buffer_line, wfile_write. rewrite Hs, Hw. cbn [w_headers w_sent w_printed app].
  unfold response_octets. by rewrite <- !app_assoc.
Qed.

Definition public_line (c : conversation) (status : Z) (w : wire) : wire :=
  public_log c (String double_quote EmptyString +:+ x_requestline c +:+ String double_quote EmptyString
                +:+ " " +:+ dec status +:+ " -") w.
Definition local_line (c : conversation) (status : Z) (w : wire) : wire :=
  local_log c (String double_quote EmptyString +:+ x_requestline c +:+ String double_quote EmptyString
               +:+ " " +:+ dec status +:+ " -") w.

Lemma sends_emitted respond headers (line : conversation → Z → wire → wire) :
  (∀ c status w, w_headers (line c status w) = w_headers w ∧ w_sent (line c status w) = w_sent w) →
  (∀ c page r raw w, content page r = Ok raw →
     respond c page r w = (emit c (response_status r) (headers c r raw) raw (line c (response_status r) w), Ok tt)) →
  (∀ c page r e w, content page r = Raise e → respond c page r w = (w, Raise e)) →
  sends respond headers.
Proof.
  intros Hline Hok Hraise c page r w Hs Hw. destruct (content page r) as [raw|e] eqn:E; [|by apply Hraise].
  destruct (Hline c (response_status r) w) as [Hh Hsent]. eexists. rewrite (Hok _ _ _ raw) by done.
  rewrite emit_ok; [|done|by rewrite Hh]. by rewrite Hsent.
Qed.
Lemma public_sends : sends (public_respond complain) public_headers.
Proof.
  apply (sends_emitted _ _ public_line); [done|..]; intros c page [|payload status] x w E; cbn [content public_respond] in *;
    try (unfold public_send_json; by rewrite E); try done; by injection E as <-.
Qed.
Lemma local_sends : sends (local_respond complain) local_headers.
Proof.
  apply (sends_emitted _ _ local_line); [done|..]; intros c page [|payload status] x w E; cbn [content local_respond] in *;
    try (unfold local_send_json; by rewrite E); try done; by injection E as <-.
Qed.

(** What a client finds in the body *)
Definition carried (page : string) (r : response) (body : bytes) : Prop :=
  match r with
  | Html => body = encode_utf8 page
  | Json payload _ => json_loads complain body = Ok (JObj payload)
  end.
Definition deliverable (r : response) : Prop :=
  match r with Html => True | Json payload status => writable (JObj payload) ∧ known_status status end.
Definition delivers (respond : conversation → string → response → io wire unit)
    (headers : conversation → response → bytes → list (string * string)) : Prop :=
  ∀ c page r w, x_simple c = false → one_line (x_python c) → one_line (x_date c) → w_headers w = [] → deliverable r →
  ∃ w' octets body, respond c page r w = (w', Ok tt) ∧ w_sent w' = w_sent w ++ octets
    ∧ read_http octets = Some (response_status r, headers c r body, body) ∧ carried page r body.

Lemma sends_delivers respond headers :
  sends respond headers →
  (∀ c r raw, one_line (x_python c) → one_line (x_date c) → Forall well_formed (headers c r raw)) →
  (∀ c r raw, str_get "Content-Length" (headers c r raw) = Some (dec (len raw))) →
  delivers respond headers.
Proof.
  intros Hsend Hwf Hlen c page r w Hs Hp Hd Hw Hr. specialize (Hsend c page r w Hs Hw).
  assert (∃ raw, content page r = Ok raw ∧ carried page r raw ∧ known_status (response_status r)) as (raw & Hraw & Hc & Hk).
  { destruct r as [|payload status]; [exists (encode_utf8 page); split_and!; [done|done|unfold known_status; set_solver]|]. destruct Hr as [Hwr Hk].
    destruct (json_encode_ok verbatim complain _ verbatim_blank Hwr) as [E1 E2]. by eexists. }
  rewrite Hraw in Hsend. destruct Hsend as [printed Hsend]. eexists _, _, raw. split; [exact Hsend|]. split; [reflexivity|].
  split; [|done]. by apply read_response; auto.
Qed.
End delivery.

(** C15: Both servers deliver what a handler decides.  For every response with a
    known status and a document that can be written, a client of the gateway or of
    the local server finds in the octets that were sent the status, the headers of
    that server (Content-Length among them, and for the gateway the security
    headers) and a body of exactly that length, which is the page or JSON that is
    read back as the document. *)
Theorem responses_delivered `{FloatText} complain :
  delivers complain (public_respond complain) public_headers
  ∧ delivers complain (local_respond complain) local_headers.
Proof.
  split.
  - apply sends_delivers; [apply public_sends|intros; by apply public_well_formed|done].
  - apply sends_delivers; [apply local_sends|intros; apply common_well_formed; [by apply absent|done|done]|done].
Qed.

(** ** The gateway over the Web API *)

Section exclusive.
Context (float_repr : spec_float → string) (py_float : json → result spec_float) (json_loads : string → result json).
Context (body_loads : bytes → result json).
Context {W : Type} `{WebWorld W}.

(** No record is sent to the device. *)
Definition unsent (s s' : web (W * exchange_log)) : Prop := log_of s' = log_of s.
#[local] Instance unsent_preorder : PreOrder unsent.
Proof. split; [by intros s|intros s1 s2 s3; unfold unsent; congruence]. Qed.

Lemma unsent_outer {A} (m : W → W * result A) : spares unsent (outer (on_fst m)).
Proof. intros s. destruct (outer (on_fst m) s) as [s' r] eqn:E. by apply outer_fst_log in E. Qed.
Lemma unsent_total {A} (m : W → W * A) : spares unsent (outer_total (on_fst m)).
Proof.
  intros s. unfold unsent, outer_total, outer, log_of, on_fst. destruct (outside s) as [w log]. by destruct (m w).
Qed.
Lemma unsent_modify f : (∀ s, outside (f s) = outside s) → spares unsent (modify f).
Proof. intros Hf s. unfold unsent, log_of. cbn. by rewrite Hf. Qed.

Lemma unsent_broker : spares unsent active_broker.
Proof. unfold active_broker. apply spares_bind; [typeclasses eauto|apply unsent_outer|intros l]. apply spares_pure. typeclasses eauto. Qed.
Lemma unsent_poll p : spares unsent (outer_total (poll p)).
Proof. apply unsent_total. Qed.
Lemma unsent_hello record prefix : spares unsent (outer (hello_rpc record prefix)).
Proof. apply unsent_outer. Qed.
Lemma unsent_run args timeout : spares unsent (run_rp86 args timeout).
Proof.
  unfold run_rp86. apply spares_bind; [typeclasses eauto|apply unsent_outer|intros x]. apply spares_pure. typeclasses eauto.
Qed.
Lemma unsent_recovery text : spares unsent (start_runtime_recovery text).
Proof.
  unfold start_runtime_recovery, set_recovery, set_error.
  spare; by apply unsent_modify.
Qed.
#[local] Hint Resolve unsent_broker unsent_poll unsent_hello unsent_run unsent_recovery : spares.

(** The recovery thread *)
Lemma unsent_do f : (∀ w log, (f (w, log)).2 = log) → spares unsent (outer_do (W := W * exchange_log) f).
Proof. intros Hf [[w log] r m e b n]. unfold unsent, log_of, outer_do, outer. cbn. apply Hf. Qed.
Lemma unsent_wait p t : spares unsent (outer_total (wait p t)).
Proof. apply unsent_total. Qed.
Lemma unsent_clock : spares unsent (outer_total web_monotonic).
Proof. apply unsent_total. Qed.
Lemma unsent_popen : spares unsent (outer popen).
Proof. apply unsent_outer. Qed.
Lemma unsent_sleep t : spares unsent (outer_do (web_sleep t)).
Proof. by apply unsent_do. Qed.
Lemma unsent_owner mode error : spares unsent (set_owner mode error).
Proof. by apply unsent_modify. Qed.
Lemma unsent_error error : spares unsent (set_error error).
Proof. by apply unsent_modify. Qed.
Lemma unsent_runtime p : spares unsent (set_runtime p).
Proof. by apply unsent_modify. Qed.
#[local] Hint Resolve unsent_wait unsent_clock unsent_popen unsent_sleep unsent_owner unsent_error unsent_runtime : spares.


(** A POST only adds records. *)
Definition extends (s s' : web (W * exchange_log)) : Prop := ∃ more, log_of s' = log_of s ++ more.
#[local] Instance extends_preorder : PreOrder extends.
Proof.
  split; [intros s; exists []; by rewrite app_nil_r|].
  intros s1 s2 s3 [m1 E1] [m2 E2]. exists (m1 ++ m2). by rewrite E2, E1, app_assoc.
Qed.
Lemma unsent_extends {A} (m : io (web (W * exchange_log)) A) : spares unsent m → spares extends m.
Proof. intros Hm s. exists []. rewrite app_nil_r. apply Hm. Qed.
#[local] Hint Extern 2 (spares extends _) => apply unsent_extends; solve [eauto 2 with spares] : spares.
Lemma extends_exchange record prefix label b : spares extends (outer (exchange_rpc record prefix label b)).
Proof.
  intros s. unfold extends, log_of, outer. destruct (outside s) as [w log]. cbn [exchange_rpc logged_web].
  destruct (exchange_rpc record prefix label b w) as [w' [d|e]]; cbn; [by exists [(b, d)]|exists []; by rewrite app_nil_r].
Qed.
Lemma extends_transfer : spares extends (outer_total transfer_bits).
Proof. apply unsent_extends, unsent_total. Qed.
Lemma extends_hello record prefix : spares extends (checked_hello float_repr record prefix).
Proof. unfold checked_hello. spare. Qed.
#[local] Hint Resolve extends_exchange extends_transfer extends_hello : spares.
Lemma extends_record record request operation : spares extends (_exchange_workload_record float_repr record request operation).
Proof. unfold _exchange_workload_record. spare. Qed.
#[local] Hint Resolve extends_record : spares.
End exclusive.

(** ** Requests in threads

    [ThreadingHTTPServer] handles each request in a thread of its own.  The lock
    of the session is held by [acquire], [release] and [authorize], but no longer
    when [do_POST] calls the API, so a POST that is let through takes two steps
    and others may come in between.  [request_lock] makes the records of one call
    of the API come without another call's records in between.  A recovery that
    was started is a thread too, and so is the owner that [main] starts. *)

Section threads.
Context (float_repr : spec_float → string) (py_float : json → result spec_float) (json_loads : string → result json).
Context (body_loads : bytes → result json).
Context {W : Type} `{WebWorld W}.
#[local] Existing Instance unsent_preorder.
Abbreviation gateway_api := (web_api float_repr py_float json_loads).

Inductive phase :=
| Arrived (h : http)
| Entered (r : http_request) (payload : document)   (** let through by [authorize]; the API is still to be called *)
| Answered (res : result response).

(** The server, its threads, and the calls of the API's POST so far *)
Record server := mkServer {
  sv_gateway : gateway (W := web (W * exchange_log));
  sv_threads : list phase;
  sv_calls : list (http_request * document);
}.
Definition token_of (call : http_request * document) : option string := _session_token call.1 (Some call.2).



Definition device_log (s : server) : exchange_log := log_of (behind (sv_gateway s)).





End threads.


(** ** At the edges *)

(** A device behind a broker; no child can be started, and the [rp86] command
    runs into its timeout after it has written something. *)
#[local] Instance idle_web : WebWorld unit := {|
  discover := λ w, (w, Ok [mkBrokerRecord "dev" 1 2 3 "auto"]);
  hello_rpc := λ _ _ w, (w, Ok [("ok", JBool true)]%string);
  exchange_rpc := λ _ _ _ _ w, (w, Ok [("ok", JBool false); ("error", JStr "no device")]%string);
  subprocess_run := λ _ _ w, (w, Ok (TimeoutExpired (Some (lit "partial")) None));
  popen := λ w, (w, Ok 7);
  poll := λ _ w, (w, None);
  terminate := λ _ w, w; kill := λ _ w, w; wait := λ _ _ w, (w, true);
  web_monotonic := λ w, (w, 0); web_sleep := λ _ w, w; transfer_bits := λ w, (w, 77);
|}.
Definition no_text : bytes → string := λ _, "no text"%string.
Definition body_loads := @json_loads few_floats no_text.
Definition idle_api : Api (web (unit * exchange_log)) :=
  web_api (λ _, EmptyString) (λ _, Raise IndexError) (λ _, Raise IndexError).
Definition idle_gateway (s : PublicSession) : gateway (W := web (unit * exchange_log)) :=
  mkGateway s (mkWeb (tt, []) None "existing" None false 0).

Definition posted (path token : string) (payload : document) : http_request :=
  let body := encode_utf8 (@json_dumps few_floats spaced (JObj payload)) in
  mkHttp path (Some (dec (len body))) (Some token) body.

Definition reading : document := [("address", JStr "0x500"); ("length", JInt 4)]%string.
Definition reads (token : string) : http := Post fzero "new"%string (posted "/api/memory" token reading).
Definition owned_by (token : string) (threads : list phase) : server (W := unit) :=
  mkServer (idle_gateway (mkPublic (Some token) (Some "browser"%string) None None)) threads [].

(** One more step of a thread, by evaluation *)
Definition entered (i : nat) (s : server (W := unit)) : server :=
  match sv_threads s !! i with
  | Some (Arrived (Post now fresh r)) =>
      let '(g, res) := post_enter body_loads now fresh r (sv_gateway s) in
      mkServer g (<[i := match res with
                         | Ok (inl response) => Answered (Ok response)
                         | Ok (inr payload) => Entered r payload
                         | Raise e => Answered (Raise e)
                         end]> (sv_threads s)) (sv_calls s)
  | _ => s
  end.
Definition called (i : nat) (s : server (W := unit)) : server :=
  match sv_threads s !! i with
  | Some (Entered r payload) =>
      let '(g, res) := post_call (H := idle_api) r payload (sv_gateway s) in
      mkServer g (<[i := Answered res]> (sv_threads s)) (sv_calls s ++ [(r, payload)])
  | _ => s
  end.


(** A request of the old owner is let through, the old owner releases the session
    and a new owner takes it; only then the request calls the API, and its records
    reach the device. *)
Example released_in_flight :
  let release := Post fzero "x"%string (posted "/api/release" "old" []) in
  let acquire := Post fzero "new"%string (posted "/api/acquire" "" []) in
  let s := entered 2 (entered 1 (entered 0 (owned_by "old" [Arrived (reads "old"); Arrived release; Arrived acquire]))) in
  _token (sessions (sv_gateway s)) = Some "new"%string ∧ device_log s = []
  ∧ _token (sessions (sv_gateway (called 0 s))) = Some "new"%string ∧ length (device_log (called 0 s)) = 2%nat
  ∧ token_of <$> sv_calls (called 0 s) = [Some "old"%string].
Proof. vm_compute. by split_and!. Qed.

(** No broker, and children that end at once; the world lists the [rp86] commands
    that were run. *)
#[local] Instance broken_web : WebWorld (list (list string)) := {|
  discover := λ w, (w, Ok []);
  hello_rpc := λ _ _ w, (w, Raise IndexError);
  exchange_rpc := λ _ _ _ _ w, (w, Raise IndexError);
  subprocess_run := λ args _ w, (w ++ [args], Ok (Completed 0 EmptyString EmptyString));
  popen := λ w, (w, Ok 7);
  poll := λ _ w, (w, Some 1);
  terminate := λ _ w, w; kill := λ _ w, w; wait := λ _ _ w, (w, true);
  web_monotonic := λ w, (w, 0); web_sleep := λ _ w, w; transfer_bits := λ w, (w, 77);
|}.

(** Nobody owns the session, and anybody's GET of the processor starts a recovery,
    whose thread reboots the device. *)
Example stranger_reboots :
  let g : gateway (W := web (list (list string) * exchange_log)) :=
    mkGateway public_init (mkWeb ([], []) (Some 7) "web-owned" None false 0) in
  let asked := (do_GET (H := web_api (λ _, EmptyString) (λ _, Raise IndexError) (λ _, Raise IndexError))
                 (posted "/api/processor" "" []) g).1 in
  let recovered := (recover (λ _, EmptyString) 9 (behind asked)).1 in
  recovery_active (behind asked) = true ∧ (outside (behind asked)).1 = []
  ∧ (outside recovered).1 = [["--reboot"; "--timeout"; "5"]%string].
Proof. vm_compute. by split_and!. Qed.

(** A request and how its handling ends *)
Definition idle_conversation : conversation :=
  mkConversation "127.0.0.1" "POST / HTTP/1.1" false "Thu, 01 Jan 1970 00:00:00 GMT" "Python/3.12".
Definition no_wire : wire := mkWire [] [] [].
Definition public_answer (h : http) (s : PublicSession) :=
  answering (@public_respond few_floats no_text idle_conversation "page")
    (serve (H := idle_api) body_loads h) (idle_gateway s, no_wire).
Definition unsent_response (e : exn) {G} (x : (G * wire) * result unit) : bool :=
  bool_decide (w_sent x.1.2 = []) && bool_decide (x.2 = Raise e).

(** A surrogate in the name of the owner: the session is taken, but the response
    with its token cannot be encoded, and from then on neither can the answers to
    the next attempt and to the state of the session. *)
Example surrogate_owner_locks :
  let take := Post fzero "fresh"%string (posted "/api/acquire" "" [("owner"%string, JStr (of_octets (utf8_char 0xD800)))]) in
  let again := Post fzero "other"%string (posted "/api/acquire" "" []) in
  let locked := sessions (public_answer take public_init).1.1 in
  let no_utf8 := unsent_response (ValueError "no text") in
  _token locked = Some "fresh"%string
  ∧ no_utf8 (public_answer take public_init) = true ∧ no_utf8 (public_answer again locked) = true
  ∧ no_utf8 (public_answer (Get (posted "/api/session" "" [])) locked) = true
  ∧ sessions (public_answer again locked).1.1 = locked.
Proof. vm_compute. by split_and!. Qed.

(** What the [rp86] command wrote before its timeout is bytes, which JSON has no
    text for: the answer of the gateway and of the local server is lost. *)
Definition local_answer (m : io (web (unit * exchange_log)) response) :=
  answering (@local_respond few_floats no_text idle_conversation "page") m
    (mkWeb (tt, []) None "existing" None false 0, no_wire).
Example captured_output_unsent :
  let lost := TypeError "Object of type bytes is not JSON serializable" in
  unsent_response lost (public_answer (Get (posted "/api/status" "" [])) public_init)
  && unsent_response lost (local_answer (local_do_GET (λ _, EmptyString) (λ _, Raise IndexError) "/api/status")) = true.
Proof. vm_compute. reflexivity. Qed.

(** The local server answers a body that is not JSON; a Content-Length that is
    not a number, octets that are not UTF-8, and JSON that is not an object end
    the handler without an answer. *)
Example local_post_unhandled :
  let answer length body := local_answer (@local_do_POST few_floats no_text (λ _, Raise IndexError)
    (λ _, EmptyString) (λ _, Raise IndexError) _ _ (mkHttp "/api/memory" (Some length) None body)) in
  w_sent (answer "1" (lit "{")).1.2 ≠ []
  ∧ unsent_response (ValueError "invalid literal for int() with base 10: 'x'") (answer "x" []) = true
  ∧ unsent_response (ValueError "no text") (answer "1" [Byte.xff]) = true
  ∧ unsent_response AttributeError (answer "2" (lit "[]")) = true.
Proof. vm_compute. split; [discriminate|by split_and!]. Qed.

(** ** The end of the programs *)

Section ends.
Context {W : Type} `{WebWorld W}.
Abbreviation state := (program (W := W)).

(** What the operating system says of a child: [poll] gives a code and [wait]
    returns only once it has ended. *)
Class Children (V : Type) `{WebWorld V} := {
  alive : Z → V → Prop;
  poll_law p v v' code : poll p v = (v', Some code) → ¬ alive p v';
  wait_law p t v v' : wait p t v = (v', true) → ¬ alive p v';
}.
Context `{!Children W}.

(** The background runtime that the API holds in [s] is no longer alive in [s']. *)
Definition runtime_gone (s s' : state) : Prop :=
  ∀ p, owned_runtime (api s) = Some p → ¬ alive p (outside (api s')).

Lemma stop_gone (s s' : state) :
  on_web stop_owned_runtime s = (s', Ok tt) → runtime_gone s s'.
Proof.
  unfold on_web, stop_owned_runtime, runtime_gone, mbind, io_bind, gets. destruct s as [w out]; cbn [api printed].
  destruct (owned_runtime w) as [p|] eqn:Ep; [|done]. intros E p' [= <-]. revert E.
  unfold outer_total at 1, outer at 1. destruct (poll p (outside w)) as [w1 [code|]] eqn:Epoll.
  - intros [= <-]. cbn. by eapply poll_law.
  - unfold outer_do, outer_total, outer. cbn [outside].
    destruct (wait p two_seconds (terminate p w1)) as [w2 []] eqn:Ew; [intros [= <-]; by eapply wait_law|].
    cbn [outside]. destruct (wait p two_seconds (kill p w2)) as [w3 []] eqn:Ek; intros [=]; subst. by eapply wait_law.
Qed.

Context (float_repr : spec_float → string).
Context (bind_server : string → Z → io state (string * Z)).
Context (serve_forever : option (io state (option unit)) → state → state * interruption).
Context (server_close : state → state).

(** From [s] the server listens, serves, and is closed, which leaves [s1];
    otherwise lines are printed only. *)
Definition closed (host : string) (port : Z) (thread : option (io state (option unit))) (s s1 : state) : Prop :=
  ∃ s2 s3 s4 address, api s2 = api s ∧ bind_server host port s2 = (s3, Ok address)
    ∧ api s4 = api s3 ∧ s1 = server_close (serve_forever thread s4).1.
(** The runtime that the API holds when the server was closed is gone at the end. *)
Definition leaves_nothing host port thread s s' : Prop := ∃ s1, closed host port thread s s1 ∧ runtime_gone s1 s'.

Lemma serve_gone thread s s' :
  serve_until_interrupted serve_forever server_close thread s = (s', Ok tt) →
  runtime_gone (server_close (serve_forever thread s).1) s'.
Proof.
  unfold serve_until_interrupted. destruct (serve_forever thread s) as [s1 i]. cbn [fst].
  destruct (on_web stop_owned_runtime (server_close s1)) as [s2 [[]|e]] eqn:E; [|done]. apply stop_gone in E.
  by intros [= <- _].
Qed.
Lemma bound_gone {A} host port line last thread s s2 s3 address s' (code code' : A) :
  api s2 = api s → bind_server host port s2 = (s3, Ok address) →
  (_ ← say line; _ ← say last; _ ← serve_until_interrupted serve_forever server_close thread; mret code) s3 = (s', Ok code') →
  code = code' ∧ leaves_nothing host port thread s s'.
Proof.
  intros E2 E3 Hr. io_step. io_step. io_step. io_inv. split; [done|].
  match goal with Hs : serve_until_interrupted _ _ _ _ = (_, Ok ?u) |- _ => destruct u; apply serve_gone in Hs end.
  unfold say, modify in *. simplify_eq. eexists. split; [|done].
  exists s2, s3. eexists _, address. split_and!; [done|done| |reflexivity]. done.
Qed.
End ends.

(** C16: A server that comes to listen does not leave its runtime behind.  When
    either program returns, it returns 0, and the background runtime that the API
    held when the server had been closed is no longer alive; the server was the one
    of the run, behind the owner that had been asked for; the local program listens
    on a local address only, and the gateway on a port that exists.  (A runtime that
    a daemon thread starts after that moment is not covered.) *)
Theorem programs_end {W} `{Children W} float_repr bind_server serve_forever server_close fuel (s s' : program (W := W)) code :
  (∀ args, local_main float_repr bind_server serve_forever server_close fuel args s = (s', Ok (Some code)) →
     code = 0 ∧ l_host args ∈ ["127.0.0.1"; "localhost"; "::1"]%string
     ∧ ∃ s1 d, on_web (ensure_runtime_owner float_repr fuel 75000 true) s = (s1, Ok (Some d))
         ∧ leaves_nothing bind_server serve_forever server_close (l_host args) (l_port args) None s1 s')
  ∧ (∀ args, public_main float_repr bind_server serve_forever server_close fuel args s = (s', Ok code) →
     code = 0 ∧ 0 <= p_port args < 2 ^ 16
     ∧ leaves_nothing bind_server serve_forever server_close (p_host args) (p_port args)
         (if p_no_runtime_owner args then None else Some (_start_runtime_owner float_repr fuel)) s s').
Proof.
  split; intros args.
  - unfold local_main. destruct (str_in (l_host args) local_hosts) eqn:Eh; [|done]. cbn [negb]. intros Hr.
    io_step. case_match; [|by io_inv]. subst.
    match goal with Ho : on_web _ _ = (?s1, Ok (Some ?d)) |- _ => rename s1 into s1', d into d' end.
    io_step.
    match goal with Hs : (if _ then _ else _) s1' = (?s2, _) |- _ => assert (api s2 = api s1') as E2 end.
    { match goal with Hs : (if ?c then _ else _) s1' = _ |- _ => destruct c end; io_inv; unfold say, modify in *; by simplify_eq. }
    io_step. edestruct bound_gone as [E Hg]; [exact E2|done|done|]. injection E as <-.
    split; [done|]. split; [|by exists s1', d'].
    unfold str_in in Eh. apply existsb_exists in Eh as (h & Hh & ->%String.eqb_eq). by apply list_elem_of_In.
  - unfold public_main. destruct ((0 <=? p_port args) && (p_port args <=? 65535)) eqn:Ep; [|done]. cbn [negb]. intros Hr.
    io_step. case_match. subst. edestruct bound_gone as [E Hg]; [reflexivity|eassumption|eassumption|]. split; [done|]. split; [lia|done].
Qed.

(** A host where the background runtime can be started: its broker appears then. *)
#[local] Instance starting_web : WebWorld bool := {|
  discover := λ started : bool, (started, Ok (if started then [mkBrokerRecord "dev" 1 2 3 "auto"] else []));
  hello_rpc := λ _ _ w, (w, Ok []); exchange_rpc := λ _ _ _ _ w, (w, Ok []);
  subprocess_run := λ _ _ w, (w, Ok (Completed 0 "" ""));
  popen := λ _, (true, Ok 7);
  poll := λ _ (w : bool), (w, if w then None else Some 0);
  terminate := λ _ _, false; kill := λ _ w, w; wait := λ _ _ (w : bool), (w, negb w);
  web_monotonic := λ w, (w, 0); web_sleep := λ _ w, w; transfer_bits := λ w, (w, 77);
|}.
Definition starting_program : program (W := bool) := mkProgram (mkWeb false None "not-started" None false 0) [].
Definition bound (host : string) (port : Z) : io (program (W := bool)) (string * Z) := λ s, (s, Ok (host, port)).
Definition in_use (host : string) (port : Z) : io (program (W := bool)) (string * Z) := λ s,
  (s, Raise (OSError "[Errno 98] Address already in use")).
(** The thread runs, then the server is interrupted. *)
Definition interrupted (thread : option (io (program (W := bool)) (option unit))) (s : program (W := bool)) :=
  (match thread with Some m => (m s).1 | None => s end, KeyboardInterrupt).

#[local] Program Instance starting_children : Children bool := {| alive := λ _ w, w = true |}.
Next Obligation. intros p [] v' code; cbn; [done|]. by intros [= <- _]. Qed.
Next Obligation. intros p t [] v'; cbn; [done|]. by intros [= <-]. Qed.

Example programs_end_witness :
  (let run := local_main (λ _, EmptyString) bound interrupted (λ s, s) 3 (mkLocal "localhost" 8086) starting_program in
   outside (api run.1) = false
   ∧ ∃ s1, owned_runtime (api s1) = Some 7 ∧ leaves_nothing bound interrupted (λ s, s) "localhost" 8086 None s1 run.1)
  ∧ (let run := public_main (λ _, EmptyString) bound interrupted (λ s, s) 3 (mkPublicOptions "0.0.0.0" 8765 false) starting_program in
     outside (api run.1) = false
     ∧ leaves_nothing bound interrupted (λ s, s) "0.0.0.0" 8765 (Some (_start_runtime_owner (λ _, EmptyString) 3)) starting_program run.1).
Proof.
  split; intros run.
  - destruct run as [s' r] eqn:E. assert (r = Ok (Some 0)) as -> by (vm_compute in E; congruence).
    split; [vm_compute in E; by injection E as <-|].
    apply (programs_end (λ _, EmptyString) bound interrupted (λ s, s) 3 starting_program s' 0) in E
      as (_ & _ & s1 & d & Eo & Hg). exists s1. split; [|exact Hg]. vm_compute in Eo. by injection Eo as <- _.
  - destruct run as [s' r] eqn:E. assert (r = Ok 0) as -> by (vm_compute in E; congruence).
    split; [vm_compute in E; by injection E as <-|].
    apply (programs_end (λ _, EmptyString) bound interrupted (λ s, s) 3 starting_program s' 0) in E as (_ & _ & Hg). exact Hg.
Defined.

(** When the port is in use, the local program ends with the background runtime
    it has just started still running: only [serve_forever] is inside the [try]. *)
Example orphaned_runtime :
  let '(s, r) := local_main (λ _, EmptyString) in_use interrupted (λ s, s) 3 (mkLocal "localhost" 8086) starting_program in
  r = Raise (OSError "[Errno 98] Address already in use") ∧ owned_runtime (api s) = Some 7
  ∧ (poll 7 (outside (api s))).2 = None.
Proof. vm_compute. by split_and!. Qed.

Example entries :
  map rp86_entry [["--port"; "1"; "--web"]; ["--web"; "--public"]; ["--start-workload"; "x"]; ["--status"]]%string
  = [(WebConsole, ["--port"; "1"]); (PublicGateway, ["--web"]); (StartWorkload, ["--start-workload"; "x"]);
     (CommandLine, ["--status"])]%string.
Proof. reflexivity. Qed.
