(* ===== verification/StartWorkload.v ===== *)
(** * Deploying a workload (host/rp86/start_workload.py)

    The command uploads one workload through the broker of the runtime owner,
    starting an owner when there is none, runs it and returns while the
    processor keeps executing.  The broker, the child process, the files, the
    clocks (milliseconds) and the terminal are the class [StartWorld]; paths are
    those of a POSIX system.  [float_repr] prints the floats of a broker
    document and [seconds3] a duration in seconds with three decimals.

    The theorem says what the pass exit certifies: which records the device
    accepted, in which order, and what it reported in the end. *)

From S2P Require Import Prelude Struct PyText Json Protocol Core Workload RuntimeState Broker Transport WebApi.
From Stdlib Require Import Ascii SpecFloat.

(** ** Paths *)

(** [s.split("/")] *)
Fixpoint split_on (sep : ascii) (l : list ascii) : list (list ascii) :=
  match l with
  | [] => [[]]
  | c :: l =>
      if Ascii.eqb c sep then [] :: split_on sep l
      else match split_on sep l with part :: parts => (c :: part) :: parts | [] => [[c]] end
  end.

(** [Path(value).name]: the last component that is neither empty nor a dot *)
Definition path_name (value : string) : list ascii :=
  default [] (last (List.filter (λ part, negb (bool_decide (part = []) || bool_decide (part = ["."%char])))
                      (split_on "/" (ascii_list value)))).

(** [name[name.rfind("."):]] when the last dot is neither the first nor the last
    character *)
Fixpoint last_dot (name : list ascii) : option (list ascii) :=
  match name with
  | [] => None
  | c :: rest =>
      match last_dot rest with
      | Some tail => Some tail
      | None => if Ascii.eqb c "." then Some name else None
      end
  end.
Definition path_suffix (value : string) : string :=
  match last_dot (path_name value) with
  | Some tail =>
      if (length tail =? 1)%nat || (length tail =? length (path_name value))%nat then EmptyString
      else String.string_of_list_ascii tail
  | None => EmptyString
  end.

(** ** The command *)

Class StartWorld (W : Type) := {
  start_discover : io W (list BrokerRecord);
  start_hello : BrokerRecord → io W document;
  start_exchange : BrokerRecord → string → bytes → spec_float → io W document;
  popen_owner : list string → io W Z;
  owner_poll : Z → W → W * option Z;
  start_monotonic : W → W * Z;
  start_sleep : Z → W → W;
  is_file : string → W → bool;
  read_bytes : string → io W bytes;
  start_transfer_bits : W → W * Z;
  strftime : W → W * (string * string);   (** the offset, and date and time to the microsecond *)
  put_line : bool → string → W → W;       (** true: the error stream *)
}.

(** The parsed command line *)
Record start_args := mkStartArgs {
  start_workload : string;
  hid_serial : option string;
  a_timeout : spec_float;
  owner_wait_s : spec_float;
}.

(** [x <= 0] *)
Definition not_positive (x : spec_float) : bool := SFleb x fzero.

(** [now < began + timeout], in milliseconds *)
Definition before (began : Z) (timeout : spec_float) (now : Z) : bool :=
  match timeout with
  | S754_nan => false
  | S754_infinity negative => negb negative
  | S754_zero _ => now <? began
  | S754_finite negative m e =>
      let v := (if negative then - Zpos m else Zpos m) * 1000 in
      if 0 <=? e then now - began <? v * 2 ^ e else (now - began) * 2 ^ (- e) <? v
  end.

Definition owner_command : list string :=
  ["-m"; "host.apps.cli.rp86"; "--interactive"; "--attach"; "--display"; "quiet"; "--interval"; "1.0"]%string.

Section start.
Context (float_repr : spec_float → string) (seconds3 : Z → string).
Context {W : Type} `{StartWorld W}.

Definition total {A} (f : W → W * A) : io W A := λ w, let '(w, a) := f w in (w, Ok a).
Definition print (text : string) : io W unit := modify (put_line false text).

Definition _timestamp : io W string :=
  '(offset, stamp) ← total strftime;
  let offset := if (String.length offset =? 5)%nat
                then str_take 3 offset +:+ ":" +:+ String.substring 3 2 offset else offset in
  mret ("[" +:+ str_take (String.length stamp - 3) stamp +:+ " " +:+ offset +:+ "]").

Definition _event (text : string) (error : bool) : io W unit :=
  stamp ← _timestamp;
  modify (put_line error (stamp +:+ " " +:+ text)).

Definition _format_duration (ms : Z) : string := seconds3 (Z.max 0 ms) +:+ " s".

Definition _sequence_from_hello (hello : document) : result Z :=
  snapshot ← dict_or_empty float_repr (jget "snapshot" hello);
  let value := jget "request_sequence" snapshot in
  sequence ← (if jtruthy value then jint value else Ok 1);
  Ok (or_one (mask32 sequence)).

Definition _next_sequence (sequence : Z) : Z := or_one (mask32 (sequence + 1)).

Definition _workload_path_error (value : string) : io W (option string) :=
  found ← gets (is_file value);
  if negb (found : bool) then mret (Some ("workload not found: " +:+ value))
  else if negb (String.eqb (str_lower (path_suffix value)) ".p86w")
  then mret (Some "--start-workload currently requires a .P86W workload"%string)
  else mret None.

Definition _spawn_background_owner : io W Z := popen_owner owner_command.

Definition select_active (device : option string) : io W (option BrokerRecord) :=
  records ← start_discover;
  lift (select_broker records device).

(** The record, the child and the error; [None] is "out of fuel". *)
Abbreviation owner_outcome := (option BrokerRecord * option Z * option string)%type.

Fixpoint owner_loop (fuel : nat) (device : option string) (process began : Z) (wait_seconds : spec_float)
  : io W (option owner_outcome) :=
  match fuel with
  | O => mret None
  | S fuel =>
      now ← total start_monotonic;
      if negb (before began wait_seconds now)
      then mret (Some (None, Some process,
                       Some "background RP86 runtime did not publish a Host Broker in time"%string)) else
      exit ← total (owner_poll process);
      match exit with
      | Some returncode =>
          mret (Some (None, Some process,
            Some ("background RP86 runtime exited before publishing a Host Broker (exit " +:+ dec returncode +:+ ")")))
      | None =>
          broker ← catch_classes runtime_error (r ← select_active device; mret (inl r)) (λ text, mret (inr text));
          match broker with
          | inr text => mret (Some (None, Some process, Some text))
          | inl (Some record) => mret (Some (Some record, Some process, None))
          | inl None => _ ← modify (start_sleep 100); owner_loop fuel device process began wait_seconds
          end
      end
  end.

Definition _ensure_runtime_owner (fuel : nat) (device : option string) (wait_seconds : spec_float)
  : io W (option owner_outcome) :=
  broker ← catch_classes runtime_error (r ← select_active device; mret (inl r)) (λ text, mret (inr text));
  match broker with
  | inr text => mret (Some (None, None, Some text))
  | inl (Some record) => mret (Some (Some record, None, None))
  | inl None =>
      started ← catch_os_error (p ← _spawn_background_owner; mret (inl p)) (λ text, mret (inr text));
      match started with
      | inr exc => mret (Some (None, None, Some ("failed to start background RP86 runtime: " +:+ exc)))
      | inl process =>
          began ← total start_monotonic;
          owner_loop fuel device process began wait_seconds
      end
  end.

(** The reply, or the text of the error *)
Definition _exchange (record : BrokerRecord) (request : Message) (operation : string) (timeout : spec_float)
  : io W (Message + string) :=
  catch_classes exchange_error
    (encoded ← lift (encode request);
     result ← start_exchange record operation encoded timeout;
     if negb (jtruthy (jget "ok" result))
     then mret (inr (jstr_or float_repr (jget "error" result) (operation +:+ " failed"))) else
     reply ← lift (decode_reply float_repr result);
     if negb (status reply =? STATUS_OK)
     then mret (inr (operation +:+ " rejected by RP2350 (status " +:+ dec (status reply) +:+ ")"))
     else mret (inl reply))
    (λ text, mret (inr text)).

Definition _state (reply : Message) : result WorkloadRuntimeState := from_payload (payload reply).

(** [reply, error = _exchange(...)]; [if reply is None: raise RuntimeError(error or text)] *)
Definition required (record : BrokerRecord) (request : Message) (operation : string) (timeout : spec_float)
    (text : string) : io W Message :=
  answer ← _exchange record request operation timeout;
  match answer with
  | inl reply => mret reply
  | inr error => raise (RuntimeError (str_or error text))
  end.

Definition state_line (s : WorkloadRuntimeState) : string :=
  "  workload_id=" +:+ dec (workload_id s) +:+ " state=" +:+ lifecycle_name s
  +:+ " detail=" +:+ dec (detail s) +:+ " clock=" +:+ clock_name s
  +:+ " cycles=" +:+ dec (cycles s) +:+ " processor=" +:+ processor_state s.

(** An active processor is stopped; the next sequence is returned. *)
Definition stop_active (record : BrokerRecord) (current : WorkloadRuntimeState) (sequence : Z)
    (timeout : spec_float) : io W Z :=
  if workload_upload_requires_stop (lifecycle current) then
    _ ← _event "load: stopping active processor" false;
    stop_request ← lift (control_record "stop" 0 sequence);
    _ ← required record stop_request "stop-before-load" timeout "workload stop failed";
    mret (_next_sequence (Protocol.sequence stop_request))
  else mret sequence.

(** [for index, request in enumerate(records, 1)]; false: a record was refused
    and the command ends *)
Fixpoint send_records (record : BrokerRecord) (timeout : spec_float) (count index : Z) (records : list Message)
    (final_reply : option Message) : io W (option Message * bool) :=
  match records with
  | [] => mret (final_reply, true)
  | request :: records =>
      answer ← _exchange record request ("load-" +:+ dec index) timeout;
      match answer with
      | inr error =>
          _ ← _event ("workload upload: FAILED at record " +:+ dec index +:+ "/" +:+ dec count +:+ ": "
                      +:+ str_or error "unknown error") true;
          mret (None, false)
      | inl reply => send_records record timeout count (index + 1) records (Some reply)
      end
  end.

Definition manifest_text (manifest : WorkloadManifest) (image : bytes) : string :=
  "  image   " +:+ dec (len image) +:+ " bytes" +:+ newline
  +:+ "  address 0x" +:+ hex_upper 5 (load_address manifest) +:+ newline
  +:+ "  entry   " +:+ hex_upper 4 (entry_segment manifest) +:+ ":" +:+ hex_upper 4 (entry_offset manifest) +:+ newline
  +:+ "  CRC32   " +:+ hex_upper 8 (image_crc32 manifest).

(** [records[-1]] *)
Definition last_record (records : list Message) : result Message :=
  match last records with Some r => Ok r | None => Raise IndexError end.

(** From the run request on: the exit code *)
Definition run_uploaded (record : BrokerRecord) (timeout : spec_float) (started : Z) (sequence : Z) : io W Z :=
  run_request ← lift (control_record "run" 0 sequence);
  run_reply ← required record run_request "run" timeout "workload run failed";
  running ← lift (_state run_reply);
  _ ← _event "workload run: ACCEPTED (1 records)" false;
  _ ← print (state_line running);
  if negb (String.eqb (lifecycle_name running) "RUNNING") || negb (String.eqb (processor_state running) "ACTIVE") then
    _ ← _event ("WORKLOAD START: FAIL (state=" +:+ lifecycle_name running +:+ ", processor="
                +:+ processor_state running +:+ ")") true;
    mret VALIDATION_EXIT
  else
    _ ← _event "WORKLOAD START: PASS" false;
    now ← total start_monotonic;
    _ ← print ("Deployment duration: " +:+ _format_duration (now - started));
    _ ← print "Physical processor continues executing after Host command return.";
    mret PASS_EXIT.

(** From the read of the file on: the upload, then the run *)
Definition upload_and_run (a : start_args) (record : BrokerRecord) (started : Z) (sequence : Z) : io W Z :=
  encoded ← read_bytes (start_workload a);
  transfer_id ← total start_transfer_bits;
  '(manifest, image, records) ← lift (workload_from_bytes encoded [start_workload a] transfer_id sequence);
  _ ← _event "Native workload upload" false;
  _ ← print (manifest_text manifest image);
  '(final_reply, complete) ← send_records record (a_timeout a) (len records) 1 records None;
  if negb (complete : bool) then mret VALIDATION_EXIT else
  match final_reply with
  | None => raise AssertionError
  | Some final_reply =>
      staged ← lift (_state final_reply);
      _ ← _event ("workload upload: PASS (" +:+ dec (len records) +:+ " records)") false;
      _ ← print (state_line staged);
      last ← lift (last_record records);
      run_uploaded record (a_timeout a) started (_next_sequence (Protocol.sequence last))
  end.

(** The [try] block *)
Definition deploy (a : start_args) (record : BrokerRecord) (started : Z) : io W Z :=
  hello ← start_hello record;
  _ ← (if negb (jtruthy (jget "ok" hello))
       then raise (RuntimeError (jstr_or float_repr (jget "error" hello) "broker hello failed")) else mret tt);
  sequence ← lift (_sequence_from_hello hello);
  status_request ← lift (control_record "status" 0 sequence);
  status_reply ← required record status_request "status" (a_timeout a) "workload status failed";
  current ← lift (_state status_reply);
  sequence ← stop_active record current (_next_sequence (Protocol.sequence status_request)) (a_timeout a);
  upload_and_run a record started sequence.

Definition start_main (fuel : nat) (a : start_args) : io W (option Z) :=
  if not_positive (a_timeout a) then raise (SystemExit "--timeout must be greater than zero") else
  if not_positive (owner_wait_s a) then raise (SystemExit "--owner-wait must be greater than zero") else
  path_error ← _workload_path_error (start_workload a);
  match path_error with
  | Some text => _ ← modify (put_line true ("ERROR: " +:+ text)); mret (Some VALIDATION_EXIT)
  | None =>
      started ← total start_monotonic;
      _ ← print EmptyString;
      _ ← _event "[RP86 WORKLOAD START]" false;
      _ ← print ("Workload = " +:+ start_workload a);
      owner ← _ensure_runtime_owner fuel (hid_serial a) (owner_wait_s a);
      match owner with
      | None => mret None
      | Some (None, _, owner_error) =>
          _ ← _event ("WORKLOAD START: FAIL ("
                      +:+ str_or (default EmptyString owner_error) "no active RP86 Host broker" +:+ ")") true;
          mret (Some TRANSPORT_EXIT)
      | Some (Some record, _, _) =>
          code ← catch_classes os_runtime_value_error (deploy a record started)
                   (λ exc, _ ← _event ("WORKLOAD START: FAIL (" +:+ exc +:+ ")") true; mret TRANSPORT_EXIT);
          mret (Some code)
      end
  end.
End start.

(** ** Theorems *)

(** A world that keeps the records sent to the device and the answers *)
#[global] Instance logged_start {W} `{StartWorld W} : StartWorld (W * exchange_log) := {|
  start_discover := on_fst start_discover;
  start_hello := λ r, on_fst (start_hello r);
  start_exchange := λ r l b t '(w, log),
    let '(w, x) := start_exchange r l b t w in ((w, match x with Ok d => log ++ [(b, d)] | Raise _ => log end), x);
  popen_owner := λ c, on_fst (popen_owner c);
  owner_poll := λ p, on_fst (owner_poll p);
  start_monotonic := on_fst start_monotonic;
  start_sleep := λ t '(w, log), (start_sleep t w, log);
  is_file := λ p w, is_file p w.1;
  read_bytes := λ p, on_fst (read_bytes p);
  start_transfer_bits := on_fst start_transfer_bits;
  strftime := on_fst strftime;
  put_line := λ e t '(w, log), (put_line e t w, log);
|}.

Section facts.
Context (float_repr : spec_float → string) (seconds3 : Z → string).
Context {W : Type} `{StartWorld W}.
Abbreviation state := (W * exchange_log)%type.

(** No run of [m] sends a record, whatever its outcome. *)
Definition silent {A} (m : io state A) : Prop := ∀ s, (m s).1.2 = s.2.

Lemma silent_bind {A B} (m : io state A) (k : A → io state B) :
  silent m → (∀ a, silent (k a)) → silent (m ≫= k).
Proof.
  intros Hm Hk s. unfold mbind, io_bind. specialize (Hm s). destruct (m s) as [s1 [a|e]]; [|done].
  cbn in Hm. by rewrite Hk.
Qed.
Lemma silent_ret {A} (a : A) : silent (mret a).
Proof. done. Qed.
Lemma silent_lift {A} (r : result A) : silent (lift r).
Proof. done. Qed.
Lemma silent_raise {A} e : silent (raise e : io state A).
Proof. done. Qed.
Lemma silent_gets {A} (f : state → A) : silent (gets f).
Proof. done. Qed.
Lemma silent_fst {A} (m : io W A) : silent (on_fst m).
Proof. intros [w log]. unfold on_fst. by destruct (m w). Qed.
Lemma silent_total {A} (f : W → W * A) : silent (total (on_fst f)).
Proof. intros [w log]. unfold total, on_fst. by destruct (f w). Qed.
Lemma silent_line e t : silent (modify (put_line e t)).
Proof. by intros [w log]. Qed.
Lemma silent_sleep t : silent (modify (start_sleep t)).
Proof. by intros [w log]. Qed.
Lemma silent_catch {A} classes (m : io state A) handler :
  silent m → (∀ text, silent (handler text)) → silent (catch_classes classes m handler).
Proof.
  intros Hm Hh s. unfold catch_classes. specialize (Hm s). destruct (m s) as [s1 [a|e]]; [done|].
  case_match; [by rewrite Hh|done].
Qed.
Lemma silent_catch_os {A} (m : io state A) handler :
  silent m → (∀ text, silent (handler text)) → silent (catch_os_error m handler).
Proof.
  intros Hm Hh s. unfold catch_os_error. specialize (Hm s). destruct (m s) as [s1 [a|[]]]; try done. cbn in Hm. by rewrite Hh.
Qed.

Create HintDb silent discriminated.
Hint Resolve silent_ret silent_lift silent_raise silent_gets : silent.
Hint Extern 2 (silent _) => first [apply silent_fst | apply silent_total | apply silent_line | apply silent_sleep] : silent.
Ltac silence := repeat first
  [ progress intros | by auto with silent | apply silent_bind | apply silent_catch | apply silent_catch_os | case_match ].

Lemma silent_event text error : silent (_event text error).
Proof. unfold _event, _timestamp. silence. Qed.
Lemma silent_print text : silent (print text).
Proof. apply silent_line. Qed.
Hint Resolve silent_event silent_print : silent.

Lemma silent_select device : silent (select_active device).
Proof. unfold select_active. silence. Qed.
Hint Resolve silent_select : silent.

Lemma silent_owner_loop fuel device process began wait : silent (owner_loop fuel device process began wait).
Proof. induction fuel; cbn [owner_loop]; silence. Qed.
Hint Resolve silent_owner_loop : silent.

Lemma silent_owner fuel device wait : silent (_ensure_runtime_owner fuel device wait).
Proof. unfold _ensure_runtime_owner, _spawn_background_owner. silence. Qed.
Hint Resolve silent_owner : silent.

Lemma lift_ok {A} (r : result A) (s s' : state) a : lift r s = (s', Ok a) → s' = s ∧ r = Ok a.
Proof. unfold lift. by intros [= -> ->]. Qed.

Lemma fst_run {A} (m : io W A) (s s' : state) a : on_fst m s = (s', Ok a : result A) → ∃ w w', m w = (w', Ok a).
Proof. destruct s as [w log]. unfold on_fst. destruct (m w) as [w' r] eqn:E. intros [= <- ->]. eauto. Qed.

(** What a run that returned did *)
Lemma silent_run {A} (m : io state A) s s' r : silent m → m s = (s', r) → s'.2 = s.2.
Proof. intros Hm E. specialize (Hm s). by rewrite E in Hm. Qed.

(** One step of a run that returned: what it lifts, or that it is silent *)
Ltac run_step := io_step;
  match goal with
  | E : lift _ _ = (_, Ok _) |- _ => apply lift_ok in E as [-> E]
  | E : ?m _ = (_, Ok _) |- _ => apply silent_run in E; [|solve [silence]]
  end.

(** *** Records that were sent and accepted *)

Definition answered (request : Message) (entry : bytes * document) (reply : Message) : Prop :=
  encode request = Ok entry.1 ∧ accepted float_repr entry.2 reply.

Lemma answered_sent request entry reply : answered request entry reply → sent float_repr request entry.
Proof. intros [He Ha]. split; [done|]. by exists reply. Qed.

Lemma sent_u32 requests entries :
  Forall2 (sent float_repr) requests entries → Forall (λ x, u32 x) (map sequence requests).
Proof.
  induction 1 as [|request entry requests entries [He _] _ IH]; constructor; [|done].
  apply encode_inv in He. unfold message_ok, header_fits in He. py_inv. tauto.
Qed.

Lemma exchange_sent record request operation timeout (s s' : state) reply :
  _exchange float_repr record request operation timeout s = (s', Ok (inl reply)) →
  ∃ e, s'.2 = s.2 ++ [e] ∧ answered request e reply.
Proof.
  unfold _exchange. intros Hr.
  apply catch_ok in Hr as [Hr|(s1 & e & text & _ & _ & Hr)]; [|by io_inv].
  io_step. match goal with E : lift (encode _) _ = _ |- _ => unfold lift in E; injection E as <- He end.
  io_step. rename select (start_exchange _ _ _ _ _ = _) into Hx.
  case_match eqn:Hok; [by io_inv|]. io_step. rename select (lift _ _ = _) into Hd.
  unfold lift in Hd. injection Hd as <- Hd. case_match eqn:Hst; io_inv.
  apply negb_false_iff in Hok, Hst. destruct s as [w log]. cbn [start_exchange logged_start] in Hx.
  destruct (start_exchange _ _ _ _ w) as [w' y]. injection Hx as <- ->.
  eexists (_, _). split; [done|]. split; [exact He|]. split; [exact Hok|]. split; [exact Hd|lia].
Qed.

Lemma required_sent record request operation timeout text (s s' : state) reply :
  required float_repr record request operation timeout text s = (s', Ok reply) →
  ∃ e, s'.2 = s.2 ++ [e] ∧ answered request e reply.
Proof. unfold required. intros Hr. io_step. case_match; io_inv. by eapply exchange_sent. Qed.

Lemma control_sequence operation workload q r : control_record operation workload q = Ok r → sequence r = q.
Proof. unfold control_record. intros Hc. repeat (case_match; [|done]). case_match; [done|]. apply bind_ok in Hc as (p & _ & Hc). by simplify_eq. Qed.

Lemma stop_active_sent record current q timeout (s s' : state) next :
  stop_active float_repr record current q timeout s = (s', Ok next) →
  ∃ stops entries, s'.2 = s.2 ++ entries ∧ Forall2 (sent float_repr) stops entries
    ∧ (if workload_upload_requires_stop (lifecycle current)
       then ∃ stop, control_record "stop" 0 q = Ok stop ∧ stops = [stop] else stops = [])
    ∧ chain next_seq q (map sequence stops) = true ∧ next = chain_next next_seq q (map sequence stops).
Proof.
  unfold stop_active. case_match.
  2:{ intros. io_inv. exists [], []. rewrite app_nil_r. by repeat constructor. }
  intros Hr. io_step. rename select (_event _ _ _ = _) into He. apply silent_run in He; [|silence].
  io_step. rename select (lift _ _ = _) into Hc. apply lift_ok in Hc as [-> Hc].
  io_step. rename select (required _ _ _ _ _ _ _ = _) into Hq. io_inv.
  apply required_sent in Hq as (e & Hl & Ha). pose proof (control_sequence _ _ _ _ Hc) as Hs.
  eexists [_], [e]. rewrite <- He. split; [exact Hl|]. split; [constructor; [by eapply answered_sent|constructor]|].
  split; [by eexists|]. cbn. rewrite Hs, Z.eqb_refl. done.
Qed.

Lemma send_records_sent record timeout count index records final (s s' : state) f :
  send_records float_repr record timeout count index records final s = (s', Ok (f, true)) →
  ∃ entries, s'.2 = s.2 ++ entries ∧ Forall2 (sent float_repr) records entries.
Proof.
  revert index final s. induction records as [|request records IH]; intros index final s; cbn [send_records]; intros Hr.
  { io_inv. exists []. by rewrite app_nil_r. }
  io_step. case_match; [|io_step; io_inv].
  rename select (_exchange _ _ _ _ _ _ = _) into Hx. subst. apply exchange_sent in Hx as (e & Hl & Ha).
  match goal with E : send_records _ _ _ _ _ _ _ _ = _ |- _ => apply IH in E as (entries & Hl' & Hs) end.
  exists (e :: entries). rewrite Hl', Hl, <- app_assoc. split; [done|].
  constructor; [by eapply answered_sent|done].
Qed.

(** The device accepted the run request and reported a processor that runs. *)
Definition ran (q : Z) (run : Message) (entry : bytes * document) : Prop :=
  control_record "run" 0 q = Ok run ∧ ∃ reply st, answered run entry reply
    ∧ from_payload (payload reply) = Ok st ∧ lifecycle_name st = "RUNNING"%string ∧ processor_state st = "ACTIVE"%string.

Lemma run_uploaded_sent record timeout started q (s s' : state) :
  run_uploaded float_repr seconds3 record timeout started q s = (s', Ok PASS_EXIT) →
  ∃ run e, s'.2 = s.2 ++ [e] ∧ ran q run e.
Proof.
  unfold run_uploaded. intros Hr. io_step. rename select (lift _ _ = _) into Hc. apply lift_ok in Hc as [-> Hc].
  io_step. rename select (required _ _ _ _ _ _ _ = _) into Hq. apply required_sent in Hq as (e & Hl & Ha).
  io_step. rename select (lift _ _ = _) into Hst. apply lift_ok in Hst as [-> Hst].
  io_step. rename select (_event _ _ _ = _) into He. apply silent_run in He; [|silence].
  io_step. rename select (print _ _ = _) into Hp. apply silent_run in Hp; [|silence].
  case_match eqn:Hn.
  { io_step. io_inv. }
  apply orb_false_elim in Hn as [Hn1 Hn2]. apply negb_false_iff, String.eqb_eq in Hn1, Hn2.
  match goal with E : _ = (s', Ok PASS_EXIT) |- _ => rename E into Hr end. apply silent_run in Hr; [|silence].
  eexists _, e. split; [by rewrite Hr, Hp, He|]. split; [exact Hc|]. eexists _, _. by split_and!.
Qed.

(** What a pass did from the state of the processor on: [q] is the sequence after
    the status request, [current] the state it reported, [encoded] the file. *)
Definition deployed (path : string) (encoded : bytes) (q : Z) (current : WorkloadRuntimeState)
    (entries : exchange_log) : Prop :=
  ∃ stops transfer first manifest image records run before_run last_entry,
    entries = before_run ++ [last_entry]
    ∧ (if workload_upload_requires_stop (lifecycle current)
       then ∃ stop, control_record "stop" 0 q = Ok stop ∧ stops = [stop] else stops = [])
    ∧ workload_from_bytes encoded [path] transfer first = Ok (manifest, image, records)
    ∧ device_upload records = Some (mkUpload transfer manifest image)
    ∧ Forall2 (sent float_repr) (stops ++ records) before_run
    ∧ chain next_seq q (map sequence (stops ++ records ++ [run])) = true
    ∧ ran (sequence run) run last_entry.

Lemma chain_succ_next q l :
  chain Z.succ q l = true → Forall (λ x, u32 x) l → chain next_seq q l = true.
Proof.
  revert q. induction l as [|x l IH]; intros q; [done|]. cbn [chain]. intros Hc Hu.
  apply andb_prop in Hc as [Hx Hc]. apply Forall_cons in Hu as [Hu Hl]. rewrite Hx. cbn [andb].
  apply Z.eqb_eq in Hx as ->. destruct l as [|y l]; [done|]. pose proof Hc as Hy. cbn [chain] in Hy.
  apply andb_prop in Hy as [Hy _]. apply Z.eqb_eq in Hy as ->. apply Forall_cons in Hl as [Hy Hl'].
  unfold in_width in Hu, Hy. rewrite next_seq_lt by lia. replace (q + 1) with (Z.succ q) by lia. apply IH; [done|].
  constructor; [unfold in_width; lia|done].
Qed.

Lemma upload_chain encoded path transfer first manifest image records :
  workload_from_bytes encoded [path] transfer first = Ok (manifest, image, records) →
  device_upload records = Some (mkUpload transfer manifest image) ∧ chain Z.succ first (map sequence records) = true.
Proof.
  unfold workload_from_bytes. intros Hw.
  apply bind_ok in Hw as (o & _ & Hw). apply bind_ok in Hw as ([m i] & _ & Hw).
  apply bind_ok in Hw as (r & Hu & Hw). simplify_eq.
  destruct (upload_records_inv _ _ _ _ _ Hu) as (Hm & Hs & Hi & Ht).
  destruct (upload_records_spec manifest image transfer first Hm Hs Hi Ht) as (r & Hr & Hd & Hc & _).
  split; congruence.
Qed.

Lemma upload_and_run_sent a record started first (s s' : state) :
  upload_and_run float_repr seconds3 a record started first s = (s', Ok PASS_EXIT) →
  ∃ encoded transfer manifest image records run before_run last_entry,
    (∃ w w', read_bytes (start_workload a) w = (w', Ok encoded))
    ∧ workload_from_bytes encoded [start_workload a] transfer first = Ok (manifest, image, records)
    ∧ s'.2 = s.2 ++ before_run ++ [last_entry]
    ∧ Forall2 (sent float_repr) records before_run
    ∧ chain next_seq first (map sequence (records ++ [run])) = true ∧ ran (sequence run) run last_entry.
Proof.
  unfold upload_and_run. intros Hr. io_step. rename select (read_bytes _ _ = _) into Hb.
  pose proof (fst_run (read_bytes (start_workload a)) _ _ _ Hb) as Hread. apply silent_run in Hb; [|silence].
  do 2 run_step. repeat case_match. subst. do 2 run_step.
  io_step. rename select (send_records _ _ _ _ _ _ _ _ = _) into Hsend.
  repeat case_match; subst; try by io_inv. rename select (negb _ = false) into Hcomplete. apply negb_false_iff in Hcomplete as ->.
  apply send_records_sent in Hsend as (entries & Hlog & Hsent).
  do 4 run_step. rename select (last_record _ = _) into Hlast. rename select (workload_from_bytes _ _ _ _ = _) into Hw.
  match goal with E : run_uploaded _ _ _ _ _ _ _ = _ |- _ => apply run_uploaded_sent in E as (run & e & Hrun & Hran) end.
  destruct (upload_chain _ _ _ _ _ _ _ Hw) as [_ Hc]. apply chain_succ_next in Hc; [|by eapply sent_u32].
  assert (sequence run = _) as Hq by (destruct Hran as [Hran _]; exact (control_sequence _ _ _ _ Hran)).
  eexists _, _, _, _, _, run, entries, e. split; [exact Hread|]. split; [exact Hw|].
  split; [rewrite app_assoc; congruence|]. split; [exact Hsent|]. split; [|by rewrite Hq].
  rewrite map_app. apply chain_app; [exact Hc|]. unfold chain_next, last_record in *.
  rewrite fmap_last. destruct (last l); simplify_eq. cbn. by rewrite Hq, Z.eqb_refl.
Qed.

(** A status request that was answered, then the deployment *)
Definition started_by (path : string) (q : Z) (log log' : exchange_log) : Prop :=
  ∃ encoded status e reply current entries,
    (∃ w w', read_bytes path w = (w', Ok encoded))
    ∧ control_record "status" 0 q = Ok status ∧ answered status e reply
    ∧ from_payload (payload reply) = Ok current
    ∧ log' = log ++ e :: entries ∧ deployed path encoded (next_seq q) current entries.

Lemma path_accepted value (s s' : state) :
  _workload_path_error value s = (s', Ok None) →
  s' = s ∧ is_file value s.1 = true ∧ str_lower (path_suffix value) = ".p86w"%string.
Proof.
  unfold _workload_path_error. intros Hr. io_step. rename select (gets _ _ = _) into Hg. injection Hg as <- <-.
  case_match eqn:Hf; [by io_inv|]. case_match eqn:Hx; io_inv.
  apply negb_false_iff in Hf, Hx. by apply String.eqb_eq in Hx.
Qed.

Lemma deploy_sent a record started (s s' : state) :
  deploy float_repr seconds3 a record started s = (s', Ok PASS_EXIT) →
  ∃ q, started_by (start_workload a) q s.2 s'.2.
Proof.
  unfold deploy. intros Hr. run_step. io_step.
  match goal with E : (if _ then _ else _) _ = _ |- _ => apply silent_run in E; [|silence]; rename E into Hok end.
  do 2 run_step. rename select (control_record _ _ _ = _) into Hc.
  io_step. rename select (required _ _ _ _ _ _ _ = _) into Hq. apply required_sent in Hq as (e & Hl & Ha).
  run_step. io_step. rename select (stop_active _ _ _ _ _ _ = _) into Hstop.
  apply stop_active_sent in Hstop as (stops & entries & Hl' & Hs & Hkind & Hchain & ->).
  match goal with E : upload_and_run _ _ _ _ _ _ _ = _ |- _ =>
    apply upload_and_run_sent in E
      as (encoded & transfer & manifest & image & records & run & before_run & last_entry & Hread & Hw & Hl'' & Hs' & Hc' & Hran) end.
  pose proof (control_sequence _ _ _ _ Hc) as Hsq. rewrite Hsq in *.
  eexists _, encoded, _, e, _, _, _. split; [exact Hread|]. split; [exact Hc|]. split; [exact Ha|].
  split; [done|]. split.
  - rewrite Hl'', Hl', Hl, Hok. rename select (_ = s.2) into Hs0. rewrite Hs0, <- !app_assoc. reflexivity.
  - eexists stops, transfer, _, manifest, image, records, run, (entries ++ before_run), last_entry.
    split; [by rewrite <- app_assoc|]. split; [exact Hkind|]. split; [exact Hw|].
    split; [by apply upload_chain in Hw as [? _]|]. split; [by apply Forall2_app|]. split; [|exact Hran].
    rewrite map_app. by apply chain_app.
Qed.

(** C23: a deployment that exits with the pass code sent, through the broker, a
    status request, then a stop exactly when the reported state required one,
    then every record of the workload file in order, then the run request, each
    with the sequence that follows the one before, and nothing else; each was
    answered with an accepted reply, the device reassembles from them the very
    manifest and image of the file, and its answer to the run reports a running
    workload on an active processor. *)
Theorem start_pass_certified fuel a (s s' : W * exchange_log) :
  start_main float_repr seconds3 fuel a s = (s', Ok (Some PASS_EXIT)) →
  is_file (start_workload a) s.1 = true ∧ str_lower (path_suffix (start_workload a)) = ".p86w"%string
  ∧ ∃ q, started_by (start_workload a) q s.2 s'.2.
Proof.
  unfold start_main. intros Hr. repeat (case_match; [by io_inv|]).
  io_step. rename select (_workload_path_error _ _ = _) into Hp.
  case_match; [io_step; io_inv|]. subst. apply path_accepted in Hp as (-> & Hf & Hx).
  split; [exact Hf|]. split; [exact Hx|]. do 5 run_step.
  repeat case_match; try by (io_step; io_inv). subst. io_step.
  rename select (catch_classes _ _ _ _ = _) into Hc. io_inv.
  apply catch_ok in Hc as [Hc|(s1 & e & text & _ & _ & Hc)]; [|by io_step; io_inv].
  apply deploy_sent in Hc as [q Hc]. exists q.
  match type of Hc with started_by _ _ ?l _ => replace s.2 with l by congruence end. exact Hc.
Qed.
End facts.

(** A bench: no broker before the owner is started, and a device that reports a
    running workload to every record *)
Definition running_status : document :=
  let reply := mkMessage TYPE_WORKLOAD_RESULT 1 (replicate 4 Byte.x00 ++ Byte.x03 :: replicate 47 Byte.x00) 0 STATUS_OK PROTOCOL_VERSION in
  [("ok", JBool true);
   ("reply_hex", JStr (bytes_hex (match encode reply with Ok e => e | Raise _ => [] end)))]%string.
Definition sample_file : bytes := match encode_workload_file sample_manifest sample_image with Ok b => b | Raise _ => [] end.
#[local] Instance start_bench : StartWorld bool := {|
  start_discover := λ w : bool, (w, Ok (if w then [mkBrokerRecord "dev" 1 2 3 "auto"] else []));
  start_hello := λ _ w, (w, Ok [("ok", JBool true); ("snapshot", JObj [("request_sequence", JInt 0xFFFFFFFF)])]%string);
  start_exchange := λ _ _ _ _ w, (w, Ok running_status);
  popen_owner := λ _ _, (true, Ok 7);
  owner_poll := λ _ w, (w, None);
  start_monotonic := λ w, (w, 0);
  start_sleep := λ _ w, w;
  is_file := λ _ _, true;
  read_bytes := λ _ w, (w, Ok sample_file);
  start_transfer_bits := λ w, (w, 7);
  strftime := λ w, (w, ("+0800", "2025-01-01 00:00:00.000000"))%string;
  put_line := λ _ _ w, w;
|}.

(** The status request takes the last sequence of the 32-bit range, the stop the first one. *)
Example start_pass_certified_witness :
  let a := mkStartArgs "build/demo.P86W" None (float_of_Z 5) (float_of_Z 5) in
  ∃ s', start_main (λ _, EmptyString) (λ _, EmptyString) 2 a (false, []) = (s', Ok (Some PASS_EXIT))
    ∧ len s'.2 = 7
    ∧ str_lower (path_suffix (start_workload a)) = ".p86w"%string
    ∧ ∃ q, started_by (λ _, EmptyString) (start_workload a) q [] s'.2.
Proof.
  intros a. destruct (start_main (λ _, EmptyString) (λ _, EmptyString) 2 a (false, [])) as [s' r] eqn:E.
  exists s'. assert (r = Ok (Some PASS_EXIT)) as -> by (vm_compute in E; injection E as _ <-; reflexivity).
  split; [reflexivity|]. split; [vm_compute in E; injection E as <-; reflexivity|].
  exact (proj2 (start_pass_certified (λ _, EmptyString) (λ _, EmptyString) 2 a (false, []) s' E)).
Defined.

(** The names [Path.suffix] knows *)
Example path_suffixes :
  map path_suffix ["a.b/demo.P86W/"; ".p86w"; "demo."; "x/demo.tar.p86w"; ""]%string
  = [".P86W"; EmptyString; EmptyString; ".p86w"; EmptyString]%string.
Proof. reflexivity. Qed.
