(* ===== verification/Cli.v ===== *)
(** * The command line (host/rp86/cli.py, and the HID control of transport.py)

    [main] dispatches one parsed command line: it lists devices, asks an active
    broker, restarts the device over HID with a CDC fallback, or runs a session.
    argparse delivers [cli_args]; [parser.error] raises [SystemExit].  The
    device interfaces are those of [Transport]; discovery, the RPCs of a broker
    and the session are the class [CliWorld].  [run_session] is the call of
    [persistent_monitor]; [None] is a session or a wait that is out of fuel.

    The theorems show that the command line leaves the hardware alone while the
    device has an active broker, and what a passing restart or status certifies. *)

From S2P Require Import Prelude Struct PyText Json Protocol Core RequestChannel Broker Transport Shell StartWorkload.
From Stdlib Require Import Ascii SpecFloat.

Record cli_args := mkCliArgs {
  a_interactive : bool;
  a_regression : option string;
  a_bootloader : bool;
  a_reboot : bool;
  a_status : bool;
  a_list : bool;
  a_port : option string;
  a_sequence : Z;
  a_wait : spec_float;             (** [--timeout] *)
  a_serial : option string;
  a_processor : string;
  a_output : string;
  a_monitor : bool;
  a_probe : bool;
  a_attach : bool;
  a_interval : spec_float;
  a_probe_timeout : spec_float;
  a_rounds : Z;
  a_display : string;
  a_json : bool;
}.

(** The arguments of [persistent_monitor] *)
Record session_args := mkSessionArgs {
  sa_port : string;
  sa_sequence : Z;
  sa_timeout : spec_float;
  sa_interval : spec_float;
  sa_output : string;
  sa_serial : option string;
  sa_display : string;
  sa_interactive : bool;
  sa_rounds : Z;
  sa_processor : string;
  sa_broker : option BrokerRecord;
  sa_probe : bool;
  sa_regression : option string;
  sa_regression_timeout : spec_float;
}.

Class CliWorld (W : Type) `{SerialPort W} `{!HidWorld W} `{!UsbHost W} := {
  close_hid : io W unit;
  comports : io W (list com_port);
  cli_discover : io W (list BrokerRecord);
  broker_hello : BrokerRecord → string → io W document;
  broker_command : BrokerRecord → string → string → string → spec_float → io W document;
    (** the client, the command, the request and the timeout *)
  run_session : session_args → io W (option Z);
  getpid : W → Z;
  path_is_file : W → string → bool;
  fold_case : string → string;                   (** [str.casefold] *)
  dumps_list : list document → string;           (** [json.dumps(x, indent=2, ensure_ascii=False)] *)
}.

(** A string argument that is given and not empty *)
Definition given (s : option string) : bool := match s with Some (String _ _) => true | _ => false end.

Definition not_found_text (workload : string) : string :=
  "workload not found: " +:+ workload +:+ ". A Windows checkout does not contain WSL build artifacts; use the "
  +:+ "\\wsl.localhost\<distro>\...\build\workloads\<name>.P86W path".

Section cli.
Context (fuel : nat) (float_repr : spec_float → string).
Context {W : Type} `{CliWorld W}.

(** ** HID control (transport.py) *)

(** [try: ... return identity finally: device.close()]; [None] is "out of fuel". *)
Definition control_and_close (operation sequence : Z) (timeout : spec_float) (identity : document)
  : io W (option document) := λ w,
  let '(w, r) := exchange_hid_runtime_control fuel operation sequence timeout w in
  match close_hid w with
  | (w, Ok _) | (w, Raise (OSError _)) =>
      (w, match r with
          | Ok (Some _) => Ok (Some identity)
          | Ok None => Ok None
          | Raise e => Raise e
          end)
  | (w, Raise e) => (w, Raise e)
  end.

Definition send_hid_runtime_control (operation sequence : Z) (timeout : spec_float) (serial_number : option string)
  : io W (option document) :=
  identity ← open_hid serial_number;
  control_and_close operation sequence timeout identity.

(** ** The parts of [main] *)

Definition _regression_workload_error (workload : option string) : io W (option string) :=
  match workload with
  | None => mret None
  | Some path =>
      if is_device_path path then mret None else
      found ← gets (λ w, path_is_file w path);
      mret (if (found : bool) then None else Some (not_found_text path))
  end.

Definition serial_of_port (port : string) : io W (option string) :=
  ports ← comports;
  mret (cdc_serial_for_port fold_case port (list_cdc_ports ports)).

(** [except RuntimeError: device_hint = None] *)
Definition serial_or_none (port : string) : io W (option string) :=
  catch_classes runtime_error (serial_of_port port) (λ _, mret None).

Definition device_hint (a : cli_args) : io W (option string) :=
  match a_serial a, a_port a with
  | None, Some (String _ _ as port) => serial_or_none port
  | serial, _ => mret serial
  end.

Definition list_devices (json : bool) : io W Z :=
  listed ← catch_classes runtime_error (l ← list_hid_devices; mret (inl l)) (λ exc, mret (inr exc));
  match listed with
  | inr exc => _ ← complain ("ERROR: " +:+ exc); mret DEPENDENCY_EXIT
  | inl devices =>
      _ ← (if json then say (dumps_list (map hid_identity devices)) else
           match devices with
           | [] => say ("No VID " +:+ hex_upper 4 USB_VID +:+ " PID " +:+ hex_upper 4 USB_PID +:+ " HID interface found.")
           | _ => foldr (λ i rest, _ ← say ("VID " +:+ hex_upper 4 (hi_vendor i) +:+ " PID " +:+ hex_upper 4 (hi_product_id i)
                                            +:+ "  serial=" +:+ shown (or_empty (hi_serial i)) +:+ "  " +:+ or_empty (hi_product i));
                                    rest) (mret tt) devices
           end);
      mret (match devices with [] => TRANSPORT_EXIT | _ => PASS_EXIT end)
  end.

(** The combinations that [parser.error] refuses *)
Definition argument_error (a : cli_args) : option string :=
  if not_positive (a_interval a) then Some "--interval must be greater than zero"%string
  else if not_positive (a_probe_timeout a) then Some "--probe-timeout must be greater than zero"%string
  else if a_rounds a <? 0 then Some "--rounds cannot be negative"%string
  else if a_json a && (a_interactive a || a_monitor a || a_probe a || given (a_regression a))
  then Some "persistent runtime monitoring cannot be combined with --json"%string
  else if a_attach a && negb (a_interactive a || a_monitor a || a_probe a)
  then Some "--attach requires --interactive, --monitor, or --native-probe"%string
  else None.

(** [str(control["evidence_hex"])] as octets *)
Definition evidence_of (control : document) : result bytes :=
  value ← jitem "evidence_hex" control;
  match bytes_fromhex (jstr float_repr value) with
  | Some evidence => Ok evidence
  | None => Raise (ValueError "non-hexadecimal number found in fromhex() arg")
  end.

(** One command of a broker: [try: ... except (OSError, RuntimeError, ValueError)]
    and the check of [ok]; [None] when the failure was reported. *)
Definition asked (name : string) (request : io W document) : io W (option document) :=
  answer ← catch_classes os_runtime_value_error (d ← request; mret (inl d)) (λ exc, mret (inr exc));
  match answer with
  | inr exc => _ ← complain ("ERROR: Host broker " +:+ name +:+ " failed: " +:+ exc); mret None
  | inl control =>
      if jtruthy (jget "ok" control) then mret (Some control) else
      _ ← complain ("ERROR: Host broker " +:+ name +:+ " failed: " +:+ jstr float_repr (jget "error" control));
      mret None
  end.

Definition client_name (name : string) : io W string := gets (λ w, name +:+ "-" +:+ dec (getpid w)).

(** [snapshot.get(key, default)] as text *)
Definition shown_or (key : string) (absent : json) (d : document) : string :=
  jstr float_repr (default absent (str_get key d)).

Definition print_broker_status (record : BrokerRecord) (reply control : document) : io W unit :=
  _ ← say (newline +:+ "[HOST BROKER STATUS]");
  _ ← say ("Device ID                  = " +:+ device_id record);
  snapshot ← lift (match str_get "snapshot" reply with
                   | None => Ok []
                   | Some (JObj d) => Ok d
                   | Some _ => Raise AttributeError
                   end);
  let native := jget "native_processor" snapshot in
  let processor := if jtruthy native then native else default (JStr "UNKNOWN") (str_get "processor" reply) in
  _ ← say ("Physical processor         = " +:+ str_upper (jstr float_repr processor));
  _ ← say ("Broker state               = " +:+ shown_or "state" (JStr "UNKNOWN") snapshot);
  _ ← say ("TCP / UDP                  = " +:+ dec (tcp_port record) +:+ " / " +:+ dec (udp_port record));
  _ ← say ("Native probes completed/lost = " +:+ shown_or "probe_completed" (JInt 0) snapshot +:+ " / "
           +:+ shown_or "probe_lost" (JInt 0) snapshot);
  _ ← say "Hardware owner              = EXISTING BROKER";
  _ ← say "HOST BROKER STATUS RESULT = PASS";
  evidence ← lift (evidence_of control);
  print_status_evidence evidence.

Definition broker_status (record : BrokerRecord) (timeout : spec_float) : io W Z :=
  client ← client_name "status";
  answer ← catch_classes os_runtime_value_error
             (reply ← broker_hello record client;
              control ← broker_command record client "status" client timeout;
              mret (inl (reply, control)))
             (λ exc, mret (inr exc));
  match answer with
  | inr exc => _ ← complain ("ERROR: Host broker status failed: " +:+ exc); mret TRANSPORT_EXIT
  | inl (reply, control) =>
      if negb (jtruthy (jget "ok" control))
      then _ ← complain ("ERROR: Host broker status failed: " +:+ jstr float_repr (jget "error" control));
           mret TRANSPORT_EXIT
      else _ ← print_broker_status record reply control; mret PASS_EXIT
  end.

Definition broker_restart (command : string) (record : BrokerRecord) (timeout : spec_float)
    (done : document → io W unit) : io W Z :=
  client ← client_name command;
  answer ← asked command (broker_command record client command client timeout);
  match answer with
  | None => mret TRANSPORT_EXIT
  | Some control => _ ← done control; mret PASS_EXIT
  end.

Definition broker_bootloader (record : BrokerRecord) (timeout : spec_float) : io W Z :=
  broker_restart "bootloader" record timeout (λ control,
    evidence ← lift (evidence_of control);
    _ ← say "RP2350 bootloader request = ACKNOWLEDGED VIA HOST BROKER";
    _ ← say "RP2350 UF2 bootloader     = ENTERING";
    say ("CDC evidence bytes        = " +:+ dec (len evidence))).

Definition broker_reboot (record : BrokerRecord) (timeout : spec_float) : io W Z :=
  broker_restart "reboot" record timeout (λ _,
    _ ← say "RP2350 reboot request     = ACKNOWLEDGED VIA HOST BROKER";
    say "RP2350 canonical runtime  = RESTARTING").

(** The session of the two calls of [persistent_monitor] *)
Definition session_call (a : cli_args) (port : string) (serial : option string) (broker : option BrokerRecord)
  : session_args :=
  mkSessionArgs port (or_one (a_sequence a)) (a_probe_timeout a) (a_interval a) (a_output a) serial (a_display a)
    (a_interactive a) (if given (a_regression a) then 0 else a_rounds a) (a_processor a) broker
    (if given (a_regression a) then false else a_probe a) (a_regression a) (a_wait a).

Definition attach_session (a : cli_args) (record : BrokerRecord) : io W (option Z) :=
  let policy := if String.eqb (a_processor a) "auto" then "native identity auto-detect"%string
                else "strict " +:+ a_processor a +:+ " assertion" in
  _ ← (if a_json a then mret tt else
       say ("Connected to existing Host broker = " +:+ device_id record +:+ " (TCP " +:+ dec (tcp_port record) +:+ ", "
            +:+ policy +:+ ")"));
  run_session (session_call a EmptyString (Some (device_id record)) (Some record)).

Definition use_broker (a : cli_args) (record : BrokerRecord) : io W (option Z) :=
  if a_status a then code ← broker_status record (a_wait a); mret (Some code)
  else if a_bootloader a then code ← broker_bootloader record (a_wait a); mret (Some code)
  else if a_reboot a then code ← broker_reboot record (a_wait a); mret (Some code)
  else attach_session a record.

(** The restart over HID: [Some] is the end of the command, [None] the fall back
    to CDC; the inner [None] is "out of fuel". *)
Definition restart_hid (a : cli_args) : io W (option (option Z)) :=
  let operation := if a_bootloader a then RUNTIME_CONTROL_ENTER_BOOTLOADER else RUNTIME_CONTROL_REBOOT in
  hint ← device_hint a;
  catch_classes runtime_error
    (identity ← send_hid_runtime_control operation (a_sequence a) (a_wait a) hint;
     match identity with
     | None => mret (Some None)
     | Some identity =>
         _ ← say (if a_bootloader a then "RP2350 bootloader request = ACKNOWLEDGED VIA HID"
                  else "RP2350 reboot request     = ACKNOWLEDGED VIA HID");
         _ ← say (if a_bootloader a then "RP2350 UF2 bootloader     = ENTERING"
                  else "RP2350 canonical runtime  = RESTARTING");
         let serial := jget "serial" identity in
         _ ← say ("USB device serial         = " +:+ if jtruthy serial then jstr float_repr serial else "<none>");
         mret (Some (Some PASS_EXIT))
     end)
    (λ exc, _ ← (if a_json a then mret tt else say ("HID control unavailable; trying CDC fallback: " +:+ exc)); mret None).

(** [resolve_cdc_port], which lists the ports only when none is given *)
Definition resolve_port (a : cli_args) : io W (string * bool) :=
  match a_port a with
  | Some (String _ _ as port) => mret (port, false)
  | _ => ports ← comports; lift (resolve_cdc_port ports (a_port a) (a_serial a))
  end.

Definition use_ports (a : cli_args) : io W (option Z) :=
  resolved ← catch_classes runtime_error (r ← resolve_port a; mret (inl r)) (λ exc, mret (inr exc));
  match resolved with
  | inr exc => _ ← complain ("ERROR: " +:+ exc); mret (Some TRANSPORT_EXIT)
  | inl (port, auto_port) =>
      _ ← (if (auto_port : bool) && negb (a_json a) then say ("Auto-selected CDC port = " +:+ port) else mret tt);
      serial ← match a_serial a with None => serial_or_none port | serial => mret serial end;
      if a_status a then _ ← _serial_module; request_status fuel port (a_wait a)
      else if a_bootloader a then _ ← _serial_module; request_bootloader fuel port (a_wait a)
      else if a_reboot a then _ ← _serial_module; request_reboot_cdc fuel port (a_wait a)
      else catch_classes runtime_error (run_session (session_call a port serial None))
             (λ exc, _ ← complain ("ERROR: " +:+ exc); mret (Some DEPENDENCY_EXIT))
  end.

Definition use_device (a : cli_args) : io W (option Z) :=
  ended ← (if a_bootloader a || a_reboot a then restart_hid a else mret None);
  match ended with
  | Some code => mret code
  | None => use_ports a
  end.

Definition cli_main (a : cli_args) : io W (option Z) :=
  missing ← _regression_workload_error (a_regression a);
  match missing with
  | Some text => _ ← complain ("ERROR: " +:+ text); mret (Some VALIDATION_EXIT)
  | None =>
      if a_list a then code ← list_devices (a_json a); mret (Some code) else
      match argument_error a with
      | Some text => raise (SystemExit text)
      | None =>
          hint ← device_hint a;
          selected ← catch_classes runtime_error
                       (records ← cli_discover; r ← lift (select_broker records hint); mret (inl r))
                       (λ exc, mret (inr exc));
          match selected with
          | inr exc => _ ← complain ("ERROR: " +:+ exc); mret (Some TRANSPORT_EXIT)
          | inl (Some record) => use_broker a record
          | inl None => use_device a
          end
      end
  end.
End cli.

(** ** The owner of a device *)

(** What discovery, the RPCs of a broker and the terminal leave alone *)
Class Bystander {W} `{CliWorld W} (R : W → W → Prop) := {
  by_order :: PreOrder R;
  by_emit e text w : R w (emit e text w);
  by_enumerate : spares R hid_enumerate;
  by_comports : spares R comports;
  by_discover : spares R cli_discover;
  by_hello record client : spares R (broker_hello record client);
  by_command record client command request timeout : spares R (broker_command record client command request timeout);
}.
#[export] Hint Resolve by_enumerate by_comports by_discover by_hello by_command : spares.

Section untouched.
Context (fuel : nat) (float_repr : spec_float → string).
Context {W : Type} `{CliWorld W} (R : W → W → Prop) `{!Bystander R}.

Lemma spares_say text : spares R (say text).
Proof. intros w. apply by_emit. Qed.
Lemma spares_complain text : spares R (complain text).
Proof. intros w. apply by_emit. Qed.
Hint Resolve spares_say spares_complain : spares.

Lemma spares_hint a : spares R (device_hint a).
Proof. unfold device_hint, serial_or_none, serial_of_port. spare. Qed.
Lemma spares_regression_error workload : spares R (_regression_workload_error workload).
Proof. unfold _regression_workload_error. spare. Qed.
Lemma spares_enumerate : spares R list_hid_devices.
Proof. unfold list_hid_devices, _hid_module. spare. Qed.
Hint Resolve spares_enumerate : spares.
Lemma spares_list_devices json : spares R (list_devices json).
Proof.
  unfold list_devices. spare. rename select (list hid_item) into l. generalize (h :: l). clear h l. intros l.
  induction l; cbn [foldr]; spare; done.
Qed.
Lemma spares_status record timeout : spares R (broker_status float_repr record timeout).
Proof. unfold broker_status, client_name, print_broker_status, print_status_evidence. cbv zeta. spare. Qed.
Lemma spares_restart command record timeout done :
  (∀ d, spares R (done d)) → spares R (broker_restart float_repr command record timeout done).
Proof. intros Hd. unfold broker_restart, client_name, asked. spare. Qed.
Lemma spares_broker a record :
  (a_status a || a_bootloader a || a_reboot a) = true → spares R (use_broker float_repr a record).
Proof.
  intros Hm. unfold use_broker. destruct (a_status a), (a_bootloader a), (a_reboot a); try done;
    (apply spares_bind; [typeclasses eauto| |intros ?; spare]);
    first [apply spares_status|apply spares_restart; intros d; spare].
Qed.

(** A part that leaves [R] alone, and what follows *)
Lemma spares_then {A B} (m : io W A) (k : A → io W B) w w' r :
  spares R m → (m ≫= k) w = (w', r) → R w w' ∨ ∃ w1 a, R w w1 ∧ m w = (w1, Ok a) ∧ k a w1 = (w', r).
Proof.
  intros Hm. unfold mbind, io_bind. specialize (Hm w). destruct (m w) as [w1 [a|e]]; cbn in Hm.
  - intros E. right. by exists w1, a.
  - intros [= <- <-]. by left.
Qed.
Lemma spares_run {A} (m : io W A) w w' r : spares R m → m w = (w', r) → R w w'.
Proof. intros Hm E. specialize (Hm w). by rewrite E in Hm. Qed.

Lemma hint_given a w w' hint d : device_hint a w = (w', Ok hint) → a_serial a = Some d → hint = Some d.
Proof. unfold device_hint. intros E Hs. rewrite Hs in E. io_inv. done. Qed.

(** C7: the command line leaves the hardware alone while the device has an owner.
    Whatever discovery, the RPCs of a broker and the terminal leave alone is
    unchanged at the end of every command, except in two cases: the command ended
    in a session attached to an active broker, or discovery had found no active
    broker of the device in question, and only then the command went on to the
    device itself. *)
Theorem cli_defers a w w' r :
  cli_main fuel float_repr a w = (w', r) →
  R w w'
  ∨ (∃ w1 record, R w w1
       ∧ run_session (session_call a EmptyString (Some (device_id record)) (Some record)) w1 = (w', r))
  ∨ (∃ w0 w1 hint records, R w w1 ∧ cli_discover w0 = (w1, Ok records)
       ∧ (∀ d, a_serial a = Some d → hint = Some d)
       ∧ (∀ b, b ∈ records → ∃ d, hint = Some d ∧ device_id b ≠ d)
       ∧ use_device fuel float_repr a w1 = (w', r)).
Proof.
  intros E. unfold cli_main in E.
  apply spares_then in E as [?|(w1 & missing & Ha & _ & E)]; [by left| |apply spares_regression_error].
  destruct missing as [text|]; [left; etrans; [exact Ha|]; eapply spares_run, E; spare|].
  destruct (a_list a).
  { left. etrans; [exact Ha|]. eapply spares_run, E. spare. apply spares_list_devices. }
  destruct (argument_error a); [left; etrans; [exact Ha|]; eapply spares_run, E; spare|].
  apply spares_then in E as [Hk|(w2 & hint & Hb & Hh & E)]; [left; by etrans| |apply spares_hint].
  apply spares_then in E as [Hk|(w3 & selected & Hc & Hd & E)]; [left; by do 2 (etrans; [eassumption|])| |spare].
  assert (R w w3) as Hw by (by do 2 (etrans; [eassumption|])).
  apply catch_ok in Hd as [Hd|(w4 & e & text & _ & _ & Hd)]; io_inv.
  - rename select (select_broker _ _ = Ok _) into Hs. rename select (cli_discover _ = _) into Hdis.
    rename select (list BrokerRecord) into records. rename select (option BrokerRecord) into found.
    pose proof (select_broker_spec records hint) as Hspec. rewrite Hs in Hspec. destruct found as [record|].
    + destruct (a_status a || a_bootloader a || a_reboot a) eqn:Hm.
      { left. etrans; [exact Hw|]. by eapply spares_run, E; apply spares_broker. }
      unfold use_broker in E. destruct (a_status a), (a_bootloader a), (a_reboot a); try done.
      unfold attach_session in E. cbv zeta in E.
      apply spares_then in E as [Hk|(w4 & [] & Hd & _ & E)]; [left; by etrans| |spare].
      right; left. exists w4, record. split; [by etrans|done].
    + right; right. exists w2, w3, hint, records. split_and!; try done. intros d. by eapply hint_given.
  - left. etrans; [exact Hw|]. eapply spares_run, E. spare.
Qed.
End untouched.

(** ** What a passing command certifies *)

(** The command of a one-shot mode, in the order in which [main] looks *)
Definition cli_command (a : cli_args) : string :=
  if a_status a then "status" else if a_bootloader a then "bootloader" else "reboot".

Section certified.
Context (fuel : nat) (float_repr : spec_float → string).
Context {W : Type} `{CliWorld W}.

(** A broker reported success *)
Definition by_broker (a : cli_args) : Prop :=
  ∃ record client w1 w2 control,
    broker_command record client (cli_command a) client (a_wait a) w1 = (w2, Ok control)
    ∧ jtruthy (jget "ok" control) = true.

(** The device acknowledged this operation and sequence in a report *)
Definition by_hid (a : cli_args) : Prop :=
  ∃ w1 w2 report reply, hid_read (MESSAGE_SIZE + 1) w1 = (w2, Ok report) ∧ received report reply
    ∧ acknowledges (if a_bootloader a then RUNTIME_CONTROL_ENTER_BOOTLOADER else RUNTIME_CONTROL_REBOOT)
        (a_sequence a) reply.

(** The CDC stream held the complete answer *)
Definition by_cdc (a : cli_args) : Prop :=
  ∃ w1 w2 evidence,
    (if a_status a then send_status_request fuel (a_wait a)
     else if a_bootloader a then send_bootloader_request fuel (a_wait a)
     else send_reboot_request fuel (a_wait a)) w1 = (w2, Ok (Some evidence))
    ∧ (if a_status a then ∃ stream, framed STATUS_BEGIN STATUS_END stream evidence
       else bytes_in (if a_bootloader a then BOOTLOADER_ACK else REBOOT_ACK) evidence = true).

Lemma asked_ok name request (w w' : W) control :
  asked float_repr name request w = (w', Ok (Some control)) →
  ∃ w1 w2, request w1 = (w2, Ok control) ∧ jtruthy (jget "ok" control) = true.
Proof.
  unfold asked. intros E. io_inv. rename select (catch_classes _ _ _ _ = _) into Hc.
  apply catch_ok in Hc as [Hc|(? & ? & ? & _ & _ & Hc)]; io_inv. destruct (jtruthy _) eqn:Hok; io_inv. by eexists _, _.
Qed.

Lemma broker_restart_pass command record timeout done (w w' : W) :
  broker_restart float_repr command record timeout done w = (w', Ok PASS_EXIT) →
  ∃ client w1 w2 control, broker_command record client command client timeout w1 = (w2, Ok control)
    ∧ jtruthy (jget "ok" control) = true.
Proof.
  unfold broker_restart. intros E. io_inv. rename select (option document) into answer.
  destruct answer as [control|]; io_inv. rename select (asked _ _ _ _ = _) into Ha.
  apply asked_ok in Ha as (w1 & w2 & ? & ?). by eexists _, w1, w2, control.
Qed.

Lemma broker_status_pass record timeout (w w' : W) :
  broker_status float_repr record timeout w = (w', Ok PASS_EXIT) →
  ∃ client w1 w2 control, broker_command record client "status" client timeout w1 = (w2, Ok control)
    ∧ jtruthy (jget "ok" control) = true.
Proof.
  unfold broker_status. intros E. io_inv. rename select (catch_classes _ _ _ _ = _) into Hc.
  apply catch_ok in Hc as [Hc|(? & ? & ? & _ & _ & Hc)]; io_inv.
  destruct (jtruthy (jget "ok" _)) eqn:Hok; cbn [negb] in *; io_inv. by eexists _, _, _, _.
Qed.

Lemma use_broker_pass a record (w w' : W) :
  (a_status a || a_bootloader a || a_reboot a) = true →
  use_broker float_repr a record w = (w', Ok (Some PASS_EXIT)) → by_broker a.
Proof.
  intros Hm E. unfold use_broker in E. unfold by_broker, cli_command.
  destruct (a_status a), (a_bootloader a), (a_reboot a); try done; io_inv;
    (eexists; first [eapply broker_status_pass|eapply broker_restart_pass]; eassumption).
Qed.

Lemma hid_control_pass operation sequence timeout serial (w w' : W) identity :
  send_hid_runtime_control fuel operation sequence timeout serial w = (w', Ok (Some identity)) →
  ∃ w1 w2 report reply, hid_read (MESSAGE_SIZE + 1) w1 = (w2, Ok report) ∧ received report reply
    ∧ acknowledges operation sequence reply.
Proof.
  unfold send_hid_runtime_control. intros E. io_inv. rename select (control_and_close _ _ _ _ _ _ = _) into Hc.
  unfold control_and_close in Hc. destruct (exchange_hid_runtime_control _ _ _ _ _) as [w1 r] eqn:Hx.
  assert (∃ reply, r = Ok (Some reply)) as [reply ->] by (repeat case_match; naive_solver).
  apply control_genuine in Hx as (? & ? & ? & ? & ? & ?). by eexists _, _, _, _.
Qed.

Lemma restart_hid_pass a (w w' : W) code :
  restart_hid fuel float_repr a w = (w', Ok (Some (Some code))) → by_hid a.
Proof.
  unfold restart_hid. cbv zeta. intros E. io_inv. rename select (catch_classes _ _ _ _ = _) into Hc.
  apply catch_ok in Hc as [Hc|(? & ? & ? & _ & _ & Hc)]; io_inv.
  rename select (option document) into identity. destruct identity; io_inv. by eapply hid_control_pass.
Qed.

Lemma port_command_pass name request done (w w' : W) :
  port_command name request done w = (w', Ok (Some PASS_EXIT)) →
  ∃ w1 w2 evidence, request w1 = (w2, Ok (Some evidence)).
Proof.
  unfold port_command. intros E. io_inv. rename select (option (option _)) into outcome.
  destruct outcome as [[evidence|]|]; io_inv. rename select (with_port _ _ _ = _) into Hp. unfold with_port in Hp.
  destruct (open_port name _) as [w1 [[]|e]].
  - destruct ((set_dtr ≫= _) w1) as [w2 r] eqn:Hr. destruct r as [r|e]; [|destruct (os_runtime_error e)].
    all: unfold complain, mbind, io_bind, modify, mret, io_ret, raise in Hp; cbn in Hp.
    all: destruct (close_port _) as [? [|[]]]; simplify_eq/=.
    all: io_inv; by eexists _, _, _.
  - destruct (os_runtime_error e); io_inv.
Qed.

Lemma use_ports_pass a (w w' : W) :
  (a_status a || a_bootloader a || a_reboot a) = true →
  use_ports fuel a w = (w', Ok (Some PASS_EXIT)) → by_cdc a.
Proof.
  intros Hm E. unfold use_ports in E. io_inv. rename select (_ + string)%type into resolved.
  destruct resolved as [[port auto_port]|]; io_inv. unfold by_cdc.
  unfold request_status, request_bootloader, request_reboot_cdc in *.
  destruct (a_status a); [|destruct (a_bootloader a); [|destruct (a_reboot a); [|done]]]; io_inv;
    (rename select (port_command _ _ _ _ = _) into Hp; apply port_command_pass in Hp as (w1 & w2 & evidence & Hr);
     exists w1, w2, evidence; split; [exact Hr|]).
  - by eapply status_framed.
  - by eapply cdc_request_acknowledged.
  - by eapply cdc_request_acknowledged.
Qed.

(** C8: a one-shot command that exits with the pass code is certified: a broker
    answered this command with success, or the device acknowledged the restart in
    a HID report with the operation and sequence of the request, or the CDC
    stream held the complete status block or the acknowledgement. *)
Theorem cli_pass_certified a (w w' : W) :
  cli_main fuel float_repr a w = (w', Ok (Some PASS_EXIT)) →
  (a_status a || a_bootloader a || a_reboot a) = true → a_list a = false →
  by_broker a ∨ (a_bootloader a || a_reboot a = true ∧ by_hid a) ∨ by_cdc a.
Proof.
  intros E Hm Hl. unfold cli_main in E. rewrite Hl in E. io_inv. rename select (option string) into missing.
  destruct missing; io_inv. destruct (argument_error a); io_inv.
  rename select (_ + string)%type into selected. destruct selected as [[record|]|]; io_inv.
  - left. by eapply use_broker_pass.
  - right. rename select (use_device _ _ _ _ = _) into Hu. unfold use_device in Hu. io_inv.
    rename select (option (option Z)) into ended. destruct ended as [code|]; io_inv.
    + left. destruct (a_bootloader a || a_reboot a); io_inv. split; [done|]. by eapply restart_hid_pass.
    + right. by eapply use_ports_pass.
Qed.
End certified.

(** ** A desk with one device *)

Record desk := mkDesk {
  k_brokers : list BrokerRecord;
  k_reports : list bytes;        (** what the device sends after a write *)
  k_opens : bool;                (** whether the HID interface can be opened *)
  k_touched : list string;       (** what was done to the device *)
  k_said : list string;
}.
Definition touch (what : string) (k : desk) : desk :=
  mkDesk (k_brokers k) (k_reports k) (k_opens k) (k_touched k ++ [what]) (k_said k).
Definition desk_read (k : desk) : desk * result bytes :=
  match k_reports k with
  | report :: rest =>
      if str_in "hid write" (k_touched k)
      then (mkDesk (k_brokers k) rest (k_opens k) (k_touched k) (k_said k), Ok report) else (k, Ok [])
  | [] => (k, Ok [])
  end.

#[local] Instance desk_serial : SerialWorld desk := {|
  serial_write := λ b k, (touch "cdc write" k, Ok tt);
  serial_flush := mret tt;
  serial_read := λ n k, (k, Ok REBOOT_ACK);
  serial_monotonic := λ k, (k, 0);
  serial_sleep := λ _ k, k;
|}.
#[local] Instance desk_port : SerialPort desk := {|
  open_port := λ _ k, (touch "cdc open" k, Ok tt);
  set_dtr := mret tt;
  close_port := mret tt;
  emit := λ _ text k, mkDesk (k_brokers k) (k_reports k) (k_opens k) (k_touched k) (k_said k ++ [text]);
|}.
#[local] Instance desk_hid : HidWorld desk := {|
  hid_read := λ _, desk_read;
  hid_write := λ b k, (touch "hid write" k, Ok (len b));
  monotonic := λ k, (k, 0);
  service_transport := mret None;
  sleep := λ _ k, k;
|}.
#[local] Instance desk_usb : UsbHost desk := {|
  serial_installed := λ _, true;
  hid_installed := λ _, true;
  hid_enumerate := mret [mkHid USB_VID USB_PID None (Some "RP86-1"%string) None None None None];
  open_path := λ _ k, if k_opens k then (touch "hid open" k, Ok tt) else (k, Raise (OSError "open failed"));
|}.
#[local] Instance desk_cli : CliWorld desk := {|
  close_hid := mret tt;
  comports := mret [mkPort (Some USB_VID) (Some USB_PID) "COM7" (Some "RP86-1"%string) None];
  cli_discover := gets k_brokers;
  broker_hello := λ _ _, mret [("ok"%string, JBool true)];
  broker_command := λ _ _ _ _ _, mret [("ok", JBool true); ("evidence_hex", JStr "")]%string;
  run_session := λ _ k, (touch "session" k, Ok (Some VALIDATION_EXIT));
  getpid := λ _, 7;
  path_is_file := λ _ _, true;
  fold_case := str_lower;
  dumps_list := λ _, EmptyString;
|}.

Definition desk_left_alone (k k' : desk) : Prop := k_touched k = k_touched k' ∧ k_brokers k = k_brokers k'.
#[local] Instance desk_bystander : Bystander desk_left_alone.
Proof.
  split; try by intros; split.
  split; [by intros k|]. intros k1 k2 k3 [??] [??]. split; congruence.
Qed.

Definition reboot_args : cli_args :=
  mkCliArgs false None false true false false None 1 five_seconds (Some "RP86-1"%string) "auto" "logs" false false false
    five_seconds five_seconds 0 "live" false.
Definition reboot_ack : bytes :=
  match encode (mkMessage TYPE_RUNTIME_STATUS 1 [byte.of_Z RUNTIME_CONTROL_REBOOT] 0 STATUS_OK PROTOCOL_VERSION) with
  | Ok b => b
  | Raise _ => []
  end.
Definition desk_of (brokers : list BrokerRecord) (opens : bool) : desk := mkDesk brokers [reboot_ack] opens [] [].
Definition owner : BrokerRecord := mkBrokerRecord "RP86-1" 4000 4001 99 "auto".
Abbreviation desk_main := (cli_main 10 (λ _, EmptyString) reboot_args).

(** With an active owner a reboot passes and the device is left alone. *)
Example cli_defers_witness :
  ∃ k', desk_main (desk_of [owner] true) = (k', Ok (Some PASS_EXIT)) ∧ k_touched k' = [].
Proof.
  destruct (desk_main (desk_of [owner] true)) as [k' r] eqn:E. exists k'.
  assert (r = Ok (Some PASS_EXIT)) as -> by (by vm_compute in E; simplify_eq).
  split; [done|].
  destruct (cli_defers 10 (λ _, EmptyString) desk_left_alone _ _ _ _ E)
    as [[Ht _]|[(w1 & record & _ & Hr)|(w0 & w1 & hint & records & [_ Hb] & Hd & Hh & Hn & _)]].
  - by rewrite <- Ht.
  - done.
  - injection Hd as <- <-. cbn in Hb.
    destruct (Hn owner) as (d & Hd & Hne); [rewrite <- Hb; left|]. rewrite (Hh _ eq_refl) in Hd. by injection Hd as <-.
Defined.

(** Without an owner it passes because the device acknowledged it. *)
Example cli_pass_certified_witness :
  ∃ k', desk_main (desk_of [] true) = (k', Ok (Some PASS_EXIT))
    ∧ (by_broker reboot_args ∨ (a_bootloader reboot_args || a_reboot reboot_args = true ∧ by_hid reboot_args)
       ∨ by_cdc 10 reboot_args).
Proof.
  destruct (desk_main (desk_of [] true)) as [k' r] eqn:E. exists k'.
  assert (r = Ok (Some PASS_EXIT)) as -> by (by vm_compute in E; simplify_eq).
  split; [done|]. by apply (cli_pass_certified 10 (λ _, EmptyString) reboot_args (desk_of [] true) k' E).
Defined.

(** A HID interface that cannot be opened ends the command with a traceback: the
    CDC fallback is only taken after a [RuntimeError]. *)
Example hid_open_failure_escapes :
  (desk_main (desk_of [] false)).2 = Raise (OSError "open failed").
Proof. vm_compute. reflexivity. Qed.
