(* ===== verification/Package.v ===== *)
(** * The workload packager (scripts/package_workload.py)

    [build_package] reads the JSON description of a workload and its flat image
    and builds the P86W file; [package_main] writes it.  The files and the
    terminal are the class [PackageWorld]; [json_loads] is [json.loads] and
    [float_repr] the text of a float in a message.

    The theorem says that a package that was written reads back as the image and
    a sound manifest that holds exactly what the description asks for. *)

From S2P Require Import Prelude Struct PyText Json Workload.
From Stdlib Require Import Ascii SpecFloat.

Definition FLAG_NAMES : list (string * Z) :=
  [("persistent", FLAG_PERSISTENT); ("stdio", FLAG_STDIO); ("shared-memory", FLAG_SHARED_MEMORY);
   ("periodic-tick", FLAG_PERIODIC_TICK)]%string.
Definition CLOCK_FLAGS : list (string * Z) :=
  [("auto", 0); ("free-running", FLAG_CLOCK_FREE_RUNNING); ("clock-stepped", FLAG_CLOCK_STEPPED)]%string.

(** [for name in x] *)
Definition elements (j : json) : result (list json) :=
  match j with
  | JList l => Ok l
  | JObj d => Ok (map (λ x, JStr x.1) d)
  | JStr s => Ok (map (λ c, JStr (String c EmptyString)) (String.list_ascii_of_string s))
  | _ => Raise (TypeError (py_repr (type_name j) +:+ " object is not iterable"))
  end.

Section package.
Context (float_repr : spec_float → string) (json_loads : bytes → result json).

(** [table[key]] for a key read from the file *)
Definition table_get (table : list (string * Z)) (key : json) : result Z :=
  match key with
  | JStr s => match str_get s table with Some v => Ok v | None => Raise (KeyError (py_repr s)) end
  | JList _ | JObj _ => Raise (TypeError ("unhashable type: " +:+ py_repr (type_name key)))
  | _ => Raise (KeyError (jrepr float_repr key))
  end.

Definition _number (value : json) (field : string) : result Z :=
  match value with
  | JInt z => Ok z
  | JBool b => Ok (if b then 1 else 0)
  | JStr s => on_value_error (py_int 0 s) (field +:+ " is not an integer: " +:+ py_repr s)
  | _ => Raise (ValueError (field +:+ " must be an integer or numeric string"))
  end.

(** [parse_far_pointer] of a value that need not be a string *)
Definition far_pointer (value : json) : result (Z * Z) :=
  match value with JStr s => parse_far_pointer s | _ => Raise AttributeError end.

(** [FLAG_NAMES[name]], with its [KeyError] reported *)
Definition named_flag (name : json) : result Z :=
  match table_get FLAG_NAMES name with
  | Raise (KeyError _) => Raise (ValueError ("unknown workload flag: " +:+ jrepr float_repr name))
  | r => r
  end.

Fixpoint add_flags (flags : Z) (names : list json) : result Z :=
  match names with
  | [] => Ok flags
  | name :: names =>
      flag ← named_flag name;
      add_flags (Z.lor flags flag) names
  end.

(** [shared[key]] *)
Definition shared_item (shared : json) (key : string) : result json :=
  match shared with
  | JObj d => jitem key d
  | JList _ => Raise (TypeError "list indices must be integers or slices, not str")
  | JStr _ => Raise (TypeError "string indices must be integers, not 'str'")
  | _ => Raise (TypeError (py_repr (type_name shared) +:+ " object is not subscriptable"))
  end.

(** The shared range and the flags with its own *)
Definition shared_range (metadata : document) (flags : Z) : result (Z * Z * Z) :=
  match jget "shared_memory" metadata with
  | JNull => Ok (0, 0, flags)
  | shared =>
      base ← shared_item shared "base";
      shared_base ← _number base "shared_memory.base";
      size ← shared_item shared "size";
      shared_size ← _number size "shared_memory.size";
      Ok (shared_base, shared_size, Z.lor flags FLAG_SHARED_MEMORY)
  end.

(** The package of a description that is an object of the right format *)
Definition package_of (metadata : document) (image : bytes) : result bytes :=
  entry ← jitem "entry" metadata;
  '(entry_segment, entry_offset) ← far_pointer entry;
  '(stack_segment, stack_offset) ← far_pointer (default (JStr "0000:0000") (str_get "stack" metadata));
  clock ← table_get CLOCK_FLAGS (default (JStr "auto") (str_get "clock" metadata));
  names ← elements (default (JList []) (str_get "flags" metadata));
  flags ← add_flags clock names;
  '(shared_base, shared_size, flags) ← shared_range metadata flags;
  address ← jitem "load_address" metadata;
  load_address ← _number address "load_address";
  manifest ← for_image image load_address entry_segment entry_offset stack_segment stack_offset
               shared_base shared_size flags;
  encode_workload_file manifest image.

Class PackageWorld (W : Type) := {
  pk_read : string → io W bytes;             (** [read_text] and [read_bytes] *)
  pk_mkdir : string → io W unit;             (** [path.parent.mkdir(parents=True, exist_ok=True)] *)
  pk_write : string → bytes → io W unit;
  pk_print : string → W → W;
  pk_name : string → string;                 (** [Path(path).name] *)
}.

Section world.
Context {W : Type} `{PackageWorld W}.

Definition build_package (metadata_path image_path : string) : io W bytes :=
  text ← pk_read metadata_path;
  metadata ← lift (json_loads text);
  match metadata with
  | JObj metadata =>
      if negb (json_eqb (jget "format" metadata) (JStr "p86w-v1"))
      then raise (ValueError "metadata format must be p86w-v1") else
      image ← pk_read image_path;
      lift (package_of metadata image)
  | _ => raise AttributeError
  end.

Definition package_main (metadata_path image_path output : string) : io W Z :=
  package ← build_package metadata_path image_path;
  _ ← pk_mkdir output;
  _ ← pk_write output package;
  _ ← modify (pk_print ("P86W " +:+ pk_name output +:+ ": " +:+ dec (len package) +:+ " bytes"));
  mret 0.
End world.

(** ** What the description asks for *)

(** [name] is among the flags of the description. *)
Definition names_flag (metadata : document) (name : string) : Prop :=
  ∃ names, elements (default (JList []) (str_get "flags" metadata)) = Ok names ∧ JStr name ∈ names.

Record describes (metadata : document) (m : WorkloadManifest) : Prop := {
  desc_load : ∃ v, str_get "load_address" metadata = Some v ∧ _number v "load_address" = Ok (load_address m);
  desc_entry : ∃ v, str_get "entry" metadata = Some v ∧ far_pointer v = Ok (entry_segment m, entry_offset m);
  desc_stack : far_pointer (default (JStr "0000:0000") (str_get "stack" metadata)) = Ok (stack_segment m, stack_offset m);
  desc_shared :
    (jget "shared_memory" metadata = JNull ∧ shared_base m = 0 ∧ shared_size m = 0)
    ∨ ∃ base size, shared_item (jget "shared_memory" metadata) "base" = Ok base
        ∧ shared_item (jget "shared_memory" metadata) "size" = Ok size
        ∧ _number base "shared_memory.base" = Ok (shared_base m)
        ∧ _number size "shared_memory.size" = Ok (shared_size m);
  desc_persistent : Z.testbit (m_flags m) 0 = true ↔ names_flag metadata "persistent";
  desc_stdio : Z.testbit (m_flags m) 1 = true ↔ names_flag metadata "stdio";
  desc_shared_flag :
    Z.testbit (m_flags m) 2 = true ↔ names_flag metadata "shared-memory" ∨ jget "shared_memory" metadata ≠ JNull;
  desc_free : Z.testbit (m_flags m) 3 = true ↔ str_get "clock" metadata = Some (JStr "free-running");
  desc_stepped : Z.testbit (m_flags m) 4 = true ↔ str_get "clock" metadata = Some (JStr "clock-stepped");
  desc_tick : Z.testbit (m_flags m) 5 = true ↔ names_flag metadata "periodic-tick";
}.

(** ** Proofs *)

Lemma jitem_ok key d v : jitem key d = Ok v → str_get key d = Some v.
Proof. unfold jitem. destruct (str_get key d); [by intros [= ->]|done]. Qed.

(** The flag a name stands for *)
Definition flag_of (name : json) : Z :=
  match name with JStr s => default 0 (str_get s FLAG_NAMES) | _ => 0 end.

Lemma add_flags_bits flags names r i :
  add_flags flags names = Ok r →
  Z.testbit r i = Z.testbit flags i || existsb (λ name, Z.testbit (flag_of name) i) names.
Proof.
  revert flags. induction names as [|name names IH]; intros flags E; cbn [add_flags] in E.
  - simplify_eq. cbn. by rewrite orb_false_r.
  - destruct (named_flag name) as [flag|] eqn:Hf; [|done]. cbn [mbind result_bind] in E.
    rewrite (IH _ E), Z.lor_spec. cbn [existsb].
    assert (flag_of name = flag) as ->; [|by rewrite <- orb_assoc].
    unfold named_flag, table_get in Hf. unfold flag_of. destruct name; try done. by destruct (str_get s FLAG_NAMES); simplify_eq/=.
Qed.

Lemma flag_values name : In (flag_of name) [0; 1; 2; 4; 32].
Proof.
  unfold flag_of, str_get, FLAG_NAMES. destruct name as [| | | |s| | |]; try (by left). cbn [find fst snd].
  destruct (String.eqb s "persistent"), (String.eqb s "stdio"), (String.eqb s "shared-memory"), (String.eqb s "periodic-tick");
    cbn; tauto.
Qed.

(** A bit that only one name sets *)
Lemma names_bit names i key :
  (∀ s, Z.testbit (flag_of (JStr s)) i = String.eqb s key) →
  existsb (λ name, Z.testbit (flag_of name) i) names = true ↔ JStr key ∈ names.
Proof.
  intros Hk. rewrite existsb_exists. split.
  - intros (name & Hin & Hb). apply list_elem_of_In in Hin. destruct name as [| | | |s| | |];
      try (cbn in Hb; by rewrite Z.bits_0 in Hb). cbv beta in Hb. rewrite Hk in Hb. by apply String.eqb_eq in Hb as ->.
  - intros Hin. apply list_elem_of_In in Hin. exists (JStr key). split; [done|]. by rewrite Hk, String.eqb_refl.
Qed.

Lemma flag_bit i key v : In (i, key, v) [(0, "persistent", 1); (1, "stdio", 2); (2, "shared-memory", 4); (5, "periodic-tick", 32)]%string →
  ∀ s, Z.testbit (flag_of (JStr s)) i = String.eqb s key.
Proof.
  intros Hin s. unfold flag_of, str_get, FLAG_NAMES. cbn [find fst snd].
  destruct (String.eqb_spec s "persistent") as [->|?]; [|destruct (String.eqb_spec s "stdio") as [->|?];
    [|destruct (String.eqb_spec s "shared-memory") as [->|?]; [|destruct (String.eqb_spec s "periodic-tick") as [->|?]]]];
    cbn in Hin; destruct Hin as [|[|[|[|[]]]]]; simplify_eq/=; try done; symmetry; by apply String.eqb_neq.
Qed.

Lemma clock_cases v clock : table_get CLOCK_FLAGS v = Ok clock →
  (v = JStr "auto" ∧ clock = 0) ∨ (v = JStr "free-running" ∧ clock = 8) ∨ (v = JStr "clock-stepped" ∧ clock = 16).
Proof.
  unfold table_get, str_get, CLOCK_FLAGS. destruct v; try done. cbn [find fst snd].
  destruct (String.eqb_spec s "auto") as [->|?]; [cbn; intros [= <-]; by left|].
  destruct (String.eqb_spec s "free-running") as [->|?]; [cbn; intros [= <-]; by right; left|].
  destruct (String.eqb_spec s "clock-stepped") as [->|?]; [cbn; intros [= <-]; by right; right|done].
Qed.

Lemma clock_bits metadata clock :
  table_get CLOCK_FLAGS (default (JStr "auto") (str_get "clock" metadata)) = Ok clock →
  (Z.testbit clock 3 = true ↔ str_get "clock" metadata = Some (JStr "free-running"))
  ∧ (Z.testbit clock 4 = true ↔ str_get "clock" metadata = Some (JStr "clock-stepped"))
  ∧ Forall (λ i, Z.testbit clock i = false) [0; 1; 2; 5].
Proof.
  intros E. apply clock_cases in E as [[Hv ->]|[[Hv ->]|[Hv ->]]];
    destruct (str_get "clock" metadata) as [v|]; cbn in Hv; simplify_eq; split_and!; try done; by repeat constructor.
Qed.

Lemma shared_range_spec metadata flags base size r :
  shared_range metadata flags = Ok (base, size, r) →
  (jget "shared_memory" metadata = JNull ∧ base = 0 ∧ size = 0 ∧ r = flags)
  ∨ (jget "shared_memory" metadata ≠ JNull ∧ r = Z.lor flags FLAG_SHARED_MEMORY
     ∧ ∃ b n, shared_item (jget "shared_memory" metadata) "base" = Ok b
        ∧ shared_item (jget "shared_memory" metadata) "size" = Ok n
        ∧ _number b "shared_memory.base" = Ok base ∧ _number n "shared_memory.size" = Ok size).
Proof.
  unfold shared_range. destruct (jget "shared_memory" metadata) as [| | | | | |d|] eqn:Hj; intros E; py_inv; try done; [by left|].
  right. split; [done|]. split; [done|]. by eexists _, _.
Qed.

(** The flags of the description, bit by bit *)
Lemma flags_spec metadata clock names flags base size r :
  table_get CLOCK_FLAGS (default (JStr "auto") (str_get "clock" metadata)) = Ok clock →
  elements (default (JList []) (str_get "flags" metadata)) = Ok names → add_flags clock names = Ok flags →
  shared_range metadata flags = Ok (base, size, r) →
  (Z.testbit r 0 = true ↔ names_flag metadata "persistent") ∧ (Z.testbit r 1 = true ↔ names_flag metadata "stdio")
  ∧ (Z.testbit r 2 = true ↔ names_flag metadata "shared-memory" ∨ jget "shared_memory" metadata ≠ JNull)
  ∧ (Z.testbit r 3 = true ↔ str_get "clock" metadata = Some (JStr "free-running"))
  ∧ (Z.testbit r 4 = true ↔ str_get "clock" metadata = Some (JStr "clock-stepped"))
  ∧ (Z.testbit r 5 = true ↔ names_flag metadata "periodic-tick").
Proof.
  intros Hc Hn Hf Hs. apply clock_bits in Hc as (H3 & H4 & H0). rewrite !Forall_cons in H0.
  assert (∀ i key v, In (i, key, v) [(0, "persistent", 1); (1, "stdio", 2); (2, "shared-memory", 4); (5, "periodic-tick", 32)]%string →
    existsb (λ name, Z.testbit (flag_of name) i) names = true ↔ names_flag metadata key) as Hb.
  { intros i key v Hin. rewrite (names_bit _ _ key (flag_bit _ _ _ Hin)). unfold names_flag. rewrite Hn. naive_solver. }
  assert (∀ i, In i [3; 4] → existsb (λ name, Z.testbit (flag_of name) i) names = false) as Hz.
  { intros i Hi. apply not_true_iff_false. rewrite existsb_exists. intros (name & _ & Ht).
    pose proof (flag_values name) as Hv. cbn in Hv, Hi. destruct Hi as [<-|[<-|[]]];
      destruct Hv as [Hv|[Hv|[Hv|[Hv|[Hv|[]]]]]]; by rewrite <- Hv in Ht. }
  assert (∀ i, 0 <= i → Z.testbit r i = true ↔ Z.testbit flags i = true ∨ i = 2 ∧ jget "shared_memory" metadata ≠ JNull) as Hr.
  { intros i Hi. apply shared_range_spec in Hs as [(Hj & _ & _ & ->)|(Hj & -> & _)]; [naive_solver|].
    rewrite Z.lor_spec, orb_true_iff. change FLAG_SHARED_MEMORY with (2 ^ 2). rewrite Z.pow2_bits_eqb, Z.eqb_eq by lia.
    split; [intros [?|<-]; [by left|by right]|intros [?|[-> _]]; [by left|by right]]. }
  destruct H0 as (Z0 & Z1 & Z2 & Z5 & _).
  rewrite !Hr, !(add_flags_bits _ _ _ _ Hf), Z0, Z1, Z2, Z5, !orb_true_iff, (Hz 3), (Hz 4) by (cbn; lia || tauto).
  rewrite (Hb 0 "persistent"%string 1), (Hb 1 "stdio"%string 2), (Hb 2 "shared-memory"%string 4),
    (Hb 5 "periodic-tick"%string 32) by (cbn; tauto).
  clear -H3 H4. split_and!; split; naive_solver.
Qed.

Lemma package_of_spec metadata image package :
  package_of metadata image = Ok package →
  ∃ m, decode_workload_file package = Ok (m, image) ∧ manifest_sound m ∧ describes metadata m.
Proof.
  unfold package_of, for_image. intros E. py_inv.
  rename select (validated _ = Ok _) into Hv. apply validated_ok in Hv as [-> Hm].
  rename select (encode_workload_file _ _ = Ok _) into He. apply decode_file_ok in He.
  rename select (shared_range _ _ = Ok _) into Hs. rename select (add_flags _ _ = Ok _) into Hf.
  rename select (elements _ = Ok _) into Hn. rename select (table_get _ _ = Ok _) into Hc.
  destruct (flags_spec _ _ _ _ _ _ _ Hc Hn Hf Hs) as (? & ? & ? & ? & ? & ?).
  eexists. split; [exact He|]. split; [exact Hm|].
  split; cbn [load_address entry_segment entry_offset stack_segment stack_offset shared_base shared_size m_flags];
    try done.
  - eexists. split; [by apply jitem_ok|done].
  - eexists. split; [by apply jitem_ok|done].
  - apply shared_range_spec in Hs as [(? & -> & -> & _)|(_ & _ & Hs)]; [by left|by right].
Qed.

(** a package that was written reads back, by the decoder of the Host, as the
    image of the image file and a sound manifest that holds what the description
    asks for: load address, entry, stack and shared range, and of the flags
    exactly those that are named, the clock mode and the shared-memory flag of a
    shared range. *)
Theorem package_described {W} `{PackageWorld W} metadata_path image_path output (w w' : W) :
  package_main metadata_path image_path output w = (w', Ok 0) →
  ∃ w1 w2 w3 w4 text metadata image package m,
    pk_read metadata_path w = (w1, Ok text) ∧ json_loads text = Ok (JObj metadata)
    ∧ jget "format" metadata = JStr "p86w-v1" ∧ pk_read image_path w1 = (w2, Ok image)
    ∧ pk_write output package w3 = (w4, Ok tt)
    ∧ decode_workload_file package = Ok (m, image) ∧ manifest_sound m ∧ describes metadata m.
Proof.
  unfold package_main, build_package. intros E. io_inv.
  rename select json into j. destruct j as [| | | | | |metadata|]; io_inv.
  destruct (json_eqb _ _) eqn:Hfmt; cbn [negb] in *; io_inv.
  assert (jget "format" metadata = JStr "p86w-v1") as Hj.
  { destruct (jget "format" metadata); try done. by apply String.eqb_eq in Hfmt as ->. }
  rename select (package_of _ _ = Ok _) into Hp. apply package_of_spec in Hp as (m & Hd & Hm & Hdesc).
  rename select unit into u. destruct u. by eexists _, _, _, _, _, _, _, _, m.
Qed.
End package.

(** ** A shelf of files *)

Record shelf := mkShelf { sh_files : list (string * bytes); sh_printed : list string }.
#[local] Instance shelf_world : PackageWorld shelf := {|
  pk_read := λ path s, (s, match str_get path (sh_files s) with Some b => Ok b | None => Raise (OSError path) end);
  pk_mkdir := λ _, mret tt;
  pk_write := λ path b s, (mkShelf ((path, b) :: sh_files s) (sh_printed s), Ok tt);
  pk_print := λ text s, mkShelf (sh_files s) (sh_printed s ++ [text]);
  pk_name := λ path, path;
|}.

Definition description : document :=
  [("format", JStr "p86w-v1"); ("load_address", JStr "0x10000"); ("entry", JStr "1000:0000");
   ("clock", JStr "clock-stepped"); ("flags", JList [JStr "stdio"; JStr "periodic-tick"]);
   ("shared_memory", JObj [("base", JInt 0x30000); ("size", JStr "0x100")])]%string.
Definition sample_shelf : shelf := mkShelf [("m.json", []); ("m.bin", sample_image)]%string [].

Example package_described_witness :
  ∃ s', package_main (λ _, EmptyString) (λ _, Ok (JObj description)) "m.json" "m.bin" "m.P86W" sample_shelf = (s', Ok 0)
    ∧ ∃ package m, decode_workload_file package = Ok (m, sample_image) ∧ manifest_sound m
        ∧ describes description m.
Proof.
  destruct (package_main _ _ _ _ _ sample_shelf) as [s' r] eqn:E. exists s'.
  assert (r = Ok 0) as -> by (by vm_compute in E; simplify_eq). split; [done|].
  destruct (package_described _ _ _ _ _ _ _ E) as (w1 & w2 & w3 & w4 & text & metadata & image & package & m & Hr & Hj & _ & Hi & _ & Hd & Hm & Hs).
  injection Hj as <-. injection Hr as <- _.
  assert (image = sample_image) as ->
    by exact (eq_sym (f_equal (λ x, match snd x with Ok b => b | Raise _ => [] end) Hi)).
  exists package, m. exact (conj Hd (conj Hm Hs)).
Defined.

(** A negative shared size is accepted by the checks and fails in [struct]. *)
Example negative_shared_size :
  package_of (λ _, EmptyString)
    (jset "shared_memory" (JObj [("base", JInt 0x30000); ("size", JInt (-1))]%string) description) sample_image
  = Raise StructError.
Proof. vm_compute. reflexivity. Qed.
