(* ===== verification/StatusTool.v ===== *)
(** * The telemetry command (tools/diagnostics/freertos_status.py)

    The command reads one or more stable telemetry snapshots of a FreeRTOS
    workload through the active broker, and can judge whether the system made
    progress.  The broker, the files, the clock and the terminal are the class
    [StatusWorld]; its memory reader is the [ReadMemory] of [Telemetry].  A
    [TimeoutError] of the RPC is the right side of [st_exchange], since the
    command treats it unlike the other operating system errors.

    The theorem says what a passing progress check certifies. *)

From S2P Require Import Prelude Struct PyText Json Protocol Core Memory Broker Telemetry WebApi StartWorkload.
From Stdlib Require Import SpecFloat.

Class StatusWorld (W : Type) := {
  st_discover : io W (list BrokerRecord);
  st_exchange : BrokerRecord → string → bytes → string → spec_float → io W (document + string);
  st_read_text : string → io W string;           (** [read_text(encoding="utf-8", errors="replace")] *)
  st_random31 : W → W * Z;                       (** [secrets.randbits(31)] *)
  st_local_time : W → W * (string * Z * string); (** date and time, microsecond, UTC offset *)
  st_sleep : spec_float → W → W;
  st_print : bool → string → W → W;              (** true: the error stream *)
  st_pid : W → Z;
}.

Record status_args := mkStatusArgs {
  ta_address : option Z;
  ta_map : option string;
  ta_port_trace : bool;
  ta_serial : option string;
  ta_timeout : spec_float;
  ta_samples : Z;
  ta_interval : spec_float;
  ta_verify : bool;
}.

Definition _parse_address (value : string) : result Z := on_value_error (py_int 0 value) ("invalid address: " +:+ value).

Definition status_argument_error (a : status_args) : option string :=
  if Bool.eqb (bool_decide (ta_address a = None)) (bool_decide (ta_map a = None))
  then Some "supply exactly one of ADDRESS or --map FILE"%string
  else if ta_port_trace a && bool_decide (ta_map a = None) then Some "--port-trace requires --map FILE"%string
  else if ta_samples a <? 1 then Some "--samples must be at least 1"%string
  else if SFltb (ta_interval a) fzero then Some "--interval must not be negative"%string
  else if ta_verify a && (ta_samples a <? 2) then Some "--verify-progress requires at least two samples"%string
  else None.

(** The world, the broker and the request counter of the reader *)
Record reader (W : Type) := mkReader {
  rd_world : W;
  rd_broker : BrokerRecord;
  rd_client : string;
  rd_timeout : spec_float;
  rd_sequence : Z;
}.
Arguments mkReader {W}.
Arguments rd_world {W}.
Arguments rd_broker {W}.
Arguments rd_client {W}.
Arguments rd_timeout {W}.
Arguments rd_sequence {W}.

Section tool.
Context (float_repr : spec_float → string).
Context {W : Type} `{StatusWorld W}.
Abbreviation reading := (io (reader W)).

Definition on_world {A} (m : io W A) : reading A := λ r,
  let '(w, a) := m (rd_world r) in (mkReader w (rd_broker r) (rd_client r) (rd_timeout r) (rd_sequence r), a).
Definition next_request (r : reader W) : reader W :=
  mkReader (rd_world r) (rd_broker r) (rd_client r) (rd_timeout r) (or_one (mask32 (rd_sequence r + 1))).

Definition _observation_timestamp : io W string :=
  '(stamp, microsecond, offset) ← total st_local_time;
  let offset := if (String.length offset =? 5)%nat
                then str_take 3 offset +:+ ":" +:+ String.substring 3 2 offset else offset in
  mret (stamp +:+ "." +:+ dec3 (microsecond / 1000) +:+ " " +:+ offset).

(** [except (KeyError, ValueError) as exc] *)
Definition key_value_error (e : exn) : option string :=
  match e with KeyError text | ValueError text => Some text | _ => None end.

(** The inner function [read_memory]; a [TimeoutError] is the left side. *)
Definition read_block (address length : Z) : reading (string + bytes) :=
  sequence ← gets rd_sequence;
  request ← lift (memory_read_request address length sequence);
  _ ← modify next_request;
  encoded ← lift (encode request);
  record ← gets rd_broker;
  client ← gets rd_client;
  timeout ← gets rd_timeout;
  answer ← on_world (st_exchange record client encoded ("telemetry-" +:+ dec sequence) timeout);
  match answer with
  | inr text => mret (inl text)
  | inl response =>
      if negb (jtruthy (jget "ok" response))
      then raise (RuntimeError (jstr_or float_repr (jget "error" response) "broker exchange failed")) else
      data ← catch_classes key_value_error
               (reply ← lift (decode_reply float_repr response);
                lift (parse_memory_read reply request))
               (λ exc, raise (RuntimeError ("invalid broker memory reply: " +:+ exc)));
      mret (inr data)
  end.

(** The command handles [TimeoutError] as it handles [RuntimeError]: it ends the
    same way, with the same text. *)
#[export] Instance reader_memory : ReadMemory (reader W) := {|
  Telemetry.read_memory := λ address length,
    r ← read_block address length;
    match r with inl text => raise (RuntimeError text) | inr data => mret data end;
|}.

Definition out (text : string) : reading unit := on_world (modify (st_print false text)).
Definition stamped (text : string) : reading unit :=
  stamp ← on_world _observation_timestamp;
  out ("[" +:+ stamp +:+ "] " +:+ text).

(** [for index in range(samples)] *)
Fixpoint take_samples (more : nat) (index samples address : Z) (interval : spec_float)
  : reading (list FreeRTOSSystemTelemetry) :=
  match more with
  | O => mret []
  | S more =>
      snapshot ← read_stable_telemetry address 5;
      _ ← (if 1 <? samples then out ("Sample " +:+ dec (index + 1) +:+ "/" +:+ dec samples) else mret tt);
      _ ← stamped (telemetry_format snapshot (Some address));
      _ ← (if index + 1 <? samples then _ ← out EmptyString; on_world (modify (st_sleep interval)) else mret tt);
      snapshots ← take_samples more (index + 1) samples address interval;
      mret (snapshot :: snapshots)
  end.

Definition show_port_trace (address : option Z) : reading unit :=
  match address with
  | None => mret tt
  | Some address =>
      _ ← out EmptyString;
      trace ← read_port_trace address;
      stamped (port_trace_format trace (Some address))
  end.

(** The addresses and the broker, or the reported failure *)
Definition status_setup (a : status_args) : io W ((Z * option Z * option BrokerRecord) + string) :=
  catch_classes os_runtime_value_error
    ('(address, trace) ←
       match ta_map a with
       | None => mret (default 0 (ta_address a), None)
       | Some path =>
           map_text ← st_read_text path;
           address ← lift (telemetry_address_from_map map_text);
           trace ← (if ta_port_trace a then t ← lift (port_trace_address_from_map map_text); mret (Some t)
                    else mret None);
           mret (address, trace)
       end;
     records ← st_discover;
     record ← lift (select_broker records (ta_serial a));
     mret (inl (address, trace, record)))
    (λ exc, mret (inr exc)).

Definition judge_progress (snapshots : list FreeRTOSSystemTelemetry) : reading Z :=
  match snapshots, last snapshots with
  | first :: _, Some final =>
      let '(passed, failures) := sustained_progress first final in
      _ ← out EmptyString;
      if (passed : bool) then _ ← out "SUSTAINED PROGRESS: PASS"; mret 0
      else
        _ ← out "SUSTAINED PROGRESS: FAIL";
        _ ← foldr (λ failure rest, _ ← out ("  - " +:+ failure); rest) (mret tt) failures;
        mret 1
  | _, _ => raise IndexError
  end.

(** The reading part: [RuntimeError], [TimeoutError] and [ValueError] are
    reported. *)
Definition runtime_value_error (e : exn) : option string :=
  match e with RuntimeError text | ValueError text => Some text | _ => None end.
Definition observe (a : status_args) (address : Z) (trace : option Z) : reading Z :=
  outcome ← catch_classes runtime_value_error
              (snapshots ← take_samples (Z.to_nat (ta_samples a)) 0 (ta_samples a) address (ta_interval a);
               _ ← show_port_trace trace;
               mret (inl snapshots))
              (λ exc, mret (inr exc));
  match outcome with
  | inr exc => _ ← on_world (modify (st_print true ("telemetry: " +:+ exc))); mret 2
  | inl snapshots => if ta_verify a then judge_progress snapshots else mret 0
  end.

(** The client and the counter live as long as the reading part. *)
Definition with_reader {A} (record : BrokerRecord) (client : string) (timeout : spec_float) (sequence : Z)
    (m : reading A) : io W A := λ w,
  let '(r, a) := m (mkReader w record client timeout sequence) in (rd_world r, a).

Definition status_main (a : status_args) : io W Z :=
  match status_argument_error a with
  | Some text => raise (SystemExit text)
  | None =>
      prepared ← status_setup a;
      match prepared with
      | inr exc => _ ← modify (st_print true ("telemetry: " +:+ exc)); mret 2
      | inl (_, _, None) =>
          _ ← modify (st_print true "telemetry: no active RP86 broker; start the RP86 runtime first"); mret 2
      | inl (address, trace, Some record) =>
          pid ← gets st_pid;
          bits ← total st_random31;
          with_reader record ("freertos-telemetry-" +:+ dec pid) (ta_timeout a) (or_one bits) (observe a address trace)
      end
  end.

(** ** Proofs *)

(** A snapshot that a stable read at the address returned *)
Definition observed (address : Z) (snapshot : FreeRTOSSystemTelemetry) : Prop :=
  ∃ r r', read_stable_telemetry address 5 r = (r', Ok snapshot).

Lemma take_samples_observed more index samples address interval r r' snapshots :
  take_samples more index samples address interval r = (r', Ok snapshots) →
  length snapshots = more ∧ Forall (observed address) snapshots.
Proof.
  revert index r snapshots. induction more as [|more IH]; intros index r snapshots E; cbn [take_samples] in E; io_inv; [done|].
  rename select (take_samples _ _ _ _ _ _ = _) into Ht. apply IH in Ht as [Hl Hf]. cbn [length]. split; [by rewrite Hl|].
  constructor; [by eexists _, _|done].
Qed.

Lemma progress_moved first final failures :
  sustained_progress first final = (true, failures) →
  error_count first = 0 ∧ error_count final = 0
  ∧ counter_delta (led_toggle_count first) (led_toggle_count final) ≠ 0
  ∧ counter_delta (queue_tx_count first) (queue_tx_count final) ≠ 0
  ∧ counter_delta (queue_rx_count first) (queue_rx_count final) ≠ 0
  ∧ counter_delta (event_sequence first) (event_sequence final) ≠ 0.
Proof.
  unfold sustained_progress, append_if. intros [= E _]. repeat (case_match; try done); split_and!; lia.
Qed.

Lemma judge_progress_pass snapshots r r' :
  judge_progress snapshots r = (r', Ok 0) →
  ∃ first rest final failures, snapshots = first :: rest ∧ last snapshots = Some final
    ∧ sustained_progress first final = (true, failures).
Proof.
  unfold judge_progress. destruct snapshots as [|first rest]; [done|]. destruct (last (first :: rest)) as [final|]; [|done].
  destruct (sustained_progress first final) as [[|] failures] eqn:Hs; intros E; io_inv. by eexists _, _, _, _.
Qed.

(** a progress check that passes is certified by the telemetry: as many stable
    snapshots as requested were read, at least two, neither the first nor the
    last counts an error, and between them the LED, both queue counters and the
    event sequence moved. *)
Theorem progress_certified a w w' :
  status_main a w = (w', Ok 0) → ta_verify a = true →
  ∃ address first middle final, observed address first ∧ Forall (observed address) middle ∧ observed address final
    ∧ len middle + 2 = ta_samples a ∧ error_count first = 0 ∧ error_count final = 0
    ∧ counter_delta (led_toggle_count first) (led_toggle_count final) ≠ 0
    ∧ counter_delta (queue_tx_count first) (queue_tx_count final) ≠ 0
    ∧ counter_delta (queue_rx_count first) (queue_rx_count final) ≠ 0
    ∧ counter_delta (event_sequence first) (event_sequence final) ≠ 0.
Proof.
  intros E Hv. unfold status_main in E. destruct (status_argument_error a) as [|] eqn:Ha; io_inv.
  assert (2 <= ta_samples a) as Hn by (unfold status_argument_error in Ha; rewrite Hv in Ha; repeat case_match; try done; lia).
  rename select (_ + string)%type into prepared. destruct prepared as [[[address trace] [record|]]|]; io_inv.
  rename select (with_reader _ _ _ _ _ _ = _) into Hw. unfold with_reader in Hw.
  destruct (observe a address trace _) as [r code] eqn:Ho. simplify_eq. unfold observe in Ho. rewrite Hv in Ho. io_inv.
  rename select (_ + string)%type into outcome. destruct outcome as [snapshots|]; io_inv.
  rename select (catch_classes _ _ _ _ = _) into Hc. apply catch_ok in Hc as [Hc|(? & ? & ? & _ & _ & Hc)]; io_inv.
  rename select (take_samples _ _ _ _ _ _ = _) into Ht. apply take_samples_observed in Ht as [Hl Hf].
  rename select (judge_progress _ _ = _) into Hj. apply judge_progress_pass in Hj as (first & rest & final & failures & -> & Hlast & Hs).
  apply progress_moved in Hs as (? & ? & ? & ? & ? & ?).
  destruct rest as [|z rest _] using rev_ind; [cbn in Hl; lia|].
  change (first :: rest ++ [z]) with ((first :: rest) ++ [z]) in Hlast. rewrite last_snoc in Hlast. simplify_eq.
  rewrite Forall_cons, Forall_app, Forall_singleton in Hf. destruct Hf as (Hf1 & Hf2 & Hf3).
  exists address, first, rest, final. split_and!; try done. unfold len. cbn [length] in Hl. rewrite length_app in Hl. cbn in Hl. lia.
Qed.
End tool.

(** ** A workload that advances while the command waits *)

Definition gauge_address : Z := 0x2000.
Definition gauge_telemetry (tick : Z) : bytes :=
  concat (map (le_split 2) [1; tick; tick; tick; 2 * tick; 1; 0; 0]).
(** The reply of a device with the telemetry at [gauge_address] *)
Definition gauge_reply (tick : Z) (record : bytes) : document :=
  match (request ← decode record;
         '(_, (address, (length, tt))) ← unpack_from MEMORY_HEADER (payload request) 0;
         let data := slice (address - gauge_address) (address - gauge_address + length) (gauge_telemetry tick) in
         encode (mkMessage TYPE_MEMORY_RESULT (sequence request) (payload request ++ data) 0 STATUS_OK PROTOCOL_VERSION))
  with
  | Ok reply => [("ok", JBool true); ("reply_hex", JStr (bytes_hex reply))]%string
  | Raise _ => [("ok", JBool false)]%string
  end.

(** The world is the number of waits so far. *)
#[local] Instance gauge_world : StatusWorld Z := {|
  st_discover := mret [mkBrokerRecord "RP86-1" 4000 4001 99 "auto"];
  st_exchange := λ _ _ record _ _ tick, (tick, Ok (inl (gauge_reply tick record)));
  st_read_text := λ path, raise (OSError path);
  st_random31 := λ tick, (tick, 7);
  st_local_time := λ tick, (tick, ("2026-01-01 00:00:00"%string, 1500, "+0000"%string));
  st_sleep := λ _ tick, tick + 1;
  st_print := λ _ _ tick, tick;
  st_pid := λ _, 1;
|}.

Definition gauge_args (timeout : spec_float) : status_args :=
  mkStatusArgs (Some gauge_address) None false None timeout 3 timeout true.

Example progress_certified_witness :
  status_main (λ _, EmptyString) (gauge_args fzero) 10 = (12, Ok 0)
  ∧ ∃ address first middle final, observed (λ _, EmptyString) address first
      ∧ Forall (observed (λ _, EmptyString) address) middle ∧ observed (λ _, EmptyString) address final ∧ len middle + 2 = 3.
Proof.
  assert (status_main (λ _, EmptyString) (gauge_args fzero) 10 = (12, Ok 0)) as E by (vm_compute; reflexivity).
  split; [exact E|].
  destruct (progress_certified (λ _, EmptyString) _ _ _ E eq_refl) as (address & first & middle & final & Hf & Hm & Hl & Hn & _).
  exists address, first, middle, final. exact (conj Hf (conj Hm (conj Hl Hn))).
Defined.
