(* ===== verification/Build.v ===== *)
(** * The build driver (scripts/build.py)

    The driver finds or bootstraps the tools, checks their versions, configures
    and builds with CMake, and reports or stages the artifacts.  Processes, files,
    paths and the terminal are the class [BuildWorld].  The environment of the
    child processes is a dict that functions change in place: a function that
    changes it returns it.  [BuildError] is [RuntimeError], the only error of that
    class here.  argparse delivers [build_args].

    The theorems say what a passing build certifies and which directories the
    driver may remove. *)

From S2P Require Import Prelude Struct PyText Json Workload Transport Cli.
From Stdlib Require Import Ascii.

Definition NASM_VERSION : string := "3.02".
Definition FREERTOS_COMMIT : string := "8be86d4a24fd4091f8f4192018423ab590f408db".
Definition BUILD_DIR (command : string) : string :=
  if String.eqb command "firmware" then "build-firmware" else "build-workloads".
Definition TARGET (command : string) : string :=
  if String.eqb command "firmware" then "rp86_rp2350" else "rp86_workload_packages".
Definition FIRMWARE_ARTIFACT : string := "firmware/rp86_rp2350.uf2".

(** The environment *)
Abbreviation environ := (list (string * string)).
Definition env_get (key : string) (env : environ) : string := default EmptyString (str_get key env).
Fixpoint env_set (key value : string) (env : environ) : environ :=
  match env with
  | [] => [(key, value)]
  | (k, v) :: env => if String.eqb k key then (k, value) :: env else (k, v) :: env_set key value env
  end.

(** What became of a process: [FileNotFoundError], or the exit code and the
    output *)
Inductive process := NoCommand | Exited (code : Z) (output : string).

Class BuildWorld (W : Type) := {
  os_nt : bool;
  pathsep : ascii;
  ROOT : string;
  path_join : string → string → string;
  path_parent : string → string;
  path_name : string → string;
  path_anchor : string → string;
  path_absolute : string → bool;
  expand_path : W → string → string;             (** [os.path.expandvars(os.path.expanduser(x))] *)
  path_resolve : W → string → string;
  home : W → string;
  file_exists : W → string → bool;               (** [is_file] *)
  path_present : W → string → bool;              (** [exists] *)
  dir_exists : W → string → bool;                (** [is_dir] *)
  which : W → string → option string → option string; (** [shutil.which(name, path=...)] *)
  subprocess_run : list string → environ → bool → io W process;
  rmtree : string → io W unit;
  read_replace : string → io W bytes;            (** [read_text(errors="replace")] *)
  read_file : string → io W bytes;
  file_size : string → io W Z;
  sha256_hex : string → io W string;
  glob : W → string → string → list string;      (** [sorted(path.glob(pattern))] *)
  rglob : W → string → string → list string;
  put : bool → string → W → W;                   (** [print]; true is the error stream *)
}.

(** ** shlex.quote *)

Definition shell_safe (c : ascii) : bool :=
  let n := Ascii.nat_of_ascii c in
  ((48 <=? n) && (n <=? 57) || (65 <=? n) && (n <=? 90) || (97 <=? n) && (n <=? 122))%nat
  || existsb (Ascii.eqb c) (String.list_ascii_of_string "_@%+=:,./-").
Definition quoted_quote : string := "'" +:+ String (Ascii.ascii_of_nat 34) ("'" +:+ String (Ascii.ascii_of_nat 34) "'").
Definition shell_quote (s : string) : string :=
  match s with
  | EmptyString => "''"
  | _ =>
      if forallb shell_safe (String.list_ascii_of_string s) then s
      else "'" +:+ foldr (λ c rest, (if Ascii.eqb c "'" then quoted_quote else String c EmptyString) +:+ rest)
                    EmptyString (String.list_ascii_of_string s) +:+ "'"
  end.
Definition shell_join (args : list string) : string := str_join " " (map shell_quote args).

Section build.
Context {W : Type} `{BuildWorld W}.

Definition build_error {A} (text : string) : io W A := raise (RuntimeError text).
Definition note (text : string) : io W unit := modify (put false text).
Definition test (f : W → string → bool) (path : string) : io W bool := gets (λ w, f w path).

Definition run (args : list string) (env : environ) (capture : bool) : io W string :=
  _ ← (if capture then mret tt else note ("+ " +:+ shell_join args));
  p ← subprocess_run args env capture;
  match p with
  | NoCommand => build_error ("command not found: " +:+ default EmptyString (head args))
  | Exited code output =>
      if negb (code =? 0)
      then build_error ("command failed with exit code " +:+ dec code +:+ ": " +:+ shell_join args)
      else mret (if capture then str_strip output else EmptyString)
  end.

Definition require (name : string) : io W string :=
  found ← gets (λ w, which w name None);
  match found with
  | Some (String _ _ as path) => mret path
  | _ => build_error ("required host command was not found in PATH: " +:+ name)
  end.

Definition as_path (value : string) : io W string :=
  gets (λ w, let path := expand_path w value in
             path_resolve w (if path_absolute path then path else path_join ROOT path)).

(** The first candidate that is a file, resolved *)
Fixpoint first_file (candidates : list string) : io W (option string) :=
  match candidates with
  | [] => mret None
  | path :: candidates =>
      found ← test file_exists path;
      if (found : bool) then resolved ← gets (λ w, path_resolve w path); mret (Some resolved)
      else first_file candidates
  end.
(** The first name found in the given PATH *)
Fixpoint first_command (names : list string) (env : environ) : io W (option string) :=
  match names with
  | [] => mret None
  | name :: names =>
      found ← gets (λ w, which w name (str_get "PATH" env));
      match found with
      | Some (String _ _ as path) => mret (Some path)
      | _ => first_command names env
      end
  end.

Definition find_tool (env : environ) (env_name : string) (names candidates : list string) : io W (option string) :=
  match str_strip (env_get env_name env) with
  | String _ _ as explicit =>
      path ← as_path explicit;
      file ← test file_exists path;
      if (file : bool) then mret (Some path) else
      found ← first_command [explicit] env;
      match found with
      | Some path => mret (Some path)
      | None => build_error (env_name +:+ " points to a missing executable: " +:+ explicit)
      end
  | EmptyString =>
      found ← first_file candidates;
      match found with
      | Some path => mret (Some path)
      | None => first_command names env
      end
  end.

(** [[x for x in value.split(os.pathsep) if x]] *)
Fixpoint split_path (sep : ascii) (s : string) : list string :=
  match s with
  | EmptyString => [EmptyString]
  | String c s =>
      if Ascii.eqb c sep then EmptyString :: split_path sep s
      else match split_path sep s with
           | part :: parts => String c part :: parts
           | [] => [String c EmptyString]
           end
  end.
Definition nonempty (s : string) : bool := negb (String.eqb s EmptyString).
Definition prepend (env : environ) (key value : string) : environ :=
  let old := List.filter nonempty (split_path pathsep (env_get key env)) in
  if str_in value old then env
  else env_set key (str_join (String pathsep EmptyString) (value :: old)) env.

Definition submodule (relative marker : string) (env : environ) (recursive : bool) : io W string :=
  let path := path_join ROOT relative in
  present ← test path_present (path_join path marker);
  _ ← (if (present : bool) then mret tt else
       git ← require "git";
       _ ← note ("Initializing repository dependency: " +:+ relative);
       _ ← run ([git; "submodule"%string; "update"%string; "--init"%string]
                ++ (if recursive then ["--recursive"%string] else []) ++ [relative]) env false;
       mret tt);
  present ← test path_present (path_join path marker);
  if (present : bool) then mret path
  else build_error ("submodule is missing or incomplete: " +:+ relative).

Definition exe (name : string) : string := name +:+ if os_nt then ".exe" else "".
Definition exe_names (name : string) : list string := if os_nt then [name +:+ ".exe"; name] else [name].

Definition ensure_nasm (env : environ) : io W string :=
  let local := path_join (path_join (path_join ROOT ".tools") ("nasm-" +:+ NASM_VERSION)) "bin" in
  let search := find_tool env "RP86_NASM_EXECUTABLE" (exe_names "nasm") [path_join local (exe "nasm")] in
  nasm ← search;
  nasm ← (match nasm with
          | None => if os_nt then mret None else
              _ ← note ("NASM " +:+ NASM_VERSION +:+ " is missing; bootstrapping it.");
              bash ← require "bash";
              _ ← run [bash; path_join ROOT "scripts/bootstrap_nasm.sh"] env false;
              search
          | found => mret found
          end);
  match nasm with
  | None => build_error ("NASM " +:+ NASM_VERSION +:+ " was not found. Install it or set RP86_NASM_EXECUTABLE.")
  | Some nasm =>
      version ← run [nasm; "-v"%string] env true;
      if negb (str_contains ("NASM version " +:+ NASM_VERSION) version)
      then build_error ("expected NASM " +:+ NASM_VERSION +:+ ", got: " +:+ version) else
      _ ← note ("NASM         : " +:+ nasm +:+ " (" +:+ version +:+ ")");
      mret nasm
  end.

(** The roots that are searched and the places of a tool in them *)
Definition watcom_candidates (env : environ) (tool : string) : io W (list string * list string) :=
  configured ← match env_get "WATCOM" env with
               | EmptyString => mret []
               | value => root ← as_path value; mret [root]
               end;
  home ← gets home;
  let roots := configured ++ [path_join home "watcom"; path_join ROOT ".tools/watcom"] in
  let dirs := (if os_nt then ["binnt64"; "binnt"; "binw64"; "binw"] else ["binl"; "binl64"])%string in
  mret (roots, concat (map (λ root, map (λ d, path_join (path_join root d) (exe tool)) dirs) roots)).

Definition known_bins : list string := ["binl"; "binl64"; "binnt64"; "binnt"; "binw64"; "binw"].

(** The Watcom root of a tool, when it lies in a known directory *)
Definition root_of (path : string) : option string :=
  if str_in (str_lower (path_name (path_parent path))) known_bins then Some (path_parent (path_parent path)) else None.

Definition watcom_missing (roots : list string) : string :=
  "Open Watcom C/16 requires both wcc and wlink. Set WATCOM, put them in PATH, or set RP86_WCC_EXECUTABLE and "
  +:+ "RP86_WLINK_EXECUTABLE." +:+ newline +:+ "Checked roots: " +:+ str_join ", " roots.

Definition ensure_watcom (env : environ) : io W (environ * string * string) :=
  '(roots, wcc_candidates) ← watcom_candidates env "wcc";
  '(_, wlink_candidates) ← watcom_candidates env "wlink";
  wcc ← find_tool env "RP86_WCC_EXECUTABLE" (exe_names "wcc") wcc_candidates;
  wlink ← find_tool env "RP86_WLINK_EXECUTABLE" (exe_names "wlink") wlink_candidates;
  match wcc, wlink with
  | Some wcc, Some wlink =>
      wcc_path ← gets (λ w, path_resolve w wcc);
      wlink_path ← gets (λ w, path_resolve w wlink);
      let wcc_root := root_of wcc_path in
      let wlink_root := root_of wlink_path in
      _ ← match wcc_root, wlink_root with
          | Some a, Some b =>
              if String.eqb a b then mret tt
              else build_error ("wcc and wlink resolve to different roots: " +:+ a +:+ " vs " +:+ b)
          | _, _ => mret tt
          end;
      let watcom_root := match wcc_root with Some _ => wcc_root | None => wlink_root end in
      let env := prepend env "PATH" (path_parent wcc_path) in
      env ← match watcom_root with
            | None => mret env
            | Some root =>
                let env := env_set "WATCOM" root env in
                headers ← test dir_exists (path_join root "h");
                mret (if (headers : bool) then prepend env "INCLUDE" (path_join root "h") else env)
            end;
      _ ← note ("Open Watcom  : " +:+ default "(root not inferred)"%string watcom_root);
      _ ← note ("wcc          : " +:+ wcc);
      _ ← note ("wlink        : " +:+ wlink);
      mret (env, wcc, wlink)
  | _, _ => build_error (watcom_missing roots)
  end.

Definition ensure_freertos (env : environ) : io W unit :=
  kernel ← submodule "third_party/FreeRTOS-Kernel" "include/FreeRTOS.h" env false;
  git ← require "git";
  actual ← run [git; "-C"%string; kernel; "rev-parse"%string; "HEAD"%string] env true;
  if negb (String.eqb actual FREERTOS_COMMIT)
  then build_error ("FreeRTOS-Kernel is not at the repository-pinned commit." +:+ newline
                    +:+ "expected: " +:+ FREERTOS_COMMIT +:+ newline +:+ "actual:   " +:+ actual +:+ newline
                    +:+ "Resolve local changes, then run: git submodule update --init third_party/FreeRTOS-Kernel")
  else note ("FreeRTOS     : " +:+ actual).

Definition check_picotool (env : environ) (picotool : string) : io W unit :=
  version ← run [picotool; "version"%string] env true;
  if negb (str_contains "picotool v2.3.0" version) || str_contains "compiled without USB support" version
  then build_error ("invalid picotool build:" +:+ newline +:+ version) else mret tt.

Definition ensure_firmware (env : environ) : io W string :=
  sdk ← submodule "third_party/pico-sdk" "pico_sdk_init.cmake" env true;
  _ ← submodule "third_party/picotool" "CMakeLists.txt" env true;
  picotool_dir ← match env_get "RP86_PICOTOOL_DIR" env with
                 | EmptyString => mret (path_join ROOT ".tools/picotool-install/picotool")
                 | value => as_path value
                 end;
  let picotool := path_join picotool_dir (exe "picotool") in
  file ← test file_exists picotool;
  _ ← (if (file : bool) || os_nt then mret tt else
       _ ← note "picotool is missing; bootstrapping pinned host tools.";
       bash ← require "bash";
       _ ← run [bash; path_join ROOT "scripts/bootstrap_tools.sh"] env false;
       mret tt);
  file ← test file_exists picotool;
  if negb (file : bool)
  then build_error ("validated picotool v2.3.0 was not found. On native Windows set "
                    +:+ "RP86_PICOTOOL_DIR, or build from WSL/Bash.") else
  _ ← check_picotool env picotool;
  _ ← note ("Pico SDK     : " +:+ sdk);
  _ ← note ("picotool     : " +:+ picotool);
  mret picotool_dir.

(** The lines of [CMakeCache.txt] *)
Fixpoint cached_mode (lines : list string) : option string :=
  match lines with
  | [] => None
  | line :: lines =>
      if str_starts "RP86_PROCESSOR_ONLY:" line
      then match str_split_once "=" line with
           | Some (_, value) => Some (str_upper (str_strip value))
           | None => cached_mode lines
           end
      else cached_mode lines
  end.

Definition cache_mode (build_dir : string) : io W (option string) :=
  let cache := path_join build_dir "CMakeCache.txt" in
  file ← test file_exists cache;
  if negb (file : bool) then mret None else
  text ← read_replace cache;
  mret (cached_mode (map of_octets (splitlines text))).

Definition clean_dir (path : string) : io W unit :=
  resolved ← gets (λ w, path_resolve w path);
  root ← gets (λ w, path_resolve w ROOT);
  if String.eqb resolved root || String.eqb resolved (path_anchor resolved)
  then build_error ("refusing to remove unsafe directory: " +:+ resolved) else
  present ← test path_present resolved;
  if (present : bool) then _ ← note ("Removing " +:+ resolved); rmtree resolved else mret tt.

Definition configure (build_dir : string) (defs : list (string * string)) (env : environ) : io W unit :=
  cmake ← require "cmake";
  cached ← test path_present (path_join build_dir "CMakeCache.txt");
  ninja ← gets (λ w, which w "ninja" (str_get "PATH" env));
  let generator := if negb (cached : bool) && match ninja with Some (String _ _) => true | _ => false end
                   then ["-G"; "Ninja"]%string else [] in
  _ ← run ([cmake; "-S"%string; ROOT; "-B"%string; build_dir] ++ generator
           ++ map (λ d, "-D" +:+ d.1 +:+ "=" +:+ d.2) defs) env false;
  mret tt.

Definition cmake_build (build_dir target : string) (env : environ) (jobs : option Z) (verbose : bool) : io W unit :=
  cmake ← require "cmake";
  _ ← run ([cmake; "--build"%string; build_dir; "--target"%string; target; "--parallel"%string]
           ++ match jobs with Some n => if truthy n then [dec n] else [] | None => [] end
           ++ (if verbose then ["--verbose"%string] else [])) env false;
  mret tt.

Definition cmake_install_workloads (build_dir : string) (env : environ) : io W unit :=
  cmake ← require "cmake";
  _ ← run [cmake; "--install"%string; build_dir; "--prefix"%string; path_join ROOT "artifacts"; "--component"%string;
           "workloads"%string] env false;
  mret tt.

Definition decode_workload (path : string) : io W (WorkloadManifest * bytes) :=
  b ← read_file path;
  lift (decode_workload_file b).

Definition report_artifact (path : string) : io W unit :=
  _ ← note ("Artifact      : " +:+ path);
  size ← file_size path;
  _ ← note ("Size          : " +:+ dec size +:+ " bytes");
  digest ← sha256_hex path;
  note ("SHA-256       : " +:+ digest).

Definition report_firmware (build_dir target : string) : io W unit :=
  if negb (String.eqb target (TARGET "firmware")) then
    files ← gets (λ w, rglob w build_dir "*.uf2");
    note ("Generated UF2 : " +:+ str_or (str_join ", " files) "none")
  else
  let artifact := path_join build_dir FIRMWARE_ARTIFACT in
  file ← test file_exists artifact;
  if negb (file : bool) then build_error ("expected artifact was not produced: " +:+ artifact)
  else report_artifact artifact.

Definition report_workload (path : string) : io W unit :=
  '(manifest, image) ← decode_workload path;
  _ ← report_artifact path;
  _ ← note ("Image         : " +:+ dec (len image) +:+ " bytes");
  _ ← note ("Image CRC32   : " +:+ hex_upper 8 (image_crc32 manifest));
  _ ← note ("Load          : 0x" +:+ hex_upper 5 (load_address manifest));
  _ ← note ("Entry         : " +:+ hex_upper 4 (entry_segment manifest) +:+ ":" +:+ hex_upper 4 (entry_offset manifest));
  _ ← note ("Stack         : " +:+ hex_upper 4 (stack_segment manifest) +:+ ":" +:+ hex_upper 4 (stack_offset manifest));
  note ("Flags         : 0x" +:+ hex_upper 8 (m_flags manifest)).

Definition WORKLOAD_STAGE : string := path_join (path_join ROOT "artifacts") "workloads".

Fixpoint report_workloads (artifacts : list string) : io W unit :=
  match artifacts with
  | [] => mret tt
  | artifact :: artifacts => _ ← note EmptyString; _ ← report_workload artifact; report_workloads artifacts
  end.

Definition stage_and_report_workloads (build_dir : string) (env : environ) : io W unit :=
  _ ← clean_dir WORKLOAD_STAGE;
  _ ← cmake_install_workloads build_dir env;
  artifacts ← gets (λ w, glob w WORKLOAD_STAGE "*.P86W");
  match artifacts with
  | [] => build_error ("workload staging produced no P86W artifacts in " +:+ WORKLOAD_STAGE)
  | _ =>
      _ ← note (newline +:+ "Staged workload set: " +:+ WORKLOAD_STAGE);
      _ ← report_workloads artifacts;
      note (newline +:+ "Verified workloads: " +:+ dec (len artifacts))
  end.

Definition check_mode (build_dir expected : string) : io W unit :=
  existing ← cache_mode build_dir;
  match existing with
  | Some (String _ _ as mode) =>
      if negb (String.eqb mode expected)
      then build_error (build_dir +:+ " has RP86_PROCESSOR_ONLY=" +:+ mode +:+ ", expected " +:+ expected
                        +:+ ". Use the command-specific directory or --clean.")
      else mret tt
  | _ => mret tt
  end.

Record build_args := mkBuildArgs {
  b_command : string;
  b_explicit : bool;           (** a command was given on the line *)
  b_clean : bool;
  b_build_dir : option string;
  b_target : option string;
  b_jobs : option Z;
  b_verbose : bool;
}.

Definition chosen_target (override : option string) (command : string) : string :=
  match override with Some (String _ _ as target) => target | _ => TARGET command end.

Definition build_start (a : build_args) (build_dir mode name : string) : io W unit :=
  _ ← (if b_clean a then clean_dir build_dir else mret tt);
  _ ← check_mode build_dir mode;
  _ ← note (newline +:+ "=== RP86 build: " +:+ name +:+ " ===");
  _ ← note ("Repository    : " +:+ ROOT);
  note ("Build dir     : " +:+ build_dir).

Definition build_firmware (build_dir : string) (override : option string) (a : build_args) (env : environ) : io W unit :=
  _ ← build_start a build_dir "OFF" "firmware";
  picotool_dir ← ensure_firmware env;
  _ ← configure build_dir
        [("RP86_PROCESSOR_ONLY", "OFF"); ("RP86_ENABLE_PROCESSOR_C16", "OFF"); ("RP86_ENABLE_FREERTOS_8086", "OFF");
         ("PICO_BOARD", "waveshare_rp2350_pizero"); ("picotool_DIR", picotool_dir); ("CMAKE_BUILD_TYPE", "Release")]%string env;
  let target := chosen_target override "firmware" in
  _ ← note ("Target        : " +:+ target);
  _ ← cmake_build build_dir target env (b_jobs a) (b_verbose a);
  _ ← report_firmware build_dir target;
  note "BUILD FIRMWARE: PASS".

Definition given_target (override : option string) : bool := match override with Some (String _ _) => true | _ => false end.

Definition build_workloads (build_dir : string) (override : option string) (a : build_args) (env : environ) : io W unit :=
  _ ← build_start a build_dir "ON" "workloads";
  nasm ← ensure_nasm env;
  '(env, wcc, wlink) ← ensure_watcom env;
  _ ← ensure_freertos env;
  _ ← configure build_dir
        [("RP86_PROCESSOR_ONLY", "ON"); ("RP86_ENABLE_PROCESSOR_C16", "ON"); ("RP86_ENABLE_FREERTOS_8086", "ON");
         ("RP86_NASM_EXECUTABLE", nasm); ("RP86_WCC_EXECUTABLE", wcc); ("RP86_WLINK_EXECUTABLE", wlink)]%string env;
  let target := chosen_target override "workloads" in
  _ ← note ("Target        : " +:+ target);
  _ ← cmake_build build_dir target env (b_jobs a) (b_verbose a);
  _ ← (if given_target override then note "Custom workload target built; canonical staging was not changed."
       else stage_and_report_workloads build_dir env);
  note "BUILD WORKLOADS: PASS".

(** [as_path(args.build_dir) if args.build_dir else ROOT / fallback] *)
Definition chosen_dir (a : build_args) (fallback : string) : io W string :=
  match b_build_dir a with
  | Some (String _ _ as dir) => as_path dir
  | _ => mret (path_join ROOT fallback)
  end.

Definition build_command (a : build_args) (env : environ) : io W unit :=
  if String.eqb (b_command a) "all" then
    _ ← build_firmware (path_join ROOT (BUILD_DIR "firmware")) None a env;
    build_workloads (path_join ROOT (BUILD_DIR "workloads")) None a env
  else if String.eqb (b_command a) "workloads" then
    build_dir ← chosen_dir a (BUILD_DIR "workloads");
    build_workloads build_dir (b_target a) a env
  else
    build_dir ← chosen_dir a (if b_explicit a then BUILD_DIR "firmware" else "build");
    build_firmware build_dir (b_target a) a env.

Definition build_argument_error (a : build_args) : option string :=
  if match b_jobs a with Some n => n <? 1 | None => false end then Some "--jobs must be at least 1"%string
  else if String.eqb (b_command a) "all" && (given_target (b_build_dir a) || given_target (b_target a))
  then Some "--build-dir and --target cannot be used with 'all'"%string
  else None.

Definition build_main (a : build_args) (env : environ) : io W Z :=
  match build_argument_error a with
  | Some text => raise (SystemExit text)
  | None =>
      catch_classes os_runtime_error (_ ← build_command a env; mret 0)
        (λ exc, _ ← modify (put true (newline +:+ "BUILD ERROR: " +:+ exc)); mret 1)
  end.
End build.

(** ** What the driver removes *)

(** The directories a command line lets the driver remove: the staging directory,
    and with [--clean] its build directory. *)
Definition may_clean {W} `{BuildWorld W} (a : build_args) (dir : string) : Prop :=
  dir = WORKLOAD_STAGE
  ∨ b_clean a = true
    ∧ (In dir (map (path_join ROOT) ["build-firmware"; "build-workloads"; "build"]%string)
       ∨ ∃ value w w', b_build_dir a = Some value ∧ as_path value w = (w', Ok dir)).

(** [R] is left alone by everything but removals, and by the removals that are
    allowed. *)
Class Tidy {W} `{BuildWorld W} (a : build_args) (R : W → W → Prop) := {
  tidy_order :: PreOrder R;
  tidy_put e text w : R w (put e text w);
  tidy_run args env capture : spares R (subprocess_run args env capture);
  tidy_read_replace path : spares R (read_replace path);
  tidy_read_file path : spares R (read_file path);
  tidy_file_size path : spares R (file_size path);
  tidy_sha256 path : spares R (sha256_hex path);
  tidy_removal dir w w' : may_clean a dir → path_resolve w dir ≠ path_resolve w ROOT →
    path_resolve w dir ≠ path_anchor (path_resolve w dir) → R w' (rmtree (path_resolve w dir) w').1;
}.
#[export] Hint Resolve tidy_run tidy_read_replace tidy_read_file tidy_file_size tidy_sha256 : spares.

Section removals.
Context {W : Type} `{BuildWorld W} (a : build_args) (R : W → W → Prop) `{!Tidy a R}.

Lemma spares_note text : spares R (note text).
Proof. intros w. apply (tidy_put (a:=a)). Qed.
Hint Resolve spares_note : spares.
Lemma spares_cmd args env capture : spares R (run args env capture).
Proof. unfold run. spare. Qed.
Hint Resolve spares_cmd : spares.

Lemma spares_require name : spares R (require name).
Proof. unfold require. spare. Qed.
Lemma spares_first_file l : spares R (first_file l).
Proof. induction l; cbn [first_file]; unfold test; spare; done. Qed.
Lemma spares_first_command l env : spares R (first_command l env).
Proof. induction l; cbn [first_command]; spare; done. Qed.
Lemma spares_as_path value : spares R (as_path value).
Proof. unfold as_path. spare. Qed.
Hint Resolve spares_require spares_first_file spares_first_command spares_as_path : spares.
Lemma spares_find_tool env env_name names candidates : spares R (find_tool env env_name names candidates).
Proof. unfold find_tool, test. spare. Qed.
Lemma spares_submodule relative marker env recursive : spares R (submodule relative marker env recursive).
Proof. unfold submodule, test. cbv zeta. spare. Qed.
Hint Resolve spares_find_tool spares_submodule : spares.
Lemma spares_nasm env : spares R (ensure_nasm env).
Proof. unfold ensure_nasm, test. cbv zeta. spare. Qed.
Lemma spares_candidates env tool : spares R (watcom_candidates env tool).
Proof. unfold watcom_candidates. cbv zeta. spare. Qed.
Hint Resolve spares_nasm spares_candidates : spares.
Lemma spares_watcom env : spares R (ensure_watcom env).
Proof. unfold ensure_watcom, test. cbv zeta. spare. Qed.
Lemma spares_freertos env : spares R (ensure_freertos env).
Proof. unfold ensure_freertos. spare. Qed.
Lemma spares_firmware env : spares R (ensure_firmware env).
Proof. unfold ensure_firmware, check_picotool, test. cbv zeta. spare. Qed.
Lemma spares_cache_mode dir : spares R (cache_mode dir).
Proof. unfold cache_mode, test. cbv zeta. spare. Qed.
Hint Resolve spares_watcom spares_freertos spares_firmware spares_cache_mode : spares.
Lemma spares_check_mode dir expected : spares R (check_mode dir expected).
Proof. unfold check_mode. spare. Qed.
Lemma spares_configure dir defs env : spares R (configure dir defs env).
Proof. unfold configure, test. cbv zeta. spare. Qed.
Lemma spares_cmake_build dir target env jobs verbose : spares R (cmake_build dir target env jobs verbose).
Proof. unfold cmake_build. spare. Qed.
Lemma spares_artifact path : spares R (report_artifact path).
Proof. unfold report_artifact. spare. Qed.
Hint Resolve spares_check_mode spares_configure spares_cmake_build spares_artifact : spares.
Lemma spares_report_firmware dir target : spares R (report_firmware dir target).
Proof. unfold report_firmware, test. cbv zeta. spare. Qed.
Lemma spares_reports l : spares R (report_workloads l).
Proof. induction l; cbn [report_workloads]; unfold report_workload, decode_workload; spare; done. Qed.
Hint Resolve spares_report_firmware spares_reports : spares.

Lemma spares_clean dir : may_clean a dir → spares R (clean_dir dir).
Proof.
  intros Hd w. unfold clean_dir, build_error, test, mbind, io_bind, gets, raise. cbn.
  destruct (_ || _) eqn:Hu; [reflexivity|]. apply orb_false_iff in Hu as [Hr Ha].
  destruct (path_present w _); [|reflexivity]. unfold note, modify.
  etrans; [apply (tidy_put (a:=a))|]. apply (tidy_removal (a:=a)); [done|by apply String.eqb_neq..].
Qed.
Lemma spares_stage dir env : spares R (stage_and_report_workloads dir env).
Proof.
  unfold stage_and_report_workloads, cmake_install_workloads. spare. apply spares_clean. by left.
Qed.
Hint Resolve spares_stage : spares.
Lemma spares_start dir mode name : (b_clean a = true → may_clean a dir) → spares R (build_start a dir mode name).
Proof. intros Hd. unfold build_start. destruct (b_clean a); spare. apply spares_clean. by apply Hd. Qed.
Lemma spares_build_firmware dir override env : (b_clean a = true → may_clean a dir) → spares R (build_firmware dir override a env).
Proof. intros Hd. unfold build_firmware. cbv zeta. spare. by apply spares_start. Qed.
Lemma spares_build_workloads dir override env : (b_clean a = true → may_clean a dir) → spares R (build_workloads dir override a env).
Proof. intros Hd. unfold build_workloads. cbv zeta. spare. by apply spares_start. Qed.

Lemma spares_chosen {B} fallback (k : string → io W B) :
  In fallback ["build-firmware"; "build-workloads"; "build"]%string →
  (∀ dir, (b_clean a = true → may_clean a dir) → spares R (k dir)) → spares R (chosen_dir a fallback ≫= k).
Proof.
  intros Hin Hk w. unfold chosen_dir. destruct (b_build_dir a) as [[|c value]|] eqn:Hb; cbn [mret].
  2: { unfold mbind, io_bind. destruct (as_path (String c value) w) as [w1 [dir|e]] eqn:Hp; unfold as_path, gets in Hp; [|done].
       simplify_eq. apply Hk. intros Hc. right. split; [done|]. right. by exists (String c value), w1, w1. }
  all: apply Hk; intros Hc; right; split; [done|]; left; by apply in_map.
Qed.

Lemma spares_command env : spares R (build_command a env).
Proof.
  unfold build_command. destruct (String.eqb _ "all"); [|destruct (String.eqb _ "workloads")].
  - apply spares_bind; [typeclasses eauto| |intros ?].
    + apply spares_build_firmware. intros Hc. right. split; [done|]. left. cbn. tauto.
    + apply spares_build_workloads. intros Hc. right. split; [done|]. left. cbn. tauto.
  - apply spares_chosen; [cbn; tauto|]. intros dir Hd. by apply spares_build_workloads.
  - apply spares_chosen; [destruct (b_explicit a); cbn; tauto|]. intros dir Hd. by apply spares_build_firmware.
Qed.
Hint Resolve spares_command : spares.

(** Whatever every other operation and the removals that are allowed leave alone
    is left alone by the whole driver. *)
Lemma spares_main env : spares R (build_main a env).
Proof. unfold build_main. spare; intros w; apply (tidy_put (a:=a)). Qed.
End removals.

(** A world that keeps the trees that [shutil.rmtree] was given *)
Definition aside {W A} (m : io W A) : io (W * list string) A := λ '(w, removed), let '(w, r) := m w in ((w, removed), r).
#[global] Instance logged_build {W} `{BuildWorld W} : BuildWorld (W * list string) := {|
  os_nt := os_nt; pathsep := pathsep; ROOT := ROOT; path_join := path_join; path_parent := path_parent;
  path_name := path_name; path_anchor := path_anchor; path_absolute := path_absolute;
  expand_path := λ s, expand_path s.1;
  path_resolve := λ s, path_resolve s.1;
  home := λ s, home s.1;
  file_exists := λ s, file_exists s.1;
  path_present := λ s, path_present s.1;
  dir_exists := λ s, dir_exists s.1;
  which := λ s, which s.1;
  subprocess_run := λ args env capture, aside (subprocess_run args env capture);
  rmtree := λ path '(w, removed), let '(w, r) := rmtree path w in ((w, removed ++ [path]), r);
  read_replace := λ path, aside (read_replace path);
  read_file := λ path, aside (read_file path);
  file_size := λ path, aside (file_size path);
  sha256_hex := λ path, aside (sha256_hex path);
  glob := λ s, glob s.1;
  rglob := λ s, rglob s.1;
  put := λ e text '(w, removed), (put e text w, removed);
|}.

(** A tree that may be removed: a directory that may be cleaned, resolved when it
    was, and then neither the repository nor the root of a file system *)
Definition removable {W} `{BuildWorld W} (a : build_args) (tree : string) : Prop :=
  ∃ dir w, may_clean a dir ∧ tree = path_resolve w dir ∧ tree ≠ path_resolve w ROOT ∧ tree ≠ path_anchor tree.
Definition removes {W} `{BuildWorld W} (a : build_args) (s s' : W * list string) : Prop :=
  ∃ trees, s'.2 = s.2 ++ trees ∧ Forall (removable a) trees.

#[local] Instance logged_tidy {W} `{BuildWorld W} a : Tidy a (removes (W := W) a).
Proof.
  assert (∀ s s' : W * list string, s'.2 = s.2 → removes a s s') as Hsame.
  { intros s s' E. exists []. rewrite app_nil_r. by split. }
  assert (∀ A (m : io W A), spares (removes (W := W) a) (aside m)) as Haside.
  { intros A m [w removed]. apply Hsame. cbn. by destruct (m w). }
  split; try (intros; apply Haside).
  - split; [intros s; by apply Hsame|]. intros s1 s2 s3 (l1 & E1 & H1) (l2 & E2 & H2). exists (l1 ++ l2).
    rewrite E2, E1, app_assoc. split; [done|]. by apply Forall_app.
  - intros e text [w removed]. by apply Hsame.
  - intros dir [w x] [w' removed] Hm Hr Ha. cbn in *. destruct (rmtree (path_resolve w dir) w') as [w'' r].
    exists [path_resolve w dir]. split; [done|]. constructor; [|constructor].
    destruct Hm as [->|(Hc & [Hin|(value & u & u' & Hv & Hp)])]; exists dir || exists WORKLOAD_STAGE; exists w; split_and!; try done.
    + by left.
    + right. split; [done|]. by left.
    + right. split; [done|]. right. exists value, u.1, u'.1. split; [done|]. unfold as_path, gets in *. cbn in Hp.
      by simplify_eq.
Qed.

(** C9: every tree the driver removes, whether it passes or fails, is the staging
    directory or, with [--clean], the build directory (the default one, or the one
    the command line names), and it is itself neither the repository nor the root
    of a file system.  A directory above the repository is not refused
    ([clean_removes_parent]). *)
Theorem build_removals {W} `{BuildWorld W} a env (w : W) :
  Forall (removable (W := W) a) (build_main a env (w, [])).1.2.
Proof. by destruct (spares_main a (removes a) env (w, [])) as (trees & -> & Ht). Qed.

(** ** What a passing build certifies *)

Section certified.
Context {W : Type} `{BuildWorld W}.

(** A command that was run printed this. *)
Definition printed (args : list string) (output : string) : Prop :=
  ∃ env w w' text, subprocess_run args env true w = (w', Ok (Exited 0 text)) ∧ output = str_strip text.

Lemma run_captured args env (w w' : W) output : run args env true w = (w', Ok output) → printed args output.
Proof.
  unfold run, build_error. intros E. io_inv. rename select process into p. destruct p as [|code text]; io_inv.
  destruct (Z.eqb_spec code 0) as [->|]; cbn [negb] in *; io_inv. by eexists env, _, _, text.
Qed.

(** The tools are the pinned ones. *)
Definition pinned_workload_tools : Prop :=
  (∃ nasm version, printed [nasm; "-v"%string] version ∧ str_contains ("NASM version " +:+ NASM_VERSION) version = true)
  ∧ (∃ git kernel, printed [git; "-C"%string; kernel; "rev-parse"%string; "HEAD"%string] FREERTOS_COMMIT).
Definition pinned_firmware_tools : Prop :=
  ∃ picotool version, printed [picotool; "version"%string] version
    ∧ str_contains "picotool v2.3.0" version = true ∧ str_contains "compiled without USB support" version = false.

(** A staged file that the decoder of the Host accepts *)
Definition valid_workload (path : string) : Prop :=
  ∃ w w' b m image, read_file path w = (w', Ok b) ∧ decode_workload_file b = Ok (m, image).
Definition staged : Prop :=
  ∃ w, glob w WORKLOAD_STAGE "*.P86W" ≠ [] ∧ Forall valid_workload (glob w WORKLOAD_STAGE "*.P86W").

Lemma ensure_nasm_pinned env (w w' : W) nasm : ensure_nasm env w = (w', Ok nasm) →
  ∃ version, printed [nasm; "-v"%string] version ∧ str_contains ("NASM version " +:+ NASM_VERSION) version = true.
Proof.
  unfold ensure_nasm, build_error. cbv zeta. intros E. apply io_bind_ok in E as (w1 & first & _ & E).
  apply io_bind_ok in E as (w2 & found & _ & E). destruct found as [path|]; io_inv.
  destruct (str_contains _ _) eqn:Hv; cbn [negb] in *; io_inv.
  rename select (run _ _ _ _ = _) into Hr. eexists. split; [by eapply run_captured|done].
Qed.

Lemma ensure_freertos_pinned env (w w' : W) u : ensure_freertos env w = (w', Ok u) →
  ∃ git kernel, printed [git; "-C"%string; kernel; "rev-parse"%string; "HEAD"%string] FREERTOS_COMMIT.
Proof.
  unfold ensure_freertos, build_error. intros E. io_inv. rename select (run _ _ _ _ = _) into Hr.
  match type of Hr with _ = (_, Ok ?v) => destruct (String.eqb_spec v FREERTOS_COMMIT) as [->|] end; cbn [negb] in *; io_inv.
  eexists _, _. by eapply run_captured.
Qed.

Lemma ensure_firmware_pinned env (w w' : W) dir : ensure_firmware env w = (w', Ok dir) → pinned_firmware_tools.
Proof.
  unfold ensure_firmware, build_error. cbv zeta. intros E. apply io_bind_ok in E as (? & sdk & _ & E).
  do 4 apply io_bind_ok in E as (? & ? & _ & E). apply io_bind_ok in E as (? & file & _ & E).
  destruct file; cbn [negb] in E; io_inv.
  rename select (check_picotool _ _ _ = _) into Hr. unfold check_picotool, build_error in Hr. io_inv.
  destruct (negb (str_contains "picotool v2.3.0" _) || _) eqn:Hv; io_inv.
  apply orb_false_iff in Hv as [Hv Hu]. apply negb_false_iff in Hv.
  rename select (run _ _ _ _ = _) into Hr. eexists _, _. split; [by eapply run_captured|done].
Qed.

Lemma report_workloads_valid l (w w' : W) u : report_workloads l w = (w', Ok u) → Forall valid_workload l.
Proof.
  revert w. induction l as [|path l IH]; intros w E; cbn [report_workloads] in E; [done|]. io_inv. constructor; [|by eapply IH].
  rename select (report_workload _ _ = _) into Hr. unfold report_workload, decode_workload in Hr. io_inv.
  rename select (WorkloadManifest * bytes)%type into mi. destruct mi as [m image]. by eexists _, _, _, m, image.
Qed.

Lemma stage_valid dir env (w w' : W) u : stage_and_report_workloads dir env w = (w', Ok u) → staged.
Proof.
  unfold stage_and_report_workloads, build_error. intros E. io_inv.
  match goal with Hm : context [glob ?w0 WORKLOAD_STAGE] |- _ => exists w0; destruct (glob w0 WORKLOAD_STAGE "*.P86W") as [|path l] end; [done|].
  io_inv. split; [done|]. rename select (report_workloads _ _ = _) into Hr. exact (report_workloads_valid _ _ _ _ Hr).
Qed.

Lemma build_workloads_pass dir override a env (w w' : W) u :
  build_workloads dir override a env w = (w', Ok u) →
  pinned_workload_tools ∧ (given_target override = false → staged).
Proof.
  unfold build_workloads. cbv zeta. intros E. apply io_bind_ok in E as (? & ? & _ & E). io_inv.
  rename select (ensure_nasm _ _ = _) into Hn. apply ensure_nasm_pinned in Hn as (version & ? & ?).
  rename select (environ * string * string)%type into tools. destruct tools as [[env' wcc] wlink]. io_inv.
  rename select (ensure_freertos _ _ = _) into Hf. apply ensure_freertos_pinned in Hf as (git & kernel & ?).
  split; [split; [by eexists _, _|by eexists _, _]|]. intros Ht. rewrite Ht in *. by eapply stage_valid.
Qed.

Definition firmware_artifact : Prop := ∃ w dir, file_exists w (path_join dir FIRMWARE_ARTIFACT) = true.

Lemma build_firmware_pass dir override a env (w w' : W) u :
  build_firmware dir override a env w = (w', Ok u) →
  pinned_firmware_tools ∧ (given_target override = false → firmware_artifact).
Proof.
  unfold build_firmware. cbv zeta. intros E. apply io_bind_ok in E as (? & ? & _ & E). io_inv.
  rename select (ensure_firmware _ _ = _) into Hf. split; [by eapply ensure_firmware_pinned|].
  intros Ht. rename select (report_firmware _ _ _ = _) into Hr. unfold report_firmware, build_error, test in Hr.
  assert (chosen_target override "firmware" = TARGET "firmware") as Hc
    by (unfold chosen_target, given_target in *; by repeat case_match).
  rewrite Hc, String.eqb_refl in Hr. cbn [negb] in Hr. cbv zeta in Hr. io_inv.
  destruct (file_exists _ _) eqn:He; cbn [negb] in *; io_inv. by eexists _, dir.
Qed.

(** A build that passes is certified: its tools printed the pinned versions, and
    unless another target was asked for, the firmware artifact exists, and the
    staging directory held workloads, every one of which the decoder of the Host
    accepted. *)
Theorem build_pass_certified a env (w w' : W) :
  build_main a env w = (w', Ok 0) →
  (In (b_command a) ["firmware"; "all"]%string →
   pinned_firmware_tools ∧ (given_target (b_target a) = false → firmware_artifact))
  ∧ (In (b_command a) ["workloads"; "all"]%string →
     pinned_workload_tools ∧ (given_target (b_target a) = false → staged)).
Proof.
  intros E. unfold build_main in E. destruct (build_argument_error a); [done|].
  apply catch_ok in E as [E|(? & ? & ? & _ & _ & E)]; io_inv. rename select (build_command _ _ _ = _) into Hb.
  unfold build_command in Hb. destruct (String.eqb_spec (b_command a) "all") as [->|Hna].
  - io_inv. rename select (build_firmware _ _ _ _ _ = _) into Hf. rename select (build_workloads _ _ _ _ _ = _) into Hw.
    apply build_firmware_pass in Hf as [? Hf]. apply build_workloads_pass in Hw as [? Hw]. naive_solver.
  - destruct (String.eqb_spec (b_command a) "workloads") as [->|Hnw]; io_inv.
    + rename select (build_workloads _ _ _ _ _ = _) into Hw. apply build_workloads_pass in Hw as [? Hw].
      split; [cbn; intros [?|[?|[]]]; done|done].
    + rename select (build_firmware _ _ _ _ _ = _) into Hf. apply build_firmware_pass in Hf as [? Hf].
      split; [done|]. cbn. intros [?|[?|[]]]; by subst.
Qed.
End certified.

(** ** A plant with every tool *)

Record plant := mkPlant { p_removed : list string; p_said : list string }.

(** POSIX paths: dots are resolved in the text, there are no symbolic links. *)
Definition slash : ascii := "/"%char.
Definition posix_join (base path : string) : string := base +:+ "/" +:+ path.
Fixpoint collapse (stack parts : list string) : list string :=
  match parts with
  | [] => rev stack
  | part :: parts =>
      if String.eqb part "" || String.eqb part "." then collapse stack parts
      else if String.eqb part ".." then collapse (tail stack) parts
      else collapse (part :: stack) parts
  end.
Definition posix_resolve (path : string) : string := "/" +:+ str_join "/" (collapse [] (split_path slash path)).
Definition posix_name (path : string) : string := List.last (split_path slash path) EmptyString.
Definition posix_parent (path : string) : string :=
  "/" +:+ str_join "/" (removelast (collapse [] (split_path slash path))).

Definition plant_output (args : list string) : string :=
  match args with
  | [_; last] => if String.eqb last "version" then "picotool v2.3.0" else "NASM version 3.02"
  | _ => FREERTOS_COMMIT
  end.
Definition stored_workload : bytes :=
  match encode_workload_file sample_manifest sample_image with Ok b => b | Raise _ => [] end.

#[local] Instance plant_world : BuildWorld plant := {|
  os_nt := false;
  pathsep := ":"%char;
  ROOT := "/src/repo";
  path_join := posix_join;
  path_parent := posix_parent;
  path_name := posix_name;
  path_anchor := λ _, "/"%string;
  path_absolute := str_starts "/";
  expand_path := λ _ path, path;
  path_resolve := λ _, posix_resolve;
  home := λ _, "/home/dev"%string;
  file_exists := λ _ _, true;
  path_present := λ _ _, true;
  dir_exists := λ _ _, true;
  which := λ _ name _, Some (posix_join "/usr/bin" name);
  subprocess_run := λ args _ _, mret (Exited 0 (plant_output args));
  rmtree := λ path w, (mkPlant (p_removed w ++ [path]) (p_said w), Ok tt);
  read_replace := λ _, mret [];
  read_file := λ _, mret stored_workload;
  file_size := λ _, mret 100;
  sha256_hex := λ _, mret EmptyString;
  glob := λ _ _ _, ["/src/repo/artifacts/workloads/a.P86W"]%string;
  rglob := λ _ _ _, [];
  put := λ _ text w, mkPlant (p_removed w) (p_said w ++ [text]);
|}.

Definition plant_args (dir : option string) : build_args := mkBuildArgs "workloads" true true dir None None false.
Example removed_trees :
  (build_main (plant_args None) [] (mkPlant [] [], [])).1.2 = ["/src/repo/build-workloads"; "/src/repo/artifacts/workloads"]%string.
Proof. vm_compute. reflexivity. Qed.

(** The guard knows two directories: the parent of the repository is removed, and
    the repository with it. *)
Example clean_removes_parent :
  p_removed (build_main (plant_args (Some ".."%string)) [] (mkPlant [] [])).1
  = ["/src"; "/src/repo/artifacts/workloads"]%string.
Proof. vm_compute. reflexivity. Qed.

Example build_pass_certified_witness :
  ∃ w', build_main (plant_args None) [] (mkPlant [] []) = (w', Ok 0) ∧ pinned_workload_tools ∧ staged.
Proof.
  destruct (build_main (plant_args None) [] (mkPlant [] [])) as [w' r] eqn:E.
  assert (r = Ok 0) as -> by (by vm_compute in E; simplify_eq). exists w'. split; [done|].
  destruct (build_pass_certified _ _ _ _ E) as [_ Hw]. destruct Hw as [Ht Hs]; [by left|]. split; [done|]. by apply Hs.
Defined.
