(* ===== verification/Regex.v ===== *)
(** * Regular expressions of Python's [re], as far as the tools use them

    A backtracking matcher in continuation-passing style over ASCII text:
    character classes, greedy and lazy repetition of a class, concatenation,
    ordered choice, groups and the assertions [^], [$] and [\b].  A position is
    the character before it (none at the start of the text) and the text that
    follows.  [denotes] says which continuations a pattern allows; the matcher
    finds one exactly when there is one. *)

From S2P Require Import Prelude PyText Telemetry.
From Stdlib Require Import Ascii.

Abbreviation text := (list ascii).

Inductive re :=
| Eps
| Chr (p : ascii → bool)
| Rep (greedy : bool) (least : nat) (most : option nat) (p : ascii → bool)
| Cat (a b : re)
| Alt (a b : re)
| Group (r : re)
| Assert (holds : option ascii → text → bool).

(** ** The vocabulary of patterns *)

Definition one (c : ascii) : re := Chr (Ascii.eqb c).
Definition no_case (c : ascii) : re := Chr (λ x, Ascii.eqb (lower_char c) (lower_char x)).
Fixpoint word (of_char : ascii → re) (l : text) : re :=
  match l with [] => Eps | c :: l => Cat (of_char c) (word of_char l) end.
Definition literal (s : string) : re := word one (ascii_list s).
Definition hexdigit (c : ascii) : bool := bool_decide (is_Some (hex_value c)).
Definition star (p : ascii → bool) : re := Rep true 0 None p.
Definition plus (p : ascii → bool) : re := Rep true 1 None p.
Definition opt (p : ascii → bool) : re := Rep true 0 (Some 1%nat) p.
(** [a|b|c] *)
Fixpoint any_of (l : list re) : re :=
  match l with [] => Chr (λ _, false) | [r] => r | r :: l => Alt r (any_of l) end.
Definition between (least most : nat) (p : ascii → bool) : re := Rep true least (Some most) p.

Definition newline_char : ascii := "010"%char.
(** [^] and [$] with [re.MULTILINE], and [\b] *)
Definition line_start (prev : option ascii) (_ : text) : bool :=
  match prev with None => true | Some c => Ascii.eqb c newline_char end.
Definition line_end (_ : option ascii) (rest : text) : bool :=
  match rest with [] => true | c :: _ => Ascii.eqb c newline_char end.
(** [^] and [$] without [re.MULTILINE] *)
Definition text_start (prev : option ascii) (_ : text) : bool := match prev with None => true | Some _ => false end.
Definition text_end (_ : option ascii) (rest : text) : bool :=
  match rest with [] => true | [c] => Ascii.eqb c newline_char | _ => false end.
Definition word_boundary (prev : option ascii) (rest : text) : bool :=
  xorb (match prev with Some c => is_word c | None => false end)
       (match rest with c :: _ => is_word c | [] => false end).

(** ** Matching *)

(** The text between two positions *)
Definition consumed (from rest : text) : text := take (length from - length rest) from.

Section matching.
Context {R : Type}.
Abbreviation cont := (option ascii → text → list text → option R).

Definition pred_opt (most : option nat) : option nat :=
  match most with Some n => Some (n - 1)%nat | None => None end.
Definition room (most : option nat) : bool := match most with Some O => false | _ => true end.

(** A class repeated between [least] and [most] times: one more first when
    greedy, one more last when lazy *)
Fixpoint match_rep (greedy : bool) (least : nat) (most : option nat) (p : ascii → bool)
    (prev : option ascii) (rest : text) (caps : list text) (k : cont) : option R :=
  let stop := match least with O => k prev rest caps | _ => None end in
  let more :=
    match rest with
    | c :: rest => if room most && p c
                   then match_rep greedy (least - 1) (pred_opt most) p (Some c) rest caps k else None
    | [] => None
    end in
  if greedy then match more with Some x => Some x | None => stop end
  else match stop with Some x => Some x | None => more end.

Fixpoint match_re (r : re) (prev : option ascii) (rest : text) (caps : list text) (k : cont) : option R :=
  match r with
  | Eps => k prev rest caps
  | Chr p => match rest with c :: rest => if p c then k (Some c) rest caps else None | [] => None end
  | Rep greedy least most p => match_rep greedy least most p prev rest caps k
  | Cat a b => match_re a prev rest caps (λ prev rest caps, match_re b prev rest caps k)
  | Alt a b => match match_re a prev rest caps k with Some x => Some x | None => match_re b prev rest caps k end
  | Group r => match_re r prev rest caps (λ prev' rest' caps, k prev' rest' (caps ++ [consumed rest rest']))
  | Assert holds => if holds prev rest then k prev rest caps else None
  end.
End matching.

(** [pattern.match] at a position: where it ends, and the groups *)
Definition match_at (r : re) (prev : option ascii) (rest : text) : option (option ascii * text * list text) :=
  match_re r prev rest [] (λ prev rest caps, Some (prev, rest, caps)).

(** [pattern.search] *)
Fixpoint search_from (r : re) (prev : option ascii) (rest : text) : option (option ascii * text * list text) :=
  match match_at r prev rest with
  | Some found => Some found
  | None => match rest with c :: rest => search_from r (Some c) rest | [] => None end
  end.
Definition search (r : re) (t : text) : option (list text) :=
  match search_from r None t with Some (_, _, groups) => Some groups | None => None end.

(** [pattern.finditer]: each match starts where the last one ended; the fuel is
    the length of the text, which every match of a pattern without empty matches
    consumes. *)
Fixpoint findall_from (r : re) (fuel : nat) (prev : option ascii) (rest : text) : list (list text) :=
  match fuel with
  | O => []
  | S fuel =>
      match search_from r prev rest with
      | Some (prev, rest, groups) => groups :: findall_from r fuel prev rest
      | None => []
      end
  end.
Definition finditer (r : re) (t : text) : list (list text) := findall_from r (length t) None t.

(** [pattern.sub(template, text)] for a pattern without empty matches; the fuel
    is the length of the text *)
Fixpoint sub_from (r : re) (template : list text → text) (fuel : nat) (prev : option ascii) (rest : text) : text :=
  match fuel with
  | O => rest
  | S fuel =>
      match match_at r prev rest with
      | Some (prev, rest, groups) => template groups ++ sub_from r template fuel prev rest
      | None => match rest with c :: rest => c :: sub_from r template fuel (Some c) rest | [] => [] end
      end
  end.
Definition sub (r : re) (template : list text → text) (t : text) : text := sub_from r template (length t) None t.

(** [group(i)] *)
Definition group (i : nat) (groups : list text) : string := String.string_of_list_ascii (nth (i - 1) groups []).

(** ** What a pattern denotes *)

Fixpoint denotes (r : re) (prev : option ascii) (rest : text) (prev' : option ascii) (rest' : text) : Prop :=
  match r with
  | Eps => prev' = prev ∧ rest' = rest
  | Chr p => ∃ c, rest = c :: rest' ∧ p c = true ∧ prev' = Some c
  | Rep _ least most p =>
      ∃ w, rest = w ++ rest' ∧ forallb p w = true ∧ (least ≤ length w)%nat
        ∧ (match most with Some n => (length w ≤ n)%nat | None => True end)
        ∧ prev' = match last w with Some c => Some c | None => prev end
  | Cat a b => ∃ prev1 rest1, denotes a prev rest prev1 rest1 ∧ denotes b prev1 rest1 prev' rest'
  | Alt a b => denotes a prev rest prev' rest' ∨ denotes b prev rest prev' rest'
  | Group r => denotes r prev rest prev' rest'
  | Assert holds => holds prev rest = true ∧ prev' = prev ∧ rest' = rest
  end.

Lemma last_cons_default {A} (c : A) w prev :
  (match last (c :: w) with Some x => Some x | None => prev end)
  = (match last w with Some x => Some x | None => Some c end).
Proof. rewrite last_cons. by destruct (last w). Qed.

Section facts.
Context {R : Type}.
Abbreviation cont := (option ascii → text → list text → option R).
Implicit Types k : cont.

Lemma match_rep_sound greedy least most p prev rest caps k x :
  match_rep greedy least most p prev rest caps k = Some x →
  ∃ prev' rest', denotes (Rep greedy least most p) prev rest prev' rest' ∧ k prev' rest' caps = Some x.
Proof.
  revert least most prev. induction rest as [|c rest IH]; intros least most prev; cbn [match_rep].
  - intros H. destruct least; [|by destruct greedy]. exists prev, []. split; [|destruct greedy; [done|by destruct (k prev [] caps)]].
    exists []. split_and!; try done. destruct most; cbn; [lia|done].
  - set (stop := match least with O => _ | _ => _ end). set (more := if _ && _ then _ else _). intros H.
    assert (stop = Some x ∨ more = Some x) as [E|E] by (destruct greedy, stop, more; naive_solver).
    + unfold stop in E. destruct least; [|done]. exists prev, (c :: rest). split; [|done].
      exists []. split_and!; try done. destruct most; cbn; [lia|done].
    + unfold more in E. case_match eqn:Hg; [|done]. apply andb_prop in Hg as [Hr Hp].
      apply IH in E as (prev' & rest' & (w & -> & Hw & Hl & Hm & ->) & Hk).
      eexists _, rest'. split; [|exact Hk]. exists (c :: w). split; [done|]. cbn [forallb length]. rewrite Hp, Hw.
      split; [done|]. split; [lia|]. split; [destruct most as [[|n]|]; cbn in *; try done; lia|].
      by rewrite last_cons_default.
Qed.

Lemma match_rep_complete greedy least most p prev rest prev' rest' caps k :
  denotes (Rep greedy least most p) prev rest prev' rest' → is_Some (k prev' rest' caps) →
  is_Some (match_rep greedy least most p prev rest caps k).
Proof.
  intros (w & -> & Hw & Hl & Hm & ->) Hk. revert least most prev Hl Hm Hk.
  induction w as [|c w IH]; intros least most prev Hl Hm Hk.
  - cbn in Hl, Hk. assert (least = 0%nat) as -> by lia. destruct Hk as [x Hk].
    destruct rest' as [|c rest']; cbn [app match_rep]; rewrite Hk; destruct greedy; try by eexists.
    destruct (if _ && _ then _ else _); by eexists.
  - cbn [forallb] in Hw. apply andb_prop in Hw as [Hp Hw]. cbn [length] in Hl, Hm. rewrite last_cons_default in Hk.
    assert (is_Some (match_rep greedy (least - 1) (pred_opt most) p (Some c) (w ++ rest') caps k)) as Hrec.
    { apply IH; [done|lia| |done]. destruct most; cbn; [lia|done]. }
    cbn [app match_rep]. rewrite Hp. assert (room most = true) as -> by (destruct most as [[|]|]; [lia|done..]).
    destruct Hrec as [x Hrec]. cbn [andb]. rewrite Hrec.
    destruct greedy; [by eexists|]. destruct (match least with O => _ | _ => _ end); by eexists.
Qed.

(** The matcher finds only continuations the pattern allows ... *)
Lemma match_re_sound r prev rest caps k x :
  match_re r prev rest caps k = Some x →
  ∃ prev' rest' caps', denotes r prev rest prev' rest' ∧ k prev' rest' caps' = Some x.
Proof.
  revert prev rest caps k. induction r as [|p|g l m p|a IHa b IHb|a IHa b IHb|r IH|h]; intros prev rest caps k; cbn [match_re denotes].
  - eauto 10.
  - destruct rest as [|c rest]; [done|]. case_match; [|done]. eauto 10.
  - intros H. apply match_rep_sound in H as (prev' & rest' & ? & ?). eauto.
  - intros H. apply IHa in H as (p1 & r1 & c1 & Ha & H). apply IHb in H as (p2 & r2 & c2 & Hb & H). eauto 10.
  - case_match eqn:E; [intros [= ->]; apply IHa in E|intros E'; apply IHb in E']; naive_solver.
  - intros H. apply IH in H as (p1 & r1 & c1 & Ha & H). eauto 10.
  - case_match; [|done]. eauto 10.
Qed.

(** ... and fails only when there is none. *)
Lemma match_re_complete r prev rest prev' rest' caps k :
  denotes r prev rest prev' rest' → (∀ caps', is_Some (k prev' rest' caps')) →
  is_Some (match_re r prev rest caps k).
Proof.
  revert prev rest prev' rest' caps k.
  induction r as [|p|g l m p|a IHa b IHb|a IHa b IHb|r IH|h]; intros prev rest prev' rest' caps k; cbn [match_re]; intros Hd Hk.
  - cbn in Hd. destruct Hd as [-> ->]. apply Hk.
  - destruct Hd as (c & -> & -> & ->). apply Hk.
  - by eapply match_rep_complete.
  - destruct Hd as (p1 & r1 & Ha & Hb). eapply IHa; [done|]. intros caps'. by eapply IHb.
  - destruct Hd as [Ha|Hb]; [eapply IHa in Ha as [x ->]; [by eexists|done]|].
    case_match; [by eexists|]. by eapply IHb.
  - eapply IH; [done|]. intros caps'. apply Hk.
  - cbn in Hd. destruct Hd as (-> & -> & ->). apply Hk.
Qed.

(** A greedy repetition takes all it can, when the rest then matches. *)
Lemma match_rep_longest least most p prev w rest caps k x :
  forallb p w = true → (least ≤ length w)%nat →
  (match most with Some n => (length w ≤ n)%nat | None => True end) →
  (most = Some (length w) ∨ match rest with c :: _ => p c = false | [] => True end) →
  k (match last w with Some c => Some c | None => prev end) rest caps = Some x →
  match_rep true least most p prev (w ++ rest) caps k = Some x.
Proof.
  revert least most prev. induction w as [|c w IH]; intros least most prev Hw Hl Hm Hs Hk.
  - cbn in Hl, Hk. assert (least = 0%nat) as -> by lia. destruct rest as [|c rest]; cbn [app match_rep]; [done|].
    destruct Hs as [->|Hp]; [done|]. by rewrite Hp, andb_false_r.
  - cbn [forallb] in Hw. apply andb_prop in Hw as [Hp Hw]. cbn [length] in *. rewrite last_cons_default in Hk.
    cbn [app match_rep]. rewrite Hp. assert (room most = true) as -> by (destruct most as [[|]|]; [lia|done..]).
    cbn [andb]. erewrite IH; [done|done|lia| | |exact Hk].
    + destruct most; cbn; [lia|done].
    + destruct Hs as [->|Hs]; [left; cbn; f_equal; lia|by right].
Qed.
End facts.

Lemma consumed_app (w rest : text) : consumed (w ++ rest) rest = w.
Proof. unfold consumed. rewrite length_app, Nat.add_sub. apply take_app_length. Qed.
