(* ===== verification/DocCheck.v ===== *)
(** * The documentation check (scripts/check_docs.py)

    The check reads every first-party Markdown file, reports broken links,
    unclosed fences, duplicate headings and violations of the documentation
    policy, and waives the policy violations the exceptions file lists.  A path
    is the list of its parts below the root; the files are the class
    [Repository], which does not change during a check.  Documents are ASCII
    text.

    The theorems say what a passing check certifies, and that a link written in
    a document is not overlooked. *)

From stdpp Require Import sorting.
From Stdlib Require Import Ascii.
From S2P Require Import Prelude PyText Telemetry Transport Build Regex.

Abbreviation relative := (list string).

Class Repository := {
  md_files : list relative;                      (** [root.rglob("*.md")], below the root *)
  md_text : relative → result string;            (** [(root / path).read_text(encoding="utf-8")] *)
  md_link : relative → string → result bool;     (** [((root / path).parent / target).exists()] *)
  md_exists : relative → result bool;            (** [(root / path).exists()] *)
}.

Definition EXCLUDED_PARTS : list string := [".git"; "build"; "third_party"; ".tools"]%string.
Definition HISTORICAL_POLICY_PARTS : list string := ["releases"; "retrospectives"]%string.
Definition EXCEPTIONS_PATH : relative := ["docs"; "document_policy_exceptions.txt"]%string.

Definition as_posix (parts : relative) : string :=
  match parts with [] => "." | _ => str_join "/" parts end.

Record Issue := mkIssue { is_path : relative; is_line : Z; is_code : string; is_message : string }.

Definition issue_format (i : Issue) : string :=
  let location := if is_line i =? 0 then as_posix (is_path i) else as_posix (is_path i) +:+ ":" +:+ dec (is_line i) in
  location +:+ ": " +:+ is_code i +:+ ": " +:+ is_message i.

(** The order of paths: part by part *)
Fixpoint parts_leb (a b : relative) : bool :=
  match a, b with
  | [], _ => true
  | _ :: _, [] => false
  | x :: a, y :: b => if String.eqb x y then parts_leb a b else String.leb x y
  end.
Definition parts_le (a b : relative) : Prop := parts_leb a b = true.
#[global] Instance parts_le_dec : RelDecision parts_le.
Proof. intros a b. unfold parts_le. apply _. Defined.

(** [text.splitlines()] *)
Definition text_lines (s : string) : list text := map (λ b, ascii_list (of_octets b)) (splitlines (encode_utf8 s)).
(** [enumerate(lines, 1)] *)
Definition numbered (lines : list text) : list (Z * text) := imap (λ i l, (Z.of_nat i + 1, l)) lines.

(** [line.split(maxsplit=n)]: at most [n] words, then the rest *)
Fixpoint take_word (l : text) : text * text :=
  match l with
  | c :: l' => if str_space c then ([], l) else let '(w, rest) := take_word l' in (c :: w, rest)
  | [] => ([], [])
  end.
Fixpoint split_max (n : nat) (l : text) : list text :=
  match skip_spaces l with
  | [] => []
  | l => match n with
         | O => [l]
         | S n => let '(w, rest) := take_word l in w :: split_max n rest
         end
  end.

Definition string_of : text → string := String.string_of_list_ascii.
Definition text_starts (p : string) (l : text) : bool := str_starts p (string_of l).
Definition strip_text (l : text) : text := reverse (skip_spaces (reverse (skip_spaces l))).
(** [s.casefold()] of ASCII text *)
Definition casefold (l : text) : text := map lower_char l.

(** [target.split(c, 1)[0]] *)
Fixpoint before (c : ascii) (l : text) : text :=
  match l with x :: l => if Ascii.eqb x c then [] else x :: before c l | [] => [] end.

(** [urllib.parse.unquote(s)] *)
Fixpoint unquote_octets (l : text) : text :=
  match l with
  | "%"%char :: ((a :: b :: l) as rest) =>
      match hex_value a, hex_value b with
      | Some h, Some v => ascii_of_N (Z.to_N (16 * h + v)) :: unquote_octets l
      | _, _ => "%"%char :: unquote_octets rest
      end
  | c :: l => c :: unquote_octets l
  | [] => []
  end.
Definition unquote (l : text) : text :=
  if existsb (Ascii.eqb "%") l
  then ascii_list (decode_utf8_replace (encode_utf8 (string_of (unquote_octets l)))) else l.

(** ** Patterns *)

Definition not_char (c x : ascii) : bool := negb (Ascii.eqb c x).
Definition backquote : ascii := ascii_of_N 96.
Definition seq_re (l : list re) : re := foldr Cat Eps l.
Definition bounded (r : re) : re := seq_re [Assert word_boundary; r; Assert word_boundary].

(** [\[([^]]+)\]\([^)]+\)] *)
Definition INLINE_LINK : re :=
  seq_re [one "["; Group (plus (not_char "]")); one "]"; one "("; plus (not_char ")"); one ")"].
(** [[`*_~]] *)
Definition EMPHASIS : re := Chr (λ c, existsb (Ascii.eqb c) [backquote; "*"; "_"; "~"]%char).
(** [\s+#+\s*$] *)
Definition CLOSING_HASHES : re := seq_re [plus str_space; plus (Ascii.eqb "#"); star str_space; Assert text_end].
Definition SPACES : re := plus str_space.
(** [^(`{3,}|~{3,})] *)
Definition FENCE : re :=
  seq_re [Assert text_start; Group (Alt (Rep true 3 None (Ascii.eqb backquote)) (Rep true 3 None (Ascii.eqb "~")))].
(** [^(#{1,6})\s+(.+?)\s*$] *)
Definition HEADING : re :=
  seq_re [Assert text_start; Group (between 1 6 (Ascii.eqb "#")); plus str_space;
          Group (Rep false 1 None (not_char newline_char)); star str_space; Assert text_end].
(** [!?\[[^]]*\]\(([^)]+)\)] *)
Definition LINK : re :=
  seq_re [opt (Ascii.eqb "!"); one "["; star (not_char "]"); one "]"; one "("; Group (plus (not_char ")")); one ")"].

Definition re_match (r : re) (l : text) : option (list text) :=
  match match_at r None l with Some (_, _, groups) => Some groups | None => None end.
Definition found_in (r : re) (l : text) : bool := match search r l with Some _ => true | None => false end.
Definition captured (i : nat) (groups : list text) : text := nth (i - 1) groups [].

(** ** Functions of one text *)

Definition split_target (raw_target : text) : result text :=
  let target := strip_text raw_target in
  if text_starts "<" target && existsb (Ascii.eqb ">") target then Ok (before ">" (drop 1 target))
  else match split_max 1 target with word :: _ => Ok word | [] => Raise IndexError end.

Definition normalize_heading (value : text) : text :=
  let value := sub INLINE_LINK (captured 1) value in
  let value := sub EMPHASIS (λ _, []) value in
  let value := sub CLOSING_HASHES (λ _, []) value in
  casefold (sub SPACES (λ _, [" "%char]) (strip_text value)).

Definition external (target : text) : bool :=
  existsb (λ p, text_starts p target)
    ["#"; "http://"; "https://"; "mailto:"; "chatgpt-conversation:"]%string.

(** The file a link names; [None] when it names none *)
Definition link_target (raw : text) : result (option string) :=
  target ← split_target raw;
  let target := unquote target in
  if bool_decide (target = []) || external target then mret None else
  match before "?" (before "#" target) with
  | [] => mret None
  | target => mret (Some (string_of target))
  end.

(** ** Structure *)

Section check_docs.
Context `{Repository}.

(** What the loop over the lines of a document carries *)
Record scan := mkScan {
  fence_marker : option ascii;
  fence_line : Z;
  heading_paths : gmap (list text) Z;
  heading_stack : list text;
}.

(** The links of a line that name no file *)
Fixpoint link_issues (path : relative) (number : Z) (found : list (list text)) : result (list Issue) :=
  match found with
  | [] => mret []
  | groups :: found =>
      target ← link_target (captured 1 groups);
      here ← match target with
             | None => mret []
             | Some target =>
                 exists_ ← md_link path target;
                 mret (if (exists_ : bool) then []
                       else [mkIssue path number "MD001" ("broken relative link: " +:+ target)])
             end;
      rest ← link_issues path number found;
      mret (here ++ rest)
  end.

Definition note_heading (path : relative) (number : Z) (line : text) (s : scan) : scan * list Issue :=
  match re_match HEADING line with
  | None => (s, [])
  | Some groups =>
      let level := length (captured 1 groups) in
      let normalized := normalize_heading (captured 2 groups) in
      let stack := take (level - 1) (heading_stack s) in
      let heading_path := stack ++ [normalized] in
      let '(paths, issues) :=
        match heading_paths s !! heading_path with
        | Some first => (heading_paths s,
            [mkIssue path number "MD003"
               ("duplicate heading under the same parent; first used at line " +:+ dec first)])
        | None => (<[heading_path := number]> (heading_paths s), [])
        end in
      (mkScan (fence_marker s) (fence_line s) paths (stack ++ [normalized]), issues)
  end.

Definition scan_line (path : relative) (number : Z) (line : text) (s : scan) : result (scan * list Issue) :=
  match re_match FENCE (skip_spaces line) with
  | Some groups =>
      let marker := default "000"%char (head (captured 1 groups)) in
      match fence_marker s with
      | None => mret (mkScan (Some marker) number (heading_paths s) (heading_stack s), [])
      | Some open =>
          if Ascii.eqb marker open then mret (mkScan None 0 (heading_paths s) (heading_stack s), [])
          else mret (s, [])
      end
  | None =>
      match fence_marker s with
      | Some _ => mret (s, [])
      | None =>
          let '(s, headings) := note_heading path number line s in
          links ← link_issues path number (finditer LINK line);
          mret (s, headings ++ links)
      end
  end.

Fixpoint scan_lines (path : relative) (lines : list (Z * text)) (s : scan) : result (scan * list Issue) :=
  match lines with
  | [] => mret (s, [])
  | (number, line) :: lines =>
      '(s, here) ← scan_line path number line s;
      '(s, rest) ← scan_lines path lines s;
      mret (s, here ++ rest)
  end.

Definition structural_issues (path : relative) : result (list Issue) :=
  content ← md_text path;
  '(s, issues) ← scan_lines path (numbered (text_lines content)) (mkScan None 0 ∅ []);
  mret (issues ++ match fence_marker s with
                  | Some _ => [mkIssue path (fence_line s) "MD002" "unclosed fenced code block"]
                  | None => []
                  end).

(** ** Policy *)

Definition VALIDATION_CHECKS : list (string * re * string) :=
  [("VAL001"%string,
    any_of [literal "build target"; literal "firmware target"; literal "validation target";
            bounded (literal "uf2"); bounded (literal "target")],
    "missing firmware/test target identity"%string);
   ("VAL002"%string,
    any_of [bounded (literal "clock"); bounded (literal "mhz"); bounded (literal "khz"); literal "stepped"],
    "missing clock or timing identity"%string);
   ("VAL003"%string,
    any_of [bounded (literal "pass"); bounded (literal "fail"); bounded (literal "invalid"); bounded (literal "accepted")],
    "missing explicit result"%string);
   ("VAL004"%string,
    any_of [literal "limitation"; literal "boundary"; literal "does not"; literal "scope";
            literal "interpretation"; literal "conclusion"],
    "missing scope or limitation statement"%string)].

Definition RESPONSE_ARCHITECTURE : re :=
  seq_re [literal "response architecture"; star str_space; one ":"; star str_space; between 0 2 (Ascii.eqb "*");
          any_of [seq_re [literal "fixed"; star str_space; one "/"; star str_space; literal "prestaged"];
                  literal "address-qualified"; literal "bounded memory"; literal "cached guaranteed hit";
                  literal "general memory with defined miss policy"; literal "integrated system"];
          Assert word_boundary].

Definition AGENT : re := bounded (Group (any_of (map literal ["ai"; "codex"; "chatgpt"; "model"]%string))).
Definition CURRENT_CYCLE : re :=
  bounded (Group (any_of [seq_re [literal "current"; Chr (λ c, existsb (Ascii.eqb c) ["-"; " "]%char); literal "cycle"];
                          literal "active bus cycle"; literal "processor bus cycle"; literal "v30 bus cycle"])).
Definition NEGATION : re :=
  bounded (Group (any_of (map literal ["not"; "never"; "no"; "outside"; "must not"; "cannot"; "isn't"; "doesn't"]%string))).

Definition validation_issues (path : relative) (lower : text) : list Issue :=
  (VALIDATION_CHECKS ≫= λ '(code, pattern, message),
     if found_in pattern lower then [] else [mkIssue path 1 code message])
  ++ (if text_starts "ai_b" (casefold (ascii_list (default EmptyString (last path)))) && negb (found_in RESPONSE_ARCHITECTURE lower)
      then [mkIssue path 1 "VAL005" "missing or invalid response-architecture classification"] else []).

Definition agent_issues (path : relative) (lines : list (Z * text)) : list Issue :=
  lines ≫= λ '(number, line),
    let lowered := casefold line in
    if negb (found_in AGENT lowered && found_in CURRENT_CYCLE lowered) then []
    else if found_in NEGATION lowered then []
    else [mkIssue path number "ARCH001" "AI/host agent appears in current-cycle path without an explicit exclusion"].

Definition policy_of (path : relative) (content : string) : list Issue :=
  (if bool_decide (take 2 path = ["docs"; "validation"]%string)
   then validation_issues path (casefold (ascii_list content)) else [])
  ++ (if str_in "docs" path && negb (existsb (λ part, str_in part HISTORICAL_POLICY_PARTS) path)
      then agent_issues path (numbered (text_lines content)) else []).
Definition policy_issues (path : relative) : result (list Issue) :=
  content ← md_text path; mret (policy_of path content).

(** ** The repository *)

Definition first_party (path : relative) : bool := negb (existsb (λ part, str_in part EXCLUDED_PARTS) path).
Definition first_party_markdown : list relative := merge_sort parts_le (List.filter first_party md_files).

Fixpoint exception_lines (lines : list (Z * text)) (exceptions : gmap (string * string) string)
  : result (gmap (string * string) string) :=
  match lines with
  | [] => mret exceptions
  | (number, raw) :: lines =>
      let line := strip_text raw in
      if bool_decide (line = []) || text_starts "#" line then exception_lines lines exceptions else
      match split_max 2 line with
      | [file_name; code; reason] =>
          exception_lines lines (<[(string_of file_name, string_of code) := string_of reason]> exceptions)
      | _ => Raise (ValueError (as_posix EXCEPTIONS_PATH +:+ ":" +:+ dec number +:+ ": expected PATH CODE REASON"))
      end
  end.

Definition parse_exceptions : result (gmap (string * string) string) :=
  present ← md_exists EXCEPTIONS_PATH;
  if (present : bool) then
    content ← md_text EXCEPTIONS_PATH;
    exception_lines (numbered (text_lines content)) ∅
  else mret ∅.

Definition waivable (exceptions : gmap (string * string) string) (i : Issue) : bool :=
  bool_decide (is_Some (exceptions !! (as_posix (is_path i), is_code i)))
  && (str_starts "VAL" (is_code i) || str_starts "ARCH" (is_code i)).

(** The failures and the waived issues, in the order they are found *)
Fixpoint check_files (exceptions : gmap (string * string) string) (paths : list relative)
  : result (list Issue * list Issue) :=
  match paths with
  | [] => mret ([], [])
  | path :: paths =>
      structural ← structural_issues path;
      policy ← policy_issues path;
      let issues := structural ++ policy in
      '(failures, waived) ← check_files exceptions paths;
      mret (List.filter (λ i, negb (waivable exceptions i)) issues ++ failures,
            List.filter (waivable exceptions) issues ++ waived)
  end.

Definition check_repository : result (list Issue * list Issue) :=
  exceptions ← parse_exceptions;
  check_files exceptions first_party_markdown.

(** The exit code and what is printed; [true] is the error stream.  A
    [UnicodeError] is a [ValueError]. *)
Definition check_docs_main (show_waived : bool) : result (Z * list (bool * string)) :=
  let failed exc := mret (2, [(true, "DOC CHECK ERROR: " +:+ exc)]) in
  match check_repository with
  | Raise (ValueError exc) | Raise (OSError exc) => failed exc
  | Raise e => Raise e
  | Ok (failures, waived) =>
      let out := (if show_waived then map (λ i, "WAIVED " +:+ issue_format i) waived else [])
        ++ map issue_format failures
        ++ ["Markdown files checked = " +:+ dec (len first_party_markdown);
            "Policy waivers         = " +:+ dec (len waived);
            "Documentation failures = " +:+ dec (len failures);
            "DOCUMENTATION CHECK    = " +:+ (match failures with [] => "PASS" | _ => "FAIL" end)] in
      mret (match failures with [] => 0 | _ => 1 end, map (pair false) out)
  end.

(** ** A document without structural faults *)

(** The marker of a fence line *)
Definition fence_of (line : text) : option ascii :=
  match re_match FENCE (skip_spaces line) with
  | Some groups => Some (default "000"%char (head (captured 1 groups)))
  | None => None
  end.

(** The lines outside fenced blocks, and the fence open at the end *)
Fixpoint outside (open : option ascii) (lines : list (Z * text)) : list (Z * text) * option ascii :=
  match lines with
  | [] => ([], open)
  | (number, line) :: lines =>
      match fence_of line, open with
      | Some marker, None => outside (Some marker) lines
      | Some marker, Some m => outside (if Ascii.eqb marker m then None else open) lines
      | None, Some _ => outside open lines
      | None, None => let '(visible, at_end) := outside None lines in ((number, line) :: visible, at_end)
      end
  end.

(** Each heading with the headings above it *)
Definition heading_trail (stack : list text) (line : text) : option (list text) :=
  match re_match HEADING line with
  | None => None
  | Some groups => Some (take (length (captured 1 groups) - 1) stack ++ [normalize_heading (captured 2 groups)])
  end.
Fixpoint trails (stack : list text) (lines : list (Z * text)) : list (list text) :=
  match lines with
  | [] => []
  | (_, line) :: lines =>
      match heading_trail stack line with
      | None => trails stack lines
      | Some trail => trail :: trails trail lines
      end
  end.

Definition link_good (path : relative) (groups : list text) : Prop :=
  link_target (captured 1 groups) = Ok None
  ∨ ∃ target, link_target (captured 1 groups) = Ok (Some target) ∧ md_link path target = Ok true.
Definition links_good (path : relative) (line : Z * text) : Prop := Forall (link_good path) (finditer LINK line.2).

Definition document_clean (path : relative) (content : string) : Prop :=
  let '(visible, at_end) := outside None (numbered (text_lines content)) in
  at_end = None ∧ NoDup (trails [] visible) ∧ Forall (links_good path) visible.

Lemma link_issues_clean path number found :
  link_issues path number found = Ok [] ↔ Forall (link_good path) found.
Proof.
  induction found as [|groups found IH]; cbn [link_issues]; [done|]. rewrite Forall_cons, <- IH.
  clear IH. unfold link_good, mret, result_ret.
  destruct (link_target (captured 1 groups)) as [[target|]|e]; cbn;
    [destruct (md_link path target) as [[]|e] eqn:E; cbn| |];
    try (destruct (link_issues path number found) as [l|e']; cbn);
    (split; [intros Heq; simplify_eq/=; eauto 8|intros [[Hn|(t & Ht & Hl)] Hf]; try congruence]).
Qed.

Lemma scan_line_fence path number line s :
  scan_line path number line s
  = match fence_of line, fence_marker s with
    | Some marker, None => Ok (mkScan (Some marker) number (heading_paths s) (heading_stack s), [])
    | Some marker, Some m =>
        Ok (if Ascii.eqb marker m then mkScan None 0 (heading_paths s) (heading_stack s) else s, [])
    | None, Some _ => Ok (s, [])
    | None, None =>
        let '(s, headings) := note_heading path number line s in
        links ← link_issues path number (finditer LINK line); mret (s, headings ++ links)
    end.
Proof. unfold scan_line, fence_of. by repeat case_match; simplify_eq/=. Qed.

Lemma note_heading_trail path number line s :
  note_heading path number line s
  = match heading_trail (heading_stack s) line with
    | None => (s, [])
    | Some trail =>
        match heading_paths s !! trail with
        | Some first =>
            (mkScan (fence_marker s) (fence_line s) (heading_paths s) trail,
             [mkIssue path number "MD003" ("duplicate heading under the same parent; first used at line " +:+ dec first)])
        | None => (mkScan (fence_marker s) (fence_line s) (<[trail := number]> (heading_paths s)) trail, [])
        end
    end.
Proof. unfold note_heading, heading_trail. by repeat case_match; simplify_eq/=. Qed.

Definition scan_clean (path : relative) (lines : list (Z * text)) (s : scan) (at_end : option ascii) : Prop :=
  let '(visible, open) := outside (fence_marker s) lines in
  open = at_end ∧ NoDup (trails (heading_stack s) visible)
  ∧ Forall (λ t, heading_paths s !! t = None) (trails (heading_stack s) visible) ∧ Forall (links_good path) visible.

Lemma fresh_after_insert (m : gmap (list text) Z) trail n l :
  Forall (λ t, (<[trail := n]> m) !! t = None) l ↔ (trail ∉ l) ∧ Forall (λ t, m !! t = None) l.
Proof.
  rewrite !Forall_forall. setoid_rewrite lookup_insert_None. split.
  - intros Hl. split; [|naive_solver]. intros Hin. by apply Hl in Hin as [].
  - intros [Hn Hl] t Ht. split; [by apply Hl|]. by intros ->.
Qed.

(** One visible line: no issue, exactly when its heading is new and its links
    are good. *)
Lemma visible_clean path number line lines s at_end :
  (∃ s', fence_marker s' = None
     ∧ (let '(s, headings) := note_heading path number line s in
        links ← link_issues path number (finditer LINK line); mret (s, headings ++ links)) = Ok (s', [])
     ∧ scan_clean path lines s' at_end) ↔
  (fence_marker s = None ∧ let '(visible, open) := outside None lines in
   let visible := (number, line) :: visible in
   open = at_end ∧ NoDup (trails (heading_stack s) visible)
   ∧ Forall (λ t, heading_paths s !! t = None) (trails (heading_stack s) visible) ∧ Forall (links_good path) visible).
Proof.
  rewrite note_heading_trail. unfold scan_clean. destruct (outside None lines) as [visible open] eqn:Ho.
  cbn [trails]. rewrite Forall_cons. unfold links_good at 2. cbn [snd]. rewrite <- (link_issues_clean path number).
  destruct (heading_trail (heading_stack s) line) as [trail|]; [destruct (heading_paths s !! trail) eqn:Hp|];
    (destruct (link_issues path number (finditer LINK line)) as [l|e]; cbn;
     [|split; [intros (? & ? & [=] & ?)|intros (? & ? & ? & ? & [=] & ?)]]).
  - split; [intros (? & _ & [=] & _)|intros (_ & _ & _ & Hf & _)]. apply Forall_cons in Hf as [Hf _]. congruence.
  - rewrite NoDup_cons, Forall_cons. split.
    + intros (s' & Hs & [= <- ->] & Hrest). cbn in Hs, Hrest. rewrite Hs, Ho, fresh_after_insert in Hrest. naive_solver.
    + intros (Hs & ? & [Hn ?] & [_ ?] & [= ->] & ?). eexists. split; [|split; [reflexivity|]]; cbn; [done|].
      rewrite Hs, Ho, fresh_after_insert. naive_solver.
  - split.
    + intros (s' & Hs & [= <- ->] & Hrest). rewrite Hs, Ho in Hrest. naive_solver.
    + intros (Hs & ? & ? & ? & [= ->] & ?). exists s. rewrite Hs, Ho. done.
Qed.

Lemma exists_ok {A} (x : A) (P : A → Prop) : (∃ y, Ok (x, @nil Issue) = Ok (y, []) ∧ P y) ↔ P x.
Proof. naive_solver. Qed.

Lemma scan_lines_clean path lines s at_end :
  (∃ s', scan_lines path lines s = Ok (s', []) ∧ fence_marker s' = at_end) ↔ scan_clean path lines s at_end.
Proof.
  revert s. induction lines as [|[number line] lines IH]; intros s.
  { unfold scan_clean. cbn. split; [intros (s' & [= <-] & ->)|intros (<- & _)]; [|by exists s].
    split_and!; [done|constructor..]. }
  assert ((∃ s', scan_lines path ((number, line) :: lines) s = Ok (s', []) ∧ fence_marker s' = at_end) ↔
          ∃ s1, scan_line path number line s = Ok (s1, []) ∧ scan_clean path lines s1 at_end) as ->.
  { setoid_rewrite <- IH. cbn [scan_lines]. destruct (scan_line path number line s) as [[s1 here]|e]; cbn; [|naive_solver].
    destruct (scan_lines path lines s1) as [[s2 rest]|e] eqn:E; cbn.
    - split; [intros (s' & [= -> Hr] & Hf); apply app_eq_nil in Hr as [-> ->]; eauto|].
      intros (s' & [= <- ->] & s'' & Hr & Hf). rewrite E in Hr. simplify_eq/=. eauto.
    - split; [intros (? & [=] & _)|intros (s' & [= <- ->] & s'' & Hr & Hf)]. congruence. }
  setoid_rewrite scan_line_fence. unfold scan_clean at 2. cbn [outside].
  destruct (fence_of line) as [marker|], (fence_marker s) as [m|] eqn:Hm.
  - rewrite exists_ok. unfold scan_clean. destruct (Ascii.eqb marker m); cbn; by rewrite ?Hm.
  - by rewrite exists_ok.
  - rewrite exists_ok. unfold scan_clean. by rewrite Hm.
  - pose proof (visible_clean path number line lines s at_end) as Hv. destruct (outside None lines) as [visible open].
    transitivity (∃ s', fence_marker s' = None
      ∧ (let '(s, headings) := note_heading path number line s in
         links ← link_issues path number (finditer LINK line); mret (s, headings ++ links)) = Ok (s', [])
      ∧ scan_clean path lines s' at_end); [|by rewrite Hv; naive_solver].
    f_equiv. intros s1. split; [|naive_solver]. intros [Hs ?]. split; [|done].
    rewrite note_heading_trail in Hs.
    destruct (heading_trail (heading_stack s) line) as [trail|]; [destruct (heading_paths s !! trail) eqn:Hp|];
      destruct (link_issues path number (finditer LINK line)) as [l|e]; cbn in Hs; unfold mret, result_ret in Hs; by simplify_eq/=.
Qed.

Lemma structural_clean path :
  structural_issues path = Ok [] ↔ ∃ content, md_text path = Ok content ∧ document_clean path content.
Proof.
  unfold structural_issues. destruct (md_text path) as [content|e]; cbn; [|naive_solver].
  assert (document_clean path content
          ↔ scan_clean path (numbered (text_lines content)) (mkScan None 0 ∅ []) None) as Hd.
  { unfold document_clean, scan_clean. cbn. destruct (outside _ _) as [visible open]. split; [|naive_solver].
    intros (? & ? & ?). split_and!; try done. apply Forall_forall. intros. apply lookup_empty. }
  transitivity (document_clean path content); [|naive_solver]. rewrite Hd, <- scan_lines_clean.
  destruct (scan_lines _ _ _) as [[s issues]|e]; cbn; [|naive_solver].
  destruct (fence_marker s) eqn:Hf.
  - split; [intros [= Hn]; by destruct issues|]. intros (? & [= <- ->] & ?). congruence.
  - rewrite app_nil_r. split; [intros [= ->]; eauto|]. by intros (? & [= <- ->] & ?).
Qed.

(** Structural issues carry codes no exception can waive. *)
Definition structural_code (i : Issue) : Prop := is_code i ∈ ["MD001"; "MD002"; "MD003"]%string.

Lemma link_issues_codes path number found issues :
  link_issues path number found = Ok issues → Forall structural_code issues.
Proof.
  revert issues. induction found as [|groups found IH]; intros issues; cbn [link_issues]; [by intros [= <-]|].
  destruct (link_target (captured 1 groups)) as [target|e]; cbn; [|done].
  destruct target as [target|]; [destruct (md_link path target) as [[]|]|]; cbn; try done;
    destruct (link_issues path number found) as [l|e]; cbn; try done; intros [= <-]; auto.
  constructor; [|auto]. unfold structural_code. cbn. set_solver.
Qed.

Lemma scan_lines_codes path lines s s' issues :
  scan_lines path lines s = Ok (s', issues) → Forall structural_code issues.
Proof.
  revert s s' issues. induction lines as [|[number line] lines IH]; intros s s' issues; cbn [scan_lines]; [by intros [= <- <-]|].
  rewrite scan_line_fence, note_heading_trail. intros Hs.
  assert (∃ s1 here rest, issues = here ++ rest ∧ scan_lines path lines s1 = Ok (s', rest) ∧ Forall structural_code here)
    as (s1 & here & rest & -> & Hrest & Hhere); [|apply Forall_app; eauto].
  assert (∀ m : result (scan * list Issue), (∀ s1 here, m = Ok (s1, here) → Forall structural_code here) →
    (m ≫= λ '(s1, here), scan_lines path lines s1 ≫= λ '(s2, rest), mret (s2, here ++ rest)) = Ok (s', issues) →
    ∃ s1 here rest, issues = here ++ rest ∧ scan_lines path lines s1 = Ok (s', rest) ∧ Forall structural_code here) as Hbind.
  { intros [[s1 here]|e] Hh Hm; cbn in Hm; [|done].
    destruct (scan_lines path lines s1) as [[s2 rest]|e] eqn:E; cbn in Hm; [|done]. injection Hm as <- <-. eauto 8. }
  apply Hbind in Hs; [done|]. intros s1 here.
  destruct (fence_of line) as [marker|], (fence_marker s) as [m|]; try by intros [= <- <-].
  destruct (heading_trail (heading_stack s) line) as [trail|]; [destruct (heading_paths s !! trail)|];
    (destruct (link_issues path number (finditer LINK line)) as [l|e] eqn:E; cbn; [|done]);
    intros [= <- <-]; apply link_issues_codes in E; try done.
  constructor; [|done]. unfold structural_code. cbn. set_solver.
Qed.

Lemma structural_not_waived path issues exceptions :
  structural_issues path = Ok issues → Forall (λ i, waivable exceptions i = false) issues.
Proof.
  intros Hs. apply (Forall_impl structural_code).
  2:{ intros i Hi. unfold waivable. apply andb_false_intro2. unfold structural_code in Hi.
      rewrite !elem_of_cons, elem_of_nil in Hi. destruct Hi as [->|[->|[->|[]]]]; reflexivity. }
  unfold structural_issues in Hs. destruct (md_text path) as [content|e]; cbn in Hs; [|done].
  destruct (scan_lines _ _ _) as [[s l]|e] eqn:E; cbn in Hs; [|done]. injection Hs as <-.
  apply scan_lines_codes in E. apply Forall_app_2; [done|].
  destruct (fence_marker s); [|constructor]. constructor; [|constructor]. unfold structural_code. cbn. set_solver.
Qed.

Lemma filter_none {A} (f : A → bool) l : List.filter f l = [] ↔ Forall (λ x, f x = false) l.
Proof.
  induction l as [|x l IH]; cbn; [done|]. rewrite Forall_cons. destruct (f x) eqn:E; [|naive_solver].
  split; [done|]. intros [? _]. congruence.
Qed.

(** The failures are empty exactly when each document has a clean structure and
    its policy issues are all waived. *)
Definition document_passes (exceptions : gmap (string * string) string) (path : relative) : Prop :=
  ∃ content, md_text path = Ok content ∧ document_clean path content
    ∧ Forall (λ i, waivable exceptions i = true) (policy_of path content).

Lemma check_files_pass exceptions paths :
  (∃ waived, check_files exceptions paths = Ok ([], waived)) ↔ Forall (document_passes exceptions) paths.
Proof.
  induction paths as [|path paths IH]; cbn [check_files]; [split; [constructor|by eexists]|].
  rewrite Forall_cons, <- IH. unfold document_passes, policy_issues.
  pose proof (structural_clean path) as Hclean.
  destruct (md_text path) as [content|e] eqn:Ht.
  2:{ unfold structural_issues in *. rewrite Ht in *. cbn. naive_solver. }
  destruct (structural_issues path) as [structural|e] eqn:Hs; cbn.
  2:{ split; [naive_solver|]. intros [(? & [= <-] & Hd & _) _]. discriminate (proj2 Hclean ltac:(eauto)). }
  apply (structural_not_waived _ _ exceptions) in Hs. destruct (check_files exceptions paths) as [[failures waived]|e]; cbn.
  2:{ naive_solver. }
  transitivity (List.filter (λ i, negb (waivable exceptions i)) (structural ++ policy_of path content) = [] ∧ failures = []).
  { split; [|intros [-> ->]; by eexists]. intros (w & [= Hf _]). by apply app_eq_nil in Hf. }
  rewrite filter_none, Forall_app. split.
  - intros [[Hstr Hpol] ->]. split; [|by eexists]. exists content. split; [done|].
    assert (structural = []) as ->.
    { destruct structural as [|i l]; [done|]. apply Forall_cons in Hstr as [Hi _]. apply Forall_cons in Hs as [Hi' _].
      by rewrite Hi' in Hi. }
    destruct (proj1 Hclean eq_refl) as (? & [= <-] & ?). split; [done|].
    eapply Forall_impl; [exact Hpol|]. cbn. intros i. by destruct (waivable exceptions i).
  - intros [(? & [= <-] & Hd & Hpol) (w & [= -> ->])]. injection (proj2 Hclean ltac:(eauto)) as ->. split; [|done].
    split; [constructor|]. eapply Forall_impl; [exact Hpol|]. cbn. by intros i ->.
Qed.

Lemma first_party_spec path : path ∈ first_party_markdown ↔ path ∈ md_files ∧ first_party path = true.
Proof.
  unfold first_party_markdown. rewrite merge_sort_Permutation.
  rewrite !list_elem_of_In. apply filter_In.
Qed.

Lemma main_pass show :
  (∃ out, check_docs_main show = Ok (0, out)) ↔ ∃ waived, check_repository = Ok ([], waived).
Proof.
  unfold check_docs_main. destruct check_repository as [[[|i failures] waived]|e]; cbn.
  - split; intros _; by eexists.
  - split; [intros (? & [=])|intros (? & [=])].
  - split; [|intros (? & [=])]. destruct e; by intros (? & [=]).
Qed.

(** C10: The documentation check exits with 0 exactly when the exceptions file is
    readable and every first-party Markdown file passes: it is readable, no
    fence is open at its end, outside fences no heading repeats one with the
    same headings above it and every link that names a file names one that
    exists, and each violation of the policy is waived by the exceptions file. *)
Theorem doc_check_certified show :
  (∃ out, check_docs_main show = Ok (0, out)) ↔
  ∃ exceptions, parse_exceptions = Ok exceptions
    ∧ ∀ path, path ∈ md_files → first_party path = true → document_passes exceptions path.
Proof.
  rewrite main_pass. unfold check_repository. destruct parse_exceptions as [exceptions|e]; cbn; [|naive_solver].
  rewrite check_files_pass, Forall_forall. setoid_rewrite first_party_spec. naive_solver.
Qed.
End check_docs.

(** ** Links are not overlooked *)

(** [[label](target)] *)
Definition link_text (label target : text) : text := "["%char :: label ++ "]"%char :: "("%char :: target ++ [")"%char].
Definition lacks (c : ascii) (l : text) : bool := forallb (not_char c) l.

Lemma opening_bracket_matches prev label target post :
  lacks "]" label = true → lacks ")" target = true → target ≠ [] →
  match_re (seq_re [one "["; star (not_char "]"); one "]"; one "("; Group (plus (not_char ")")); one ")"])
    prev (link_text label target ++ post) [] (λ prev rest caps, Some (prev, rest, caps))
  = Some (Some ")"%char, post, [target]).
Proof.
  intros Hl Ht Hn. unfold link_text. rewrite <- app_comm_cons, <- !app_assoc. cbn [seq_re foldr match_re one star plus app].
  rewrite Ascii.eqb_refl. erewrite (match_rep_longest _ _ _ _ label); [reflexivity|done|lia|done|by right|].
  cbn. rewrite <- app_assoc.
  erewrite (match_rep_longest _ _ _ _ target); [reflexivity|done| |done|by right|].
  - destruct target; [done|cbn; lia].
  - cbn. by rewrite (consumed_app target).
Qed.

Lemma link_matches prev (bang : bool) label target post :
  lacks "]" label = true → lacks ")" target = true → target ≠ [] →
  match_at LINK prev ((if bang then ["!"%char] else []) ++ link_text label target ++ post)
  = Some (Some ")"%char, post, [target]).
Proof.
  intros Hl Ht Hn. unfold match_at, LINK.
  pose proof (λ prev, opening_bracket_matches prev label target post Hl Ht Hn) as Hm. unfold link_text in *. destruct bang.
  - cbn [app seq_re foldr match_re opt match_rep room andb pred_opt Nat.sub] in *. by rewrite Ascii.eqb_refl, Hm.
  - cbn [app seq_re foldr match_re opt match_rep] in *.
    replace (Ascii.eqb "!" "[") with false by reflexivity. cbn [andb room]. apply Hm.
Qed.

Lemma link_needs_bracket prev c l :
  Ascii.eqb "[" c = false → match l with x :: _ => Ascii.eqb "[" x = false | [] => True end →
  match_at LINK prev (c :: l) = None.
Proof.
  intros Hc Hl. unfold match_at, LINK. cbn [seq_re foldr match_re opt match_rep room andb pred_opt Nat.sub one].
  rewrite Hc. destruct (Ascii.eqb "!" c); [|done].
  destruct l as [|x l]; cbn [match_rep room andb]; [done|]. by rewrite Hl.
Qed.

Lemma link_search prev pre label target post :
  lacks "[" pre = true → lacks "]" label = true → lacks ")" target = true → target ≠ [] →
  search_from LINK prev (pre ++ link_text label target ++ post) = Some (Some ")"%char, post, [target]).
Proof.
  intros Hp Hl Ht Hn. revert prev Hp. induction pre as [|c pre IH]; intros prev Hp.
  { pose proof (link_matches prev false label target post Hl Ht Hn) as Hm. unfold link_text in *.
    cbn [app search_from] in *. by rewrite Hm. }
  cbn [lacks forallb] in Hp. apply andb_prop in Hp as [Hc Hp]. unfold not_char in Hc. apply negb_true_iff in Hc.
  destruct (decide (c = "!"%char ∧ pre = [])) as [[-> ->]|Hne].
  { pose proof (link_matches prev true label target post Hl Ht Hn) as Hm. unfold link_text in *.
    cbn [app search_from] in *. by rewrite Hm. }
  cbn [app search_from]. destruct pre as [|d pre].
  - assert (Ascii.eqb "!" c = false) as Hb.
    { destruct (Ascii.eqb_spec "!" c) as [<-|]; [|done]. by exfalso; apply Hne. }
    assert (match_at LINK prev (c :: [] ++ link_text label target ++ post) = None) as Hm; [|rewrite Hm; by apply IH].
    unfold match_at, LINK. cbn [seq_re foldr match_re opt match_rep room andb one]. by rewrite Hb, Hc.
  - rewrite link_needs_bracket; [by apply IH|done|]. cbn [app]. cbn [lacks forallb] in Hp.
    apply andb_prop in Hp as [Hd _]. by apply negb_true_iff in Hd.
Qed.

(** The first link of a line is among the links the check looks at. *)
Lemma link_found pre label target post :
  lacks "[" pre = true → lacks "]" label = true → lacks ")" target = true → target ≠ [] →
  [target] ∈ finditer LINK (pre ++ link_text label target ++ post).
Proof.
  intros. unfold finditer. destruct (length _) as [|fuel] eqn:El.
  { unfold link_text in El. rewrite !length_app in El. cbn in El. lia. }
  cbn [findall_from]. rewrite link_search by done. left.
Qed.

(** A document with a link to a missing file, outside fences, does not pass. *)
Lemma broken_link_fails `{Repository} show path content number pre label raw target post :
  path ∈ md_files → first_party path = true → md_text path = Ok content →
  (number, pre ++ link_text label raw ++ post) ∈ (outside None (numbered (text_lines content))).1 →
  lacks "[" pre = true → lacks "]" label = true → lacks ")" raw = true → raw ≠ [] →
  link_target raw = Ok (Some target) → md_link path target = Ok false →
  ¬ ∃ out, check_docs_main show = Ok (0, out).
Proof.
  intros Hin Hfp Ht Hv Hp Hl Hr Hn Hlt Hm. rewrite main_pass. unfold check_repository.
  destruct parse_exceptions as [exceptions|e]; cbn; [|by intros (? & [=])].
  rewrite check_files_pass, Forall_forall. intros Hall.
  destruct (Hall path) as (content' & Ht' & Hd & _); [by apply first_party_spec|].
  assert (content' = content) as -> by congruence. unfold document_clean in Hd.
  destruct (outside None _) as [visible open]. destruct Hd as (_ & _ & Hg). rewrite Forall_forall in Hg.
  specialize (Hg _ Hv). unfold links_good in Hg. rewrite Forall_forall in Hg.
  destruct (Hg [raw]) as [Ho|(t & Ho & Hk)]; [by apply link_found|..]; cbn in Ho; congruence.
Qed.

(** ** A repository *)

Definition lines_text (l : list string) : string := str_join newline l.
Definition fence_text : string := String backquote (String backquote (String backquote EmptyString)).

Definition sample_files : list (relative * string) :=
  [(["README.md"]%string,
    lines_text ["# Title"; "See [the guide](docs/guide.md#use) and [web](https://example.org)."; "## Use";
                fence_text; "[not a link](missing.md)"; "# Title"; fence_text; "## Notes ##"]);
   (["docs"; "guide.md"]%string, lines_text ["# Guide"; "The model is outside the current-cycle path."]);
   (["docs"; "validation"; "ai_b1.md"]%string,
    lines_text ["Firmware target rp86, 5 MHz: PASS."; "Scope: one board."]);
   (["build"; "copy.md"]%string, "[broken](nowhere.md)");
   (EXCEPTIONS_PATH, lines_text ["# waivers"; "docs/validation/ai_b1.md VAL005 retained  record"])].

Definition tree_read (files : list (relative * string)) (path : relative) : result string :=
  match List.find (λ f, bool_decide (f.1 = path)) files with
  | Some f => Ok f.2
  | None => Raise (OSError (as_posix path))
  end.
Definition sample_repository (files : list (relative * string)) : Repository := {|
  md_files := List.filter (λ p, str_ends ".md" (default EmptyString (last p))) (map fst files);
  md_text := tree_read files;
  md_link := λ path target, Ok (is_ok (tree_read files (removelast path ++ Build.split_path "/" target)));
  md_exists := λ path, Ok (is_ok (tree_read files path));
|}.

Example sample_passes :
  @check_docs_main (sample_repository sample_files) true
  = Ok (0, map (pair false)
      ["WAIVED docs/validation/ai_b1.md:1: VAL005: missing or invalid response-architecture classification";
       "Markdown files checked = 3"; "Policy waivers         = 1"; "Documentation failures = 0";
       "DOCUMENTATION CHECK    = PASS"]%string).
Proof. vm_compute. reflexivity. Qed.

Definition faulty_files : list (relative * string) :=
  [(["a.md"]%string, lines_text ["# One"; "## Two"; "# One #"; "## Two"; "![x](%70ic.png)"; "~~~"; fence_text]);
   (["docs"; "b.md"]%string, "An AI serves the active bus cycle.");
   (EXCEPTIONS_PATH, lines_text ["a.md MD003 no"; "docs/b.md ARCH001 yes"])].
(** The waiver of a structural issue has no effect. *)
Example faults_reported :
  @check_docs_main (sample_repository faulty_files) false
  = Ok (1, map (pair false)
      ["a.md:3: MD003: duplicate heading under the same parent; first used at line 1";
       "a.md:4: MD003: duplicate heading under the same parent; first used at line 2";
       "a.md:5: MD001: broken relative link: pic.png"; "a.md:6: MD002: unclosed fenced code block";
       "Markdown files checked = 2"; "Policy waivers         = 1"; "Documentation failures = 4";
       "DOCUMENTATION CHECK    = FAIL"]%string).
Proof. vm_compute. reflexivity. Qed.

Example faulty_exceptions :
  @check_docs_main (sample_repository [(EXCEPTIONS_PATH, "a.md VAL001")]) false
  = Ok (2, [(true, "DOC CHECK ERROR: docs/document_policy_exceptions.txt:1: expected PATH CODE REASON")])%string.
Proof. vm_compute. reflexivity. Qed.

(** A link whose target is blank ends the check with an [IndexError], which is
    not one of the errors the check reports. *)
Example blank_target_escapes :
  @check_docs_main (sample_repository [(["a.md"], "[todo]( )")]%string) false = Raise IndexError.
Proof. vm_compute. reflexivity. Qed.
