(* ===== verification/Symbols.v ===== *)
(** * The symbols of a linker map (tools/ia16_lab/symbols.py)

    A WLINK map gives segment:offset addresses; the table sorts them and
    resolves an address to the symbol that precedes it.  [bisect_right] is the
    binary search of Python's library.

    The theorems say which symbol an address resolves to, what a span covers,
    and that a map is read back to the symbols it was written from. *)

From stdpp Require Import sorting.
From Stdlib Require Import Ascii.
From S2P Require Import Prelude PyText Telemetry Regex.

Record Symbol := mkSymbol { sym_address : Z; sym_name : string }.
#[global] Instance Symbol_eq_dec : EqDecision Symbol.
Proof. solve_decision. Defined.

(** The order of the dataclass: by address, then by name *)
Definition symbol_le (a b : Symbol) : Prop :=
  sym_address a < sym_address b ∨ sym_address a = sym_address b ∧ String.leb (sym_name a) (sym_name b) = true.
#[global] Instance symbol_le_dec : RelDecision symbol_le.
Proof. intros a b. unfold symbol_le. apply _. Defined.

Record SymbolTable := mkTable {
  symbols : list Symbol;
  _addresses : list Z;
}.

Definition symbol_table (l : list Symbol) : SymbolTable :=
  let sorted := merge_sort symbol_le l in mkTable sorted (map sym_address sorted).

(** [self._by_name]: the last symbol of a name wins *)
Definition by_name (t : SymbolTable) (name : string) : option Symbol :=
  List.find (λ s, String.eqb (sym_name s) name) (reverse (symbols t)).

(** [int(digits, 16)] of hexadecimal digits *)
Definition hex_text (l : text) : Z := foldl (λ acc c, 16 * acc + default 0 (hex_value c)) 0 l.

(** [^\s*([0-9A-Fa-f]{4}):([0-9A-Fa-f]{4,8})\+?\s+([^\s]+)] *)
Definition _SYMBOL : re :=
  Cat (Assert line_start) (Cat (star str_space)
    (Cat (Group (between 4 4 hexdigit)) (Cat (one ":")
      (Cat (Group (between 4 8 hexdigit)) (Cat (opt (Ascii.eqb "+"))
        (Cat (plus str_space) (Group (plus (λ c, negb (str_space c)))))))))).

Definition symbol_of (groups : list text) : Symbol :=
  mkSymbol (Z.shiftl (hex_text (nth 0 groups [])) 4 + hex_text (nth 1 groups [])) (group 3 groups).

Definition from_wlink_map (map_text : string) : result SymbolTable :=
  match map symbol_of (finditer _SYMBOL (ascii_list map_text)) with
  | [] => Raise (ValueError "WLINK map contains no segment:offset symbols")
  | l => Ok (symbol_table l)
  end.

Definition address (t : SymbolTable) (name : string) : result Z :=
  match by_name t name with
  | Some s => Ok (sym_address s)
  | None => Raise (ValueError ("symbol not found: " +:+ name))
  end.

(** [bisect.bisect_right]: the interval shrinks each turn *)
Fixpoint bisect_loop (fuel : nat) (l : list Z) (x : Z) (lo hi : nat) : nat :=
  match fuel with
  | O => lo
  | S fuel =>
      if (lo <? hi)%nat then
        let mid := ((lo + hi) / 2)%nat in
        if x <? nth mid l 0 then bisect_loop fuel l x lo mid else bisect_loop fuel l x (mid + 1) hi
      else lo
  end.
Definition bisect_right (l : list Z) (x : Z) : nat := bisect_loop (length l) l x 0 (length l).

Definition symbol_label (s : Symbol) (delta : Z) : string :=
  if delta =? 0 then sym_name s else sym_name s +:+ "+0x" +:+ hex_upper 0 delta.

Definition resolve (t : SymbolTable) (address : Z) : option string :=
  match bisect_right (_addresses t) address with
  | O => None
  | S index =>
      match symbols t !! index with
      | Some s => Some (symbol_label s (address - sym_address s))
      | None => None
      end
  end.

(** [self.symbols.index(symbol)] *)
Fixpoint index_of (s : Symbol) (l : list Symbol) : nat :=
  match l with [] => 0 | x :: l => if decide (x = s) then 0 else S (index_of s l) end.

Definition span (t : SymbolTable) (name : string) : result (Z * Z) :=
  match by_name t name with
  | None => Raise (ValueError ("symbol not found: " +:+ name))
  | Some s =>
      let stop := match symbols t !! S (index_of s (symbols t)) with
                  | Some next => sym_address next
                  | None => sym_address s + 1
                  end in
      Ok (sym_address s, Z.max (sym_address s + 1) stop)
  end.

(** ** The search *)

Definition ascending (l : list Z) : Prop := ∀ i j, (i ≤ j < length l)%nat → nth i l 0 <= nth j l 0.

Lemma sorted_ascending l : StronglySorted Z.le l → ascending l.
Proof.
  induction 1 as [|x l Hs IH Hx]; intros i j Hij; cbn [length] in Hij; [lia|].
  destruct i as [|i], j as [|j]; cbn [nth]; try lia.
  - rewrite Forall_forall in Hx. apply Hx, list_elem_of_In, nth_In. lia.
  - apply IH. lia.
Qed.

Lemma bisect_loop_spec l x fuel lo hi :
  ascending l → (lo ≤ hi ≤ length l)%nat → (hi - lo ≤ fuel)%nat →
  (∀ i, (i < lo)%nat → nth i l 0 <= x) → (∀ i, (hi ≤ i < length l)%nat → x < nth i l 0) →
  let r := bisect_loop fuel l x lo hi in
  (r ≤ length l)%nat ∧ (∀ i, (i < r)%nat → nth i l 0 <= x) ∧ (∀ i, (r ≤ i < length l)%nat → x < nth i l 0).
Proof.
  intros Ha. revert lo hi. induction fuel as [|fuel IH]; intros lo hi Hr Hf Hlo Hhi; cbn [bisect_loop].
  { split; [lia|]. split; [done|]. intros i Hi. apply Hhi. lia. }
  destruct (Nat.ltb_spec lo hi) as [Hlt|Hge]; [|split; [lia|]; split; [done|]; intros; apply Hhi; lia].
  pose proof (Nat.div_mod_eq (lo + hi) 2) as Hd. pose proof (Nat.mod_upper_bound (lo + hi) 2 ltac:(lia)) as Hm.
  set (mid := ((lo + hi) / 2)%nat) in *. destruct (Z.ltb_spec x (nth mid l 0)) as [Hx|Hx]; apply IH; try lia; try done.
  - intros i Hi. pose proof (Ha mid i ltac:(lia)). lia.
  - intros i Hi. pose proof (Ha i mid ltac:(lia)). lia.
Qed.

Lemma bisect_right_spec l x :
  ascending l →
  (bisect_right l x ≤ length l)%nat ∧ (∀ i, (i < bisect_right l x)%nat → nth i l 0 <= x)
  ∧ (∀ i, (bisect_right l x ≤ i < length l)%nat → x < nth i l 0).
Proof. intros Ha. apply bisect_loop_spec; try done; lia. Qed.

(** ** The table *)

#[global] Instance symbol_le_total : Total symbol_le.
Proof.
  intros a b. unfold symbol_le. destruct (Z.lt_trichotomy (sym_address a) (sym_address b)) as [|[E|]]; [by do 2 left| |by right; left].
  destruct (String.leb_total (sym_name a) (sym_name b)); [left|right]; right; by split.
Qed.

Lemma table_sorted l : StronglySorted Z.le (_addresses (symbol_table l)).
Proof.
  apply Sorted_StronglySorted; [intros ? ? ?; lia|]. cbn. apply (Sorted_fmap sym_address symbol_le Z.le); [|apply Sorted_merge_sort; apply _].
  intros a b. unfold symbol_le. lia.
Qed.
Lemma table_symbols l s : s ∈ symbols (symbol_table l) ↔ s ∈ l.
Proof. cbn. by rewrite merge_sort_Permutation. Qed.

Lemma table_lookup l i s : symbols (symbol_table l) !! i = Some s →
  nth i (_addresses (symbol_table l)) 0 = sym_address s ∧ (i < length (_addresses (symbol_table l)))%nat.
Proof.
  cbn. intros Hi. split; [|rewrite length_map; by eapply lookup_lt_Some].
  apply nth_lookup_Some. by rewrite list_lookup_fmap, Hi.
Qed.
Lemma table_index l s : s ∈ l → ∃ i, symbols (symbol_table l) !! i = Some s.
Proof. rewrite <- table_symbols. apply list_elem_of_lookup_1. Qed.

(** an address resolves to the closest symbol at or below it, whose name is
    shown with the distance in hexadecimal; it resolves to nothing exactly when
    every symbol lies above it.  The order in which the map lists its symbols
    does not matter. *)
Theorem resolve_closest l a :
  (resolve (symbol_table l) a = None ↔ Forall (λ s, a < sym_address s) l)
  ∧ (∀ text, resolve (symbol_table l) a = Some text →
     ∃ s, s ∈ l ∧ sym_address s <= a ∧ text = symbol_label s (a - sym_address s)
        ∧ Forall (λ s', sym_address s' <= a → sym_address s' <= sym_address s) l).
Proof.
  set (t := symbol_table l).
  pose proof (sorted_ascending _ (table_sorted l)) as Ha.
  destruct (bisect_right_spec (_addresses t) a Ha) as (Hle & Hlo & Hhi).
  assert (length (symbols t) = length (_addresses t)) as Hlen by (cbn; by rewrite length_map).
  unfold resolve. destruct (bisect_right (_addresses t) a) as [|index].
  - split; [|done]. split; [intros _|done]. apply Forall_forall. intros s Hs.
    destruct (table_index _ _ Hs) as [i Hi]. apply table_lookup in Hi as [<- Hi]. fold t in Hi |- *. apply Hhi. lia.
  - destruct (symbols t !! index) as [s|] eqn:Hi; [|apply lookup_ge_None in Hi; lia].
    pose proof (table_lookup _ _ _ Hi) as [Hn Hb]. assert (s ∈ l) as Hs by (apply table_symbols; by eapply list_elem_of_lookup_2).
    pose proof (Hlo index ltac:(lia)) as Hx. fold t in Hn. rewrite Hn in Hx. split.
    + split; [done|]. rewrite Forall_forall. intros Hall. specialize (Hall _ Hs). lia.
    + intros text [= <-]. exists s. split; [done|]. split; [done|]. split; [done|]. apply Forall_forall.
      intros s' Hs' Hx'. destruct (table_index _ _ Hs') as [j Hj]. pose proof (table_lookup _ _ _ Hj) as [Hnj Hbj]. fold t in Hnj, Hbj.
      rewrite <- Hnj, <- Hn. destruct (decide (j ≤ index)%nat); [apply Ha; lia|].
      specialize (Hhi j ltac:(lia)). lia.
Qed.

Lemma by_name_some t name s : by_name t name = Some s → s ∈ symbols t ∧ sym_name s = name.
Proof.
  unfold by_name. intros Hf. apply find_some in Hf as [Hin He]. apply String.eqb_eq in He.
  split; [|done]. by rewrite <- list_elem_of_In, elem_of_reverse in Hin.
Qed.
Lemma by_name_none t name : by_name t name = None ↔ Forall (λ s, sym_name s ≠ name) (symbols t).
Proof.
  unfold by_name. split.
  - intros Hf. apply Forall_forall. intros s Hs. apply String.eqb_neq.
    apply (find_none _ _ Hf). by rewrite <- list_elem_of_In, elem_of_reverse.
  - intros Hn. destruct (List.find _ _) as [s|] eqn:Hf; [|done]. apply find_some in Hf as [Hin He].
    rewrite Forall_forall in Hn. rewrite <- list_elem_of_In, elem_of_reverse in Hin. apply String.eqb_eq in He. by destruct (Hn _ Hin).
Qed.
Lemma index_of_lookup s l : s ∈ l → l !! index_of s l = Some s.
Proof.
  induction l as [|x l IH]; [by rewrite elem_of_nil|]. cbn [index_of]. rewrite elem_of_cons.
  intros Hs. case_decide as He; [by subst|]. cbn. apply IH. naive_solver.
Qed.

(** the span of a name starts at a symbol of that name and is not empty, and
    no symbol of the map lies strictly inside it; a name the map does not have is
    refused. *)
Theorem span_clear l name :
  ((∃ text, span (symbol_table l) name = Raise (ValueError text)) ↔ Forall (λ s, sym_name s ≠ name) l)
  ∧ ∀ a b, span (symbol_table l) name = Ok (a, b) →
      a < b ∧ mkSymbol a name ∈ l ∧ Forall (λ s, sym_address s <= a ∨ b <= sym_address s) l.
Proof.
  set (t := symbol_table l). pose proof (sorted_ascending _ (table_sorted l)) as Ha. fold t in Ha.
  unfold span. destruct (by_name t name) as [s|] eqn:Hn.
  - apply by_name_some in Hn as [Hs Hname]. pose proof (index_of_lookup _ _ Hs) as Hi.
    pose proof (proj1 (table_symbols l s) Hs) as Hl. set (i := index_of s (symbols t)) in *. split.
    + split; [by intros []|]. rewrite Forall_forall. intros Hall. by destruct (Hall _ Hl).
    + intros a b Hab. set (stop := match symbols t !! S i with Some _ => _ | None => _ end) in Hab.
      assert (a = sym_address s ∧ b = Z.max (sym_address s + 1) stop) as [-> ->] by (split; congruence). clear Hab.
      split; [lia|]. split; [destruct s; cbn in *; by subst|]. apply Forall_forall. intros s' Hs'.
      destruct (table_index _ _ Hs') as [j Hj]. fold t in Hj. pose proof (table_lookup _ _ _ Hj) as [Hnj Hbj].
      pose proof (table_lookup _ _ _ Hi) as [Hni Hbi]. fold t in Hnj, Hbj, Hni, Hbi.
      destruct (decide (j ≤ i)%nat); [pose proof (Ha j i ltac:(lia)); lia|].
      unfold stop. clear stop. destruct (symbols t !! S i) as [next|] eqn:Hx.
      * pose proof (table_lookup _ _ _ Hx) as [Hnx _]. fold t in Hnx. pose proof (Ha (S i) j ltac:(lia)). lia.
      * apply lookup_ge_None in Hx. apply lookup_lt_Some in Hj. lia.
  - pose proof (proj1 (by_name_none _ _) Hn) as Hall. split; [|done]. split; [intros _|eauto].
    rewrite Forall_forall in *. intros s Hs. apply Hall. by apply table_symbols.
Qed.

(** ** Reading a map *)

(** A line of the map: segment, offset, an optional plus sign and a name, between blanks *)
Record map_line := mkLine { l_pad : text; l_segment : text; l_offset : text; l_plus : bool; l_gap : text; l_name : text }.
Definition line_text (l : map_line) : text :=
  l_pad l ++ l_segment l ++ [":"%char] ++ l_offset l ++ (if l_plus l then ["+"%char] else []) ++ l_gap l ++ l_name l.
Definition line_symbol (l : map_line) : Symbol :=
  mkSymbol (Z.shiftl (hex_text (l_segment l)) 4 + hex_text (l_offset l)) (String.string_of_list_ascii (l_name l)).
Definition line_ok (l : map_line) : bool :=
  forallb str_space (l_pad l)
  && forallb hexdigit (l_segment l) && (length (l_segment l) =? 4)%nat
  && forallb hexdigit (l_offset l) && (4 <=? length (l_offset l))%nat && (length (l_offset l) <=? 8)%nat
  && forallb str_space (l_gap l) && (1 <=? length (l_gap l))%nat
  && forallb (λ c, negb (str_space c)) (l_name l) && (1 <=? length (l_name l))%nat.
Definition map_text (lines : list map_line) : text := concat (map (λ l, line_text l ++ [newline_char]) lines).

Lemma hexdigit_not_space c : hexdigit c = true → str_space c = false.
Proof. destruct c as [[] [] [] [] [] [] [] []]; (reflexivity || discriminate). Qed.
Lemma space_not_hexdigit c : str_space c = true → hexdigit c = false ∧ Ascii.eqb "+" c = false.
Proof. destruct c as [[] [] [] [] [] [] [] []]; (split; reflexivity) || discriminate. Qed.

Lemma match_line prev l rest :
  line_ok l = true → line_start prev [] = true →
  ∃ last, match_at _SYMBOL prev (line_text l ++ newline_char :: rest)
          = Some (Some last, newline_char :: rest, [l_segment l; l_offset l; l_name l]) ∧ str_space last = false.
Proof.
  destruct l as [pad seg off p gap name]. unfold line_ok. cbn [l_pad l_segment l_offset l_plus l_gap l_name]. intros Hok Hprev.
  apply andb_prop in Hok as [Hok Hn1]. repeat (apply andb_prop in Hok as [Hok ?]).
  destruct (last name) as [z|] eqn:Hz.
  2:{ apply last_None in Hz as ->. done. }
  exists z. split.
  2:{ rename select (forallb (λ c, negb _) name = true) into Hn. rewrite forallb_forall in Hn.
      apply negb_true_iff, Hn, list_elem_of_In. by apply last_Some_elem_of. }
  unfold match_at, _SYMBOL, line_text, star, plus, opt, between, one. cbn [l_pad l_segment l_offset l_plus l_gap l_name match_re].
  rewrite <- !app_assoc.
  assert (∀ r, line_start prev r = true) as -> by (intros; by destruct prev).
  destruct seg as [|s0 seg]; [done|]. destruct gap as [|g0 gap]; [done|]. destruct name as [|n0 name]; [done|].
  rename select (forallb hexdigit (s0 :: seg) = true) into Hs. pose proof Hs as Hs0. apply andb_prop in Hs0 as [Hs0 _].
  rename select (forallb str_space (g0 :: gap) = true) into Hg. pose proof Hg as Hg0. apply andb_prop in Hg0 as [Hg0 _].
  rename select (forallb _ (n0 :: name) = true) into Hn. pose proof Hn as Hn0. apply andb_prop in Hn0 as [Hn0 _].
  apply match_rep_longest; [done|lia|done|right; by apply hexdigit_not_space|].
  apply match_rep_longest; [done|lia|lia|left; f_equal; lia|].
  cbn [app]. rewrite Ascii.eqb_refl.
  apply match_rep_longest; [done|lia|lia|right; destruct p; [done|by apply space_not_hexdigit]|].
  apply match_rep_longest; [by destruct p|lia|destruct p; cbn; lia|right; by apply space_not_hexdigit|].
  apply (match_rep_longest 1 None str_space _ (g0 :: gap)); [done|cbn; lia|done|right; by apply negb_true_iff|].
  apply (match_rep_longest 1 None _ _ (n0 :: name)); [done|cbn; lia|done|by right|].
  rewrite Hz. do 2 f_equal. cbn [app]. f_equal; [apply (consumed_app (s0 :: seg))|].
  f_equal; [apply consumed_app|]. f_equal. apply (consumed_app (n0 :: name)).
Qed.

(** No match starts after a character that is not a newline. *)
Lemma findall_newline fuel c rest :
  str_space c = false →
  findall_from _SYMBOL fuel (Some c) (newline_char :: rest) = findall_from _SYMBOL fuel (Some newline_char) rest.
Proof.
  intros Hc. destruct fuel; [done|]. cbn [findall_from search_from].
  assert (match_at _SYMBOL (Some c) (newline_char :: rest) = None) as ->; [|done].
  unfold match_at, _SYMBOL. cbn [match_re line_start].
  assert (Ascii.eqb c newline_char = false) as ->; [|done]. apply Ascii.eqb_neq. by intros ->.
Qed.

Lemma findall_lines lines fuel prev :
  forallb line_ok lines = true → (length lines ≤ fuel)%nat → line_start prev [] = true →
  findall_from _SYMBOL fuel prev (map_text lines) = map (λ l, [l_segment l; l_offset l; l_name l]) lines.
Proof.
  revert fuel prev. induction lines as [|l lines IH]; intros fuel prev Hok Hf Hp.
  - destruct fuel; [done|]. cbn. unfold match_at, _SYMBOL. cbn. by destruct (line_start prev []).  
  - cbn [forallb] in Hok. apply andb_prop in Hok as [Hl Hok]. destruct fuel as [|fuel]; [cbn in Hf; lia|].
    cbn [length] in Hf. unfold map_text. cbn [map concat]. rewrite <- app_assoc. cbn [app].
    destruct (match_line prev l (map_text lines) Hl Hp) as (c & Hm & Hc).
    cbn [findall_from]. unfold map_text in Hm.
    destruct (line_text l ++ newline_char :: concat (map (λ l, line_text l ++ [newline_char]) lines)) as [|x t] eqn:E;
      cbn [search_from]; rewrite Hm; f_equal; fold (map_text lines); rewrite findall_newline by done; apply IH; done || lia.
Qed.

(** a map is read back to the symbols of its lines, in the notation of the
    linker (four digits of segment, four to eight of offset, an optional plus
    sign, any blanks): the address is sixteen times the segment plus the offset,
    and no line is lost, split or invented. *)
Theorem wlink_map_round_trip lines :
  forallb line_ok lines = true → lines ≠ [] →
  from_wlink_map (String.string_of_list_ascii (map_text lines)) = Ok (symbol_table (map line_symbol lines)).
Proof.
  intros Hok Hne. unfold from_wlink_map, finditer. rewrite String.list_ascii_of_string_of_list_ascii.
  assert (length lines ≤ length (map_text lines))%nat as Hlen.
  { clear Hok Hne. induction lines as [|l lines IH]; [done|]. unfold map_text in *. cbn [map concat].
    rewrite !length_app. cbn [length]. lia. }
  rewrite findall_lines by done. rewrite map_map. by destruct lines.
Qed.

Example wlink_map_round_trip_witness :
  let lines := [mkLine [] (ascii_list "1234") (ascii_list "0010") true (ascii_list "  ") (ascii_list "_main");
                mkLine [] (ascii_list "1000") (ascii_list "0000ABCD") false (ascii_list " ") (ascii_list "_data")] in
  from_wlink_map (String.string_of_list_ascii (map_text lines))
  = Ok (symbol_table [mkSymbol 0x12350 "_main"; mkSymbol 0x1ABCD "_data"])
  ∧ resolve (symbol_table [mkSymbol 0x12350 "_main"; mkSymbol 0x1ABCD "_data"]) 0x1235F = Some "_main+0xF"%string.
Proof.
  intros lines. split; [|vm_compute; reflexivity].
  refine (wlink_map_round_trip lines _ _); [reflexivity|discriminate].
Defined.
