(* ===== verification/Omf.v ===== *)
(** * Object files (tools/ia16_lab/omf.py)

    The reader of 16-bit OMF objects: names, segment definitions and public or
    local symbols, and the offsets of each object's contribution to the linked
    segments.  A [Path] is its text; names are decoded from Latin-1.

    The theorems relate the reader to the records an object is made of, and say
    how contributions are laid out. *)

From S2P Require Import Prelude Struct PyText.
From stdpp Require Import gmap.
From Stdlib Require Import Ascii.
Open Scope Z_scope.

Definition PUBDEF : Z := 0x90.
Definition PUBDEF32 : Z := 0x91.
Definition LNAMES : Z := 0x96.
Definition SEGDEF : Z := 0x98.
Definition SEGDEF32 : Z := 0x99.
Definition LPUBDEF : Z := 0xB6.
Definition LPUBDEF32 : Z := 0xB7.

Record OMFSegment := mkSegment {
  s_index : Z;
  s_name : string;
  s_class : string;
  s_length : Z;
  s_alignment : Z;
}.
Record OMFSymbol := mkOMFSymbol {
  y_name : string;
  y_segment_index : Z;
  y_segment_name : string;
  y_offset : Z;
  y_local : bool;
}.
Record OMFObject := mkObject {
  o_path : option string;
  o_segments : list OMFSegment;
  o_symbols : list OMFSymbol;
}.

Definition omf_segment (o : OMFObject) (name : string) : option OMFSegment :=
  List.find (λ s, String.eqb (s_name s) name) (o_segments o).
Definition omf_symbol (o : OMFObject) (name : string) : option OMFSymbol :=
  List.find (λ s, String.eqb (y_name s) name) (o_symbols o).

(** [b.decode("latin1")]: an octet is a code point, two octets of UTF-8 from 0x80 on *)
Definition latin1_char (b : byte) : bytes :=
  let z := byte.unsigned b in
  if z <? 0x80 then [b] else [byte.of_Z (0xC0 + z / 64); byte.of_Z (0x80 + z mod 64)].
Definition decode_latin1 (b : bytes) : string := of_octets (b ≫= latin1_char).

(** [payload[position]] *)
Definition octet (payload : bytes) (position : Z) : result Z :=
  b ← item position payload; Ok (byte.unsigned b).

Definition _index (payload : bytes) (position : Z) : result (Z * Z) :=
  first ← octet payload position;
  if has_bit first 0x80 then
    second ← octet payload (position + 1);
    Ok (Z.lor (Z.shiftl (Z.land first 0x7F) 8) second, position + 2)
  else Ok (first, position + 1).

Definition _alignment_bytes (code : Z) : Z :=
  default 1 (z_get code [(0, 1); (1, 1); (2, 2); (3, 16); (4, 256); (5, 4)]).

(** ** The reader's state: [names], [segments] and [symbols]; the first entry of
    the first two is [None] *)
Record omf_state := mkOmf {
  names : list (option string);
  segments : list (option OMFSegment);
  symbols : list OMFSymbol;
}.
Definition omf_init : omf_state := mkOmf [None] [None] [].

(** The loop of an LNAMES record; each turn consumes at least one octet. *)
Fixpoint read_names (fuel : nat) (payload : bytes) (position : Z) (acc : list (option string))
  : result (list (option string)) :=
  match fuel with
  | O => Ok acc
  | S fuel =>
      if position <? len payload then
        size ← octet payload position;
        let position := position + 1 in
        read_names fuel payload (position + size)
          (acc ++ [Some (decode_latin1 (slice position (position + size) payload))])
      else Ok acc
  end.

(** [names[i] or ""] *)
Definition name_at (l : list (option string)) (i : Z) : result string :=
  n ← item i l; Ok (default EmptyString n).

Definition read_segment (record_type : Z) (payload : bytes) (s : omf_state) : result omf_state :=
  attributes ← octet payload 0;
  let alignment_code := Z.land (Z.shiftr attributes 5) 0x07 in
  let position := 1 + (if alignment_code =? 0 then 3 else 0) in
  let width := if record_type =? SEGDEF32 then 4 else 2 in
  let length := from_bytes_le (slice position (position + width) payload) in
  '(name_index, position) ← _index payload (position + width);
  '(class_index, position) ← _index payload position;
  '(_, _) ← _index payload position;
  name ← name_at (names s) name_index;
  class_name ← name_at (names s) class_index;
  let segment := mkSegment (len (segments s)) name class_name length (_alignment_bytes alignment_code) in
  Ok (mkOmf (names s) (segments s ++ [Some segment]) (symbols s)).

Definition segment_name_at (s : omf_state) (segment_index : Z) : string :=
  if truthy segment_index && (segment_index <? len (segments s)) then
    match segments s !! Z.to_nat segment_index with Some (Some g) => s_name g | _ => EmptyString end
  else EmptyString.

(** The loop of a PUBDEF record *)
Fixpoint read_publics (fuel : nat) (payload : bytes) (position width segment_index : Z) (local : bool) (s : omf_state)
  : result omf_state :=
  match fuel with
  | O => Ok s
  | S fuel =>
      if position <? len payload then
        size ← octet payload position;
        let position := position + 1 in
        let name := decode_latin1 (slice position (position + size) payload) in
        let position := position + size in
        let offset := from_bytes_le (slice position (position + width) payload) in
        '(_, position) ← _index payload (position + width);
        let symbol := mkOMFSymbol name segment_index (segment_name_at s segment_index) offset local in
        read_publics fuel payload position width segment_index local
          (mkOmf (names s) (segments s) (symbols s ++ [symbol]))
      else Ok s
  end.

Definition read_pubdef (record_type : Z) (payload : bytes) (s : omf_state) : result omf_state :=
  '(_, position) ← _index payload 0;
  '(segment_index, position) ← _index payload position;
  let position := position + (if segment_index =? 0 then 2 else 0) in
  let width := if z_in record_type [PUBDEF32; LPUBDEF32] then 4 else 2 in
  let local := z_in record_type [LPUBDEF; LPUBDEF32] in
  read_publics (length payload) payload position width segment_index local s.

Definition read_record (record_type : Z) (payload : bytes) (s : omf_state) : result omf_state :=
  if record_type =? LNAMES then
    names ← read_names (length payload) payload 0 (names s);
    Ok (mkOmf names (segments s) (symbols s))
  else if z_in record_type [SEGDEF; SEGDEF32] then read_segment record_type payload s
  else if negb (z_in record_type [PUBDEF; PUBDEF32; LPUBDEF; LPUBDEF32]) then Ok s
  else read_pubdef record_type payload s.

(** The generator [_records] and the body of the loop over it: a record is read
    before the next one is looked at.  Each turn consumes at least three octets. *)
Fixpoint parse_records (fuel : nat) (data : bytes) (position : Z) (s : omf_state) : result omf_state :=
  match fuel with
  | O => Ok s
  | S fuel =>
      if position <? len data then
        if len data <? position + 3 then Raise (ValueError "truncated OMF record header") else
        record_type ← octet data position;
        let length := from_bytes_le (slice (position + 1) (position + 3) data) in
        let stop := position + 3 + length in
        if len data <? stop then Raise (ValueError "truncated OMF record payload") else
        s ← read_record record_type (slice (position + 3) (stop - 1) data) s;
        parse_records fuel data stop s
      else Ok s
  end.

Definition parse_omf_bytes (data : bytes) (path : option string) : result OMFObject :=
  s ← parse_records (length data) data 0 omf_init;
  Ok (mkObject path (omap (λ x, x) (drop 1 (segments s))) (symbols s)).

(** ** Contributions *)

Abbreviation bases_t := (gmap (option string * string) Z).
Abbreviation cursors_t := (gmap (string * string) Z).

(** [(cursor + alignment - 1) // alignment * alignment] *)
Definition align_up (cursor alignment : Z) : Z := (cursor + alignment - 1) / alignment * alignment.

Definition place_segment (path : option string) (st : cursors_t * bases_t) (g : OMFSegment) : cursors_t * bases_t :=
  let key := (s_name g, s_class g) in
  let cursor := align_up (default 0 (st.1 !! key)) (Z.max (s_alignment g) 1) in
  (<[key := cursor + s_length g]> st.1, <[(path, s_name g) := cursor]> st.2).
Definition place_object (st : cursors_t * bases_t) (o : OMFObject) : cursors_t * bases_t :=
  foldl (place_segment (o_path o)) st (o_segments o).
Definition contribution_bases (objects : list OMFObject) : bases_t :=
  (foldl place_object (∅, ∅) objects).2.

(** ** The records of an object

    An object as the list of its records, written the way a compiler writes
    them, and what each of them means. *)

Inductive omf_item :=
| INames (l : list bytes)
| ISegment (wide : bool) (attributes : Z) (absolute : bytes) (length name class overlay : Z)
| IPublic (local wide : bool) (group segment : Z) (frame : bytes) (l : list (bytes * Z * Z))
| IOther (record_type : Z) (payload : bytes).

Definition byte_of (z : Z) : byte := byte.of_Z z.
Definition index_bytes (n : Z) : bytes :=
  if n <? 0x80 then [byte_of n] else [byte_of (0x80 + n / 256); byte_of (n mod 256)].
Definition counted_name (b : bytes) : bytes := byte_of (len b) :: b.
Definition wide_bytes (wide : bool) : nat := if wide then 4 else 2.
Definition public_bytes (wide : bool) (x : bytes * Z * Z) : bytes :=
  let '(name, offset, type_index) := x in counted_name name ++ le_split (wide_bytes wide) offset ++ index_bytes type_index.

Definition item_type (i : omf_item) : Z :=
  match i with
  | INames _ => LNAMES
  | ISegment wide _ _ _ _ _ _ => if wide then SEGDEF32 else SEGDEF
  | IPublic local wide _ _ _ _ =>
      if local then (if wide then LPUBDEF32 else LPUBDEF) else (if wide then PUBDEF32 else PUBDEF)
  | IOther t _ => t
  end.
Definition item_payload (i : omf_item) : bytes :=
  match i with
  | INames l => concat (map counted_name l)
  | ISegment wide attributes absolute length name class overlay =>
      byte_of attributes :: absolute ++ le_split (wide_bytes wide) length
        ++ index_bytes name ++ index_bytes class ++ index_bytes overlay
  | IPublic _ wide group segment frame l =>
      index_bytes group ++ index_bytes segment ++ frame ++ concat (map (public_bytes wide) l)
  | IOther _ payload => payload
  end.
Definition item_record (i : omf_item) (checksum : byte) : bytes :=
  byte_of (item_type i) :: le_split 2 (len (item_payload i) + 1) ++ item_payload i ++ [checksum].

Definition index_fits (n : Z) : bool := (0 <=? n) && (n <? 0x8000).
Definition name_fits (b : bytes) : bool := len b <? 256.
Definition word_fits (wide : bool) (z : Z) : bool := in_width (if wide then 32 else 16) z.
Definition public_fits (wide : bool) (x : bytes * Z * Z) : bool :=
  let '(name, offset, type_index) := x in name_fits name && word_fits wide offset && index_fits type_index.
Definition known_types : list Z := [LNAMES; SEGDEF; SEGDEF32; PUBDEF; PUBDEF32; LPUBDEF; LPUBDEF32].
Definition item_fits (i : omf_item) : bool :=
  (len (item_payload i) <? 0xFFFF)
  && match i with
     | INames l => forallb name_fits l
     | ISegment wide attributes absolute length name class overlay =>
         in_width 8 attributes && (len absolute =? if Z.land (Z.shiftr attributes 5) 0x07 =? 0 then 3 else 0)
         && word_fits wide length && index_fits name && index_fits class && index_fits overlay
     | IPublic _ wide group segment frame l =>
         index_fits group && index_fits segment && (len frame =? if segment =? 0 then 2 else 0)
         && forallb (public_fits wide) l
     | IOther t _ => in_width 8 t && negb (z_in t known_types)
     end.

Definition item_meaning (i : omf_item) (s : omf_state) : result omf_state :=
  match i with
  | INames l => Ok (mkOmf (names s ++ map (λ b, Some (decode_latin1 b)) l) (segments s) (symbols s))
  | ISegment _ attributes _ length name class _ =>
      n ← name_at (names s) name;
      c ← name_at (names s) class;
      let g := mkSegment (len (segments s)) n c length (_alignment_bytes (Z.land (Z.shiftr attributes 5) 0x07)) in
      Ok (mkOmf (names s) (segments s ++ [Some g]) (symbols s))
  | IPublic local _ _ segment _ l =>
      Ok (mkOmf (names s) (segments s)
            (symbols s ++ map (λ x, mkOMFSymbol (decode_latin1 x.1.1) segment (segment_name_at s segment) x.1.2 local) l))
  | IOther _ _ => Ok s
  end.
Fixpoint items_meaning (l : list omf_item) (s : omf_state) : result omf_state :=
  match l with [] => Ok s | i :: l => s ← item_meaning i s; items_meaning l s end.

(** *** Reading fields *)

Lemma byte_of_unsigned z : 0 <= z < 256 → byte.unsigned (byte_of z) = z.
Proof. intros. unfold byte_of. rewrite byte.unsigned_of_Z. unfold byte.wrap. by rewrite Z.mod_small. Qed.

Lemma octet_at pre b post : octet (pre ++ b :: post) (len pre) = Ok (byte.unsigned b).
Proof. unfold octet. by rewrite item_field by (done || apply len_nonneg). Qed.

Lemma small_bit n k z : 0 <= n < 2 ^ k → k <= z → Z.testbit n z = false.
Proof.
  intros Hn Hz. destruct (Z.eq_dec n 0) as [->|]; [apply Z.bits_0|].
  apply Z.bits_above_log2; [lia|]. assert (Z.log2 n < k); [apply Z.log2_lt_pow2; lia|lia].
Qed.
Lemma lor_low h lo k : 0 <= k → 0 <= lo < 2 ^ k → Z.lor (Z.shiftl h k) lo = h * 2 ^ k + lo.
Proof.
  intros Hk Hlo. assert (Z.land (Z.shiftl h k) lo = 0) as Hd.
  { apply Z.bits_inj'. intros z Hz. rewrite Z.land_spec, Z.bits_0. destruct (Z.le_gt_cases k z).
    - rewrite (small_bit lo k z) by lia. apply andb_false_r.
    - by rewrite Z.shiftl_spec_low. }
  rewrite <- Z.lxor_lor, <- Z.add_nocarry_lxor by done. by rewrite Z.shiftl_mul_pow2.
Qed.

Lemma index_at pre n post :
  index_fits n = true →
  _index (pre ++ index_bytes n ++ post) (len pre) = Ok (n, len pre + len (index_bytes n)).
Proof.
  intros Hn. unfold index_fits in Hn. unfold _index, index_bytes. destruct (Z.ltb_spec n 0x80); cbn [app].
  - rewrite octet_at, byte_of_unsigned by lia. cbn [mbind result_bind].
    rewrite (has_bit_testbit n 7), (small_bit n 7) by lia. done.
  - assert (0 <= n / 256 < 128) as Hd by (split; [apply Z.div_pos|apply Z.div_lt_upper_bound]; lia).
    pose proof (Z.mod_pos_bound n 256 ltac:(lia)) as Hm.
    rewrite octet_at, byte_of_unsigned by lia. cbn [mbind result_bind].
    assert (Z.testbit (0x80 + n / 256) 7 = true) as Hb.
    { rewrite Z.testbit_eqb by lia. change (2 ^ 7) with 128. replace (128 + n / 256) with (1 * 128 + n / 256) by lia.
      rewrite Z.div_add_l, (Z.div_small (n / 256)) by lia. done. }
    rewrite (has_bit_testbit _ 7), Hb by lia.
    assert (∀ a b, octet (pre ++ a :: b :: post) (len pre + 1) = Ok (byte.unsigned b)) as ->.
    { intros a b. replace (pre ++ a :: b :: post) with ((pre ++ [a]) ++ b :: post) by (by rewrite <- app_assoc).
      replace (len pre + 1) with (len (pre ++ [a])) by (rewrite len_app; done). apply octet_at. }
    rewrite byte_of_unsigned by lia. cbn [mbind result_bind]. change 0x7F with (Z.ones 7).
    rewrite Z.land_ones, lor_low by lia. replace (128 + n / 256) with (n / 256 + 1 * 2 ^ 7) by lia.
    rewrite Z.mod_add, Z.mod_small by lia. change (2 ^ 8) with 256. do 2 f_equal.
    pose proof (Z.div_mod n 256). lia.
Qed.

Lemma read_names_all fuel l pre acc :
  forallb name_fits l = true → (length l ≤ fuel)%nat →
  read_names fuel (pre ++ concat (map counted_name l)) (len pre) acc
  = Ok (acc ++ map (λ b, Some (decode_latin1 b)) l).
Proof.
  revert fuel pre acc. induction l as [|b l IH]; intros fuel pre acc Hl Hf.
  - cbn. rewrite !app_nil_r. destruct fuel; [done|]. cbn [read_names]. by rewrite Z.ltb_irrefl.
  - destruct fuel as [|fuel]; [cbn in Hf; lia|]. cbn [forallb length] in *. apply andb_prop in Hl as [Hb Hl].
    cbn [map concat read_names]. set (rest := concat (map counted_name l)) in *. unfold counted_name. cbn [app].
    rewrite len_app, len_cons. pose proof (len_nonneg (b ++ rest)).
    match goal with |- context [?a <? ?b] => destruct (Z.ltb_spec a b); [|lia] end.
    unfold name_fits in Hb. pose proof (len_nonneg b).
    rewrite octet_at, byte_of_unsigned by lia. cbn [mbind result_bind]. cbv zeta.
    replace (pre ++ byte_of (len b) :: b ++ rest)
      with ((pre ++ [byte_of (len b)]) ++ b ++ rest) by (by rewrite <- app_assoc).
    assert (len pre + 1 = len (pre ++ [byte_of (len b)])) as -> by (by rewrite len_app).
    rewrite slice_field by (done || lia). rewrite app_assoc.
    replace (len (pre ++ [byte_of (len b)]) + len b) with (len ((pre ++ [byte_of (len b)]) ++ b)) by (by rewrite len_app).
    rewrite IH by (done || lia). by rewrite <- app_assoc.
Qed.

Lemma le_split_at pre n z post :
  in_width (8 * Z.of_nat n) z = true →
  from_bytes_le (slice (len pre) (len pre + Z.of_nat n) (pre ++ le_split n z ++ post)) = z.
Proof.
  intros Hz. unfold in_width in Hz. rewrite slice_field; [apply le_round; lia|done|].
  unfold len. rewrite length_le_split. lia.
Qed.
Lemma len_le_split n z : len (le_split n z) = Z.of_nat n.
Proof. unfold len. by rewrite length_le_split. Qed.

Lemma word_fits_width wide z : word_fits wide z = true → in_width (8 * Z.of_nat (wide_bytes wide)) z = true.
Proof. by destruct wide. Qed.

Definition public_symbol (s : omf_state) (local : bool) (segment : Z) (x : bytes * Z * Z) : OMFSymbol :=
  mkOMFSymbol (decode_latin1 x.1.1) segment (segment_name_at s segment) x.1.2 local.

Lemma segment_name_symbols ns gs ys ys' i :
  segment_name_at (mkOmf ns gs ys) i = segment_name_at (mkOmf ns gs ys') i.
Proof. done. Qed.

Lemma read_publics_all fuel wide segment local l pre s :
  forallb (public_fits wide) l = true → (length l ≤ fuel)%nat →
  read_publics fuel (pre ++ concat (map (public_bytes wide) l)) (len pre) (Z.of_nat (wide_bytes wide)) segment local s
  = Ok (mkOmf (names s) (segments s) (symbols s ++ map (public_symbol s local segment) l)).
Proof.
  revert fuel pre s. induction l as [|[[name offset] ti] l IH]; intros fuel pre s Hl Hf.
  - cbn. rewrite !app_nil_r. destruct s, fuel; [done|]. cbn [read_publics]. by rewrite Z.ltb_irrefl.
  - destruct fuel as [|fuel]; [cbn in Hf; lia|]. cbn [forallb length public_fits] in *. apply andb_prop in Hl as [Hx Hl].
    apply andb_prop in Hx as [Hx Hti]. apply andb_prop in Hx as [Hname Hoff]. unfold name_fits in Hname. pose proof (len_nonneg name).
    cbn [map concat public_bytes]. set (rest := concat (map (public_bytes wide) l)) in *. unfold counted_name.
    cbn [app]. rewrite <- !app_assoc.
    cbn [read_publics]. rewrite len_app, len_cons. pose proof (len_nonneg (name ++ le_split (wide_bytes wide) offset ++ index_bytes ti ++ rest)).
    match goal with |- context [?a <? ?b] => destruct (Z.ltb_spec a b); [|lia] end.
    rewrite octet_at, byte_of_unsigned by lia. cbn [mbind result_bind]. cbv zeta.
    set (pre1 := pre ++ [byte_of (len name)]).
    replace (pre ++ byte_of (len name) :: name ++ le_split (wide_bytes wide) offset ++ index_bytes ti ++ rest)
      with (pre1 ++ name ++ le_split (wide_bytes wide) offset ++ index_bytes ti ++ rest) by (unfold pre1; by rewrite <- app_assoc).
    assert (len pre + 1 = len pre1) as -> by (unfold pre1; by rewrite len_app).
    rewrite slice_field by (done || lia). rewrite (app_assoc pre1).
    replace (len pre1 + len name) with (len (pre1 ++ name)) by (by rewrite len_app). set (pre2 := pre1 ++ name).
    rewrite le_split_at by (by apply word_fits_width). rewrite app_assoc.
    replace (len pre2 + Z.of_nat (wide_bytes wide)) with (len (pre2 ++ le_split (wide_bytes wide) offset))
      by (by rewrite len_app, len_le_split).
    rewrite index_at by done. cbn [mbind result_bind]. rewrite app_assoc, <- len_app, IH by (done || lia).
    cbn [names segments symbols]. f_equal. f_equal. by rewrite <- app_assoc.
Qed.

Lemma length_counted l : (length l ≤ length (concat (map counted_name l)))%nat.
Proof. induction l as [|b l IH]; [done|]. cbn [map concat]. rewrite length_app. cbn. lia. Qed.
Lemma length_publics wide l : (length l ≤ length (concat (map (public_bytes wide) l)))%nat.
Proof. induction l as [|[[b o] t] l IH]; [done|]. cbn [map concat public_bytes]. rewrite !length_app. cbn. lia. Qed.

Lemma read_segment_item (wide : bool) attributes absolute length name class overlay s :
  item_fits (ISegment wide attributes absolute length name class overlay) = true →
  read_segment (if wide then SEGDEF32 else SEGDEF) (item_payload (ISegment wide attributes absolute length name class overlay)) s
  = item_meaning (ISegment wide attributes absolute length name class overlay) s.
Proof.
  unfold item_fits. intros Hf. apply andb_prop in Hf as [_ Hf]. do 5 (apply andb_prop in Hf as [Hf ?]).
  rename select ((len absolute =? _) = true) into Habs. cbn [item_payload item_meaning].
  unfold read_segment. unfold in_width in Hf.
  assert (∀ r, octet (byte_of attributes :: r) 0 = Ok attributes) as ->.
  { intros r. pose proof (octet_at [] (byte_of attributes) r) as Ho. rewrite byte_of_unsigned in Ho by lia. exact Ho. }
  cbn [mbind result_bind]. cbv zeta.
  set (code := Z.land (Z.shiftr attributes 5) 7) in *.
  set (pre := byte_of attributes :: absolute).
  assert (1 + (if code =? 0 then 3 else 0) = len pre) as ->.
  { unfold pre. rewrite len_cons. destruct (code =? 0); lia. }
  assert ((if (if wide then SEGDEF32 else SEGDEF) =? SEGDEF32 then 4 else 2) = Z.of_nat (wide_bytes wide)) as -> by (by destruct wide).
  match goal with |- context [byte_of attributes :: absolute ++ ?r] =>
    change (byte_of attributes :: absolute ++ r) with (pre ++ r) end.
  rewrite le_split_at by (by apply word_fits_width). rewrite app_assoc.
  replace (len pre + Z.of_nat (wide_bytes wide)) with (len (pre ++ le_split (wide_bytes wide) length))
    by (by rewrite len_app, len_le_split).
  rewrite index_at by done. cbn [mbind result_bind]. rewrite app_assoc, <- len_app.
  rewrite index_at by done. cbn [mbind result_bind]. rewrite app_assoc, <- len_app.
  rewrite <- (app_nil_r (index_bytes overlay)), index_at by done. done.
Qed.

Lemma read_pubdef_item (local wide : bool) group segment frame l s :
  item_fits (IPublic local wide group segment frame l) = true →
  read_pubdef (item_type (IPublic local wide group segment frame l)) (item_payload (IPublic local wide group segment frame l)) s
  = item_meaning (IPublic local wide group segment frame l) s.
Proof.
  unfold item_fits. intros Hf. apply andb_prop in Hf as [_ Hf]. do 3 (apply andb_prop in Hf as [Hf ?]).
  rename select ((len frame =? _) = true) into Hframe. unfold read_pubdef. cbn [item_payload item_meaning].
  pose proof (index_at [] group (index_bytes segment ++ frame ++ concat (map (public_bytes wide) l)) ltac:(done)) as Hg.
  cbn [app] in Hg. rewrite (@len_nil byte) in Hg. rewrite Hg. cbn [mbind result_bind]. rewrite Z.add_0_l, index_at by done.
  cbn [mbind result_bind]. cbv zeta. rewrite <- len_app.
  assert ((if segment =? 0 then 2 else 0) = len frame) as -> by lia. rewrite <- len_app, !app_assoc.
  assert ((if z_in (item_type (IPublic local wide group segment frame l)) [PUBDEF32; LPUBDEF32] then 4 else 2) = Z.of_nat (wide_bytes wide))
    as -> by (by destruct local, wide).
  assert (z_in (item_type (IPublic local wide group segment frame l)) [LPUBDEF; LPUBDEF32] = local) as -> by (by destruct local, wide).
  rewrite read_publics_all; [done|done|]. rewrite length_app. pose proof (length_publics wide l). lia.
Qed.

Lemma read_record_item i s : item_fits i = true → read_record (item_type i) (item_payload i) s = item_meaning i s.
Proof.
  intros Hf. destruct i as [l|wide a abs length n c o|local wide g seg frame l|t payload].
  - unfold read_record. cbn. unfold item_fits in Hf. apply andb_prop in Hf as [_ Hf].
    pose proof (read_names_all (length (concat (map counted_name l))) l [] (names s) Hf (length_counted l)) as Hr.
    cbn [app] in Hr. rewrite (@len_nil byte) in Hr. by rewrite Hr.
  - rewrite <- read_segment_item by done. by destruct wide.
  - rewrite <- read_pubdef_item by done. by destruct local, wide.
  - unfold item_fits in Hf. apply andb_prop in Hf as [_ Hf]. apply andb_prop in Hf as [_ Hf]. cbn [item_type item_payload item_meaning].
    unfold read_record. unfold known_types, z_in in *. cbn [existsb] in *.
    apply negb_true_iff in Hf. repeat (apply orb_false_elim in Hf as [? Hf]).
    repeat match goal with E : (t =? _) = false |- _ => rewrite E; clear E end. done.
Qed.

Definition records_bytes (l : list (omf_item * byte)) : bytes := concat (map (λ x, item_record x.1 x.2) l).

Lemma item_type_range i : item_fits i = true → 0 <= item_type i < 256.
Proof.
  intros Hf. destruct i as [| wide | local wide | t payload]; cbn [item_type]; [done|by destruct wide|by destruct local, wide|].
  unfold item_fits, in_width in Hf. lia.
Qed.
Lemma len_item_record i c : len (item_record i c) = 4 + len (item_payload i).
Proof. unfold item_record. rewrite len_cons, !len_app, len_le_split, len_cons, (@len_nil byte). lia. Qed.

Lemma parse_record_step fuel pre i c post s :
  item_fits i = true →
  parse_records (S fuel) (pre ++ item_record i c ++ post) (len pre) s
  = (s ← item_meaning i s; parse_records fuel (pre ++ item_record i c ++ post) (len (pre ++ item_record i c)) s).
Proof.
  intros Hf. assert (len (item_payload i) < 0xFFFF) as Hp by (unfold item_fits in Hf; apply andb_prop in Hf as [Hp _]; lia).
  pose proof (item_type_range i Hf) as Ht. pose proof (len_nonneg (item_payload i)). pose proof (len_nonneg post).
  cbn [parse_records]. rewrite !len_app, len_item_record.
  match goal with |- context [?a <? ?b] => destruct (Z.ltb_spec a b); [|lia] end.
  match goal with |- context [?a <? ?b] => destruct (Z.ltb_spec a b); [lia|] end.
  set (data := pre ++ item_record i c ++ post).
  assert (octet data (len pre) = Ok (item_type i)) as ->.
  { unfold data, item_record. cbn [app]. by rewrite octet_at, byte_of_unsigned. }
  set (pre1 := pre ++ [byte_of (item_type i)]).
  assert (data = pre1 ++ le_split 2 (len (item_payload i) + 1) ++ item_payload i ++ [c] ++ post) as Hd.
  { unfold data, pre1, item_record. rewrite <- !app_assoc. cbn [app]. by rewrite <- !app_assoc. }
  cbn [mbind result_bind]. cbv zeta. replace (len pre + 1) with (len pre1) by (unfold pre1; by rewrite len_app).
  replace (len pre + 3) with (len pre1 + Z.of_nat 2) by (unfold pre1; rewrite len_app, len_cons, (@len_nil byte); lia).
  assert (from_bytes_le (slice (len pre1) (len pre1 + Z.of_nat 2) data) = len (item_payload i) + 1) as ->.
  { rewrite Hd. apply le_split_at. unfold in_width. lia. }
  assert (len pre1 = len pre + 1) as Hl by (unfold pre1; by rewrite len_app).
  match goal with |- context [?a <? ?b] => destruct (Z.ltb_spec a b); [lia|] end.
  replace (slice (len pre1 + Z.of_nat 2) (len pre1 + Z.of_nat 2 + (len (item_payload i) + 1) - 1) data) with (item_payload i).
  2:{ symmetry. rewrite Hd, app_assoc. apply slice_field; rewrite ?len_app, ?len_le_split; lia. }
  rewrite read_record_item by done. destruct (item_meaning i s); [|done]. cbn. f_equal. lia.
Qed.

Lemma parse_cut fuel pre i c n s :
  item_fits i = true → 0 < n < len (item_record i c) →
  ∃ text, parse_records (S fuel) (pre ++ slice 0 n (item_record i c)) (len pre) s = Raise (ValueError text).
Proof.
  intros Hf Hn. assert (len (item_payload i) < 0xFFFF) as Hp by (unfold item_fits in Hf; apply andb_prop in Hf as [Hp _]; lia).
  pose proof (len_nonneg (item_payload i)). rewrite len_item_record in Hn. cbn [parse_records].
  assert (len (slice 0 n (item_record i c)) = n) as Hl by (rewrite len_slice; rewrite ?len_item_record; lia).
  rewrite len_app, Hl. match goal with |- context [?a <? ?b] => destruct (Z.ltb_spec a b); [|lia] end.
  match goal with |- context [?a <? ?b] => destruct (Z.ltb_spec a b); [by eexists|] end.
  assert (slice 0 n (item_record i c)
          = byte_of (item_type i) :: le_split 2 (len (item_payload i) + 1) ++ slice 0 (n - 3) (item_payload i ++ [c])) as ->.
  { unfold item_record, slice. rewrite !drop_0. cbn [le_split app].
    replace (Z.to_nat n - Z.to_nat 0)%nat with (S (S (S (Z.to_nat (n - 3) - Z.to_nat 0)))) by lia. done. }
  rewrite octet_at. cbn [mbind result_bind]. cbv zeta.
  set (body := slice 0 (n - 3) (item_payload i ++ [c])). set (pre1 := pre ++ [byte_of (item_type i)]).
  replace (pre ++ byte_of (item_type i) :: le_split 2 (len (item_payload i) + 1) ++ body)
    with (pre1 ++ le_split 2 (len (item_payload i) + 1) ++ body) by (unfold pre1; by rewrite <- app_assoc).
  assert (len pre1 = len pre + 1) as Hl1 by (unfold pre1; by rewrite len_app).
  replace (slice (len pre + 1) (len pre + 3)) with (@slice byte (len pre1) (len pre1 + Z.of_nat 2)) by (f_equal; lia).
  rewrite le_split_at by (unfold in_width; lia).
  match goal with |- context [?a <? ?b] => destruct (Z.ltb_spec a b); [by eexists|lia] end.
Qed.

Lemma parse_items fuel items pre tail s :
  forallb (λ x, item_fits x.1) items = true →
  parse_records (length items + fuel) (pre ++ records_bytes items ++ tail) (len pre) s
  = (s ← items_meaning (map fst items) s;
     parse_records fuel (pre ++ records_bytes items ++ tail) (len (pre ++ records_bytes items)) s).
Proof.
  revert pre s. induction items as [|[i c] items IH]; intros pre s Hf.
  - cbn. by rewrite app_nil_r.
  - cbn [forallb fst] in Hf. apply andb_prop in Hf as [Hi Hf].
    change (records_bytes ((i, c) :: items)) with (item_record i c ++ records_bytes items).
    rewrite <- !app_assoc. cbn [length Nat.add map items_meaning fst]. rewrite parse_record_step by done.
    destruct (item_meaning i s) as [s'|]; [|done]. cbn [mbind result_bind].
    rewrite !app_assoc, <- (app_assoc _ (records_bytes items) tail). rewrite IH by done. done.
Qed.

Definition object_of (path : option string) (s : omf_state) : OMFObject :=
  mkObject path (omap (λ x, x) (drop 1 (segments s))) (symbols s).

Lemma length_records items : (length items ≤ length (records_bytes items))%nat.
Proof.
  induction items as [|[i c] items IH]; [done|].
  change (records_bytes ((i, c) :: items)) with (item_record i c ++ records_bytes items). rewrite length_app. cbn. lia.
Qed.

Lemma parse_records_end fuel data s : parse_records fuel data (len data) s = Ok s.
Proof. destruct fuel; [done|]. cbn. by rewrite Z.ltb_irrefl. Qed.

(** C25: the reader finds in an object exactly what its records say: whatever
    names, segments, symbols and other records follow each other, reading the
    octets gives the meaning of the records in order (an index that no name has
    is the IndexError of both); and an object that is cut inside a record is
    refused with ValueError. *)
Theorem omf_reader items path :
  forallb (λ x, item_fits x.1) items = true →
  parse_omf_bytes (records_bytes items) path
  = (s ← items_meaning (map fst items) omf_init; Ok (object_of path s))
  ∧ ∀ i c n s, item_fits i = true → 0 < n < len (item_record i c) →
      items_meaning (map fst items) omf_init = Ok s →
      ∃ text, parse_omf_bytes (records_bytes items ++ slice 0 n (item_record i c)) path = Raise (ValueError text).
Proof.
  intros Hf. unfold parse_omf_bytes. split.
  - pose proof (length_records items) as Hl.
    replace (length (records_bytes items)) with (length items + (length (records_bytes items) - length items))%nat by lia.
    pose proof (parse_items (length (records_bytes items) - length items) items [] [] omf_init Hf) as Hp.
    cbn [app] in Hp. rewrite (@len_nil byte), app_nil_r in Hp. rewrite Hp.
    destruct (items_meaning _ _); [|done]. cbn [mbind result_bind]. by rewrite parse_records_end.
  - intros i c n s Hi Hn Hs. pose proof (length_records items) as Hl. set (tail := slice 0 n (item_record i c)).
    assert (0 < len tail) as Ht by (unfold tail; rewrite len_slice; lia). unfold len in Ht.
    replace (length (records_bytes items ++ tail))
      with (length items + S (length (records_bytes items) - length items + length tail - 1))%nat by (rewrite length_app; lia).
    pose proof (parse_items (S (length (records_bytes items) - length items + length tail - 1)) items [] tail omf_init Hf) as Hp.
    cbn [app] in Hp. rewrite (@len_nil byte) in Hp. rewrite Hp, Hs. cbn [mbind result_bind].
    destruct (parse_cut (length (records_bytes items) - length items + length tail - 1) (records_bytes items) i c n s Hi Hn) as [text He].
    fold tail in He. rewrite He. by exists text.
Qed.

(** A small object: two names, a word-aligned segment and a local symbol in it *)
Definition sample_items : list (omf_item * byte) :=
  [(INames [lit "_TEXT"; lit "CODE"], Byte.x00);
   (ISegment false 0x48 [] 0x30 1 2 0, Byte.x00);
   (IOther 0x88 (lit "comment"), Byte.x00);
   (IPublic true false 0 1 [] [(lit "_prvTask", 0x12, 0)], Byte.x00)].

Example omf_reader_witness :
  parse_omf_bytes (records_bytes sample_items) None
  = Ok (mkObject None [mkSegment 1 "_TEXT" "CODE" 0x30 2] [mkOMFSymbol "_prvTask" 1 "_TEXT" 0x12 true])
  ∧ ∃ text, parse_omf_bytes (records_bytes sample_items ++ slice 0 3 (item_record (INames []) Byte.x00)) None
            = Raise (ValueError text).
Proof.
  destruct (omf_reader sample_items None eq_refl) as [Hp Hcut]. split; [rewrite Hp; reflexivity|].
  destruct (items_meaning (map fst sample_items) omf_init) as [s|] eqn:E; [|vm_compute in E; discriminate E].
  eapply Hcut; [reflexivity|vm_compute; by split|reflexivity].
Defined.

(** ** The layout of contributions *)

Definition placements (objects : list OMFObject) : list (option string * OMFSegment) :=
  objects ≫= λ o, map (λ g, (o_path o, g)) (o_segments o).
Definition place (st : cursors_t * bases_t) (x : option string * OMFSegment) : cursors_t * bases_t :=
  place_segment x.1 st x.2.
Definition base_key (x : option string * OMFSegment) : option string * string := (x.1, s_name x.2).
Definition run_key (x : option string * OMFSegment) : string * string := (s_name x.2, s_class x.2).
Definition alignment_of (g : OMFSegment) : Z := Z.max (s_alignment g) 1.

Lemma contribution_bases_flat objects : contribution_bases objects = (foldl place (∅, ∅) (placements objects)).2.
Proof.
  unfold contribution_bases. f_equal. generalize (∅ : cursors_t, ∅ : bases_t).
  induction objects as [|o objects IH]; intros st; [done|]. cbn [foldl]. rewrite IH.
  unfold placements. cbn [mbind list_bind]. rewrite foldl_app. f_equal. unfold place_object.
  generalize st. induction (o_segments o) as [|g l IHl]; intros st'; [done|]. cbn [foldl map]. apply IHl.
Qed.

Lemma align_up_spec c a : 0 < a → c <= align_up c a < c + a ∧ (a | align_up c a).
Proof.
  intros Ha. unfold align_up. split; [|by exists ((c + a - 1) / a)].
  pose proof (Z.div_mod (c + a - 1) a). pose proof (Z.mod_pos_bound (c + a - 1) a Ha). lia.
Qed.

(** A contribution at its base: aligned, and closer than one alignment to the
    end of what precedes it in its segment *)
Definition laid (done : list (option string * OMFSegment)) (st : cursors_t * bases_t) : Prop :=
  (∀ k, 0 <= default 0 (st.1 !! k))
  ∧ ∀ i x, done !! i = Some x →
      ∃ b, st.2 !! base_key x = Some b ∧ 0 <= b ∧ (alignment_of x.2 | b)
        ∧ b + s_length x.2 <= default 0 (st.1 !! run_key x)
        ∧ (∀ j y b', (j < i)%nat → done !! j = Some y → run_key y = run_key x →
             st.2 !! base_key y = Some b' → b' + s_length y.2 <= b).

Lemma place_laid done st x :
  laid done st → base_key x ∉ map base_key done → 0 <= s_length x.2 → laid (done ++ [x]) (place st x).
Proof.
  intros [Hc Hl] Hk Hs. set (c := default 0 (st.1 !! run_key x)). specialize (Hc (run_key x)) as Hc0. fold c in Hc0.
  destruct (align_up_spec c (alignment_of x.2)) as [Hr Hd]; [unfold alignment_of; lia|].
  assert ((place st x).1 = <[run_key x := align_up c (alignment_of x.2) + s_length x.2]> st.1) as Hp1 by done.
  assert ((place st x).2 = <[base_key x := align_up c (alignment_of x.2)]> st.2) as Hp2 by done.
  set (st' := place st x) in *. clearbody st'.
  assert (∀ y, y ∈ done → st'.2 !! base_key y = st.2 !! base_key y) as Hold.
  { intros y Hy. rewrite Hp2. apply lookup_insert_ne. intros E. apply Hk, list_elem_of_fmap. exists y. split; [exact E|done]. }
  assert (∀ k, default 0 (st.1 !! k) <= default 0 (st'.1 !! k)) as Hgrow.
  { intros k. rewrite Hp1. destruct (decide (run_key x = k)) as [<-|]; [rewrite lookup_insert_eq|by rewrite lookup_insert_ne].
    cbn. fold c. lia. }
  split.
  - intros k. specialize (Hc k). specialize (Hgrow k). lia.
  - intros i y Hi. apply lookup_app_Some in Hi as [Hi|[Hi Hy]].
    + destruct (Hl _ _ Hi) as (b & Hb & ? & ? & He & Hprev). pose proof (list_elem_of_lookup_2 _ _ _ Hi) as Hin.
      exists b. rewrite Hold by done. split_and!; [done|done|done|specialize (Hgrow (run_key y)); lia|].
      intros j z b' Hj Hz Hkz Hb'. apply lookup_lt_Some in Hi as Hlt. rewrite lookup_app_l in Hz by lia.
      rewrite Hold in Hb' by (by eapply list_elem_of_lookup_2). by eapply Hprev.
    + destruct (i - length done)%nat eqn:Hidx; [|done]. cbn in Hy. injection Hy as <-.
      exists (align_up c (alignment_of x.2)). split_and!; [by rewrite Hp2, lookup_insert_eq|lia|done| |].
      * rewrite Hp1, lookup_insert_eq. cbn. lia.
      * intros j z b' Hj Hz Hkz Hb'. rewrite lookup_app_l in Hz by lia.
        destruct (Hl _ _ Hz) as (b & Hb & _ & _ & He & _). rewrite Hold in Hb' by (by eapply list_elem_of_lookup_2).
        rewrite Hkz in He. fold c in He. assert (b = b') by congruence. lia.
Qed.

Lemma place_all l : NoDup (map base_key l) → Forall (λ x, 0 <= s_length x.2) l → laid l (foldl place (∅, ∅) l).
Proof.
  induction l as [|x l IH] using rev_ind; intros Hn Hs.
  - split; [intros k; cbn [foldl fst]; by rewrite lookup_empty|]. intros i y. by rewrite lookup_nil.
  - rewrite map_app in Hn. apply NoDup_app in Hn as (Hn & Hx & _). apply Forall_app in Hs as [Hs Hs'].
    rewrite foldl_app. cbn [foldl]. apply place_laid; [by apply IH| |by inversion Hs'].
    intros Hin. apply (Hx _ Hin). cbn. by left.
Qed.

(** when no object is linked twice and none has two segments of one name,
    every contribution gets a base that respects its alignment, and the
    contributions to one segment (same name and class) lie one after the other
    in link order: none overlaps another. *)
Theorem contributions_disjoint objects :
  NoDup (map base_key (placements objects)) → Forall (λ x, 0 <= s_length x.2) (placements objects) →
  ∀ i x, placements objects !! i = Some x →
  ∃ b, contribution_bases objects !! base_key x = Some b ∧ 0 <= b ∧ (alignment_of x.2 | b)
    ∧ ∀ j y, (j < i)%nat → placements objects !! j = Some y → run_key y = run_key x →
        ∃ b', contribution_bases objects !! base_key y = Some b' ∧ b' + s_length y.2 <= b.
Proof.
  intros Hn Hs i x Hi. rewrite contribution_bases_flat. destruct (place_all _ Hn Hs) as [_ Hl].
  destruct (Hl _ _ Hi) as (b & Hb & H0 & Hd & _ & Hprev). exists b. split; [done|]. split; [done|]. split; [done|].
  intros j y Hj Hy Hk. destruct (Hl _ _ Hy) as (b' & Hb' & _). exists b'. split; [done|]. by eapply Hprev.
Qed.

Definition sample_objects : list OMFObject :=
  [mkObject (Some "a.obj"%string) [mkSegment 1 "_TEXT" "CODE" 0x13 2] [];
   mkObject (Some "b.obj"%string) [mkSegment 1 "_TEXT" "CODE" 0x20 16; mkSegment 2 "_DATA" "DATA" 4 2] []].

Example contributions_disjoint_witness :
  contribution_bases sample_objects !! (Some "b.obj", "_TEXT")%string = Some 0x20
  ∧ ∃ b, contribution_bases sample_objects !! (Some "b.obj", "_TEXT")%string = Some b ∧ 0 <= b ∧ (16 | b)
      ∧ ∃ b', contribution_bases sample_objects !! (Some "a.obj", "_TEXT")%string = Some b' ∧ b' + 0x13 <= b.
Proof.
  split; [reflexivity|].
  destruct (contributions_disjoint sample_objects) with (i := 1%nat) (x := (Some "b.obj"%string, mkSegment 1 "_TEXT" "CODE" 0x20 16))
    as (b & Hb & H0 & Hd & Hprev).
  - by apply (bool_decide_unpack _).
  - by repeat constructor.
  - reflexivity.
  - exists b. split; [exact Hb|]. split; [exact H0|]. split; [exact Hd|].
    exact (Hprev 0%nat (Some "a.obj"%string, mkSegment 1 "_TEXT" "CODE" 0x13 2) ltac:(lia) eq_refl eq_refl).
Defined.

(** The cursors distinguish the class of a segment, the bases do not: of two
    segments of one name the last one gives the base of both. *)
Example contribution_class_clash :
  contribution_bases
    [mkObject (Some "a.obj"%string) [mkSegment 1 "_DATA" "FAR" 16 1] [];
     mkObject (Some "b.obj"%string) [mkSegment 1 "_DATA" "FAR" 4 1; mkSegment 2 "_DATA" "DATA" 4 1] []]
    !! (Some "b.obj", "_DATA")%string = Some 0.
Proof. reflexivity. Qed.
