(* ===== verification/Lab.v ===== *)
(** * The IA16 laboratory (tools/ia16_lab/loader.py, machine.py, trace.py, cli.py)

    A workload is loaded into an emulated processor and traced.  The emulator is
    the Unicorn library: the class [Emulator] gives its memory, its registers and
    [emu_start], which reports the accesses its hooks saw, each with the
    registers (and for a read the octets) of that moment.

    The theorems say what an injected interrupt does to the machine, what the
    bounded recorder keeps, and which accesses a watch sees. *)

From S2P Require Import Prelude Struct PyText Json Workload Telemetry Regex Symbols.
From Stdlib Require Import Ascii.

(** ** loader.py *)

Definition linear_address (segment offset : Z) : result Z :=
  if negb ((0 <=? segment) && (segment <=? 0xFFFF)) || negb ((0 <=? offset) && (offset <=? 0xFFFF))
  then Raise (ValueError "segment and offset must be 16-bit values") else
  let address := Z.shiftl segment 4 + offset in
  if 0x100000 <=? address
  then Raise (ValueError "segment:offset is outside the 20-bit address space") else
  Ok address.

Record LoadedWorkload := mkLoaded { lw_path : string; lw_manifest : WorkloadManifest; lw_image : bytes }.

Definition entry_linear (w : LoadedWorkload) : result Z :=
  linear_address (entry_segment (lw_manifest w)) (entry_offset (lw_manifest w)).
Definition stack_linear (w : LoadedWorkload) : result Z :=
  linear_address (stack_segment (lw_manifest w)) (stack_offset (lw_manifest w)).

(** [read_bytes] is the content of the file *)
Definition load_p86w (path : string) (read_bytes : result bytes) : result LoadedWorkload :=
  data ← read_bytes;
  '(manifest, image) ← decode_workload_file data;
  Ok (mkLoaded path manifest image).

(** ** The registers *)

Inductive reg := AX | BX | CX | DX | SI | DI | BP | SP | CS | DS | ES | SS | IP | FLAGS.
#[global] Instance reg_eq_dec : EqDecision reg.
Proof. solve_decision. Defined.
Definition register_ids : list (string * reg) :=
  [("ax", AX); ("bx", BX); ("cx", CX); ("dx", DX); ("si", SI); ("di", DI); ("bp", BP); ("sp", SP);
   ("cs", CS); ("ds", DS); ("es", ES); ("ss", SS); ("ip", IP); ("flags", FLAGS)]%string.

(** [RegisterState]: the value of each of the fourteen registers *)
Record RegisterState := mkRegisters {
  r_ax : Z; r_bx : Z; r_cx : Z; r_dx : Z; r_si : Z; r_di : Z; r_bp : Z; r_sp : Z;
  r_cs : Z; r_ds : Z; r_es : Z; r_ss : Z; r_ip : Z; r_flags : Z;
}.

(** ** trace.py *)

Record WatchRange := mkWatch { w_start : Z; w_end : Z; w_label : option string }.
(** [__post_init__] *)
Definition watch_range (start stop : Z) (label : option string) : result WatchRange :=
  if (start <? 0) || (stop <=? start) then Raise (ValueError "watch range must satisfy 0 <= start < end")
  else Ok (mkWatch start stop label).
Definition overlaps (w : WatchRange) (address size : Z) : bool :=
  (address <? w_end w) && (w_start w <? address + Z.max size 1).

Record InstructionTrace := mkInstruction { i_address : Z; i_size : Z; i_registers : RegisterState; i_symbol : option string }.
Record MemoryTrace := mkMemory {
  t_kind : string; t_address : Z; t_size : Z; t_value : Z; t_registers : RegisterState;
  t_candidates : list string; t_symbol : option string;
}.
Inductive trace_event := Instruction (i : InstructionTrace) | MemoryAccess (m : MemoryTrace).

Record TraceRecorder := mkRecorder {
  rec_symbols : option SymbolTable;
  watches : list WatchRange;
  max_events : Z;
  events : list trace_event;
  dropped : Z;
}.
Definition trace_recorder (symbols : option SymbolTable) (watches : list WatchRange) (max_events : Z) : result TraceRecorder :=
  if max_events <=? 0 then Raise (ValueError "max_events must be positive")
  else Ok (mkRecorder symbols watches max_events [] 0).

Definition interested (r : TraceRecorder) (address size : Z) : bool :=
  match watches r with [] => true | l => existsb (λ w, overlaps w address size) l end.

Definition _append (event : trace_event) (r : TraceRecorder) : TraceRecorder :=
  if max_events r <=? len (events r)
  then mkRecorder (rec_symbols r) (watches r) (max_events r) (events r) (dropped r + 1)
  else mkRecorder (rec_symbols r) (watches r) (max_events r) (events r ++ [event]) (dropped r).

Definition symbol_at (r : TraceRecorder) (address : Z) : option string :=
  match rec_symbols r with Some t => resolve t address | None => None end.

(** [instruction] *)
Definition rec_instruction (address size : Z) (registers : RegisterState) (r : TraceRecorder) : TraceRecorder :=
  if negb (interested r address size) then r
  else _append (Instruction (mkInstruction address size registers (symbol_at r address))) r.

Definition _segment_candidates (address : Z) (s : RegisterState) : list string :=
  [("DS", r_ds s); ("ES", r_es s); ("SS", r_ss s); ("CS", r_cs s)]%string ≫= λ '(name, segment),
    let offset := address - Z.shiftl segment 4 in
    if (0 <=? offset) && (offset <=? 0xFFFF) then [name +:+ ":" +:+ hex_upper 4 offset] else [].

(** [memory] *)
Definition rec_memory (kind : string) (address size value : Z) (registers : RegisterState) (r : TraceRecorder) : TraceRecorder :=
  if negb (interested r address size) then r
  else _append (MemoryAccess (mkMemory kind address size value registers
                                (_segment_candidates address registers) (symbol_at r address))) r.

(** [f"  {symbol}" if symbol else ""] *)
Definition symbol_suffix (s : option string) : string :=
  match s with Some (String _ _ as t) => "  " +:+ t | _ => EmptyString end.
(** [f"{kind:<6}"] *)
Definition pad6 (s : string) : string := s +:+ String.string_of_list_ascii (replicate (6 - String.length s) " "%char).

Definition event_lines (e : trace_event) : list string :=
  match e with
  | Instruction i =>
      let s := i_registers i in
      ["EXEC   " +:+ hex_upper 4 (r_cs s) +:+ ":" +:+ hex_upper 4 (r_ip s) +:+ " phys=0x" +:+ hex_upper 5 (i_address i)
         +:+ " size=" +:+ dec (i_size i) +:+ symbol_suffix (i_symbol i);
       "       AX=" +:+ hex_upper 4 (r_ax s) +:+ " BX=" +:+ hex_upper 4 (r_bx s) +:+ " CX=" +:+ hex_upper 4 (r_cx s)
         +:+ " DX=" +:+ hex_upper 4 (r_dx s) +:+ " DS=" +:+ hex_upper 4 (r_ds s) +:+ " ES=" +:+ hex_upper 4 (r_es s)
         +:+ " SS:SP=" +:+ hex_upper 4 (r_ss s) +:+ ":" +:+ hex_upper 4 (r_sp s)]%string
  | MemoryAccess m =>
      [pad6 (t_kind m) +:+ " 0x" +:+ hex_upper 5 (t_address m) +:+ " size=" +:+ dec (t_size m)
         +:+ " value=0x" +:+ hex_upper (Z.to_nat (Z.max 2 (t_size m * 2))) (t_value m)
         +:+ " [" +:+ str_or (str_join "," (t_candidates m)) "segment=?" +:+ "]" +:+ symbol_suffix (t_symbol m)]%string
  end.
Definition trace_format (r : TraceRecorder) : string :=
  str_join newline ((events r ≫= event_lines)
    ++ (if truthy (dropped r) then ["... " +:+ dec (dropped r) +:+ " trace events dropped by max_events"]%string else [])).

(** ** machine.py *)

(** What the hooks see during a run *)
Inductive hook :=
| HCode (address size : Z) (registers : RegisterState)
| HRead (address size : Z) (raw : bytes) (registers : RegisterState)
| HWrite (address size value : Z) (registers : RegisterState).

Class Emulator (W : Type) := {
  uc_init : Z → W;                                (** [Uc(...)] and [mem_map(0, size)] *)
  uc_mem_read : Z → Z → W → W * result bytes;
  uc_mem_write : Z → bytes → W → W * result unit;
  uc_reg_read : reg → W → Z;
  uc_reg_write : reg → Z → W → W;
  uc_emu_start : Z → Z → Z → W → W * list hook * result unit;  (** the hooks ran also when it raises *)
}.

Definition PAGE_SIZE : Z := 0x1000.
Definition DEFAULT_MEMORY_SIZE : Z := 0x40000.

Record machine (W : Type) := mkMachine {
  _uc : W;
  memory_size : Z;
  m_workload : option LoadedWorkload;
  m_recorder : option TraceRecorder;
}.
Arguments mkMachine {W} _ _ _ _.
Arguments _uc {W} _.
Arguments memory_size {W} _.
Arguments m_workload {W} _.
Arguments m_recorder {W} _.

Section machine.
Context {W : Type} `{Emulator W}.
Abbreviation lab := (io (machine W)).

Definition machine_init (size : Z) : result (machine W) :=
  if (size <=? 0) || truthy (size mod PAGE_SIZE) then Raise (ValueError "memory_size must be a positive 4 KiB multiple")
  else Ok (mkMachine (uc_init size) size None None).

Definition uc {A} (m : W → W * result A) : lab A := λ s,
  let '(w, r) := m (_uc s) in (mkMachine w (memory_size s) (m_workload s) (m_recorder s), r).
Definition _write_reg (name : reg) (value : Z) : lab unit := uc (λ w, (uc_reg_write name value w, Ok tt)).

Definition registers_of (w : W) : RegisterState :=
  mkRegisters (uc_reg_read AX w) (uc_reg_read BX w) (uc_reg_read CX w) (uc_reg_read DX w) (uc_reg_read SI w)
    (uc_reg_read DI w) (uc_reg_read BP w) (uc_reg_read SP w) (uc_reg_read CS w) (uc_reg_read DS w)
    (uc_reg_read ES w) (uc_reg_read SS w) (uc_reg_read IP w) (uc_reg_read FLAGS w).
Definition registers : lab RegisterState := gets (λ s, registers_of (_uc s)).

Definition load (workload : LoadedWorkload) : lab unit :=
  let manifest := lw_manifest workload in
  let image_end := load_address manifest + len (lw_image workload) in
  size ← gets memory_size;
  if size <? image_end
  then raise (ValueError ("workload image ends at 0x" +:+ hex_upper 5 image_end +:+ ", outside modeled memory 0x00000-0x"
                          +:+ hex_upper 5 (size - 1))) else
  stack ← lift (stack_linear workload);
  if size <=? stack then raise (ValueError "manifest stack lies outside modeled memory") else
  _ ← uc (uc_mem_write (load_address manifest) (lw_image workload));
  _ ← _write_reg CS (entry_segment manifest);
  _ ← _write_reg IP (entry_offset manifest);
  _ ← _write_reg SS (stack_segment manifest);
  _ ← _write_reg SP (stack_offset manifest);
  modify (λ s, mkMachine (_uc s) (memory_size s) (Some workload) (m_recorder s)).

Definition install_trace (recorder : TraceRecorder) : lab unit :=
  installed ← gets m_recorder;
  match installed with
  | Some _ => raise (RuntimeError "a trace recorder is already installed")
  | None => modify (λ s, mkMachine (_uc s) (memory_size s) (m_workload s) (Some recorder))
  end.

(** [code_hook], [read_hook] and [write_hook] *)
Definition run_hook (r : TraceRecorder) (h : hook) : TraceRecorder :=
  match h with
  | HCode address size regs => rec_instruction address size regs r
  | HRead address size raw regs =>
      if interested r address size then rec_memory "READ" address size (from_bytes_le raw) regs r else r
  | HWrite address size value regs => rec_memory "WRITE" address size value regs r
  end.

Definition emu_start (start stop count : Z) : lab unit := λ s,
  let '(w, hooks, r) := uc_emu_start start stop count (_uc s) in
  (mkMachine w (memory_size s) (m_workload s)
     (match m_recorder s with Some r => Some (foldl run_hook r hooks) | None => None end), r).

Definition current_linear_ip : lab Z :=
  state ← registers;
  lift (linear_address (r_cs state) (r_ip state)).

Definition run (instruction_count : Z) : lab unit :=
  workload ← gets m_workload;
  match workload with
  | None => raise (RuntimeError "no workload is loaded")
  | Some _ =>
      if instruction_count <=? 0 then raise (ValueError "instruction_count must be positive") else
      start ← current_linear_ip;
      size ← gets memory_size;
      emu_start start size instruction_count
  end.

(** [int(x & 0xFFFF).to_bytes(2, "little")] *)
Definition word16 (x : Z) : bytes := le_split 2 (Z.land x 0xFFFF).

Definition inject_real_mode_interrupt (vector : Z) : lab unit :=
  workload ← gets m_workload;
  match workload with
  | None => raise (RuntimeError "no workload is loaded")
  | Some _ =>
      if (vector <? 0) || (0xFF <? vector) then raise (ValueError "interrupt vector must fit in 8 bits") else
      state ← registers;
      let new_sp := Z.land (r_sp state - 6) 0xFFFF in
      stack ← lift (linear_address (r_ss state) new_sp);
      size ← gets memory_size;
      if size <? stack + 6 then raise (ValueError "interrupt frame lies outside modeled memory") else
      _ ← uc (uc_mem_write stack (word16 (r_ip state) ++ word16 (r_cs state) ++ word16 (r_flags state)));
      _ ← _write_reg SP new_sp;
      _ ← _write_reg FLAGS (Z.land (r_flags state) (Z.lnot (Z.lor 0x0200 0x0100)));
      raw ← uc (uc_mem_read (vector * 4) 4);
      _ ← _write_reg CS (from_bytes_le (slice 2 4 raw));
      _write_reg IP (from_bytes_le (slice 0 2 raw))
  end.

Definition write_register (name : string) (value : Z) : lab unit :=
  match str_get name register_ids with
  | None => raise (ValueError ("unknown IA16 register: " +:+ name))
  | Some r =>
      if (value <? 0) || (0xFFFF <? value) then raise (ValueError "IA16 fixture register value must fit in 16 bits")
      else _write_reg r value
  end.

(** [read_memory] and [write_memory] of the machine *)
Definition lab_read (address size : Z) : lab bytes :=
  limit ← gets memory_size;
  if (address <? 0) || (size <? 0) || (limit <? address + size) then raise (ValueError "memory read is outside modeled memory")
  else uc (uc_mem_read address size).
Definition lab_write (address : Z) (data : bytes) : lab unit :=
  limit ← gets memory_size;
  if (address <? 0) || (limit <? address + len data) then raise (ValueError "memory write is outside modeled memory")
  else uc (uc_mem_write address data).
End machine.

(** ** cli.py *)

Definition _int (value : string) : result Z := py_int 0 value.

Definition _watch (value : string) (symbols : option SymbolTable) : result WatchRange :=
  let by_address :=
    match str_split_once "-" value with
    | Some (first, last) =>
        start ← _int first;
        end_inclusive ← _int last;
        watch_range start (end_inclusive + 1) (Some value)
    | None => start ← _int value; watch_range start (start + 1) (Some value)
    end in
  match symbols with
  | None => by_address
  | Some t =>
      match ('(start, stop) ← span t value; watch_range start stop (Some value)) with
      | Raise (ValueError _) => by_address
      | r => r
      end
  end.

(** The arguments *)
Record lab_args := mkLabArgs {
  a_count : Z;
  a_trace : bool;
  a_map : option string;      (** the text of the map *)
  a_watch : list string;
  a_trace_limit : Z;
}.

(** [tuple(_watch(value, symbols) for value in args.watch)] *)
Fixpoint watch_all (values : list string) (symbols : option SymbolTable) : result (list WatchRange) :=
  match values with
  | [] => Ok []
  | v :: values => w ← _watch v symbols; l ← watch_all values symbols; Ok (w :: l)
  end.

Definition lab_report (w : LoadedWorkload) (count : Z) (before after : RegisterState) : list string :=
  let manifest := lw_manifest w in
  ["RP86 IA16 Binary Laboratory";
   "Image        " +:+ lw_path w;
   "Load         0x" +:+ hex_upper 5 (load_address manifest);
   "Entry        " +:+ hex_upper 4 (entry_segment manifest) +:+ ":" +:+ hex_upper 4 (entry_offset manifest);
   "Stack        " +:+ hex_upper 4 (stack_segment manifest) +:+ ":" +:+ hex_upper 4 (stack_offset manifest);
   "Instructions " +:+ dec count;
   "Before       CS:IP=" +:+ hex_upper 4 (r_cs before) +:+ ":" +:+ hex_upper 4 (r_ip before)
     +:+ " SS:SP=" +:+ hex_upper 4 (r_ss before) +:+ ":" +:+ hex_upper 4 (r_sp before);
   "After        CS:IP=" +:+ hex_upper 4 (r_cs after) +:+ ":" +:+ hex_upper 4 (r_ip after)
     +:+ " SS:SP=" +:+ hex_upper 4 (r_ss after) +:+ ":" +:+ hex_upper 4 (r_sp after)
     +:+ " AX=" +:+ hex_upper 4 (r_ax after) +:+ " BX=" +:+ hex_upper 4 (r_bx after)]%string.

(** The recorder of the command line: none without a reason to trace *)
Definition lab_recorder (a : lab_args) (symbols : option SymbolTable) : result (option TraceRecorder) :=
  if a_trace a || negb (bool_decide (a_watch a = [])) || bool_decide (is_Some symbols) then
    ranges ← watch_all (a_watch a) symbols;
    r ← trace_recorder symbols ranges (a_trace_limit a);
    Ok (Some r)
  else Ok None.

(** [main] after the arguments are parsed and the file is read; the machine is
    the one of [IA16Machine()] *)
Definition lab_main {W} `{Emulator W} (a : lab_args) (path : string) (data : result bytes) : result (list string) :=
  workload ← load_p86w path data;
  m ← machine_init DEFAULT_MEMORY_SIZE;
  let '(m, r) := load workload m in
  _ ← r;
  symbols ← match a_map a with
            | None => Ok None
            | Some t => table ← from_wlink_map t; Ok (Some table)
            end;
  recorder ← lab_recorder a symbols;
  let '(m, r) := match recorder with Some rec => install_trace rec m | None => (m, Ok tt) end in
  _ ← r;
  let before := registers_of (_uc m) in
  let '(m, r) := run (a_count a) m in
  _ ← r;
  let after := registers_of (_uc m) in
  Ok (lab_report workload (a_count a) before after
      ++ match m_recorder m with
         | Some rec => [newline +:+ "Trace"; str_or (trace_format rec) "(no matching events)"]%string
         | None => []
         end).

(** ** Theorems *)

(** *** The recorder *)

(** The event of a hook, before the bound is applied *)
Definition hook_event (r : TraceRecorder) (h : hook) : option trace_event :=
  match h with
  | HCode address size regs =>
      if interested r address size then Some (Instruction (mkInstruction address size regs (symbol_at r address))) else None
  | HRead address size raw regs =>
      if interested r address size
      then Some (MemoryAccess (mkMemory "READ" address size (from_bytes_le raw) regs (_segment_candidates address regs) (symbol_at r address)))
      else None
  | HWrite address size value regs =>
      if interested r address size
      then Some (MemoryAccess (mkMemory "WRITE" address size value regs (_segment_candidates address regs) (symbol_at r address)))
      else None
  end.

Lemma run_hook_event r h : run_hook r h = match hook_event r h with Some e => _append e r | None => r end.
Proof. destruct h; cbn; unfold rec_instruction, rec_memory; by destruct (interested r _ _). Qed.

Lemma append_config e r :
  rec_symbols (_append e r) = rec_symbols r ∧ watches (_append e r) = watches r ∧ max_events (_append e r) = max_events r.
Proof. unfold _append. by case_match. Qed.

Lemma hook_event_append e r h : hook_event (_append e r) h = hook_event r h.
Proof.
  destruct (append_config e r) as (Hs & Hw & _). unfold hook_event, interested, symbol_at. by rewrite Hs, Hw.
Qed.

(** Recording a list of events, bound included *)
Lemma append_all l r :
  0 <= dropped r → len (events r) <= max_events r →
  let r' := foldl (λ r e, _append e r) r l in
  events r' = events r ++ take (Z.to_nat (max_events r - len (events r))) l
  ∧ dropped r' = dropped r + Z.max 0 (len l - (max_events r - len (events r))) ∧ max_events r' = max_events r.
Proof.
  revert r. induction l as [|e l IH]; intros r Hd Hm; cbn [foldl].
  - rewrite take_nil, app_nil_r, (@len_nil trace_event). split; [done|]. split; [lia|done].
  - destruct (append_config e r) as (_ & _ & Hmax). unfold _append in *. destruct (Z.leb_spec (max_events r) (len (events r))) as [Hf|Hf].
    + edestruct IH as (He & Hdr & Hme); [| |rewrite He, Hdr, Hme]; cbn [events dropped max_events]; [lia|done|].
      rewrite len_cons. replace (Z.to_nat (max_events r - len (events r))) with 0%nat by lia. cbn [take].
      pose proof (len_nonneg l). split; [done|]. split; [lia|done].
    + edestruct IH as (He & Hdr & Hme); [| |rewrite He, Hdr, Hme]; cbn [events dropped max_events]; rewrite ?len_app, ?len_cons, ?(@len_nil trace_event); [lia|lia|].
      rewrite <- app_assoc. replace (Z.to_nat (max_events r - len (events r))) with (S (Z.to_nat (max_events r - (len (events r) + (1 + 0))))) by lia.
      cbn [take app]. split; [done|]. split; [lia|done].
Qed.

Lemma run_hooks_events hooks r :
  foldl run_hook r hooks = foldl (λ r e, _append e r) r (omap (hook_event r) hooks).
Proof.
  revert r. induction hooks as [|h hooks IH]; intros r; [done|]. cbn [foldl omap list_omap]. rewrite run_hook_event.
  destruct (hook_event r h) as [e|]; [|apply IH]. cbn [foldl]. rewrite IH. f_equal.
  apply list_omap_ext. apply Forall2_same_length_lookup_2; [done|].
  intros i x y Hx Hy. simplify_eq. apply hook_event_append.
Qed.

Lemma overlaps_spec w address size :
  w_start w < w_end w →
  overlaps w address size = true ↔ ∃ x, w_start w <= x < w_end w ∧ address <= x < address + Z.max size 1.
Proof.
  intros Hw. unfold overlaps. rewrite andb_true_iff, !Z.ltb_lt. split.
  - intros [H1 H2]. exists (Z.max (w_start w) address). lia.
  - intros (x & Hx & Hy). lia.
Qed.

Definition access_of (h : hook) : Z * Z :=
  match h with HCode a n _ | HRead a n _ _ | HWrite a n _ _ => (a, n) end.

Lemma hook_event_interested r h : is_Some (hook_event r h) ↔ interested r (access_of h).1 (access_of h).2 = true.
Proof. destruct h; cbn; case_match; split; try done; try (by intros []); by eexists. Qed.

(** C27: a fresh recorder keeps, of any run of the emulator, the first
    [max_events] accesses of interest in the order in which they happened, each
    with its registers, and counts every other one as dropped; an access is of
    interest exactly when there is no watch, or when one of its octets lies in a
    watched range. *)
Theorem trace_bounded symbols ranges limit r :
  trace_recorder symbols ranges limit = Ok r → Forall (λ w, w_start w < w_end w) ranges →
  ∀ hooks,
    let seen := omap (hook_event r) hooks in
    events (foldl run_hook r hooks) = take (Z.to_nat limit) seen
    ∧ len (events (foldl run_hook r hooks)) + dropped (foldl run_hook r hooks) = len seen
    ∧ Forall (λ h, is_Some (hook_event r h) ↔
        ranges = [] ∨ ∃ w x, w ∈ ranges ∧ w_start w <= x < w_end w
                        ∧ (access_of h).1 <= x < (access_of h).1 + Z.max (access_of h).2 1) hooks.
Proof.
  unfold trace_recorder. case_match eqn:Hl; [done|]. intros [= <-] Hw hooks. cbv zeta.
  set (r := mkRecorder _ _ _ _ _). rewrite run_hooks_events.
  destruct (append_all (omap (hook_event r) hooks) r) as (He & Hd & _); [done|change (0 <= limit); lia|].
  cbn [events dropped max_events r app len] in He, Hd. change (len (@nil trace_event)) with 0 in He, Hd. rewrite Z.sub_0_r in He, Hd.
  rewrite He, Hd. split; [done|]. split.
  - unfold len in *. rewrite length_take. lia.
  - apply Forall_forall. intros h _. rewrite hook_event_interested. unfold interested. cbn [watches r].
    destruct ranges as [|w0 ranges]; [naive_solver|]. rewrite existsb_exists. rewrite Forall_forall in Hw. split.
    + intros (w & Hin & Ho). right. apply list_elem_of_In in Hin. apply overlaps_spec in Ho as (x & ? & ?); [|by apply Hw]. eauto 6.
    + intros [?|(w & x & Hin & ? & ?)]; [done|]. exists w. split; [by apply list_elem_of_In|]. apply overlaps_spec; [by apply Hw|]. eauto.
Qed.

(** *** The emulator's contract *)

(** The flags of an 8086: CF, PF, AF, ZF, SF, TF, IF, DF and OF.  The other bits
    of FLAGS are reserved; the emulator reads bit 1 as set whatever is written. *)
Definition flag_bits : list Z := [0; 2; 4; 6; 7; 8; 9; 10; 11].

(** The documented behaviour of Unicorn the machine relies on: octets, 16-bit
    registers and the flags are read as they were written, and nothing else
    changes. *)
Class Faithful (W : Type) `{Emulator W} := {
  uc_byte : W → Z → byte;
  uc_size : W → Z;
  uc_read_ok a n w : 0 <= a → 0 <= n → a + n <= uc_size w →
    uc_mem_read a n w = (w, Ok (map (λ i, uc_byte w (a + Z.of_nat i)) (seq 0 (Z.to_nat n))));
  uc_write_ok a data w : 0 <= a → a + len data <= uc_size w →
    ∃ w', uc_mem_write a data w = (w', Ok tt) ∧ uc_size w' = uc_size w
      ∧ (∀ r, uc_reg_read r w' = uc_reg_read r w)
      ∧ (∀ x, ¬ (a <= x < a + len data) → uc_byte w' x = uc_byte w x)
      ∧ (∀ i b, data !! i = Some b → uc_byte w' (a + Z.of_nat i) = b);
  uc_reg_same r v w : r ≠ FLAGS → 0 <= v <= 0xFFFF → uc_reg_read r (uc_reg_write r v w) = v;
  uc_flags_same k v w : k ∈ flag_bits → 0 <= v <= 0xFFFF →
    Z.testbit (uc_reg_read FLAGS (uc_reg_write FLAGS v w)) k = Z.testbit v k;
  uc_reg_other r r' v w : r' ≠ r → uc_reg_read r' (uc_reg_write r v w) = uc_reg_read r' w;
  uc_reg_memory r v w : uc_byte (uc_reg_write r v w) = uc_byte w ∧ uc_size (uc_reg_write r v w) = uc_size w;
}.

(** The word at an address, least significant octet first *)
Definition word_at {W} `{Faithful W} (w : W) (a : Z) : Z :=
  from_bytes_le [uc_byte w a; uc_byte w (a + 1)].

(** A word of a segment, whose offsets wrap at 64 KiB, and the three words IRET
    pops from SS:SP *)
Definition segment_word {W} `{Faithful W} (w : W) (segment offset : Z) : Z :=
  from_bytes_le [uc_byte w (16 * segment + offset mod 2 ^ 16); uc_byte w (16 * segment + (offset + 1) mod 2 ^ 16)].
Definition iret_frame {W} `{Faithful W} (w : W) (segment sp : Z) : Z * Z * Z :=
  (segment_word w segment sp, segment_word w segment (sp + 2), segment_word w segment (sp + 4)).

Lemma word16_octets x : word16 x = [byte.of_Z (Z.land x 0xFFFF); byte.of_Z (Z.shiftr (Z.land x 0xFFFF) 8)].
Proof. reflexivity. Qed.
Lemma word16_value x : from_bytes_le (word16 x) = x mod 2 ^ 16.
Proof.
  unfold word16, from_bytes_le. change 0xFFFF with (Z.ones 16). rewrite Z.land_ones by lia.
  rewrite le_round; [done|]. apply Z.mod_pos_bound. lia.
Qed.
Lemma word_range b c : 0 <= from_bytes_le [b; c] <= 0xFFFF.
Proof. pose proof (le_range 2 [b; c] ltac:(cbn; lia)) as Hr. unfold from_bytes_le. cbn [take] in Hr. lia. Qed.

Lemma clear_bits x k : 0 <= k → Z.testbit (Z.land x (Z.lnot (Z.lor 0x0200 0x0100))) k
  = if (k =? 8) || (k =? 9) then false else Z.testbit x k.
Proof.
  intros Hk. rewrite Z.land_spec, Z.lnot_spec, Z.lor_spec by done.
  change 0x0200 with (2 ^ 9). change 0x0100 with (2 ^ 8). rewrite !Z.pow2_bits_eqb by lia.
  rewrite (Z.eqb_sym 9 k), (Z.eqb_sym 8 k). destruct (k =? 8), (k =? 9); cbn; by rewrite ?andb_false_r, ?andb_true_r.
Qed.
Lemma clear_range x : 0 <= x <= 0xFFFF → 0 <= Z.land x (Z.lnot (Z.lor 0x0200 0x0100)) <= 0xFFFF.
Proof.
  intros Hx. assert (Z.land x (Z.lnot (Z.ones 16)) = 0) as Hz by (apply land_lnot_ones; lia).
  assert (0 <= Z.land x (Z.lnot (Z.lor 0x0200 0x0100)) < 2 ^ 16); [|lia].
  apply land_lnot_ones; [lia|].
  by rewrite <- Z.land_assoc, (Z.land_comm (Z.lnot (Z.lor _ _))), Z.land_assoc, Hz.
Qed.

(** *** Interrupts *)

(** The registers an interrupt leaves alone *)
Definition kept (r : reg) : bool := negb (bool_decide (r ∈ [SP; FLAGS; CS; IP])).

Section interrupt.
Context {W : Type} `{Faithful W}.
Implicit Types w : W.

Lemma read_word w a : 0 <= a → a + 4 <= uc_size w →
  uc_mem_read a 4 w = (w, Ok [uc_byte w a; uc_byte w (a + 1); uc_byte w (a + 2); uc_byte w (a + 3)]).
Proof.
  intros. rewrite uc_read_ok by lia. change (Z.to_nat 4) with 4%nat. cbn [seq map].
  change (Z.of_nat 0) with 0. by rewrite Z.add_0_r.
Qed.

Lemma write_words w a x y z :
  0 <= a → a + 6 <= uc_size w →
  ∃ w', uc_mem_write a (word16 x ++ word16 y ++ word16 z) w = (w', Ok tt) ∧ uc_size w' = uc_size w
    ∧ (∀ r, uc_reg_read r w' = uc_reg_read r w) ∧ (∀ k, ¬ (a <= k < a + 6) → uc_byte w' k = uc_byte w k)
    ∧ word_at w' a = x mod 2 ^ 16 ∧ word_at w' (a + 2) = y mod 2 ^ 16 ∧ word_at w' (a + 4) = z mod 2 ^ 16.
Proof.
  intros Ha Hs. destruct (uc_write_ok a (word16 x ++ word16 y ++ word16 z) w) as (w' & Hw & Hsz & Hr & Ho & Hd); [done|exact Hs|].
  exists w'. split; [done|]. split; [done|]. split; [done|]. split; [exact Ho|].
  rewrite <- !word16_value, !word16_octets in *. unfold word_at.
  pose proof (λ i b, Hd i b) as Hb. rewrite <- (Hd 0%nat _ eq_refl), <- (Hd 1%nat _ eq_refl), <- (Hd 2%nat _ eq_refl),
    <- (Hd 3%nat _ eq_refl), <- (Hd 4%nat _ eq_refl), <- (Hd 5%nat _ eq_refl).
  rewrite Z.add_0_r, <- !Z.add_assoc. done.
Qed.

Lemma reg_write_byte r v w : uc_byte (uc_reg_write r v w) = uc_byte w.
Proof. apply uc_reg_memory. Qed.
Lemma reg_write_size r v w : uc_size (uc_reg_write r v w) = uc_size w.
Proof. apply uc_reg_memory. Qed.
Lemma word_at_byte w w' a : uc_byte w' = uc_byte w → word_at w' a = word_at w a.
Proof. unfold word_at. by intros ->. Qed.

(** A frame that does not pass the top of the segment *)
Lemma iret_frame_words w segment sp : 0 <= sp → sp + 6 <= 2 ^ 16 →
  iret_frame w segment sp = (word_at w (16 * segment + sp), word_at w (16 * segment + sp + 2), word_at w (16 * segment + sp + 4)).
Proof. intros. unfold iret_frame, segment_word, word_at. rewrite !Z.mod_small by lia. by rewrite !Z.add_assoc. Qed.

(** The run of an interrupt that is accepted, with the emulator states it goes through *)
Lemma inject_run vector (m : machine W) x s w1 raw :
  m_workload m = Some x → 0 <= vector <= 0xFF → s = registers_of (_uc m) →
  let sp := Z.land (r_sp s - 6) 0xFFFF in
  let frame := Z.shiftl (r_ss s) 4 + sp in
  0 <= r_ss s <= 0xFFFF → frame + 6 <= memory_size m <= 0x100000 →
  uc_mem_write frame (word16 (r_ip s) ++ word16 (r_cs s) ++ word16 (r_flags s)) (_uc m) = (w1, Ok tt) →
  let w3 := uc_reg_write FLAGS (Z.land (r_flags s) (Z.lnot (Z.lor 0x0200 0x0100))) (uc_reg_write SP sp w1) in
  uc_mem_read (vector * 4) 4 w3 = (w3, Ok raw) →
  inject_real_mode_interrupt vector m
  = (mkMachine (uc_reg_write IP (from_bytes_le (slice 0 2 raw)) (uc_reg_write CS (from_bytes_le (slice 2 4 raw)) w3))
       (memory_size m) (m_workload m) (m_recorder m), Ok tt).
Proof.
  intros Hx Hv -> sp frame Hss Hf Hw w3 Hr.
  pose proof (Z.land_ones (r_sp (registers_of (_uc m)) - 6) 16 ltac:(lia)) as Hsp.
  pose proof (Z.mod_pos_bound (r_sp (registers_of (_uc m)) - 6) (2 ^ 16) ltac:(lia)).
  change (Z.ones 16) with 0xFFFF in Hsp. fold sp in Hsp.
  unfold inject_real_mode_interrupt, gets, mbind, io_bind. rewrite Hx.
  destruct ((vector <? 0) || (0xFF <? vector)) eqn:Ev; [lia|]. unfold registers, gets. fold sp.
  assert (linear_address (r_ss (registers_of (_uc m))) sp = Ok frame) as ->.
  { unfold linear_address. guard_false. fold frame. guard_false. done. }
  cbn [lift]. destruct (Z.ltb_spec (memory_size m) (frame + 6)); [lia|].
  unfold uc, _write_reg. rewrite Hw. cbn [_uc memory_size m_workload m_recorder]. unfold uc. cbn [_uc memory_size m_workload m_recorder].
  fold w3. rewrite Hr. cbn. by rewrite Hx.
Qed.
End interrupt.

(** C24: an interrupt that is injected while the frame fits below the top of the
    stack segment (SP is 0, or 6 or more) enters the handler of its vector the way
    an 8086 does: SP is six lower, exactly IF and TF of the flags are cleared,
    CS:IP is the entry of the vector table, every other register and every octet
    outside the frame is as before; and the three words that IRET pops from
    SS:SP, with offsets that wrap as an 8086 wraps them, are the IP, CS and FLAGS
    of the interrupted program.  (For SP from 1 to 5 see [interrupt_frame_wraps].) *)
Theorem interrupt_entered {W} `{Faithful W} vector (m : machine W) workload :
  m_workload m = Some workload → 0 <= vector <= 0xFF →
  uc_size (_uc m) = memory_size m → 0x400 <= memory_size m <= 0x100000 →
  (∀ r, 0 <= uc_reg_read r (_uc m) <= 0xFFFF) →
  let s := registers_of (_uc m) in
  let sp := (r_sp s - 6) mod 2 ^ 16 in
  let frame := 16 * r_ss s + sp in
  sp + 6 <= 2 ^ 16 → frame + 6 <= memory_size m →
  ∃ m', inject_real_mode_interrupt vector m = (m', Ok tt)
    ∧ let s' := registers_of (_uc m') in
      r_sp s' = sp ∧ (r_sp s' + 6) mod 2 ^ 16 = r_sp s
      ∧ iret_frame (_uc m') (r_ss s') (r_sp s') = (r_ip s, r_cs s, r_flags s)
      ∧ (r_ip s', r_cs s') = (word_at (_uc m') (4 * vector), word_at (_uc m') (4 * vector + 2))
      ∧ (∀ k, k ∈ flag_bits → Z.testbit (r_flags s') k = if (k =? 8) || (k =? 9) then false else Z.testbit (r_flags s) k)
      ∧ (∀ r, kept r = true → uc_reg_read r (_uc m') = uc_reg_read r (_uc m))
      ∧ (∀ a, ¬ (frame <= a < frame + 6) → uc_byte (_uc m') a = uc_byte (_uc m) a).
Proof.
  intros Hx Hv Hsz Hm Hr s sp frame Htop Hf.
  assert (Z.land (r_sp s - 6) 0xFFFF = sp) as Hsp by (change 0xFFFF with (Z.ones 16); by rewrite Z.land_ones).
  pose proof (Z.mod_pos_bound (r_sp s - 6) (2 ^ 16) ltac:(lia)) as Hb. fold sp in Hb.
  assert (Z.shiftl (r_ss s) 4 + sp = frame) as Hfr by (rewrite Z.shiftl_mul_pow2 by lia; unfold frame; lia).
  pose proof (Hr SS) as Hss. pose proof (Hr IP) as Hip. pose proof (Hr CS) as Hcs. pose proof (Hr FLAGS) as Hfl. pose proof (Hr SP) as Hrsp.
  change (uc_reg_read SS (_uc m)) with (r_ss s) in Hss. change (uc_reg_read IP (_uc m)) with (r_ip s) in Hip.
  change (uc_reg_read CS (_uc m)) with (r_cs s) in Hcs. change (uc_reg_read FLAGS (_uc m)) with (r_flags s) in Hfl.
  change (uc_reg_read SP (_uc m)) with (r_sp s) in Hrsp.
  destruct (write_words (_uc m) frame (r_ip s) (r_cs s) (r_flags s)) as (w1 & Hw & Hs1 & Hr1 & Ho1 & Hi & Hc & Hfw); [lia|lia|].
  set (w3 := uc_reg_write FLAGS (Z.land (r_flags s) (Z.lnot (Z.lor 0x0200 0x0100))) (uc_reg_write SP sp w1)).
  assert (uc_byte w3 = uc_byte w1) as Hb3 by (unfold w3; by rewrite !reg_write_byte).
  assert (uc_size w3 = memory_size m) as Hs3 by (unfold w3; rewrite !reg_write_size; congruence).
  pose proof (read_word w3 (vector * 4) ltac:(lia) ltac:(lia)) as Hrd.
  eexists. split; [eapply (inject_run vector m workload s w1); try done; rewrite ?Hsp, ?Hfr; try done; lia|].
  cbn [_uc]. rewrite Hsp. fold w3.
  set (ip := from_bytes_le (slice 0 2 _)). set (cs := from_bytes_le (slice 2 4 _)).
  assert (ip = word_at w1 (4 * vector)) as Hip5.
  { unfold ip, word_at. rewrite Hb3, (Z.mul_comm 4). reflexivity. }
  assert (cs = word_at w1 (4 * vector + 2)) as Hcs5.
  { unfold cs, word_at. rewrite Hb3, (Z.mul_comm 4), <- Z.add_assoc. reflexivity. }
  assert (0 <= ip <= 0xFFFF ∧ 0 <= cs <= 0xFFFF) as [Hipr Hcsr] by (rewrite Hip5, Hcs5; split; apply word_range).
  set (w5 := uc_reg_write IP ip (uc_reg_write CS cs w3)).
  assert (uc_byte w5 = uc_byte w1) as Hb5 by (unfold w5; by rewrite !reg_write_byte).
  pose proof (clear_range (r_flags s) Hfl) as Hclr.
  cbn [registers_of r_sp r_ip r_cs r_flags r_ss]. rewrite !(word_at_byte w1 w5) by done.
  assert (uc_reg_read SP w5 = sp) as ->.
  { unfold w5, w3. rewrite !uc_reg_other by done. apply uc_reg_same; [done|lia]. }
  assert (uc_reg_read IP w5 = ip) as -> by (apply uc_reg_same; [done|lia]).
  assert (uc_reg_read CS w5 = cs) as -> by (unfold w5; rewrite uc_reg_other by done; apply uc_reg_same; [done|lia]).
  assert (uc_reg_read SS w5 = r_ss s) as -> by (unfold w5, w3; rewrite !uc_reg_other by done; apply Hr1).
  split; [done|]. split.
  { unfold sp. rewrite Zplus_mod_idemp_l, Z.sub_add. apply Z.mod_small. lia. }
  split.
  { rewrite (iret_frame_words w5 (r_ss s) sp) by lia. fold frame. rewrite !(word_at_byte w1 w5) by done.
    by rewrite Hi, Hc, Hfw, !Z.mod_small by lia. }
  split; [by rewrite Hip5, Hcs5|]. split.
  { intros k Hk. unfold w5. rewrite !uc_reg_other by done. unfold w3. rewrite uc_flags_same by done.
    apply clear_bits. unfold flag_bits in Hk. set_unfold. lia. }
  split.
  - intros r Hk. unfold kept in Hk. apply negb_true_iff, bool_decide_eq_false in Hk. unfold w5, w3.
    rewrite !uc_reg_other; [apply Hr1|..]; intros ->; apply Hk; set_solver.
  - intros a Ha. rewrite Hb5. by apply Ho1.
Qed.

(** ** A concrete emulator: memory and registers as functions *)

Record bare := mkBare { b_size : Z; b_mem : Z → byte; b_reg : reg → Z }.
Definition store (a : Z) (data : bytes) (mem : Z → byte) : Z → byte := λ x,
  if (a <=? x) && (x <? a + len data) then nth (Z.to_nat (x - a)) data Byte.x00 else mem x.
#[global] Instance bare_emulator : Emulator bare := {|
  uc_init := λ size, mkBare size (λ _, Byte.x00) (λ _, 0);
  uc_mem_read := λ a n w, (w, Ok (map (λ i, b_mem w (a + Z.of_nat i)) (seq 0 (Z.to_nat n))));
  uc_mem_write := λ a data w, (mkBare (b_size w) (store a data (b_mem w)) (b_reg w), Ok tt);
  uc_reg_read := λ r w, b_reg w r;
  uc_reg_write := λ r v w,
    mkBare (b_size w) (b_mem w) (λ x, if decide (x = r) then if decide (r = FLAGS) then Z.lor v 2 else v else b_reg w x);
  uc_emu_start := λ _ _ _ w, (w, [], Ok tt);
|}.

#[global] Program Instance bare_faithful : Faithful bare := {| uc_byte := b_mem; uc_size := b_size |}.
Next Obligation. done. Qed.
Next Obligation.
  intros a data w Ha Hs. eexists. split; [reflexivity|]. cbn. split; [done|]. split; [done|]. unfold store. split.
  - intros x Hx. destruct ((a <=? x) && (x <? a + len data)) eqn:E; [lia|done].
  - intros i b Hi. pose proof (lookup_lt_Some _ _ _ Hi) as Hl. unfold len.
    destruct ((a <=? a + Z.of_nat i) && (a + Z.of_nat i <? a + Z.of_nat (length data))) eqn:E; [|lia].
    replace (Z.to_nat (a + Z.of_nat i - a)) with i by lia. by apply nth_lookup_Some.
Qed.
Next Obligation. intros r v w Hr _. cbn. by repeat case_decide. Qed.
Next Obligation.
  intros k v w Hk _. cbn [uc_reg_read uc_reg_write bare_emulator b_reg]. rewrite !decide_True, Z.lor_spec by done. change 2 with (2 ^ 1). unfold flag_bits in Hk. set_unfold.
  rewrite Z.pow2_bits_eqb by lia. destruct (Z.eqb_spec 1 k); [lia|apply orb_false_r].
Qed.
Next Obligation. intros r r' v w Hr. cbn. by case_decide. Qed.
Next Obligation. done. Qed.

(** A processor at 1000:0123 with SS:SP at [ss]:[sp] whose vector 8 is 2345:0042 *)
Definition bench_registers (ss sp : Z) (r : reg) : Z :=
  match r with CS => 0x1000 | IP => 0x0123 | SS => ss | SP => sp | FLAGS => 0x0302 | AX => 7 | _ => 0 end.
Definition bench_machine (ss sp : Z) : machine bare :=
  mkMachine (mkBare 0x40000 (store 0x20 [Byte.x42; Byte.x00; Byte.x45; Byte.x23] (λ _, Byte.x00)) (bench_registers ss sp)) 0x40000
    (Some (mkLoaded "demo.p86w" sample_manifest sample_image)) None.

Example interrupt_entered_witness :
  let m := bench_machine 0x2000 0x0100 in
  let s := registers_of (_uc m) in
  ∃ m', inject_real_mode_interrupt 8 m = (m', Ok tt)
    ∧ r_ip (registers_of (_uc m')) = 0x42 ∧ r_cs (registers_of (_uc m')) = 0x2345
    ∧ r_flags (registers_of (_uc m')) = 0x0002
    ∧ iret_frame (_uc m') (r_ss (registers_of (_uc m'))) (r_sp (registers_of (_uc m'))) = (r_ip s, r_cs s, r_flags s).
Proof.
  intros m s. destruct (interrupt_entered 8 m (mkLoaded "demo.p86w" sample_manifest sample_image)) as (m' & Hi & Hall).
  - reflexivity.
  - lia.
  - reflexivity.
  - cbn. lia.
  - intros []; cbn; lia.
  - vm_compute. discriminate.
  - vm_compute. discriminate.
  - exists m'. split; [exact Hi|]. assert (m' = (inject_real_mode_interrupt 8 m).1) as -> by (by rewrite Hi).
    split; [reflexivity|]. split; [reflexivity|]. split; [reflexivity|]. exact (proj1 (proj2 (proj2 Hall))).
Defined.

(** With fewer than six octets below the top of the segment the frame is written
    past offset FFFF, where an 8086 wraps to offset 0: the words the handler's
    IRET finds at 2000:0000 and 2000:0002 are not CS and FLAGS. *)
Example interrupt_frame_wraps :
  let m := (inject_real_mode_interrupt 8 (bench_machine 0x2000 0x0004)).1 in
  r_sp (registers_of (_uc m)) = 0xFFFE ∧ iret_frame (_uc m) 0x2000 0xFFFE = (0x0123, 0, 0)
  ∧ word_at (_uc m) (0x20000 + 0x10000) = 0x1000.
Proof. vm_compute. done. Qed.

(** Two accesses of interest and one elsewhere, with room for one event *)
Example trace_bounded_witness :
  let regs := registers_of (_uc (bench_machine 0x2000 0x0100)) in
  let hooks := [HCode 0x10123 2 regs; HWrite 0x50000 2 1 regs; HWrite 0x200FF 2 0xBEEF regs] in
  ∃ r, trace_recorder None [mkWatch 0x10123 0x10124 None; mkWatch 0x20100 0x20200 None] 1 = Ok r
    ∧ len (events (foldl run_hook r hooks)) = 1 ∧ dropped (foldl run_hook r hooks) = 1
    ∧ events (foldl run_hook r hooks) = take 1 (omap (hook_event r) hooks).
Proof.
  intros regs hooks. eexists. split; [reflexivity|]. split; [reflexivity|]. split; [reflexivity|].
  exact (proj1 (trace_bounded None [mkWatch 0x10123 0x10124 None; mkWatch 0x20100 0x20200 None] 1 _ eq_refl
                  ltac:(by repeat constructor) hooks)).
Defined.
