(* ===== verification/Layout.v ===== *)
(** * Linked addresses of FreeRTOS symbols (tools/ia16_lab/freertos75_layout.py,
    freertos75_queue_layout.py, freertos75_port_layout.py)

    Static symbols are missing from the linker map; their addresses are computed
    from the object files: the placement of the segment, the offset of the
    object's contribution to it and the offset of the symbol in the object.
    Public symbols, which the map has, are the anchors that validate the
    computation.  Files and the resolution of paths are the context.

    The theorem says what a layout that is returned certifies. *)

From stdpp Require Import gmap.
From Stdlib Require Import Ascii.
From S2P Require Import Prelude Struct PyText Telemetry Regex Symbols Omf.
Open Scope Z_scope.

(** [^file\s+'([^']+)'\s*$] with IGNORECASE *)
Definition _FILE : re :=
  Cat (Assert line_start) (Cat (word no_case (ascii_list "file")) (Cat (plus str_space)
    (Cat (one single_quote) (Cat (Group (plus (λ c, negb (Ascii.eqb c single_quote))))
      (Cat (one single_quote) (Cat (star str_space) (Assert line_end))))))).

Definition not_space (c : ascii) : bool := negb (str_space c).
Definition far_pointer : re :=
  Cat (Group (between 4 4 hexdigit)) (Cat (one ":") (Cat (Group (between 4 8 hexdigit)) (Assert word_boundary))).
(** [^\s*(_TEXT|_DATA|_BSS)\s+\S+\s+\S+\s+([0-9A-Fa-f]{4}):([0-9A-Fa-f]{4,8})\b] *)
Definition _SEGMENT : re :=
  Cat (Assert line_start) (Cat (star str_space)
    (Cat (Group (Alt (literal "_TEXT") (Alt (literal "_DATA") (literal "_BSS"))))
      (Cat (plus str_space) (Cat (plus not_space) (Cat (plus str_space) (Cat (plus not_space)
        (Cat (plus str_space) far_pointer))))))).
(** [^DGROUP\s+([0-9A-Fa-f]{4}):([0-9A-Fa-f]{4,8})\b] *)
Definition _DGROUP : re := Cat (Assert line_start) (Cat (literal "DGROUP") (Cat (plus str_space) far_pointer)).

Definition TARGETS : list string :=
  ["_prvAddCurrentTaskToDelayedList"; "_pxReadyTasksLists"; "_xSuspendedTaskList"; "_pxCurrentTCB"]%string.

Record FreeRTOS75Layout := mkLayout {
  text_base : Z;
  dgroup_base : Z;
  addresses : list (string * Z);
  bss_anchor_name : string;
  bss_anchor_address : Z;
}.

Definition layout_address (l : FreeRTOS75Layout) (name : string) : result Z :=
  match str_get name (addresses l) with
  | Some a => Ok a
  | None => Raise (ValueError ("resolved FreeRTOS #75 symbol not found: " +:+ name))
  end.
Definition dgroup_offset (l : FreeRTOS75Layout) (name : string) : result Z :=
  a ← layout_address l name;
  let offset := a - dgroup_base l in
  if negb ((0 <=? offset) && (offset <=? 0xFFFF))
  then Raise (ValueError (name +:+ " is outside the resolved DGROUP near-pointer range")) else
  Ok offset.

(** [_physical] of two groups of hexadecimal digits *)
Definition _physical (segment offset : text) : Z := Z.shiftl (hex_text segment) 4 + hex_text offset.

(** [segment_bases]: of several placements of a segment the last one counts *)
Definition placements_of (map_text : string) : gmap string Z :=
  foldl (λ m g, <[group 1 g := _physical (nth 1 g []) (nth 2 g [])]> m) ∅ (finditer _SEGMENT (ascii_list map_text)).
Definition segment_bases (map_text : string) : result (gmap string Z) :=
  let bases := placements_of map_text in
  match List.filter (λ name, bool_decide (bases !! name = None)) ["_BSS"; "_DATA"; "_TEXT"]%string with
  | [] => Ok bases
  | missing => Raise (ValueError ("WLINK map missing segment placement: " +:+ str_join ", " missing))
  end.

(** [dgroup_base] *)
Definition dgroup_placement (map_text : string) : result Z :=
  match search _DGROUP (ascii_list map_text) with
  | None => Raise (ValueError "WLINK map contains no DGROUP placement")
  | Some g => Ok (_physical (nth 0 g []) (nth 1 g []))
  end.

Definition linked_address (obj : OMFObject) (symbol_name : string) (bases : bases_t) (placements : gmap string Z) : result Z :=
  match omf_symbol obj symbol_name with
  | None => Raise (ValueError ("OMF symbol not found: " +:+ symbol_name))
  | Some symbol =>
      match placements !! y_segment_name symbol with
      | None => Raise (ValueError ("no final placement for segment " +:+ py_repr (y_segment_name symbol)))
      | Some placement =>
          match bases !! (o_path obj, y_segment_name symbol) with
          | None => Raise (KeyError (y_segment_name symbol))
          | Some contribution => Ok (placement + contribution + y_offset symbol)
          end
      end
  end.

(** The first symbol of a BSS contribution that the map shows, with the address
    that is predicted and the one of the map *)
Fixpoint bss_in_object (obj : OMFObject) (l : list OMFSymbol) (bases : bases_t) (placements : gmap string Z) (t : SymbolTable)
  : result (option (string * Z * Z)) :=
  match l with
  | [] => Ok None
  | symbol :: l =>
      match by_name t (y_name symbol) with
      | Some visible =>
          if String.eqb (y_segment_name symbol) "_BSS" then
            predicted ← linked_address obj (y_name symbol) bases placements;
            Ok (Some (y_name symbol, predicted, sym_address visible))
          else bss_in_object obj l bases placements t
      | None => bss_in_object obj l bases placements t
      end
  end.
Fixpoint _visible_bss_anchor (objects : list OMFObject) (bases : bases_t) (placements : gmap string Z) (t : SymbolTable)
  : result (option (string * Z * Z)) :=
  match objects with
  | [] => Ok None
  | obj :: objects =>
      found ← bss_in_object obj (o_symbols obj) bases placements t;
      match found with
      | Some x => Ok (Some x)
      | None => _visible_bss_anchor objects bases placements t
      end
  end.

Section files.
Context (read_text : string → result string) (read_octets : string → result bytes) (resolve_path : string → string).

Definition object_paths (link_script : string) : result (list string) :=
  text ← read_text link_script;
  match map (group 1) (finditer _FILE (ascii_list text)) with
  | [] => Raise (ValueError ("link script contains no object files: " +:+ link_script))
  | paths => Ok paths
  end.

Definition parse_omf (path : string) : result OMFObject := data ← read_octets path; parse_omf_bytes data (Some path).
Fixpoint parse_all (paths : list string) : result (list OMFObject) :=
  match paths with
  | [] => Ok []
  | path :: paths => o ← parse_omf path; l ← parse_all paths; Ok (o :: l)
  end.

(** The object whose path resolves to [target] *)
Definition object_at (objects : list OMFObject) (target : string) : option OMFObject :=
  List.find (λ o, match o_path o with Some p => String.eqb (resolve_path p) (resolve_path target) | None => false end) objects.

(** [addresses[target] = linked_address(...)] for each target *)
Fixpoint target_addresses (tasks : OMFObject) (bases : bases_t) (placements : gmap string Z) (targets : list string)
  : result (list (string * Z)) :=
  match targets with
  | [] => Ok []
  | target :: targets =>
      match omf_symbol tasks target with
      | None => Raise (RuntimeError ("required tasks.c symbol missing from OMF: " +:+ target))
      | Some _ =>
          a ← linked_address tasks target bases placements;
          rest ← target_addresses tasks bases placements targets;
          Ok ((target, a) :: rest)
      end
  end.

Definition mismatch (what predicted : string) (p expected : Z) : exn :=
  RuntimeError (what +:+ " contribution mismatch" +:+ predicted +:+ ": predicted 0x" +:+ hex_upper 5 p
                +:+ ", map 0x" +:+ hex_upper 5 expected).

Definition resolve_layout (link_script map_path tasks_object : string) : result FreeRTOS75Layout :=
  map_text ← read_text map_path;
  map_symbols ← from_wlink_map map_text;
  placements ← segment_bases map_text;
  paths ← object_paths link_script;
  objects ← parse_all paths;
  let bases := contribution_bases objects in
  match object_at objects tasks_object with
  | None => Raise (ValueError ("tasks object is not part of link script: " +:+ tasks_object))
  | Some tasks =>
      text_anchor ← linked_address tasks "_xTaskCreate" bases placements;
      text_expected ← address map_symbols "_xTaskCreate";
      data_anchor ← linked_address tasks "_pxCurrentTCB" bases placements;
      data_expected ← address map_symbols "_pxCurrentTCB";
      if negb (text_anchor =? text_expected) then Raise (mismatch "_TEXT" EmptyString text_anchor text_expected) else
      if negb (data_anchor =? data_expected) then Raise (mismatch "_DATA" EmptyString data_anchor data_expected) else
      bss ← _visible_bss_anchor objects bases placements map_symbols;
      match bss with
      | None => Raise (RuntimeError "no map-visible _BSS symbol available to validate BSS contribution layout")
      | Some (bss_name, bss_predicted, bss_expected) =>
          if negb (bss_predicted =? bss_expected)
          then Raise (mismatch "_BSS" (" at " +:+ bss_name) bss_predicted bss_expected) else
          targets ← target_addresses tasks bases placements TARGETS;
          dgroup ← dgroup_placement map_text;
          let layout := mkLayout (default 0 (placements !! "_TEXT"%string)) dgroup targets bss_name bss_predicted in
          _ ← dgroup_offset layout "_pxReadyTasksLists";
          _ ← dgroup_offset layout "_xSuspendedTaskList";
          _ ← dgroup_offset layout "_pxCurrentTCB";
          Ok layout
      end
  end.

(** ** freertos75_queue_layout.py *)

Record FreeRTOS75QueueLayout := mkQueueLayout {
  q_scheduler : FreeRTOS75Layout;
  consumer_task : Z;
  queue_receive : Z;
  queue_handle : Z;
}.
Definition queue_dgroup_offset (l : FreeRTOS75QueueLayout) (a : Z) : result Z :=
  let offset := a - dgroup_base (q_scheduler l) in
  if negb ((0 <=? offset) && (offset <=? 0xFFFF))
  then Raise (ValueError "address is outside the production DGROUP near-pointer range") else Ok offset.

Definition _find_object (objects : list OMFObject) (path : string) : result OMFObject :=
  match object_at objects path with
  | Some o => Ok o
  | None => Raise (ValueError ("object is not part of production link: " +:+ path))
  end.

(** [if linked_address(obj, name) != map_symbols.address(name): raise RuntimeError(text)] *)
Definition anchored (obj : OMFObject) (name : string) (bases : bases_t) (placements : gmap string Z) (t : SymbolTable)
    (text : string) : result Z :=
  predicted ← linked_address obj name bases placements;
  expected ← address t name;
  if negb (predicted =? expected) then Raise (RuntimeError text) else Ok predicted.

Definition resolve_queue_layout (link_script map_path main_object queue_object tasks_object : string)
  : result FreeRTOS75QueueLayout :=
  scheduler ← resolve_layout link_script map_path tasks_object;
  map_text ← read_text map_path;
  map_symbols ← from_wlink_map map_text;
  placements ← segment_bases map_text;
  paths ← object_paths link_script;
  objects ← parse_all paths;
  let bases := contribution_bases objects in
  main ← _find_object objects main_object;
  queue ← _find_object objects queue_object;
  _ ← anchored main "_rp86_freertos_system_main" bases placements map_symbols
        "main-object _TEXT contribution does not match WLINK map";
  _ ← anchored main "_gRp86Telemetry" bases placements map_symbols
        "main-object _BSS contribution does not match WLINK map";
  queue_text_anchor ← anchored queue "_xQueueReceive" bases placements map_symbols
        "queue-object _TEXT contribution does not match WLINK map";
  consumer ← linked_address main "_prvConsumerTask" bases placements;
  handle ← linked_address main "_xQueue" bases placements;
  let offset := handle - dgroup_base scheduler in
  if negb ((0 <=? offset) && (offset <=? 0xFFFF)) then Raise (RuntimeError "workload xQueue handle is outside DGROUP")
  else Ok (mkQueueLayout scheduler consumer queue_text_anchor handle).

(** ** freertos75_port_layout.py *)

Record FreeRTOS75PortLayout := mkPortLayout {
  p_queue : FreeRTOS75QueueLayout;
  initialise_stack : Z;
  install_vectors : Z;
  start_first_task : Z;
  task_exit_error : Z;
}.

Definition resolve_port_layout (link_script map_path main_object queue_object tasks_object port_object : string)
  : result FreeRTOS75PortLayout :=
  queue_layout ← resolve_queue_layout link_script map_path main_object queue_object tasks_object;
  map_text ← read_text map_path;
  map_symbols ← from_wlink_map map_text;
  placements ← segment_bases map_text;
  paths ← object_paths link_script;
  objects ← parse_all paths;
  let bases := contribution_bases objects in
  port ← _find_object objects port_object;
  init ← anchored port "_pxPortInitialiseStack" bases placements map_symbols
           "port-object _TEXT contribution does not match WLINK map";
  exit_error ← linked_address port "_prvTaskExitError" bases placements;
  install ← address map_symbols "_rp86PortInstallVectors";
  first ← address map_symbols "_rp86PortStartFirstTask";
  Ok (mkPortLayout queue_layout init install first exit_error).
End files.

(** ** Theorems *)

(** The address of a symbol of an object: placement, contribution and offset *)
Definition linked (obj : OMFObject) (name : string) (objects : list OMFObject) (placements : gmap string Z) (a : Z) : Prop :=
  ∃ symbol placement contribution, omf_symbol obj name = Some symbol
    ∧ placements !! y_segment_name symbol = Some placement
    ∧ contribution_bases objects !! (o_path obj, y_segment_name symbol) = Some contribution
    ∧ a = placement + contribution + y_offset symbol.

Lemma linked_address_ok obj name objects placements a :
  linked_address obj name (contribution_bases objects) placements = Ok a ↔ linked obj name objects placements a.
Proof.
  unfold linked_address, linked. split.
  - intros E. repeat case_match; simplify_eq. eauto 10.
  - intros (symbol & placement & contribution & -> & -> & -> & ->). done.
Qed.

Lemma bss_in_object_ok obj l objects placements t name predicted expected :
  bss_in_object obj l (contribution_bases objects) placements t = Ok (Some (name, predicted, expected)) →
  address t name = Ok expected ∧ linked obj name objects placements predicted
  ∧ ∃ symbol, symbol ∈ l ∧ y_name symbol = name ∧ y_segment_name symbol = "_BSS"%string.
Proof.
  induction l as [|symbol l IH]; [done|]. cbn [bss_in_object]. intros E.
  destruct (by_name t (y_name symbol)) as [v|] eqn:Hv; [|apply IH in E as (? & ? & s & ? & ?); split_and!; try done; exists s; set_solver].
  destruct (String.eqb_spec (y_segment_name symbol) "_BSS") as [Hb|]; [|apply IH in E as (? & ? & s & ? & ?); split_and!; try done; exists s; set_solver].
  apply bind_ok in E as (a & Ha & E). simplify_eq. apply linked_address_ok in Ha.
  split; [unfold address; by rewrite Hv|]. split; [done|]. exists symbol. set_solver.
Qed.
Lemma bss_anchor_ok all objects placements t name predicted expected :
  _visible_bss_anchor objects (contribution_bases all) placements t = Ok (Some (name, predicted, expected)) →
  address t name = Ok expected ∧ ∃ obj, obj ∈ objects ∧ linked obj name all placements predicted
    ∧ ∃ symbol, symbol ∈ o_symbols obj ∧ y_name symbol = name ∧ y_segment_name symbol = "_BSS"%string.
Proof.
  induction objects as [|obj objects IH]; [done|]. cbn [_visible_bss_anchor]. intros E.
  apply bind_ok in E as (found & Hf & E). destruct found as [x|].
  - simplify_eq. apply bss_in_object_ok in Hf as (? & ? & ?). split; [done|]. exists obj. split_and!; [set_solver|done..].
  - apply IH in E as (? & o & ? & ?). split; [done|]. exists o. split; [set_solver|done].
Qed.

Lemma target_addresses_ok tasks objects placements targets l :
  target_addresses tasks (contribution_bases objects) placements targets = Ok l →
  Forall2 (λ name x, x.1 = name ∧ linked tasks name objects placements x.2) targets l.
Proof.
  revert l. induction targets as [|t targets IH]; intros l; cbn [target_addresses]; intros E.
  { simplify_eq. constructor. }
  case_match; [|done]. apply bind_ok in E as (a & Ha & E). apply bind_ok in E as (rest & Hr & E). simplify_eq.
  constructor; [|by apply IH]. split; [done|]. by apply linked_address_ok.
Qed.

(** Where the map puts a segment: the last line that places it counts.  DGROUP is
    where the first line that places it says. *)
Definition far_address (segment offset : text) : Z := 16 * hex_text segment + hex_text offset.
Definition placed (map_text name : string) (a : Z) : Prop :=
  ∃ before line after, finditer _SEGMENT (ascii_list map_text) = before ++ line :: after
    ∧ group 1 line = name ∧ a = far_address (nth 1 line []) (nth 2 line []) ∧ Forall (λ l, group 1 l ≠ name) after.
Definition dgroup_placed (map_text : string) (a : Z) : Prop :=
  ∃ line, search _DGROUP (ascii_list map_text) = Some line ∧ a = far_address (nth 0 line []) (nth 1 line []).

Lemma physical_far segment offset : _physical segment offset = far_address segment offset.
Proof. unfold _physical, far_address. rewrite Z.shiftl_mul_pow2 by lia. lia. Qed.

Lemma placements_placed map_text name a : placements_of map_text !! name = Some a → placed map_text name a.
Proof.
  unfold placements_of, placed. induction (finditer _SEGMENT (ascii_list map_text)) as [|line l IH] using rev_ind; [done|].
  rewrite foldl_app. cbn [foldl]. destruct (decide (group 1 line = name)) as [Hn|Hn].
  - rewrite Hn, lookup_insert_eq. intros [= <-]. exists l, line, []. split_and!; [done|done|apply physical_far|constructor].
  - rewrite lookup_insert_ne by done. intros Ha. destruct (IH Ha) as (before & x & after & -> & ? & ? & ?).
    exists before, x, (after ++ [line]). rewrite <- app_assoc. split_and!; [done..|]. apply Forall_app. by repeat constructor.
Qed.
Lemma bases_placed map_text bases name a : segment_bases map_text = Ok bases → bases !! name = Some a → placed map_text name a.
Proof. unfold segment_bases. case_match; [|done]. intros [= <-]. apply placements_placed. Qed.
Lemma bases_complete map_text bases : segment_bases map_text = Ok bases → is_Some (bases !! "_TEXT"%string).
Proof.
  unfold segment_bases. case_match eqn:E; [|done]. intros [= <-]. destruct (placements_of map_text !! "_TEXT"%string) eqn:Ht; [done|].
  assert ("_TEXT"%string ∈ @nil string) as Hin; [|by apply not_elem_of_nil in Hin].
  rewrite <- E. apply list_elem_of_In, filter_In. split; [cbn; tauto|]. by apply bool_decide_eq_true.
Qed.
Lemma dgroup_placement_placed map_text a : dgroup_placement map_text = Ok a → dgroup_placed map_text a.
Proof. unfold dgroup_placement. case_match; [|done]. intros [= <-]. eexists. split; [done|apply physical_far]. Qed.

Section certified.
Context (read_text : string → result string) (read_octets : string → result bytes) (resolve_path : string → string).
Context (link_script map_path : string).

(** What the files say *)
Record link_evidence := mkEvidence {
  e_map : string; e_symbols : SymbolTable; e_placements : gmap string Z; e_objects : list OMFObject }.
Definition evidence (e : link_evidence) : Prop :=
  read_text map_path = Ok (e_map e) ∧ from_wlink_map (e_map e) = Ok (e_symbols e)
  ∧ segment_bases (e_map e) = Ok (e_placements e)
  ∧ (∀ name a, e_placements e !! name = Some a → placed (e_map e) name a)
  ∧ ∃ paths, object_paths read_text link_script = Ok paths ∧ parse_all read_octets paths = Ok (e_objects e).

Lemma evidence_unique e e' : evidence e → evidence e' → e = e'.
Proof.
  intros (Ht & Hs & Hb & _ & p & Hp & Ho) (Ht' & Hs' & Hb' & _ & p' & Hp' & Ho').
  destruct e as [t s1 p1 o1], e' as [t' s2 p2 o2]. cbn in *. assert (t = t') as <- by congruence.
  assert (p = p') as <- by congruence. congruence.
Qed.
Lemma evidence_intro map_text t pl paths objects :
  read_text map_path = Ok map_text → from_wlink_map map_text = Ok t → segment_bases map_text = Ok pl →
  object_paths read_text link_script = Ok paths → parse_all read_octets paths = Ok objects →
  evidence (mkEvidence map_text t pl objects).
Proof.
  intros Hm Ht Hb Hp Ho. unfold evidence. cbn. split_and!; [done..| |by exists paths]. intros name a.
  by apply bases_placed.
Qed.

Definition symbol_linked (e : link_evidence) (object name : string) (a : Z) : Prop :=
  ∃ obj, object_at resolve_path (e_objects e) object = Some obj ∧ linked obj name (e_objects e) (e_placements e) a.
(** ... and the map gives the same address *)
Definition symbol_anchored (e : link_evidence) (object name : string) (a : Z) : Prop :=
  symbol_linked e object name a ∧ address (e_symbols e) name = Ok a.

Definition layout_sound (e : link_evidence) (tasks_object : string) (l : FreeRTOS75Layout) : Prop :=
  Forall (λ name, ∃ a, layout_address l name = Ok a ∧ symbol_linked e tasks_object name a) TARGETS
  ∧ (∃ a, symbol_anchored e tasks_object "_xTaskCreate" a)
  ∧ (∃ a, layout_address l "_pxCurrentTCB" = Ok a ∧ symbol_anchored e tasks_object "_pxCurrentTCB" a)
  ∧ address (e_symbols e) (bss_anchor_name l) = Ok (bss_anchor_address l)
  ∧ (∃ obj, obj ∈ e_objects e ∧ linked obj (bss_anchor_name l) (e_objects e) (e_placements e) (bss_anchor_address l)
       ∧ ∃ symbol, symbol ∈ o_symbols obj ∧ y_name symbol = bss_anchor_name l ∧ y_segment_name symbol = "_BSS"%string)
  ∧ placed (e_map e) "_TEXT" (text_base l) ∧ dgroup_placed (e_map e) (dgroup_base l)
  ∧ Forall (λ name, ∃ a, layout_address l name = Ok a ∧ 0 <= a - dgroup_base l <= 0xFFFF)
      ["_pxReadyTasksLists"; "_xSuspendedTaskList"; "_pxCurrentTCB"]%string.

Lemma dgroup_offset_ok l name o :
  dgroup_offset l name = Ok o → ∃ a, layout_address l name = Ok a ∧ 0 <= a - dgroup_base l <= 0xFFFF.
Proof.
  unfold dgroup_offset. intros E. apply bind_ok in E as (a & Ha & E). exists a. split; [done|].
  case_match eqn:Hr; [done|]. lia.
Qed.

Lemma str_get_targets {A} (P : string → A → Prop) targets l :
  Forall2 (λ name x, x.1 = name ∧ P name x.2) targets l → NoDup targets →
  Forall (λ name, ∃ a, str_get name l = Some a ∧ P name a) targets.
Proof.
  induction 1 as [|name [n a] targets l [Hn Ha] _ IH]; intros Hd; [constructor|].
  cbn in Hn, Ha. subst n. apply NoDup_cons in Hd as [Hnot Hd]. constructor.
  - exists a. split; [|done]. unfold str_get. cbn. by rewrite String.eqb_refl.
  - specialize (IH Hd). rewrite Forall_forall in IH |- *. intros x Hx. destruct (IH x Hx) as (b & Hb & ?). exists b. split; [|done]. unfold str_get in *. cbn.
    destruct (String.eqb_spec x name) as [->|]; [done|exact Hb].
Qed.

Lemma layout_targets tasks objects placements l base dgroup n b :
  target_addresses tasks (contribution_bases objects) placements TARGETS = Ok l →
  Forall (λ name, ∃ a, layout_address (mkLayout base dgroup l n b) name = Ok a ∧ linked tasks name objects placements a) TARGETS.
Proof.
  intros Ht. apply target_addresses_ok in Ht. apply (str_get_targets (λ name a, linked tasks name objects placements a)) in Ht; [|by apply (bool_decide_unpack _)].
  eapply Forall_impl; [exact Ht|]. intros name (a & Ha & Hl). exists a. split; [|done].
  unfold layout_address. cbn [addresses]. by rewrite Ha.
Qed.

Lemma resolve_layout_sound tasks_object l :
  resolve_layout read_text read_octets resolve_path link_script map_path tasks_object = Ok l →
  ∃ e, evidence e ∧ layout_sound e tasks_object l.
Proof.
  unfold resolve_layout. intros E.
  apply bind_ok in E as (map_text & Hm & E). apply bind_ok in E as (t & Hs & E). apply bind_ok in E as (pl & Hb & E).
  apply bind_ok in E as (paths & Hp & E). apply bind_ok in E as (objects & Ho & E). cbv zeta in E.
  exists (mkEvidence map_text t pl objects). split; [by eapply evidence_intro|].
  destruct (object_at resolve_path objects tasks_object) as [tasks|] eqn:Ht; [|done].
  apply bind_ok in E as (ta & Hta & E). apply bind_ok in E as (te & Hte & E).
  apply bind_ok in E as (da & Hda & E). apply bind_ok in E as (de & Hde & E).
  destruct (ta =? te) eqn:Et; [|done]. destruct (da =? de) eqn:Ed; [|done]. cbn [negb] in E.
  apply Z.eqb_eq in Et as <-. apply Z.eqb_eq in Ed as <-.
  apply bind_ok in E as (bss & Hbss & E). destruct bss as [[[bn bp] be]|]; [|done].
  destruct (bp =? be) eqn:Eb; [|done]. cbn [negb] in E. apply Z.eqb_eq in Eb as <-.
  apply bind_ok in E as (targets & Htg & E). apply bind_ok in E as (dg & Hdg & E).
  apply bind_ok in E as (o1 & Ho1 & E). apply bind_ok in E as (o2 & Ho2 & E). apply bind_ok in E as (o3 & Ho3 & E).
  injection E as <-. apply dgroup_offset_ok in Ho1, Ho2, Ho3. apply bss_anchor_ok in Hbss as [Hbss Hbo].
  pose proof (layout_targets _ _ _ _ (default 0 (pl !! "_TEXT"%string)) dg bn bp Htg) as Hall.
  apply linked_address_ok in Hta, Hda. unfold layout_sound, symbol_anchored, symbol_linked. cbn [e_objects e_placements e_symbols e_map].
  split_and!.
  - eapply Forall_impl; [exact Hall|]. intros name (a & ? & ?). eauto 6.
  - eauto 8.
  - rewrite Forall_forall in Hall. destruct (Hall "_pxCurrentTCB"%string) as (a & Ha & Hl); [set_solver|].
    exists a. split; [done|]. assert (a = da) as ->; [|eauto 8].
    apply linked_address_ok in Hl, Hda. congruence.
  - exact Hbss.
  - exact Hbo.
  - cbn [text_base]. destruct (bases_complete _ _ Hb) as [b Ht']. rewrite Ht'. by eapply bases_placed.
  - by apply dgroup_placement_placed.
  - by repeat constructor.
Qed.

Definition queue_sound (e : link_evidence) (main_object queue_object tasks_object : string) (l : FreeRTOS75QueueLayout) : Prop :=
  layout_sound e tasks_object (q_scheduler l)
  ∧ (∃ a, symbol_anchored e main_object "_rp86_freertos_system_main" a)
  ∧ (∃ a, symbol_anchored e main_object "_gRp86Telemetry" a)
  ∧ symbol_anchored e queue_object "_xQueueReceive" (queue_receive l)
  ∧ symbol_linked e main_object "_prvConsumerTask" (consumer_task l)
  ∧ symbol_linked e main_object "_xQueue" (queue_handle l)
  ∧ 0 <= queue_handle l - dgroup_base (q_scheduler l) <= 0xFFFF.

Lemma find_object_ok objects path o : _find_object resolve_path objects path = Ok o → object_at resolve_path objects path = Some o.
Proof. unfold _find_object. by case_match; intros; simplify_eq. Qed.
Lemma anchored_ok e object obj name text a :
  object_at resolve_path (e_objects e) object = Some obj →
  anchored obj name (contribution_bases (e_objects e)) (e_placements e) (e_symbols e) text = Ok a →
  symbol_anchored e object name a.
Proof.
  intros Ho E. unfold anchored in E. apply bind_ok in E as (p & Hp & E). apply bind_ok in E as (x & Hx & E).
  destruct (p =? x) eqn:Ep; [|done]. apply Z.eqb_eq in Ep as <-. injection E as <-. apply linked_address_ok in Hp.
  split; [by exists obj|done].
Qed.
Lemma linked_ok e object obj name a :
  object_at resolve_path (e_objects e) object = Some obj →
  linked_address obj name (contribution_bases (e_objects e)) (e_placements e) = Ok a → symbol_linked e object name a.
Proof. intros Ho E. apply linked_address_ok in E. by exists obj. Qed.

Lemma evidence_files {A} (k : SymbolTable → gmap string Z → list OMFObject → result A) a :
  (map_text ← read_text map_path; t ← from_wlink_map map_text; pl ← segment_bases map_text;
   paths ← object_paths read_text link_script; objects ← parse_all read_octets paths; k t pl objects) = Ok a →
  ∃ e, evidence e ∧ k (e_symbols e) (e_placements e) (e_objects e) = Ok a.
Proof.
  intros E. apply bind_ok in E as (map_text & Hm & E). apply bind_ok in E as (t & Hs & E). apply bind_ok in E as (pl & Hb & E).
  apply bind_ok in E as (paths & Hp & E). apply bind_ok in E as (objects & Ho & E).
  exists (mkEvidence map_text t pl objects). split; [by eapply evidence_intro|done].
Qed.

Lemma resolve_queue_sound main_object queue_object tasks_object l :
  resolve_queue_layout read_text read_octets resolve_path link_script map_path main_object queue_object tasks_object = Ok l →
  ∃ e, evidence e ∧ queue_sound e main_object queue_object tasks_object l.
Proof.
  unfold resolve_queue_layout. intros E. apply bind_ok in E as (sch & Hsch & E).
  apply resolve_layout_sound in Hsch as (e & He & Hsch).
  refine (match evidence_files (λ t pl objects, _) l E with ex_intro _ e' (conj He' E') => _ end).
  assert (e' = e) as -> by (by eapply evidence_unique). cbv beta zeta in E'. clear E. rename E' into E.
  apply bind_ok in E as (main & Hmain & E). apply bind_ok in E as (queue & Hqueue & E).
  apply find_object_ok in Hmain, Hqueue.
  apply bind_ok in E as (a1 & H1 & E). apply bind_ok in E as (a2 & H2 & E). apply bind_ok in E as (a3 & H3 & E).
  apply bind_ok in E as (a4 & H4 & E). apply bind_ok in E as (a5 & H5 & E). case_match eqn:Hr; [done|]. injection E as <-.
  exists e. split; [done|]. unfold queue_sound. cbn [q_scheduler queue_receive consumer_task queue_handle].
  split_and!; eauto using anchored_ok, linked_ok; lia.
Qed.

(** C26: a layout that is returned is certified by the files.  Every address of a
    static symbol in it is the placement of the segment in the map plus the offset
    of the object's contribution plus the offset of the symbol in the object; a
    placement is the one of the last line of the map that places the segment.  The
    _TEXT and _DATA contributions of the tasks object, _TEXT and _BSS of the main
    object and _TEXT of the queue and port objects are confirmed by a public symbol
    for which the map gives the same address, _BSS also by a public symbol of some
    object of the link.  The base of DGROUP is the one of the map, and the data that
    is reached with near pointers lies within 64 KiB of it.  The two assembly
    routines of the port are where the map says. *)
Theorem port_layout_certified main_object queue_object tasks_object port_object l :
  resolve_port_layout read_text read_octets resolve_path link_script map_path main_object queue_object tasks_object port_object = Ok l →
  ∃ e, evidence e ∧ queue_sound e main_object queue_object tasks_object (p_queue l)
    ∧ symbol_anchored e port_object "_pxPortInitialiseStack" (initialise_stack l)
    ∧ symbol_linked e port_object "_prvTaskExitError" (task_exit_error l)
    ∧ address (e_symbols e) "_rp86PortInstallVectors" = Ok (install_vectors l)
    ∧ address (e_symbols e) "_rp86PortStartFirstTask" = Ok (start_first_task l).
Proof.
  unfold resolve_port_layout. intros E. apply bind_ok in E as (q & Hq & E).
  apply resolve_queue_sound in Hq as (e & He & Hq).
  refine (match evidence_files (λ t pl objects, _) l E with ex_intro _ e' (conj He' E') => _ end).
  assert (e' = e) as -> by (by eapply evidence_unique). cbv beta zeta in E'. clear E. rename E' into E.
  apply bind_ok in E as (port & Hport & E). apply find_object_ok in Hport.
  apply bind_ok in E as (a1 & H1 & E). apply bind_ok in E as (a2 & H2 & E). apply bind_ok in E as (a3 & H3 & E).
  apply bind_ok in E as (a4 & H4 & E). injection E as <-.
  exists e. cbn. split_and!; eauto using anchored_ok, linked_ok.
Qed.
End certified.

(** A small production link: four objects, their link script and map *)
Definition lines (l : list string) : string := str_join newline l +:+ newline.
Definition sample_map : string := lines
  ["Group    Address"; "DGROUP   2000:0000  00000200"; "";
   "_TEXT  CODE  AUTO  1000:0000  00000080"; "_DATA  DATA  DGROUP  2000:0000  00000020"; "_BSS  BSS  DGROUP  2000:0100  00000040"; "";
   "1000:0010  _xTaskCreate"; "2000:0000  _pxCurrentTCB"; "1000:0040* _ignored"; "1000:0040  _rp86_freertos_system_main"; "2000:0120+ _gRp86Telemetry";
   "1000:0060  _xQueueReceive"; "1000:0070  _pxPortInitialiseStack"; "1000:0080  _rp86PortInstallVectors";
   "1000:0090  _rp86PortStartFirstTask"]%string.
Definition quoted (s : string) : string := String single_quote (s +:+ String single_quote EmptyString).
Definition sample_link : string := lines
  ["system dos"; "FILE " +:+ quoted "tasks.obj"; "file " +:+ quoted "main.obj"; "file " +:+ quoted "queue.obj"; "file " +:+ quoted "port.obj"]%string.

Definition sample_names : omf_item :=
  INames [lit "_TEXT"; lit "CODE"; lit "_DATA"; lit "DATA"; lit "_BSS"; lit "BSS"].
Definition sample_segments (text data bss : Z) : list omf_item :=
  [ISegment false 0x48 [] text 1 2 0; ISegment false 0x48 [] data 3 4 0; ISegment false 0x48 [] bss 5 6 0].
Definition sample_object (l : list omf_item) : bytes := records_bytes (map (λ i, (i, Byte.x00)) (sample_names :: l)).
Definition publics (local : bool) (segment : Z) (l : list (string * Z)) : omf_item :=
  IPublic local false 0 segment [] (map (λ x, (lit x.1, x.2, 0)) l).
Definition sample_files : list (string * bytes) :=
  [("tasks.obj", sample_object (sample_segments 0x40 0x20 0x20
      ++ [publics false 1 [("_xTaskCreate", 0x10)]; publics true 1 [("_prvAddCurrentTaskToDelayedList", 0x20)];
          publics false 2 [("_pxCurrentTCB", 0)]; publics true 3 [("_pxReadyTasksLists", 0); ("_xSuspendedTaskList", 0x10)]]));
   ("main.obj", sample_object (sample_segments 0x20 0 0x20
      ++ [publics false 1 [("_rp86_freertos_system_main", 0)]; publics true 1 [("_prvConsumerTask", 8)];
          publics false 3 [("_gRp86Telemetry", 0)]; publics true 3 [("_xQueue", 8)]]));
   ("queue.obj", sample_object (sample_segments 0x10 0 0 ++ [publics false 1 [("_xQueueReceive", 0)]]));
   ("port.obj", sample_object (sample_segments 0x10 0 0
      ++ [publics false 1 [("_pxPortInitialiseStack", 0)]; publics true 1 [("_prvTaskExitError", 4)]]))]%string.
Definition sample_text (path : string) : result string := Ok (if String.eqb path "system.map" then sample_map else sample_link).
Definition sample_octets (path : string) : result bytes :=
  match str_get path sample_files with Some b => Ok b | None => Raise (OSError "no such file") end.

Example port_layout_certified_witness :
  ∃ l, resolve_port_layout sample_text sample_octets (λ p, p) "system.lnk" "system.map"
         "main.obj" "queue.obj" "tasks.obj" "port.obj" = Ok l
    ∧ task_exit_error l = 0x10074 ∧ queue_handle (p_queue l) = 0x20128
    ∧ layout_address (q_scheduler (p_queue l)) "_xSuspendedTaskList" = Ok 0x20110
    ∧ ∃ e, evidence sample_text sample_octets "system.lnk" "system.map" e
        ∧ symbol_linked (λ p, p) e "port.obj" "_prvTaskExitError" (task_exit_error l).
Proof.
  destruct (resolve_port_layout sample_text sample_octets (λ p, p) "system.lnk" "system.map"
              "main.obj" "queue.obj" "tasks.obj" "port.obj") as [l|] eqn:E; [|vm_compute in E; discriminate E].
  exists l. split; [reflexivity|].
  split; [vm_compute in E; injection E as <-; reflexivity|]. split; [vm_compute in E; injection E as <-; reflexivity|].
  split; [vm_compute in E; injection E as <-; reflexivity|].
  destruct (port_layout_certified sample_text sample_octets (λ p, p) "system.lnk" "system.map"
              "main.obj" "queue.obj" "tasks.obj" "port.obj" l E) as (e & He & _ & _ & Hl & _).
  exists e. split; [exact He|exact Hl].
Defined.
