(* ===== verification/Fixtures.v ===== *)
(** * FreeRTOS fixtures (tools/ia16_lab/freertos75_fixture.py, freertos75_queue_fixture.py,
    freertos75_port_context_fixture.py, freertos75_tick_interleave.py)

    Experiments that place FreeRTOS objects in the memory of the emulated
    processor, run the production code up to a given instruction and check the
    state it reaches.  Everything is a run of the machine of [Lab].

    The theorems say which list the fixtures build, and what a run to an
    instruction executes. *)

From S2P Require Import Prelude Struct PyText Json Workload Telemetry Regex Symbols Omf Lab Layout.
From Stdlib Require Import Ascii.

(** ** freertos75_fixture.py *)

Definition LIST_SIZE : Z := 10.
Definition LIST_END_OFFSET : Z := 4.
Definition TCB_STATE_ITEM_OFFSET : Z := 2.
Definition ITEM_NEXT : Z := 2.
Definition ITEM_PREVIOUS : Z := 4.
Definition ITEM_OWNER : Z := 6.
Definition ITEM_CONTAINER : Z := 8.
Definition CURRENT_TCB_OFFSET : Z := 0x1000.
Definition PEER_TCB_OFFSET : Z := 0x1100.
Definition STACK_OFFSET : Z := 0xF000.
Definition RETURN_IP : Z := 0x3000.
Definition PORT_MAX_DELAY : Z := 0xFFFF.
Definition PD_TRUE : Z := 1.

Definition _u16 (value : Z) : bytes := le_split 2 (Z.land value 0xFFFF).

Section fixtures.
Context {W : Type} `{Emulator W}.
Abbreviation lab := (io (machine W)).

Definition _read16 (physical : Z) : lab Z := b ← lab_read physical 2; mret (from_bytes_le b).
Definition _write16 (dgroup_base offset value : Z) : lab unit := lab_write (dgroup_base + offset) (_u16 value).

Definition _init_empty_list (dgroup_base list_offset : Z) : lab unit :=
  let stop := list_offset + LIST_END_OFFSET in
  _ ← _write16 dgroup_base (list_offset + 0) 0;
  _ ← _write16 dgroup_base (list_offset + 2) stop;
  _ ← _write16 dgroup_base (stop + 0) 0xFFFF;
  _ ← _write16 dgroup_base (stop + 2) stop;
  _write16 dgroup_base (stop + 4) stop.

Definition _init_item (dgroup_base item_offset next_offset previous_offset owner_offset container_offset : Z) : lab unit :=
  _ ← _write16 dgroup_base (item_offset + 0) 0;
  _ ← _write16 dgroup_base (item_offset + ITEM_NEXT) next_offset;
  _ ← _write16 dgroup_base (item_offset + ITEM_PREVIOUS) previous_offset;
  _ ← _write16 dgroup_base (item_offset + ITEM_OWNER) owner_offset;
  _write16 dgroup_base (item_offset + ITEM_CONTAINER) container_offset.

Definition current_item : Z := CURRENT_TCB_OFFSET + TCB_STATE_ITEM_OFFSET.
Definition peer_item : Z := PEER_TCB_OFFSET + TCB_STATE_ITEM_OFFSET.

(** The ready list of the priority, with the current task alone (A) or with a peer (B) *)
Definition _init_ready_topology (dgroup_base ready_lists_offset : Z) (topology : string) : lab (Z * Z) :=
  '(priority, count) ← (if String.eqb topology "A" then mret (3, 1)
                        else if String.eqb topology "B" then mret (2, 2)
                        else raise (ValueError "topology must be A or B"));
  let ready := ready_lists_offset + priority * LIST_SIZE in
  let stop := ready + LIST_END_OFFSET in
  _ ← _init_empty_list dgroup_base ready;
  _ ← _write16 dgroup_base ready count;
  _ ← (if String.eqb topology "A" then
         _ ← _write16 dgroup_base (stop + ITEM_NEXT) current_item;
         _ ← _write16 dgroup_base (stop + ITEM_PREVIOUS) current_item;
         _init_item dgroup_base current_item stop stop CURRENT_TCB_OFFSET ready
       else
         _ ← _write16 dgroup_base (stop + ITEM_NEXT) current_item;
         _ ← _write16 dgroup_base (stop + ITEM_PREVIOUS) peer_item;
         _ ← _init_item dgroup_base current_item peer_item stop CURRENT_TCB_OFFSET ready;
         _init_item dgroup_base peer_item stop current_item PEER_TCB_OFFSET ready);
  mret (ready, count).

(** The registers a call starts with *)
Definition enter (text_segment ip dgroup_segment sp : Z) : lab unit :=
  _ ← write_register "cs" text_segment;
  _ ← write_register "ip" ip;
  _ ← write_register "ds" dgroup_segment;
  _ ← write_register "es" dgroup_segment;
  _ ← write_register "ss" dgroup_segment;
  write_register "sp" sp.

Definition expected_prefix : bytes := [Byte.x56; Byte.x57; Byte.x55; Byte.x89; Byte.xe5; Byte.x83; Byte.xec; Byte.x04].

Definition _setup_call (layout : FreeRTOS75Layout) : lab unit :=
  if truthy (Z.land (text_base layout) 0xF) || truthy (Z.land (dgroup_base layout) 0xF)
  then raise (RuntimeError "fixture requires paragraph-aligned production TEXT and DGROUP") else
  let text_segment := Z.shiftr (text_base layout) 4 in
  let dgroup_segment := Z.shiftr (dgroup_base layout) 4 in
  entry ← lift (layout_address layout "_prvAddCurrentTaskToDelayedList");
  let entry_ip := entry - text_base layout in
  if negb ((0 <=? entry_ip) && (entry_ip <=? 0xFFFF))
  then raise (RuntimeError "resolved function is outside the near code segment") else
  actual ← lab_read entry (len expected_prefix);
  if negb (bytes_eqb actual expected_prefix)
  then raise (RuntimeError "production function entry changed; re-audit calling convention before running fixture") else
  let stack_physical := dgroup_base layout + STACK_OFFSET in
  _ ← lab_write (stack_physical + 0) (_u16 RETURN_IP);
  _ ← lab_write (stack_physical + 2) (_u16 PORT_MAX_DELAY);
  _ ← lab_write (stack_physical + 4) (_u16 PD_TRUE);
  _ ← lab_write (Z.shiftl text_segment 4 + RETURN_IP) [Byte.xf4];
  enter text_segment entry_ip dgroup_segment STACK_OFFSET.

Record FixtureResult := mkFixture {
  f_topology : string;
  f_ready_count : Z;
  f_suspended_count : Z;
  f_item_container : Z;
  f_end_next : Z;
  f_end_previous : Z;
  f_path : list Z;
  f_trace : string;
}.

(** The executed addresses of the window after [uxListRemove] *)
Definition window_path (l : list trace_event) : list Z :=
  omap (λ e, match e with
             | Instruction i => if (0x1263B <=? i_address i) && (i_address i <=? 0x12682) then Some (i_address i) else None
             | MemoryAccess _ => None
             end) l.

Definition fail_when (c : bool) (text : string) : lab unit := if c then raise (RuntimeError text) else mret tt.

Definition topology_text (topology text : string) : string := "topology " +:+ topology +:+ ": " +:+ text.

Definition run_fixture (layout : result FreeRTOS75Layout) (workload : result LoadedWorkload) (topology : string) : lab FixtureResult :=
  layout ← lift layout;
  workload ← lift workload;
  _ ← load workload;
  current_ptr ← lift (dgroup_offset layout "_pxCurrentTCB");
  ready_lists ← lift (dgroup_offset layout "_pxReadyTasksLists");
  suspended ← lift (dgroup_offset layout "_xSuspendedTaskList");
  let dgroup := dgroup_base layout in
  let suspended_end := suspended + LIST_END_OFFSET in
  _ ← _write16 dgroup current_ptr CURRENT_TCB_OFFSET;
  _ ← _init_empty_list dgroup suspended;
  '(ready, initial_ready_count) ← _init_ready_topology dgroup ready_lists topology;
  _ ← _setup_call layout;
  recorder ← lift (trace_recorder None [] 1200);
  _ ← install_trace recorder;
  _ ← run 160;
  ready_count ← _read16 (dgroup + ready);
  suspended_count ← _read16 (dgroup + suspended);
  item_container ← _read16 (dgroup + current_item + ITEM_CONTAINER);
  end_next ← _read16 (dgroup + suspended_end + ITEM_NEXT);
  end_previous ← _read16 (dgroup + suspended_end + ITEM_PREVIOUS);
  let expected_ready := initial_ready_count - 1 in
  _ ← fail_when (negb (ready_count =? expected_ready))
        (topology_text topology ("ready count " +:+ dec ready_count +:+ ", expected " +:+ dec expected_ready));
  _ ← fail_when (negb (suspended_count =? 1))
        (topology_text topology ("suspended count is " +:+ dec suspended_count +:+ ", expected 1"));
  _ ← fail_when (negb (item_container =? suspended))
        (topology_text topology ("state item container 0x" +:+ hex_upper 4 item_container
                                 +:+ ", expected suspended list 0x" +:+ hex_upper 4 suspended));
  _ ← fail_when (negb ((end_next =? current_item) && (end_previous =? current_item)))
        (topology_text topology ("suspended end links are 0x" +:+ hex_upper 4 end_next +:+ "/0x" +:+ hex_upper 4 end_previous
                                 +:+ ", expected current item 0x" +:+ hex_upper 4 current_item));
  recorder ← gets m_recorder;
  let recorded := match recorder with Some r => events r | None => [] end in
  let path := window_path recorded in
  _ ← fail_when (bool_decide (path = [])) "fixture did not execute the expected indefinite-block instruction window";
  mret (mkFixture topology ready_count suspended_count item_container end_next end_previous path
          (match recorder with Some r => trace_format r | None => EmptyString end)).

(** ** freertos75_queue_fixture.py *)

Definition CONSUMER_CALL_IP_DELTA : Z := 0x19.
Definition CONSUMER_BP : Z := 0xE000.
Definition CONSUMER_LOCAL_VALUE : Z := CONSUMER_BP - 2.
Definition CONSUMER_SP : Z := CONSUMER_BP - 2.
Definition QUEUE_OFFSET : Z := 0x0800.
Definition QUEUE_WAIT_SEND_OFFSET : Z := 0x08.
Definition QUEUE_WAIT_RECEIVE_OFFSET : Z := 0x12.
Definition QUEUE_MESSAGES_WAITING_OFFSET : Z := 0x1C.
Definition QUEUE_LENGTH_OFFSET : Z := 0x1E.
Definition QUEUE_ITEM_SIZE_OFFSET : Z := 0x20.
Definition QUEUE_RX_LOCK_OFFSET : Z := 0x22.
Definition QUEUE_TX_LOCK_OFFSET : Z := 0x23.
Definition TCB_EVENT_ITEM_OFFSET : Z := TCB_STATE_ITEM_OFFSET + 10.

Definition _write8 (physical value : Z) : lab unit := lab_write physical [byte.of_Z (Z.land value 0xFF)].

Definition event_item : Z := CURRENT_TCB_OFFSET + TCB_EVENT_ITEM_OFFSET.

(** The ready list, the suspended list and the event item *)
Definition _setup_tcb_and_lists (layout : FreeRTOS75QueueLayout) : lab (Z * Z * Z) :=
  let scheduler := q_scheduler layout in
  let dgroup := dgroup_base scheduler in
  current_ptr ← lift (dgroup_offset scheduler "_pxCurrentTCB");
  ready_lists ← lift (dgroup_offset scheduler "_pxReadyTasksLists");
  suspended ← lift (dgroup_offset scheduler "_xSuspendedTaskList");
  _ ← _write16 dgroup current_ptr CURRENT_TCB_OFFSET;
  _ ← _init_empty_list dgroup suspended;
  '(ready, _) ← _init_ready_topology dgroup ready_lists "A";
  _ ← _init_item dgroup event_item 0 0 CURRENT_TCB_OFFSET 0;
  _ ← _write16 dgroup event_item 1;
  mret (ready, suspended, event_item).

Definition receive_list : Z := QUEUE_OFFSET + QUEUE_WAIT_RECEIVE_OFFSET.

Definition _setup_empty_queue (layout : FreeRTOS75QueueLayout) : lab (Z * Z) :=
  let dgroup := dgroup_base (q_scheduler layout) in
  let queue := QUEUE_OFFSET in
  _ ← lab_write (dgroup + queue) (replicate 0x30 Byte.x00);
  _ ← _init_empty_list dgroup (queue + QUEUE_WAIT_SEND_OFFSET);
  _ ← _init_empty_list dgroup receive_list;
  _ ← _write16 dgroup (queue + QUEUE_MESSAGES_WAITING_OFFSET) 0;
  _ ← _write16 dgroup (queue + QUEUE_LENGTH_OFFSET) 4;
  _ ← _write16 dgroup (queue + QUEUE_ITEM_SIZE_OFFSET) 2;
  _ ← _write8 (dgroup + queue + QUEUE_RX_LOCK_OFFSET) 0xFF;
  _ ← _write8 (dgroup + queue + QUEUE_TX_LOCK_OFFSET) 0xFF;
  queue_handle_offset ← lift (queue_dgroup_offset layout (queue_handle layout));
  _ ← _write16 dgroup queue_handle_offset queue;
  mret (queue, receive_list).

Definition expected_call : bytes :=
  [Byte.xb8; Byte.xff; Byte.xff; Byte.x50; Byte.x8d; Byte.x46; Byte.xfe; Byte.x50; Byte.xff; Byte.x36; Byte.x78; Byte.x02; Byte.xe8].

Definition _setup_consumer_call (layout : FreeRTOS75QueueLayout) : lab unit :=
  let scheduler := q_scheduler layout in
  if truthy (Z.land (text_base scheduler) 0xF) || truthy (Z.land (dgroup_base scheduler) 0xF)
  then raise (RuntimeError "fixture requires paragraph-aligned production TEXT and DGROUP") else
  let text_segment := Z.shiftr (text_base scheduler) 4 in
  let dgroup_segment := Z.shiftr (dgroup_base scheduler) 4 in
  let call_address := consumer_task layout + CONSUMER_CALL_IP_DELTA in
  let call_ip := call_address - text_base scheduler in
  actual ← lab_read call_address (len expected_call);
  if negb (bytes_eqb actual expected_call)
  then raise (RuntimeError "consumer xQueueReceive call sequence changed; re-audit fixture entry") else
  _ ← _write16 (dgroup_base scheduler) CONSUMER_LOCAL_VALUE 0;
  _ ← write_register "cs" text_segment;
  _ ← write_register "ip" call_ip;
  _ ← write_register "ds" dgroup_segment;
  _ ← write_register "es" dgroup_segment;
  _ ← write_register "ss" dgroup_segment;
  _ ← write_register "bp" CONSUMER_BP;
  _ ← write_register "sp" CONSUMER_SP;
  _ ← write_register "si" 1;
  write_register "flags" 0x0202.

(** [while current_linear_ip() != target and executed < maximum]: [more] steps may
    still be made *)
Fixpoint run_steps (more : nat) (target executed : Z) : lab Z :=
  ip ← current_linear_ip;
  if ip =? target then mret executed else
  match more with
  | O => mret executed
  | S more => _ ← run 1; run_steps more target (executed + 1)
  end.

(** The loop and the check after it; [complain] makes the text of the error *)
Definition run_to (target maximum : Z) (complain : Z → RegisterState → string) : lab Z :=
  executed ← run_steps (Z.to_nat maximum) target 0;
  ip ← current_linear_ip;
  if negb (ip =? target) then state ← registers; raise (RuntimeError (complain executed state)) else
  mret executed.

Definition stopped_at (state : RegisterState) : string :=
  "stopped at " +:+ hex_upper 4 (r_cs state) +:+ ":" +:+ hex_upper 4 (r_ip state).

Record QueueBoundaryResult := mkBoundary {
  qb_registers : RegisterState;
  return_ip : Z;
  ticks_to_wait : Z;
  can_block_indefinitely : Z;
  qb_ready_count : Z;
  qb_suspended_count : Z;
  state_container : Z;
  event_container : Z;
  queue_receive_list : Z;
  queue_messages_waiting : Z;
  instructions : Z;
  qb_trace : string;
}.

Definition recorded_trace : lab string :=
  recorder ← gets m_recorder;
  mret (match recorder with Some r => trace_format r | None => EmptyString end).

Definition run_to_delayed_list_boundary (layout : result FreeRTOS75QueueLayout) (workload : result LoadedWorkload)
    (max_instructions : Z) : lab QueueBoundaryResult :=
  layout ← lift layout;
  workload ← lift workload;
  _ ← load workload;
  '(ready, suspended, event) ← _setup_tcb_and_lists layout;
  '(queue, receive) ← _setup_empty_queue layout;
  _ ← _setup_consumer_call layout;
  recorder ← lift (trace_recorder None [] (max_instructions * 3));
  _ ← install_trace recorder;
  target ← lift (layout_address (q_scheduler layout) "_prvAddCurrentTaskToDelayedList");
  executed ← run_to target max_instructions (λ executed state,
    "xQueueReceive caller did not reach delayed-list boundary after " +:+ dec executed +:+ " instructions; "
    +:+ stopped_at state);
  state ← registers;
  let stack := Z.shiftl (r_ss state) 4 + r_sp state in
  return_ip ← _read16 stack;
  ticks ← _read16 (stack + 2);
  can_block ← _read16 (stack + 4);
  let dgroup := dgroup_base (q_scheduler layout) in
  ready_count ← _read16 (dgroup + ready);
  suspended_count ← _read16 (dgroup + suspended);
  container ← _read16 (dgroup + CURRENT_TCB_OFFSET + TCB_STATE_ITEM_OFFSET + ITEM_CONTAINER);
  event_in ← _read16 (dgroup + event + ITEM_CONTAINER);
  queue_messages ← _read16 (dgroup + queue + QUEUE_MESSAGES_WAITING_OFFSET);
  let dgroup_segment := Z.shiftr dgroup 4 in
  _ ← fail_when (negb (r_ds state =? dgroup_segment) || negb (r_ss state =? dgroup_segment))
        ("delayed-list entry segment mismatch: DS=" +:+ hex_upper 4 (r_ds state) +:+ " SS=" +:+ hex_upper 4 (r_ss state)
         +:+ " expected DGROUP=" +:+ hex_upper 4 dgroup_segment);
  _ ← fail_when (negb (ticks =? PORT_MAX_DELAY) || negb (can_block =? PD_TRUE))
        ("delayed-list caller stack mismatch: ticks=0x" +:+ hex_upper 4 ticks +:+ " canBlock=" +:+ dec can_block);
  _ ← fail_when (negb (ready_count =? 1))
        ("ready list changed before delayed-list entry: count=" +:+ dec ready_count +:+ ", expected 1");
  _ ← fail_when (negb (suspended_count =? 0))
        ("suspended list changed before delayed-list entry: count=" +:+ dec suspended_count +:+ ", expected 0");
  _ ← fail_when (negb (container =? ready))
        ("state item container changed before delayed-list entry: 0x" +:+ hex_upper 4 container);
  _ ← fail_when (negb (event_in =? receive))
        ("event item was not inserted into queue receive list: 0x" +:+ hex_upper 4 event_in
         +:+ ", expected 0x" +:+ hex_upper 4 receive);
  _ ← fail_when (negb (queue_messages =? 0)) "queue is no longer empty before blocking transition";
  trace ← recorded_trace;
  mret (mkBoundary state return_ip ticks can_block ready_count suspended_count container event_in receive queue_messages executed trace).

(** ** freertos75_port_context_fixture.py *)

Definition BOOTSTRAP_SP : Z := 0xF000.
Definition TASK_STACK_TOP : Z := 0xD800.
Definition CALL_SENTINEL_IP : Z := 0x3E00.
Definition MAX_SETUP_INSTRUCTIONS : Z := 400.
Definition MAX_RUNTIME_INSTRUCTIONS : Z := 1800.

Definition _stack_word (ss sp word_index : Z) : lab Z := _read16 (Z.shiftl ss 4 + sp + word_index * 2).

Definition _run_until (target maximum : Z) : lab Z :=
  run_to target maximum (λ executed state,
    "execution did not reach 0x" +:+ hex_upper 5 target +:+ " after " +:+ dec executed +:+ " instructions; "
    +:+ stopped_at state).

(** [x.to_bytes(2, "little")] *)
Definition to_bytes2 (x : Z) : result bytes :=
  if in_width 16 x then Ok (le_split 2 x)
  else Raise (OverflowError (if x <? 0 then "can't convert negative int to unsigned" else "int too big to convert")).

Definition _call_initialise_stack (layout : FreeRTOS75PortLayout) : lab Z :=
  let scheduler := q_scheduler (p_queue layout) in
  let text_segment := Z.shiftr (text_base scheduler) 4 in
  let dgroup_segment := Z.shiftr (dgroup_base scheduler) 4 in
  let initialise_ip := initialise_stack layout - text_base scheduler in
  let consumer_ip := consumer_task (p_queue layout) - text_base scheduler in
  let stack := dgroup_base scheduler + BOOTSTRAP_SP in
  _ ← lab_write (stack + 0) (le_split 2 CALL_SENTINEL_IP);
  _ ← lab_write (stack + 2) (le_split 2 TASK_STACK_TOP);
  consumer ← lift (to_bytes2 consumer_ip);
  _ ← lab_write (stack + 4) consumer;
  _ ← lab_write (stack + 6) (le_split 2 0);
  _ ← lab_write (Z.shiftl text_segment 4 + CALL_SENTINEL_IP) [Byte.xf4];
  _ ← enter text_segment initialise_ip dgroup_segment BOOTSTRAP_SP;
  _ ← write_register "flags" 0x0202;
  _ ← _run_until (Z.shiftl text_segment 4 + CALL_SENTINEL_IP) MAX_SETUP_INSTRUCTIONS;
  state ← registers;
  mret (r_ax state).

(** [_read16(machine, base + index * 2) for index in range(n)] *)
Fixpoint read_words (n : nat) (base : Z) : lab (list Z) :=
  match n with
  | O => mret []
  | S n => word ← _read16 base; l ← read_words n (base + 2); mret (word :: l)
  end.

Definition words_text (l : list Z) : string := str_join " " (map (hex_upper 4) l).

Definition expected_frame (layout : FreeRTOS75PortLayout) : list Z :=
  let scheduler := q_scheduler (p_queue layout) in
  let dgroup_segment := Z.shiftr (dgroup_base scheduler) 4 in
  [0xB0B0; 0xD1D1; 0x5151; dgroup_segment; dgroup_segment; 0xDDDD; 0xCCCC; 0xBBBB; 0xAAAA;
   consumer_task (p_queue layout) - text_base scheduler; Z.shiftr (text_base scheduler) 4; 0x0202;
   task_exit_error layout - text_base scheduler; 0x0000].

Definition _validate_fabricated_frame (layout : FreeRTOS75PortLayout) (initialised_sp : Z) : lab (list Z) :=
  words ← read_words 14 (dgroup_base (q_scheduler (p_queue layout)) + initialised_sp);
  if negb (bool_decide (words = expected_frame layout))
  then raise (RuntimeError ("pxPortInitialiseStack produced an unexpected saved frame:" +:+ newline
                            +:+ "  got      " +:+ words_text words +:+ newline
                            +:+ "  expected " +:+ words_text (expected_frame layout)))
  else mret words.

Record PortContextResult := mkPortContext {
  initialised_sp : Z;
  frame_words : list Z;
  task_entry : RegisterState;
  delayed_entry : RegisterState;
  delayed_return_ip : Z;
  delayed_ticks : Z;
  delayed_can_block : Z;
  runtime_instructions : Z;
  pc_trace : string;
}.

Definition in_dgroup (state : RegisterState) (dgroup_segment : Z) : bool :=
  (r_ds state =? dgroup_segment) && (r_es state =? dgroup_segment) && (r_ss state =? dgroup_segment).

Definition run_port_context_fixture (layout : result FreeRTOS75PortLayout) (workload : result LoadedWorkload)
  : lab PortContextResult :=
  layout ← lift layout;
  workload ← lift workload;
  let scheduler := q_scheduler (p_queue layout) in
  _ ← load workload;
  _ ← _setup_tcb_and_lists (p_queue layout);
  _ ← _setup_empty_queue (p_queue layout);
  initialised ← _call_initialise_stack layout;
  frame ← _validate_fabricated_frame layout initialised;
  _ ← _write16 (dgroup_base scheduler) CURRENT_TCB_OFFSET initialised;
  let text_segment := Z.shiftr (text_base scheduler) 4 in
  let dgroup_segment := Z.shiftr (dgroup_base scheduler) 4 in
  _ ← enter text_segment (start_first_task layout - text_base scheduler) dgroup_segment BOOTSTRAP_SP;
  _ ← write_register "flags" 0x0202;
  recorder ← lift (trace_recorder None [] (MAX_RUNTIME_INSTRUCTIONS * 3));
  _ ← install_trace recorder;
  task_entry_count ← _run_until (consumer_task (p_queue layout)) MAX_RUNTIME_INSTRUCTIONS;
  entry ← registers;
  _ ← fail_when (negb (in_dgroup entry dgroup_segment))
        ("initial task restore did not establish DS=ES=SS=DGROUP: " +:+ hex_upper 4 (r_ds entry) +:+ "/"
         +:+ hex_upper 4 (r_es entry) +:+ "/" +:+ hex_upper 4 (r_ss entry));
  _ ← fail_when (Z.land (r_flags entry) 0x0200 =? 0) "initial task restore entered consumer with IF clear";
  return_word ← _stack_word (r_ss entry) (r_sp entry) 0;
  _ ← fail_when (negb (return_word =? nth 12 frame 0)) "task-entry near return IP does not match fabricated frame";
  parameter ← _stack_word (r_ss entry) (r_sp entry) 1;
  _ ← fail_when (negb (parameter =? 0)) "task-entry pvParameters does not match fabricated frame";
  target ← lift (layout_address scheduler "_prvAddCurrentTaskToDelayedList");
  more ← _run_until target (MAX_RUNTIME_INSTRUCTIONS - task_entry_count);
  delayed ← registers;
  let stack := Z.shiftl (r_ss delayed) 4 + r_sp delayed in
  return_ip ← _read16 stack;
  ticks ← _read16 (stack + 2);
  can_block ← _read16 (stack + 4);
  _ ← fail_when (negb (in_dgroup delayed dgroup_segment))
        "restored task did not preserve DGROUP segments to delayed-list boundary";
  _ ← fail_when (negb (ticks =? PORT_MAX_DELAY) || negb (can_block =? PD_TRUE))
        ("restored task produced bad delayed-list arguments: ticks=" +:+ hex_upper 4 ticks +:+ " canBlock=" +:+ dec can_block);
  trace ← recorded_trace;
  mret (mkPortContext initialised frame entry delayed return_ip ticks can_block (task_entry_count + more) trace).

(** ** freertos75_tick_interleave.py *)

Definition TICK_VECTOR : Z := 0x21.
Definition TICK_SENTINEL_IP : Z := 0x3E20.
Definition SUSPECT_BOUNDARIES : list Z :=
  [0x1263B; 0x1263E; 0x12641; 0x12643; 0x12647; 0x12649; 0x1264D; 0x12651; 0x12654; 0x12658; 0x1265B; 0x1265E;
   0x12662; 0x12665; 0x12668; 0x1266B; 0x1266F; 0x12672; 0x12675; 0x12679; 0x1267E; 0x12682].

Record InterleaveResult := mkInterleave {
  boundary : Z;
  before_tick : RegisterState;
  after_iret : RegisterState;
  tick_handler : Z;
  interrupt_instructions : Z;
  suspended_count_after_completion : Z;
  ready_count_after_completion : Z;
  state_container_after_completion : Z;
  suspended_end_next : Z;
  suspended_end_previous : Z;
}.

Definition _call_noargs (layout : FreeRTOS75PortLayout) (function_address : Z) : lab unit :=
  let scheduler := q_scheduler (p_queue layout) in
  let text_segment := Z.shiftr (text_base scheduler) 4 in
  let dgroup_segment := Z.shiftr (dgroup_base scheduler) 4 in
  let stack := dgroup_base scheduler + BOOTSTRAP_SP in
  _ ← lab_write stack (le_split 2 TICK_SENTINEL_IP);
  _ ← lab_write (Z.shiftl text_segment 4 + TICK_SENTINEL_IP) [Byte.xf4];
  _ ← enter text_segment (function_address - text_base scheduler) dgroup_segment BOOTSTRAP_SP;
  _ ← write_register "flags" 0x0202;
  _ ← _run_until (Z.shiftl text_segment 4 + TICK_SENTINEL_IP) 300;
  mret tt.

(** The handler the vector table gives for the tick *)
Definition tick_entry : lab Z :=
  raw ← lab_read (TICK_VECTOR * 4) 4;
  mret (Z.shiftl (from_bytes_le (slice 2 4 raw)) 4 + from_bytes_le (slice 0 2 raw)).

Definition _fresh_running_consumer (workload : result LoadedWorkload) (layout : FreeRTOS75PortLayout) : lab (Z * Z) :=
  let scheduler := q_scheduler (p_queue layout) in
  workload ← lift workload;
  _ ← load workload;
  '(ready, suspended, _) ← _setup_tcb_and_lists (p_queue layout);
  _ ← _setup_empty_queue (p_queue layout);
  initialised ← _call_initialise_stack layout;
  _ ← _validate_fabricated_frame layout initialised;
  _ ← _write16 (dgroup_base scheduler) CURRENT_TCB_OFFSET initialised;
  _ ← _call_noargs layout (install_vectors layout);
  handler ← tick_entry;
  _ ← fail_when (handler =? 0) "production port did not install the tick IVT entry";
  _ ← enter (Z.shiftr (text_base scheduler) 4) (start_first_task layout - text_base scheduler)
        (Z.shiftr (dgroup_base scheduler) 4) BOOTSTRAP_SP;
  _ ← write_register "flags" 0x0202;
  mret (ready, suspended).

Definition _register_tuple (s : RegisterState) : list Z :=
  [r_ax s; r_bx s; r_cx s; r_dx s; r_si s; r_di s; r_bp s; r_sp s; r_cs s; r_ds s; r_es s; r_ss s; r_ip s;
   Z.land (r_flags s) 0xFFFF].

(** [while _read16(machine, address) != 1 and steps < maximum] *)
Fixpoint run_while_empty (more : nat) (address : Z) : lab unit :=
  count ← _read16 address;
  if count =? 1 then mret tt else
  match more with
  | O => mret tt
  | S more => _ ← run 1; run_while_empty more address
  end.

Definition at_text (boundary : Z) (text : string) : string := "tick at 0x" +:+ hex_upper 5 boundary +:+ text.

(** The part after the tick has returned: the insertion commits *)
Definition complete_insertion (boundary dgroup ready suspended : Z) : lab (Z * Z * Z * Z) :=
  _ ← run_while_empty 80 (dgroup + suspended);
  committed ← _read16 (dgroup + suspended);
  _ ← fail_when (negb (committed =? 1)) (at_text boundary " prevented suspended-list insertion");
  let stop := suspended + LIST_END_OFFSET in
  ready_count ← _read16 (dgroup + ready);
  container ← _read16 (dgroup + current_item + ITEM_CONTAINER);
  end_next ← _read16 (dgroup + stop + ITEM_NEXT);
  end_previous ← _read16 (dgroup + stop + ITEM_PREVIOUS);
  _ ← fail_when (negb (ready_count =? 0)) (at_text boundary (": ready count is " +:+ dec ready_count +:+ ", expected 0"));
  _ ← fail_when (negb (container =? suspended))
        (at_text boundary (": state item container 0x" +:+ hex_upper 4 container +:+ ", expected 0x" +:+ hex_upper 4 suspended));
  _ ← fail_when (negb ((end_next =? current_item) && (end_previous =? current_item)))
        (at_text boundary (": suspended end links are 0x" +:+ hex_upper 4 end_next +:+ "/0x" +:+ hex_upper 4 end_previous));
  mret (ready_count, container, end_next, end_previous).

Definition run_interleave_case (workload : result LoadedWorkload) (layout : FreeRTOS75PortLayout) (boundary : Z)
  : lab InterleaveResult :=
  if negb (z_in boundary SUSPECT_BOUNDARIES)
  then raise (ValueError ("unsupported delayed-list boundary: 0x" +:+ hex_upper 5 boundary)) else
  '(ready, suspended) ← _fresh_running_consumer workload layout;
  let dgroup := dgroup_base (q_scheduler (p_queue layout)) in
  _ ← _run_until boundary MAX_RUNTIME_INSTRUCTIONS;
  before ← registers;
  _ ← fail_when (Z.land (r_flags before) 0x0200 =? 0) ("tick boundary 0x" +:+ hex_upper 5 boundary +:+ " has IF clear");
  handler ← tick_entry;
  _ ← inject_real_mode_interrupt TICK_VECTOR;
  ip ← current_linear_ip;
  _ ← fail_when (negb (ip =? handler)) "interrupt injection did not enter production tick handler";
  interrupt ← _run_until boundary 500;
  after ← registers;
  _ ← fail_when (negb (bool_decide (_register_tuple after = _register_tuple before)))
        (at_text boundary (" changed architectural task state" +:+ newline +:+ "  before " +:+ words_text (_register_tuple before)
                           +:+ newline +:+ "  after  " +:+ words_text (_register_tuple after)));
  '(ready_count, container, end_next, end_previous) ← complete_insertion boundary dgroup ready suspended;
  mret (mkInterleave boundary before after handler interrupt 1 ready_count container end_next end_previous).
End fixtures.

(** ** Running to an instruction *)

Section running.
Context {W : Type} `{Emulator W}.
Implicit Types m : machine W.

(** [n] instructions were executed *)
Inductive stepped : nat → machine W → machine W → Prop :=
| stepped_none m : stepped 0 m m
| stepped_one n m m1 m2 : run 1 m = (m1, Ok tt) → stepped n m1 m2 → stepped (S n) m m2.

Definition ip_of (m : machine W) : result Z :=
  linear_address (r_cs (registers_of (_uc m))) (r_ip (registers_of (_uc m))).

Lemma current_ip_run m : current_linear_ip m = (m, ip_of m).
Proof. reflexivity. Qed.

Lemma run_steps_spec more target executed m m' r :
  run_steps more target executed m = (m', Ok r) →
  ∃ n, r = executed + Z.of_nat n ∧ (n ≤ more)%nat ∧ stepped n m m'
    ∧ (∀ k m1, (k < n)%nat → stepped k m m1 → ip_of m1 ≠ Ok target)
    ∧ ((n < more)%nat → ip_of m' = Ok target).
Proof.
  revert executed m. induction more as [|more IH]; intros executed m; cbn [run_steps]; unfold mbind at 1, io_bind at 1;
    rewrite current_ip_run; destruct (ip_of m) as [ip|] eqn:Hip; try done; destruct (Z.eqb_spec ip target) as [->|Hne].
  1,2,3: intros E; io_inv; exists 0%nat; split_and!; try lia; try constructor; intros; try lia; try exact Hip.
  intros E. io_step. rename select (run 1 m = _) into Hrun. rename select (run_steps _ _ _ _ = _) into Hs. destruct x0.
  apply IH in Hs as (n & -> & Hn & Hst & Hnot & Hat). exists (S n). split_and!; [lia|lia|by econstructor| |intros; apply Hat; lia].
  intros k m1 Hk Hm1. destruct k as [|k]; inversion Hm1 as [|? ? mm ? Hr2 Hs2]; subst; [congruence|].
  rewrite Hrun in Hr2. injection Hr2 as <-. by apply (Hnot k); [lia|].
Qed.

Lemma run_steps_complete n more target executed m m' :
  stepped n m m' → (n ≤ more)%nat → ip_of m' = Ok target →
  (∀ k m1, (k < n)%nat → stepped k m m1 → is_ok (ip_of m1) = true ∧ ip_of m1 ≠ Ok target) →
  run_steps more target executed m = (m', Ok (executed + Z.of_nat n)).
Proof.
  intros Hs. revert more executed. induction Hs as [m|n m m1 m2 Hr Hs IH]; intros more executed Hn Hip Hnot.
  - destruct more; cbn [run_steps]; unfold mbind at 1, io_bind at 1; rewrite current_ip_run, Hip, Z.eqb_refl; by rewrite Z.add_0_r.
  - destruct more as [|more]; [lia|]. cbn [run_steps]. unfold mbind at 1, io_bind at 1. rewrite current_ip_run.
    destruct (Hnot 0%nat m) as [Hok Hne]; [lia|constructor|]. destruct (ip_of m) as [ip|]; [|done].
    destruct (Z.eqb_spec ip target) as [->|_]; [done|]. unfold mbind, io_bind. rewrite Hr.
    rewrite IH; [f_equal; f_equal; lia|lia|done|]. intros k m3 Hk Hm3. apply (Hnot (S k)); [lia|by econstructor].
Qed.

(** a run to an instruction executes single instructions until the processor
    is about to execute that instruction for the first time, and returns how many
    there were, at most the maximum; and whenever the program reaches the
    instruction within the maximum, the run succeeds. *)
Theorem run_until_first target maximum m m' executed :
  (_run_until target maximum m = (m', Ok executed) →
   ∃ n, executed = Z.of_nat n ∧ (n ≤ Z.to_nat maximum)%nat ∧ stepped n m m' ∧ ip_of m' = Ok target
     ∧ ∀ k m1, (k < n)%nat → stepped k m m1 → ip_of m1 ≠ Ok target)
  ∧ (∀ n, stepped n m m' → (n ≤ Z.to_nat maximum)%nat → ip_of m' = Ok target →
     (∀ k m1, (k < n)%nat → stepped k m m1 → is_ok (ip_of m1) = true ∧ ip_of m1 ≠ Ok target) →
     _run_until target maximum m = (m', Ok (Z.of_nat n))).
Proof.
  unfold _run_until, run_to. split.
  - intros E. io_step. rename select (run_steps _ _ _ _ = _) into Hs. apply run_steps_spec in Hs as (n & -> & Hn & Hst & Hnot & _).
    match goal with E : (_ ≫= _) x = _ |- _ => unfold mbind, io_bind in E; rewrite current_ip_run in E; rename E into E1 end.
    destruct (ip_of x) as [ip|] eqn:Hip; [|done]. destruct (Z.eqb_spec ip target) as [->|]; [|by cbn in E1]. cbn in E1. io_inv.
    exists n. split_and!; try done; lia.
  - intros n Hs Hn Hip Hnot. unfold mbind at 1, io_bind at 1. rewrite (run_steps_complete n _ _ _ _ m') by done.
    unfold mbind, io_bind. rewrite current_ip_run, Hip, Z.eqb_refl. done.
Qed.
End running.

(** ** The lists the fixtures build *)

(** A FreeRTOS list at offset [l] of DGROUP with the given items: the count, the
    index at the end marker, and a ring from the end marker through the items and
    back, linked in both directions; every item names its owner and the list.
    [word] gives the word at an offset. *)
Fixpoint ring (word : Z → Z) (a : Z) (items : list Z) (stop : Z) : Prop :=
  match items with
  | [] => word (a + ITEM_NEXT) = stop ∧ word (stop + ITEM_PREVIOUS) = a
  | b :: items => word (a + ITEM_NEXT) = b ∧ word (b + ITEM_PREVIOUS) = a ∧ ring word b items stop
  end.
Definition freertos_list (word : Z → Z) (l : Z) (items : list (Z * Z)) : Prop :=
  word l = len items ∧ word (l + 2) = l + LIST_END_OFFSET ∧ word (l + LIST_END_OFFSET) = 0xFFFF
  ∧ ring word (l + LIST_END_OFFSET) (map fst items) (l + LIST_END_OFFSET)
  ∧ Forall (λ x, word (x.1 + ITEM_OWNER) = x.2 ∧ word (x.1 + ITEM_CONTAINER) = l) items.

Lemma ring_ext f g a items stop : (∀ o, f o = g o) → ring f a items stop → ring g a items stop.
Proof. intros Hfg. revert a. induction items as [|b items IH]; intros a; cbn [ring]; rewrite <- ?Hfg; naive_solver. Qed.
Lemma freertos_list_ext f g l items : (∀ o, f o = g o) → freertos_list f l items → freertos_list g l items.
Proof.
  intros Hfg (? & ? & ? & Hr & Hi). unfold freertos_list. rewrite <- !Hfg. split_and!; try done; [by eapply ring_ext|].
  eapply Forall_impl; [exact Hi|]. intros x. by rewrite <- !Hfg.
Qed.

Section lists.
Context {W : Type} `{Faithful W}.
Implicit Types m : machine W.

(** The memory of a machine as a function *)
Definition memory_is (m : machine W) (size : Z) (mem : Z → byte) : Prop :=
  memory_size m = size ∧ uc_size (_uc m) = size ∧ ∀ x, uc_byte (_uc m) x = mem x.
Definition mem_word (mem : Z → byte) (a : Z) : Z := from_bytes_le [mem a; mem (a + 1)].

Lemma lab_write_store m size mem a data :
  memory_is m size mem → 0 <= a → a + len data <= size →
  ∃ m', lab_write a data m = (m', Ok tt) ∧ memory_is m' size (store a data mem).
Proof.
  intros (Hm & Hs & Hb) Ha Hl. unfold lab_write, gets, mbind, io_bind. rewrite Hm.
  destruct ((a <? 0) || (size <? a + len data)) eqn:E; [lia|].
  destruct (uc_write_ok a data (_uc m)) as (w' & Hw & Hsz & _ & Ho & Hd); [done|congruence|].
  unfold uc. rewrite Hw. eexists. split; [reflexivity|]. split; [done|]. cbn. split; [congruence|].
  intros x. unfold store. destruct ((a <=? x) && (x <? a + len data)) eqn:Ex.
  - assert (Z.to_nat (x - a) < length data)%nat as Hlt by (unfold len in *; lia).
    apply lookup_lt_is_Some in Hlt as [b Hi]. rewrite (nth_lookup_Some _ _ _ _ Hi).
    rewrite <- (Hd _ _ Hi). f_equal. lia.
  - rewrite Ho by lia. apply Hb.
Qed.

Lemma word_store_same a v mem : 0 <= v <= 0xFFFF → mem_word (store a (_u16 v) mem) a = v.
Proof.
  intros Hv. unfold mem_word, store. change (len (_u16 v)) with 2.
  destruct ((a <=? a) && (a <? a + 2)) eqn:E1; [|lia]. destruct ((a <=? a + 1) && (a + 1 <? a + 2)) eqn:E2; [|lia].
  rewrite Z.sub_diag. replace (a + 1 - a) with 1 by lia.
  change (from_bytes_le (word16 v) = v). rewrite word16_value. apply Z.mod_small. lia.
Qed.
Lemma word_store_other a b v mem : a + 2 <= b ∨ b + 2 <= a → mem_word (store a (_u16 v) mem) b = mem_word mem b.
Proof.
  intros Hd. unfold mem_word, store. change (len (_u16 v)) with 2.
  destruct ((a <=? b) && (b <? a + 2)) eqn:E1; [lia|]. by destruct ((a <=? b + 1) && (b + 1 <? a + 2)) eqn:E2; [lia|].
Qed.

(** A run that only stores words, in this order *)
Definition stores (dgroup : Z) (l : list (Z * Z)) (mem : Z → byte) : Z → byte :=
  foldl (λ mem x, store (dgroup + x.1) (_u16 x.2) mem) mem l.
Definition fits_in (dgroup size : Z) (l : list (Z * Z)) : Prop := Forall (λ x, 0 <= dgroup + x.1 ∧ dgroup + x.1 + 2 <= size) l.
Definition writes {A} (c : io (machine W) A) (dgroup : Z) (l : list (Z * Z)) (a : A) : Prop :=
  ∀ m size mem, memory_is m size mem → fits_in dgroup size l → ∃ m', c m = (m', Ok a) ∧ memory_is m' size (stores dgroup l mem).

Lemma writes_ret {A} dgroup (a : A) : writes (mret a) dgroup [] a.
Proof. intros m size mem Hm _. by exists m. Qed.
Lemma writes_one dgroup offset v : writes (_write16 dgroup offset v) dgroup [(offset, v)] tt.
Proof.
  intros m size mem Hm Hf. apply Forall_cons in Hf as [[? ?] _]. cbn in *. unfold _write16.
  by apply lab_write_store.
Qed.
Lemma writes_bind {A B} (c : io (machine W) A) (k : A → io (machine W) B) dgroup l1 l2 a b :
  writes c dgroup l1 a → writes (k a) dgroup l2 b → writes (c ≫= k) dgroup (l1 ++ l2) b.
Proof.
  intros Hc Hk m size mem Hm Hf. apply Forall_app in Hf as [Hf1 Hf2].
  destruct (Hc _ _ _ Hm Hf1) as (m1 & E1 & Hm1). destruct (Hk _ _ _ Hm1 Hf2) as (m2 & E2 & Hm2).
  exists m2. unfold mbind, io_bind. rewrite E1. split; [exact E2|]. unfold stores. by rewrite foldl_app.
Qed.

Lemma writes_eq {A} (c : io (machine W) A) dgroup l l' a a' : writes c dgroup l a → l = l' → a = a' → writes c dgroup l' a'.
Proof. by intros ? -> ->. Qed.
Ltac write_steps := repeat first [apply writes_one | apply writes_ret | eapply writes_bind].

Lemma init_empty_list_writes dgroup l :
  writes (_init_empty_list dgroup l) dgroup
    [(l + 0, 0); (l + 2, l + 4); (l + 4 + 0, 0xFFFF); (l + 4 + 2, l + 4); (l + 4 + 4, l + 4)] tt.
Proof. unfold _init_empty_list. eapply writes_eq; [write_steps|reflexivity..]. Qed.
Lemma init_item_writes dgroup i n p o c :
  writes (_init_item dgroup i n p o c) dgroup [(i + 0, 0); (i + 2, n); (i + 4, p); (i + 6, o); (i + 8, c)] tt.
Proof. unfold _init_item. eapply writes_eq; [write_steps|reflexivity..]. Qed.

(** The items of a topology, in the order of the list *)
Definition topology_items (topology : string) : list (Z * Z) :=
  (current_item, CURRENT_TCB_OFFSET) :: if String.eqb topology "A" then [] else [(peer_item, PEER_TCB_OFFSET)].
Definition topology_list (ready_lists : Z) (topology : string) : Z :=
  ready_lists + (if String.eqb topology "A" then 3 else 2) * LIST_SIZE.

Definition topology_writes (ready : Z) (topology : string) : list (Z * Z) :=
  [(ready + 0, 0); (ready + 2, ready + 4); (ready + 4 + 0, 0xFFFF); (ready + 4 + 2, ready + 4); (ready + 4 + 4, ready + 4)]
  ++ [(ready, len (topology_items topology))]
  ++ if String.eqb topology "A" then
       [(ready + 4 + 2, current_item); (ready + 4 + 4, current_item)]
       ++ [(current_item + 0, 0); (current_item + 2, ready + 4); (current_item + 4, ready + 4);
           (current_item + 6, CURRENT_TCB_OFFSET); (current_item + 8, ready)]
     else
       [(ready + 4 + 2, current_item); (ready + 4 + 4, peer_item)]
       ++ [(current_item + 0, 0); (current_item + 2, peer_item); (current_item + 4, ready + 4);
           (current_item + 6, CURRENT_TCB_OFFSET); (current_item + 8, ready)]
       ++ [(peer_item + 0, 0); (peer_item + 2, ready + 4); (peer_item + 4, current_item);
           (peer_item + 6, PEER_TCB_OFFSET); (peer_item + 8, ready)].

Lemma topology_run dgroup ready_lists topology :
  topology = "A"%string ∨ topology = "B"%string →
  writes (_init_ready_topology dgroup ready_lists topology) dgroup (topology_writes (topology_list ready_lists topology) topology)
    (topology_list ready_lists topology, len (topology_items topology)).
Proof.
  intros [-> | ->]; unfold _init_ready_topology; cbn [String.eqb Ascii.eqb Bool.eqb]; eapply writes_eq.
  1,4: repeat first [apply writes_one | apply writes_ret | apply init_empty_list_writes | apply init_item_writes | eapply writes_bind; cbv beta iota zeta].
  all: reflexivity.
Qed.

Lemma word_store_at a b v mem : a = b → 0 <= v <= 0xFFFF → mem_word (store a (_u16 v) mem) b = v.
Proof. intros <-. apply word_store_same. Qed.

Ltac find_word := repeat rewrite word_store_other by lia; rewrite word_store_at by lia; lia.

Lemma topology_words dgroup ready topology mem :
  topology = "A"%string ∨ topology = "B"%string →
  0 <= ready → ready + 10 <= 0x10000 → ready + 10 <= current_item ∨ peer_item + 10 <= ready →
  freertos_list (λ o, mem_word (stores dgroup (topology_writes ready topology) mem) (dgroup + o)) ready (topology_items topology).
Proof.
  intros Ht Hlo Hhi Hd. destruct Ht as [-> | ->]; unfold freertos_list, topology_writes, stores;
    [change (len (topology_items "A")) with 1|change (len (topology_items "B")) with 2]; unfold topology_items;
    cbn [String.eqb Ascii.eqb Bool.eqb app foldl map fst snd ring];
    unfold LIST_END_OFFSET, ITEM_NEXT, ITEM_PREVIOUS, ITEM_OWNER, ITEM_CONTAINER,
      current_item, peer_item, CURRENT_TCB_OFFSET, PEER_TCB_OFFSET, TCB_STATE_ITEM_OFFSET in *;
    split_and!; try find_word; repeat constructor; cbn [fst snd]; find_word.
Qed.

Lemma topology_fits dgroup ready topology size :
  topology = "A"%string ∨ topology = "B"%string →
  0 <= dgroup → dgroup + 0x10000 <= size → 0 <= ready → ready + 10 <= 0x10000 →
  fits_in dgroup size (topology_writes ready topology).
Proof.
  intros Ht ? ? ? ?. destruct Ht as [-> | ->]; unfold topology_writes, fits_in;
    unfold current_item, peer_item, CURRENT_TCB_OFFSET, PEER_TCB_OFFSET, TCB_STATE_ITEM_OFFSET;
    cbn [String.eqb Ascii.eqb Bool.eqb app]; repeat (apply Forall_cons; split; [cbn [fst]; lia|]); constructor.
Qed.
End lists.

(** the ready list the fixtures build is a FreeRTOS list: for both
    topologies the count, the end marker and the ring of items, linked forwards
    and backwards, are in memory, and every item names its task and its list; any
    other topology is refused before anything is written. *)
Theorem ready_topology_ring {W} `{Faithful W} (m : machine W) size mem dgroup ready_lists topology :
  memory_is m size mem → 0 <= dgroup → dgroup + 0x10000 <= size →
  let ready := topology_list ready_lists topology in
  0 <= ready → ready + 10 <= 0x10000 → ready + 10 <= current_item ∨ peer_item + 10 <= ready →
  (topology = "A"%string ∨ topology = "B"%string →
   ∃ m', _init_ready_topology dgroup ready_lists topology m = (m', Ok (ready, len (topology_items topology)))
     ∧ freertos_list (λ o, word_at (_uc m') (dgroup + o)) ready (topology_items topology))
  ∧ (topology ≠ "A"%string → topology ≠ "B"%string →
     _init_ready_topology dgroup ready_lists topology m = (m, Raise (ValueError "topology must be A or B"))).
Proof.
  intros Hm Hd Hs ready Hlo Hhi Hdis. split.
  - intros Ht. destruct (topology_run dgroup ready_lists topology Ht m size mem Hm) as (m' & Hr & Hm').
    { by apply topology_fits. }
    exists m'. split; [exact Hr|]. destruct Hm' as (_ & _ & Hb).
    pose proof (topology_words dgroup ready topology mem Ht Hlo Hhi Hdis) as Hl.
    assert (∀ a, word_at (_uc m') a = mem_word (stores dgroup (topology_writes ready topology) mem) a) as Hw
      by (intros a; unfold word_at, mem_word; by rewrite !Hb).
    eapply freertos_list_ext; [|exact Hl]. intros o. by rewrite Hw.
  - intros Ha Hb. unfold _init_ready_topology. apply String.eqb_neq in Ha, Hb. by rewrite Ha, Hb.
Qed.

Example ready_topology_ring_witness :
  let m := bench_machine 0x2000 0x0100 in
  ∃ m', _init_ready_topology 0x20000 0x200 "B" m = (m', Ok (0x214, 2))
    ∧ word_at (_uc m') (0x20000 + 0x214) = 2
    ∧ freertos_list (λ o, word_at (_uc m') (0x20000 + o)) 0x214 (topology_items "B").
Proof.
  intros m.
  destruct (ready_topology_ring m 0x40000 (uc_byte (_uc m)) 0x20000 0x200 "B") as [Hok _].
  - by split_and!.
  - lia.
  - lia.
  - vm_compute. discriminate.
  - vm_compute. discriminate.
  - left. vm_compute. discriminate.
  - destruct Hok as (m' & Hr & Hl); [by right|]. exists m'. split; [exact Hr|]. split; [exact (proj1 Hl)|exact Hl].
Defined.
