(* ===== verification/Experiments.v ===== *)
(** * The commands of the FreeRTOS experiments (the [main] functions of
    tools/ia16_lab/freertos75_*.py) and the evidence probe (freertos75_probe.py)

    Each command resolves a layout or runs fixtures, each on a machine of its
    own, and prints a report.  The state of a command is what it has printed;
    argparse delivers the arguments and the files are parameters.

    The theorems say what an experiment that passes has established, and that
    the probe overlooks no line and no symbol. *)

From stdpp Require Import sorting.
From Stdlib Require Import Ascii.
From S2P Require Import Prelude Struct PyText Json Workload Telemetry Transport Regex Symbols Omf Lab Layout Fixtures.

Abbreviation cmd := (io (list string)).
Definition say (line : string) : cmd unit := modify (λ out, out ++ [line]).
Fixpoint say_all (lines : list string) : cmd unit :=
  match lines with [] => mret tt | line :: lines => _ ← say line; say_all lines end.

(** [f"{z:#07x}"] of a number that is not negative *)
Definition hex_alt7 (z : Z) : string :=
  let digits := hex_digits false (S (Z.to_nat (Z.log2 z))) z EmptyString in
  "0x" +:+ zeros (5 - String.length digits) +:+ digits.
(** [f"{z:3d}"] *)
Definition pad3 (z : Z) : string :=
  String.string_of_list_ascii (replicate (3 - String.length (dec z)) " "%char) +:+ dec z.

(** The arguments of the commands: the paths *)
Record files := mkFiles {
  p86w : string; link : string; map_path : string;
  main_object : string; queue_object : string; tasks_object : string; port_object : string;
}.

Section commands.
Context (read_text : string → result string) (read_octets : string → result bytes) (resolve_path : string → string).
(** [path.read_text()] with the encoding of the locale *)
Context (read_text_locale : string → result string).
Context {W : Type} `{Emulator W}.
Abbreviation lab := (io (machine W)).

Definition layout_of (a : files) : result FreeRTOS75Layout :=
  resolve_layout read_text read_octets resolve_path (link a) (map_path a) (tasks_object a).
Definition queue_layout_of (a : files) : result FreeRTOS75QueueLayout :=
  resolve_queue_layout read_text read_octets resolve_path (link a) (map_path a) (main_object a) (queue_object a)
    (tasks_object a).
Definition port_layout_of (a : files) : result FreeRTOS75PortLayout :=
  resolve_port_layout read_text read_octets resolve_path (link a) (map_path a) (main_object a) (queue_object a)
    (tasks_object a) (port_object a).
Definition workload_of (a : files) : result LoadedWorkload := load_p86w (p86w a) (read_octets (p86w a)).

(** A fixture on a fresh [IA16Machine()] *)
Definition on_machine {A} (m : lab A) : result A := fresh ← machine_init DEFAULT_MEMORY_SIZE; (m fresh).2.

(** ** freertos75_layout.py *)

Fixpoint target_lines (layout : FreeRTOS75Layout) (targets : list string) : cmd unit :=
  match targets with
  | [] => mret tt
  | target :: targets =>
      address ← lift (layout_address layout target);
      let detail := if String.eqb target "_prvAddCurrentTaskToDelayedList"
                    then "_TEXT+0x" +:+ hex_upper 0 (address - text_base layout)
                    else "DGROUP+0x" +:+ hex_upper 0 (address - dgroup_base layout) in
      _ ← say ("  0x" +:+ hex_upper 5 address +:+ " " +:+ target +:+ " [" +:+ detail +:+ "]");
      target_lines layout targets
  end.

Definition layout_main (a : files) : cmd Z :=
  layout ← lift (layout_of a);
  _ ← say_all ["FreeRTOS #75 OMF linked-layout evidence"; "LINK " +:+ link a; "MAP  " +:+ map_path a;
               "TASK " +:+ tasks_object a; newline +:+ "Validated public anchors"]%string;
  table ← lift (map_text ← read_text_locale (map_path a); from_wlink_map map_text);
  create ← lift (address table "_xTaskCreate");
  _ ← say ("  _TEXT _xTaskCreate  " +:+ hex_alt7 create);
  current ← lift (layout_address layout "_pxCurrentTCB");
  _ ← say_all ["  _DATA _pxCurrentTCB " +:+ hex_alt7 current;
               "  _BSS  " +:+ bss_anchor_name layout +:+ " " +:+ hex_alt7 (bss_anchor_address layout);
               "  DGROUP base          " +:+ hex_alt7 (dgroup_base layout);
               newline +:+ "Resolved scheduler symbols"]%string;
  _ ← target_lines layout TARGETS;
  mret 0.

(** ** freertos75_queue_layout.py *)

Definition queue_layout_main (a : files) : cmd Z :=
  layout ← lift (queue_layout_of a);
  _ ← say_all ["FreeRTOS #75 xQueueReceive caller-layout evidence";
               "  DGROUP base       0x" +:+ hex_upper 5 (dgroup_base (q_scheduler layout));
               "  consumer task     0x" +:+ hex_upper 5 (consumer_task layout);
               "  xQueueReceive     0x" +:+ hex_upper 5 (queue_receive layout)]%string;
  offset ← lift (queue_dgroup_offset layout (queue_handle layout));
  _ ← say ("  xQueue handle     0x" +:+ hex_upper 5 (queue_handle layout) +:+ " [DGROUP+0x" +:+ hex_upper 4 offset +:+ "]");
  delayed ← lift (layout_address (q_scheduler layout) "_prvAddCurrentTaskToDelayedList");
  _ ← say ("  delayed-list fn   0x" +:+ hex_upper 5 delayed);
  mret 0.

(** ** freertos75_port_layout.py *)

Definition port_layout_main (a : files) : cmd Z :=
  layout ← lift (port_layout_of a);
  _ ← say_all ["FreeRTOS #75 port-context layout";
               "  pxPortInitialiseStack  0x" +:+ hex_upper 5 (initialise_stack layout);
               "  rp86PortInstallVectors 0x" +:+ hex_upper 5 (install_vectors layout);
               "  rp86PortStartFirstTask 0x" +:+ hex_upper 5 (start_first_task layout);
               "  prvTaskExitError       0x" +:+ hex_upper 5 (task_exit_error layout);
               "  prvConsumerTask        0x" +:+ hex_upper 5 (consumer_task (p_queue layout))]%string;
  mret 0.

(** ** freertos75_fixture.py *)

Definition fixture_line (r : FixtureResult) : string :=
  "  " +:+ f_topology r +:+ ": ready=" +:+ dec (f_ready_count r) +:+ " suspended=" +:+ dec (f_suspended_count r)
  +:+ " container=0x" +:+ hex_upper 4 (f_item_container r) +:+ " path-insns=" +:+ dec (len (f_path r)).
Definition fixture_trace (r : FixtureResult) : list string :=
  [newline +:+ "=== topology " +:+ f_topology r +:+ " trace ==="; f_trace r]%string.

Definition fixture_of (a : files) (topology : string) : result FixtureResult :=
  on_machine (run_fixture (layout_of a) (workload_of a) topology).

Definition fixture_main (a : files) (trace : bool) : cmd Z :=
  one ← lift (fixture_of a "A");
  two ← lift (fixture_of a "B");
  _ ← say_all ["FreeRTOS #75 real-machine-code fixture"%string; fixture_line one; fixture_line two];
  if negb (bool_decide (f_path one = f_path two))
  then raise (RuntimeError "A/B post-uxListRemove instruction paths differ") else
  _ ← say_all ["  A/B post-uxListRemove instruction path: IDENTICAL";
               "  Both states complete the real xSuspendedTaskList insertion: PASS"]%string;
  _ ← (if trace then say_all (fixture_trace one ++ fixture_trace two) else mret tt);
  mret 0.

(** ** freertos75_queue_fixture.py *)

Definition queue_fixture_main (a : files) (trace : bool) : cmd Z :=
  result ← lift (on_machine (run_to_delayed_list_boundary (queue_layout_of a) (workload_of a) 1200));
  let r := qb_registers result in
  _ ← say_all ["FreeRTOS #75 real xQueueReceive caller boundary";
    "  reached after      " +:+ dec (instructions result) +:+ " instructions";
    "  CS:IP              " +:+ hex_upper 4 (r_cs r) +:+ ":" +:+ hex_upper 4 (r_ip r);
    "  DS/ES/SS           " +:+ hex_upper 4 (r_ds r) +:+ "/" +:+ hex_upper 4 (r_es r) +:+ "/" +:+ hex_upper 4 (r_ss r);
    "  BP/SP              " +:+ hex_upper 4 (r_bp r) +:+ "/" +:+ hex_upper 4 (r_sp r);
    "  AX BX CX DX        " +:+ words_text [r_ax r; r_bx r; r_cx r; r_dx r];
    "  SI DI FLAGS        " +:+ words_text [r_si r; r_di r; Z.land (r_flags r) 0xFFFF];
    "  caller stack       ret=" +:+ hex_upper 4 (return_ip result) +:+ " ticks=" +:+ hex_upper 4 (ticks_to_wait result)
      +:+ " canBlock=" +:+ dec (can_block_indefinitely result);
    "  ready/suspended    " +:+ dec (qb_ready_count result) +:+ "/" +:+ dec (qb_suspended_count result);
    "  state container    0x" +:+ hex_upper 4 (state_container result);
    "  event container    0x" +:+ hex_upper 4 (event_container result) +:+ " (queue receive list 0x"
      +:+ hex_upper 4 (queue_receive_list result) +:+ ")";
    "  queue messages     " +:+ dec (queue_messages_waiting result);
    "  caller-produced delayed-list entry state: COHERENT"]%string;
  _ ← (if trace then say_all [newline +:+ "=== bounded caller trace ==="; qb_trace result]%string else mret tt);
  mret 0.

(** ** freertos75_port_context_fixture.py *)

Definition entry_text (r : RegisterState) : string :=
  hex_upper 4 (r_cs r) +:+ ":" +:+ hex_upper 4 (r_ip r) +:+ " SP=" +:+ hex_upper 4 (r_sp r)
  +:+ " FLAGS=" +:+ hex_upper 4 (Z.land (r_flags r) 0xFFFF).
Definition segments_line (r : RegisterState) : string :=
  hex_upper 4 (r_ds r) +:+ "/" +:+ hex_upper 4 (r_es r) +:+ "/" +:+ hex_upper 4 (r_ss r).

Definition port_context_main (a : files) (trace : bool) : cmd Z :=
  result ← lift (on_machine (run_port_context_fixture (port_layout_of a) (workload_of a)));
  let entry := task_entry result in
  let delayed := delayed_entry result in
  _ ← say_all ["FreeRTOS #75 real initial-task restore fixture";
    "  initialised SP      0x" +:+ hex_upper 4 (initialised_sp result);
    "  fabricated frame    " +:+ words_text (frame_words result);
    "  task entry           " +:+ entry_text entry;
    "  task DS/ES/SS        " +:+ segments_line entry;
    "  delayed entry        " +:+ entry_text delayed;
    "  delayed DS/ES/SS     " +:+ segments_line delayed;
    "  delayed caller stack ret=" +:+ hex_upper 4 (delayed_return_ip result) +:+ " ticks=" +:+ hex_upper 4 (delayed_ticks result)
      +:+ " canBlock=" +:+ dec (delayed_can_block result);
    "  runtime instructions " +:+ dec (runtime_instructions result);
    "  initial task restore -> xQueueReceive -> delayed-list entry: COHERENT"]%string;
  _ ← (if trace then say_all [newline +:+ "=== bounded port-context trace ==="; pc_trace result]%string else mret tt);
  mret 0.

(** ** freertos75_tick_interleave.py *)

Fixpoint interleave_cases (workload : result LoadedWorkload) (layout : FreeRTOS75PortLayout) (boundaries : list Z)
  : result (list InterleaveResult) :=
  match boundaries with
  | [] => mret []
  | b :: boundaries =>
      r ← on_machine (run_interleave_case workload layout b);
      l ← interleave_cases workload layout boundaries;
      mret (r :: l)
  end.

Definition interleave_line (r : InterleaveResult) : string :=
  "  0x" +:+ hex_upper 5 (boundary r) +:+ ": handler=0x" +:+ hex_upper 5 (tick_handler r) +:+ " ISR-insns="
  +:+ pad3 (interrupt_instructions r) +:+ " context=PRESERVED insertion=PASS".

Definition selected_boundaries (chosen : list Z) : list Z := match chosen with [] => SUSPECT_BOUNDARIES | _ => chosen end.

Definition interleave_main (a : files) (chosen : list Z) : cmd Z :=
  layout ← lift (port_layout_of a);
  results ← lift (interleave_cases (workload_of a) layout (selected_boundaries chosen));
  _ ← say_all (["FreeRTOS #75 controlled tick-interleaving evidence";
                "  production tick vector 0x" +:+ hex_upper 2 TICK_VECTOR;
                "  cases                  " +:+ dec (len results)]%string
               ++ map interleave_line results
               ++ ["  all selected interrupt boundaries preserve task state and list insertion: PASS"%string]);
  mret 0.

(** ** freertos75_probe.py *)

Definition FREERTOS75_SYMBOL_FRAGMENTS : list string :=
  ["prvAddCurrentTaskToDelayedList"; "uxListRemove"; "xSuspendedTaskList"; "pxCurrentTCB"; "pxReadyTasksLists"]%string.
Definition REQUIRED : list string := ["xSuspendedTaskList"; "pxCurrentTCB"; "pxReadyTasksLists"]%string.

(** [any(fragment in s.lower() for fragment in lowered)] *)
Definition mentions (fragments : list string) (s : string) : bool :=
  existsb (λ fragment, str_contains fragment (str_lower s)) (map str_lower fragments).

Definition matching_symbols (t : SymbolTable) (fragments : list string) : list Symbol :=
  List.filter (λ s, mentions fragments (sym_name s)) (Symbols.symbols t).

(** [text.splitlines()] *)
Definition str_lines (s : string) : list string := map of_octets (splitlines (encode_utf8 s)).
Definition matching_map_lines (t : string) (fragments : list string) : list string :=
  List.filter (mentions fragments) (str_lines t).

Definition missing_map_evidence (t : SymbolTable) (lines required : list string) : list string :=
  let names := str_lower (str_join newline (map sym_name (Symbols.symbols t) ++ lines)) in
  List.filter (λ name, negb (str_contains (str_lower name) names)) required.

(** [f"{type(exc).__name__}: {exc}"] *)
Context (describe : exn → string).

(** [machine.run(...)] and the report of what stopped it; [except Exception] *)
Definition bounded_trace (workload : LoadedWorkload) (table : SymbolTable) (count : Z) : cmd unit :=
  fresh ← lift (machine_init DEFAULT_MEMORY_SIZE);
  let '(loaded, r) := load workload fresh in
  _ ← lift r;
  recorder ← lift (trace_recorder (Some table) [] (Z.max (count * 2) 64));
  let '(traced, r) := install_trace recorder loaded in
  _ ← lift r;
  _ ← say (newline +:+ "Bounded startup trace (" +:+ dec count +:+ " instructions maximum)");
  let '(stopped, r) := run count traced in
  _ ← match r with
      | Ok _ => mret tt
      | Raise (SystemExit e) => raise (SystemExit e)
      | Raise e => say ("STOP " +:+ describe e)
      end;
  say (str_or (match m_recorder stopped with Some rec => trace_format rec | None => EmptyString end) "(no trace events)").

Definition probe_main (a : files) (count : Z) : cmd Z :=
  map_text ← lift (read_text (map_path a));
  table ← lift (from_wlink_map map_text);
  _ ← say_all ["FreeRTOS #75 IA16 evidence probe"; "P86W " +:+ p86w a; "MAP  " +:+ map_path a;
               newline +:+ "Relevant parsed symbols"]%string;
  _ ← say_all (match matching_symbols table FREERTOS75_SYMBOL_FRAGMENTS with
               | [] => ["  (none parsed)"%string]
               | found => map (λ s, "  0x" +:+ hex_upper 5 (sym_address s) +:+ " " +:+ sym_name s) found
               end);
  _ ← say (newline +:+ "Relevant raw map lines");
  let lines := matching_map_lines map_text FREERTOS75_SYMBOL_FRAGMENTS in
  _ ← say_all (match lines with
               | [] => ["  (none)"%string]
               | _ => map (λ line, "  " +:+ line) lines
               end);
  _ ← say_all (match missing_map_evidence table lines REQUIRED with
               | [] => []
               | missing => [newline +:+ "Static/internal fixture symbols not visible in this WLINK map:"]
                   ++ map (λ name, "  " +:+ name) missing
                   ++ ["  This is an evidence/visibility constraint; upstream linkage is unchanged."%string]
               end);
  workload ← lift (workload_of a);
  _ ← bounded_trace workload table count;
  mret 0.
End commands.

(** ** Substrings *)

Lemma str_starts_spec p s : str_starts p s = true ↔ ∃ b, s = p +:+ b.
Proof.
  split; [|intros [b ->]; apply str_starts_app]. unfold str_starts. revert s.
  induction p as [|c p IH]; intros s; [by exists s|]. destruct s as [|d s]; [done|]. cbn [String.prefix].
  destruct (ascii_dec c d) as [->|]; [|done]. intros Hp. apply IH in Hp as [b ->]. by exists b.
Qed.

Lemma str_contains_spec p s : str_contains p s = true ↔ ∃ a b, s = a +:+ p +:+ b.
Proof.
  split.
  - induction s as [|c s IH]; cbn [str_contains]; rewrite orb_true_iff, str_starts_spec.
    + intros [[b ->]|[=]]. by exists EmptyString, b.
    + intros [[b Hb]|Hs]; [by exists EmptyString, b|]. apply IH in Hs as (a & b & ->). by exists (String c a), b.
  - intros (a & b & ->). induction a as [|c a IH].
    + change (EmptyString +:+ p +:+ b) with (p +:+ b).
      destruct (p +:+ b) eqn:E; cbn [str_contains]; rewrite <- E, str_starts_app; done.
    + change (String c a +:+ p +:+ b) with (String c (a +:+ p +:+ b)). cbn [str_contains]. by rewrite IH, orb_true_r.
Qed.

Lemma str_contains_list p s :
  str_contains p s = true ↔ ∃ a b, ascii_list s = a ++ ascii_list p ++ b.
Proof.
  rewrite str_contains_spec. split.
  - intros (a & b & ->). rewrite !ascii_list_app. eauto.
  - intros (a & b & E). exists (String.string_of_list_ascii a), (String.string_of_list_ascii b).
    rewrite <- (String.string_of_list_ascii_of_string s), E, !string_of_list_app.
    by rewrite String.string_of_list_ascii_of_string.
Qed.

Lemma str_lower_app a b : str_lower (a +:+ b) = str_lower a +:+ str_lower b.
Proof. induction a as [|c a IH]; [done|]. change (String c a +:+ b) with (String c (a +:+ b)). cbn. by rewrite IH. Qed.

Lemma str_lower_join sep l : str_lower (str_join sep l) = str_join (str_lower sep) (map str_lower l).
Proof.
  induction l as [|x [|y l] IH]; [done..|]. change (str_join sep (x :: y :: l)) with (x +:+ sep +:+ str_join sep (y :: l)).
  rewrite !str_lower_app, IH. done.
Qed.

(** A text without newlines is found in lines that are joined exactly when it is
    found in one of them. *)
Lemma contains_newline p x y :
  has_char newline_char p = false → p ≠ EmptyString →
  str_contains p (x +:+ newline +:+ y) = true ↔ str_contains p x = true ∨ str_contains p y = true.
Proof.
  intros Hn Hp. rewrite !str_contains_list, !ascii_list_app. unfold has_char in Hn.
  assert (newline_char ∉ ascii_list p) as Hnin.
  { intros Hin. apply list_elem_of_In in Hin. apply not_true_iff_false in Hn. apply Hn, existsb_exists. exists newline_char.
    split; [done|]. apply Ascii.eqb_refl. }
  assert (ascii_list p ≠ []) as Hpn by (by destruct p).
  change (ascii_list newline) with [newline_char]. split.
  - intros (a & b & E). apply app_eq_inv in E as [(k & -> & E)|(k & -> & E)].
    + apply app_eq_inv in E as [(k' & E1 & E2)|(k' & -> & E2)].
      * destruct k' as [|c k']; [rewrite app_nil_r in E1; left; exists a, []; by rewrite E1, app_nil_r|].
        injection E2 as E2 _. exfalso. apply Hnin. rewrite E1, E2. set_solver.
      * left. eauto.
    + destruct k as [|c k]; [|injection E as _ E; right; eauto].
      destruct (ascii_list p) as [|c q]; [done|]. cbn in E. injection E as E _. exfalso. apply Hnin. rewrite E. set_solver.
  - intros [(a & b & ->)|(a & b & ->)].
    + exists a, (b ++ [newline_char] ++ ascii_list y). by rewrite <- !app_assoc.
    + exists (ascii_list x ++ [newline_char] ++ a), b. by rewrite <- !app_assoc.
Qed.

Lemma contains_join p l :
  has_char newline_char p = false → p ≠ EmptyString →
  str_contains p (str_join newline l) = true ↔ Exists (λ x, str_contains p x = true) l.
Proof.
  intros Hn Hp. induction l as [|x [|y l] IH].
  - cbn. rewrite Exists_nil. by destruct p.
  - cbn. rewrite Exists_cons, Exists_nil. naive_solver.
  - change (str_join newline (x :: y :: l)) with (x +:+ newline +:+ str_join newline (y :: l)).
    rewrite contains_newline by done. rewrite IH, (Exists_cons _ x). done.
Qed.

(** ** The probe *)

Lemma and_iff_when (A B C : Prop) : (A → (B ↔ C)) → (A ∧ B) ↔ (A ∧ C).
Proof. tauto. Qed.

Lemma required_fragment name :
  name ∈ REQUIRED →
  has_char newline_char (str_lower name) = false ∧ str_lower name ≠ EmptyString
  ∧ str_lower name ∈ map str_lower FREERTOS75_SYMBOL_FRAGMENTS.
Proof.
  intros Hreq. assert (Forall (λ name, has_char newline_char (str_lower name) = false ∧ str_lower name ≠ EmptyString
    ∧ str_lower name ∈ map str_lower FREERTOS75_SYMBOL_FRAGMENTS) REQUIRED) as Hall.
  { repeat constructor; try done; apply list_elem_of_In; vm_compute; tauto. }
  rewrite Forall_forall in Hall. by apply Hall.
Qed.

(** A name the probe reports as missing is required, and neither a symbol nor a
    line of the map, matching or not, mentions it in any spelling; a required
    name it does not report is mentioned. *)
Theorem missing_evidence_exact t map_text name :
  name ∈ missing_map_evidence t (matching_map_lines map_text FREERTOS75_SYMBOL_FRAGMENTS) REQUIRED ↔
  name ∈ REQUIRED
  ∧ Forall (λ s, str_contains (str_lower name) (str_lower (sym_name s)) = false) (Symbols.symbols t)
  ∧ Forall (λ line, str_contains (str_lower name) (str_lower line) = false) (str_lines map_text).
Proof.
  unfold missing_map_evidence. rewrite !list_elem_of_In, filter_In, <- list_elem_of_In.
  apply and_iff_when. intros Hreq. apply required_fragment in Hreq as (Hn & He & Hf).
  rewrite str_lower_join, negb_true_iff, <- not_true_iff_false. change (str_lower newline) with newline.
  rewrite contains_join, map_app, Exists_app, !Exists_exists by done.
  unfold matching_map_lines. generalize (str_lines map_text) as lines. intros lines.
  rewrite !Forall_forall. setoid_rewrite list_elem_of_In. setoid_rewrite in_map_iff. split.
  - intros Hno. split; intros x Hx; apply not_true_iff_false; intros Hc; apply Hno; [left|right].
    + exists (str_lower (sym_name x)). split; [|done]. exists (sym_name x). split; [done|by apply in_map].
    + exists (str_lower x). split; [|done]. exists x. split; [done|]. apply filter_In. split; [done|].
      apply existsb_exists. exists (str_lower name). split; [by apply list_elem_of_In|done].
  - intros [Hs Hl] [(x & (y & <- & Hy) & Hc)|(x & (y & <- & Hy) & Hc)].
    + apply in_map_iff in Hy as (s & <- & Hin). apply Hs in Hin. congruence.
    + apply filter_In in Hy as [Hin _]. apply Hl in Hin. congruence.
Qed.

(** ** What a passing experiment has established *)

Section certified.
Context {W : Type} `{Emulator W}.

Lemma fail_when_ok c text (m m' : machine W) u : fail_when c text m = (m', Ok u) → c = false.
Proof. unfold fail_when. by destruct c. Qed.

(** The list of suspended tasks holds the current task alone: its end marker
    points to the item in both directions, and the item names the list. *)
Definition suspended_alone (count container suspended next previous : Z) : Prop :=
  count = 1 ∧ container = suspended ∧ next = current_item ∧ previous = current_item.

Ltac checks :=
  repeat match goal with
    | E : fail_when _ _ _ = (_, Ok _) |- _ => apply fail_when_ok in E
    | E : negb _ = false |- _ => apply negb_false_iff in E
    | E : _ && _ = true |- _ => apply andb_prop in E as [? ?]
    | E : (_ =? _) = true |- _ => apply Z.eqb_eq in E
    end.

Lemma topology_count dgroup ready_lists topology (m m' : machine W) ready count :
  _init_ready_topology dgroup ready_lists topology m = (m', Ok (ready, count)) →
  (topology = "A" ∧ count = 1 ∨ topology = "B" ∧ count = 2)%string.
Proof.
  unfold _init_ready_topology.
  destruct (String.eqb_spec topology "A") as [->|]; [|destruct (String.eqb_spec topology "B") as [->|]]; intros E; io_inv; eauto.
Qed.

Lemma window_bounds l : Forall (λ a, 0x1263B <= a <= 0x12682) (window_path l).
Proof.
  apply Forall_forall. intros a Ha. apply list_elem_of_omap in Ha as (e & _ & He). destruct e as [i|]; [|done].
  destruct ((0x1263B <=? i_address i) && (i_address i <=? 0x12682)) eqn:Hw; [|done]. apply andb_prop in Hw as [? ?]. simplify_eq. lia.
Qed.

(** A fixture that returns ran the window and left the task suspended. *)
Definition fixture_certified (layout : result FreeRTOS75Layout) (topology : string) (r : FixtureResult) : Prop :=
  ∃ l suspended, layout = Ok l ∧ dgroup_offset l "_xSuspendedTaskList" = Ok suspended
    ∧ f_topology r = topology ∧ f_ready_count r = (if String.eqb topology "A" then 0 else 1)
    ∧ suspended_alone (f_suspended_count r) (f_item_container r) suspended (f_end_next r) (f_end_previous r)
    ∧ f_path r ≠ [] ∧ Forall (λ a, 0x1263B <= a <= 0x12682) (f_path r).

Lemma run_fixture_certified layout workload topology (m m' : machine W) r :
  run_fixture layout workload topology m = (m', Ok r) → fixture_certified layout topology r.
Proof.
  unfold run_fixture. intros E. io_inv.
  match goal with E : _init_ready_topology _ _ _ _ = (_, Ok ?x) |- _ =>
    destruct x as [ready count]; apply topology_count in E end.
  io_inv. checks. match goal with E : bool_decide _ = false |- _ => apply bool_decide_eq_false in E end.
  eexists _, _. split; [done|]. split; [eassumption|]. cbn. unfold suspended_alone. split_and!; try done.
  - match goal with E : _ ∨ _ |- _ => destruct E as [[-> ->]|[-> ->]] end; cbn; lia.
  - apply window_bounds.
Qed.

Definition interleave_certified (layout : FreeRTOS75PortLayout) (b : Z) (r : InterleaveResult) : Prop :=
  b ∈ SUSPECT_BOUNDARIES ∧ boundary r = b
  ∧ _register_tuple (after_iret r) = _register_tuple (before_tick r)
  ∧ Z.land (r_flags (before_tick r)) 0x0200 ≠ 0
  ∧ ready_count_after_completion r = 0
  ∧ ∃ suspended, dgroup_offset (q_scheduler (p_queue layout)) "_xSuspendedTaskList" = Ok suspended
    ∧ suspended_alone (suspended_count_after_completion r) (state_container_after_completion r) suspended
                   (suspended_end_next r) (suspended_end_previous r).

Lemma setup_lists_suspended layout (m m' : machine W) ready suspended event :
  _setup_tcb_and_lists layout m = (m', Ok (ready, suspended, event)) →
  dgroup_offset (q_scheduler layout) "_xSuspendedTaskList" = Ok suspended.
Proof.
  unfold _setup_tcb_and_lists. intros E. io_inv. repeat case_match. by io_inv.
Qed.

Lemma fresh_consumer_suspended workload layout (m m' : machine W) ready suspended :
  _fresh_running_consumer workload layout m = (m', Ok (ready, suspended)) →
  dgroup_offset (q_scheduler (p_queue layout)) "_xSuspendedTaskList" = Ok suspended.
Proof.
  unfold _fresh_running_consumer. intros E. io_inv.
  match goal with E : _setup_tcb_and_lists _ _ = (_, Ok ?x) |- _ =>
    destruct x as [[ready' suspended'] event]; apply setup_lists_suspended in E end.
  by io_inv.
Qed.

Lemma complete_insertion_ok b dgroup ready suspended (m m' : machine W) count container next previous :
  complete_insertion b dgroup ready suspended m = (m', Ok (count, container, next, previous)) →
  count = 0 ∧ suspended_alone 1 container suspended next previous.
Proof. unfold complete_insertion, suspended_alone. intros E. io_inv. by checks. Qed.

Lemma run_interleave_certified workload layout b (m m' : machine W) r :
  run_interleave_case workload layout b m = (m', Ok r) → interleave_certified layout b r.
Proof.
  unfold run_interleave_case. destruct (z_in b SUSPECT_BOUNDARIES) eqn:Hb; cbn [negb]; [|done]. intros E. io_inv.
  match goal with E : _fresh_running_consumer _ _ _ = (_, Ok ?x) |- _ =>
    destruct x as [ready suspended]; apply fresh_consumer_suspended in E end.
  io_inv. match goal with E : complete_insertion _ _ _ _ _ = (_, Ok ?x) |- _ =>
    destruct x as [[[count container] next] previous]; apply complete_insertion_ok in E as (-> & Hal) end.
  io_inv. checks.
  match goal with E : bool_decide _ = true |- _ => apply bool_decide_eq_true in E end.
  match goal with E : (_ =? _) = false |- _ => apply Z.eqb_neq in E end.
  unfold interleave_certified. cbn [boundary after_iret before_tick ready_count_after_completion suspended_count_after_completion
    state_container_after_completion suspended_end_next suspended_end_previous].
  apply z_in_spec in Hb. eauto 10.
Qed.
End certified.

Section passes.
Context (read_text : string → result string) (read_octets : string → result bytes) (resolve_path : string → string).
Context {W : Type} `{Emulator W}.
Abbreviation port_layout a := (port_layout_of read_text read_octets resolve_path a).
Abbreviation fixture a topology := (fixture_of read_text read_octets resolve_path (W := W) a topology).

Lemma on_machine_ok {A} (c : io (machine W) A) r : on_machine c = Ok r → ∃ m m', c m = (m', Ok r).
Proof.
  unfold on_machine. destruct (machine_init DEFAULT_MEMORY_SIZE) as [m|]; cbn; [|done].
  destruct (c m) as [m' r'] eqn:E. cbn. intros ->. eauto.
Qed.

Lemma interleave_cases_certified workload layout bs results :
  interleave_cases (W := W) workload layout bs = Ok results → Forall2 (interleave_certified layout) bs results.
Proof.
  revert results. induction bs as [|b bs IH]; intros results; cbn [interleave_cases]; [by intros [= <-]|].
  destruct (on_machine (run_interleave_case workload layout b)) as [r|e] eqn:Hr; cbn; [|done].
  destruct (interleave_cases workload layout bs) as [l|e]; cbn; [|done]. intros [= <-].
  apply on_machine_ok in Hr as (m & m' & Hr). apply run_interleave_certified in Hr. constructor; auto.
Qed.

(** The list experiment passes only when both topologies ran the suspect window
    along the same instructions and left the task on the suspended list; the
    interleaving experiment passes only when each selected boundary is a suspect
    one, the tick there found interrupts enabled and gave every register back,
    and the insertion still completed. *)
Theorem experiments_certified a out out' code :
  (∀ trace, fixture_main read_text read_octets resolve_path (W := W) a trace out = (out', Ok code) →
   code = 0 ∧ ∃ one two, fixture a "A" = Ok one ∧ fixture a "B" = Ok two
     ∧ fixture_certified (layout_of read_text read_octets resolve_path a) "A" one
     ∧ fixture_certified (layout_of read_text read_octets resolve_path a) "B" two
     ∧ f_path one = f_path two)
  ∧ (∀ chosen, interleave_main read_text read_octets resolve_path (W := W) a chosen out = (out', Ok code) →
     code = 0 ∧ ∃ layout results, port_layout a = Ok layout
       ∧ Forall2 (interleave_certified layout) (selected_boundaries chosen) results).
Proof.
  split.
  - intros trace. unfold fixture_main. intros E. io_inv.
    match goal with E : fixture a "A" = Ok ?x, E' : fixture a "B" = Ok ?y |- _ => rename x into one, y into two, E into HA, E' into HB end.
    case_bool_decide as Hp; cbn [negb] in *; [|done]. io_inv. split; [done|]. exists one, two. split_and!; try done.
    + apply on_machine_ok in HA as (m & m' & HA). by eapply run_fixture_certified.
    + apply on_machine_ok in HB as (m & m' & HB). by eapply run_fixture_certified.
  - intros chosen. unfold interleave_main. intros E. io_inv. split; [done|]. eexists _, _. split; [eassumption|].
    eapply interleave_cases_certified. eassumption.
Qed.
End passes.

Definition sample_map : string :=
  str_join newline [" 0010:0020+ _pxCurrentTCB"; "0010:0100  _uxListRemove"; "; static xsuspendedTASKlist"]%string.
Example probe_sample :
  match from_wlink_map sample_map with
  | Ok t => (map sym_name (matching_symbols t FREERTOS75_SYMBOL_FRAGMENTS),
             length (matching_map_lines sample_map FREERTOS75_SYMBOL_FRAGMENTS),
             missing_map_evidence t (matching_map_lines sample_map FREERTOS75_SYMBOL_FRAGMENTS) REQUIRED)
  | Raise _ => ([], 0%nat, [])
  end = (["_pxCurrentTCB"; "_uxListRemove"], 3%nat, ["pxReadyTasksLists"])%string.
Proof. vm_compute. reflexivity. Qed.
Example number_formats : (hex_alt7 0x1abc, pad3 7, pad3 1234) = ("0x01abc", "  7", "1234")%string.
Proof. vm_compute. reflexivity. Qed.
