(* ===== verification/Session.v ===== *)
(** * The session: state and procedures (host/rp86/session.py)

    [persistent_monitor] keeps its state in local variables that nested
    functions share; they are the record [session], and each nested function is
    an operation on it.  This file holds the state and these functions, both for
    a process that owns the device and for one that is attached to the broker of
    the owner; [Monitor] holds the start and the loop.

    The USB interfaces, the clocks, the broker's queues, the keyboard and the
    Host's files are the class [SessionWorld].  The exchange is the one of
    [RequestChannel]: its transport service is [drain_cdc], which works on the
    whole session, so a reply may be preceded by changes that the CDC stream
    announces.  What is printed goes through [Console] to the list of writes in
    [s_console].  [fixed1] prints a latency with one decimal. *)

From S2P Require Import Prelude Struct PyText Json Protocol Core Memory Workload RuntimeState Diagnostics.
From S2P Require Import Timeout RequestChannel ServiceClient WorkloadClient Broker Console Transport Evidence Shell.
From Stdlib Require Import SpecFloat.

(** [broker_client]: the broker, the client's name and [os.getpid()] *)
Record attachment := mkAttachment { at_record : BrokerRecord; at_client : string; at_pid : Z }.

(** The arguments, and what is fixed when the session starts *)
Record config := mkConfig {
  c_timeout : Z;               (** in milliseconds, as every duration here *)
  c_interval : Z;
  c_interactive : bool;
  c_rounds : Z;
  c_processor : string;
  c_native_probe : bool;
  c_regression : option string;
  c_regression_timeout : Z;
  c_started : string;          (** [started.isoformat()] *)
  c_raw_path : string;         (** [evidence.raw_path] *)
  c_json_path : string;        (** [evidence.json_path] *)
  c_identity : document;       (** [hid_identity] *)
  c_attached : option attachment;  (** [None]: the process owns the device *)
}.

Record session (W : Type) := mkSession {
  s_world : W;  (** the outside *)
  s_config : config;  (** the arguments *)
  s_display : string;
  s_sequence : RequestSequence;
  s_observation : ProcessorObservationState;
  s_workload : WorkloadRuntimeState;
  s_manifest : option WorkloadManifest;  (** [staged_workload_manifest] *)
  s_prepared : bool;  (** [prepared_native_probe_available] *)
  s_pending : bool;  (** [workload_completion_pending] *)
  s_reported : option (Z * Z * Z);  (** [structured_result_reported] *)
  s_diagnosed : option (Z * Z * Z * Z);  (** [diagnostics_observed] *)
  s_commands : list string;  (** [regression_commands] *)
  s_deadline : option Z;  (** [regression_deadline] *)
  s_started : bool;  (** [regression_started] *)
  s_passed : option bool;  (** [regression_passed] *)
  s_next_due : Z;
  s_stop : bool;
  s_transport : option string;  (** [transport_error] *)
  s_evidence : SessionEvidence;
  s_stats : HeartbeatStats;  (** [probe_stats] *)
  s_name : string;  (** [processor_name] *)
  s_cdc : CdcDisplayStream;  (** [cdc_display] *)
  s_failed_identity : bool;  (** [identity_assertion_failed] *)
  s_cwd : string;  (** [host_cwd] *)
  s_history : CommandHistory;  (** [command_history] *)
  s_console : ConsoleStatus;  (** [console], and what is on standard output *)
  s_buffer : list Z;  (** [command_buffer]: the line being edited *)
  s_cursor : Z;  (** [command_cursor] *)
  s_starved : bool;  (** no variable of the code: a loop of the model ran out of fuel *)
}.
Arguments mkSession {W} _ _ _ _ _ _ _ _ _ _ _ _ _ _ _ _ _ _ _ _ _ _ _ _ _ _ _ _ _.
Arguments s_world {W} _.
Arguments s_config {W} _.
Arguments s_display {W} _.
Arguments s_sequence {W} _.
Arguments s_observation {W} _.
Arguments s_workload {W} _.
Arguments s_manifest {W} _.
Arguments s_prepared {W} _.
Arguments s_pending {W} _.
Arguments s_reported {W} _.
Arguments s_diagnosed {W} _.
Arguments s_commands {W} _.
Arguments s_deadline {W} _.
Arguments s_started {W} _.
Arguments s_passed {W} _.
Arguments s_next_due {W} _.
Arguments s_stop {W} _.
Arguments s_transport {W} _.
Arguments s_evidence {W} _.
Arguments s_stats {W} _.
Arguments s_name {W} _.
Arguments s_cdc {W} _.
Arguments s_failed_identity {W} _.
Arguments s_cwd {W} _.
Arguments s_history {W} _.
Arguments s_console {W} _.
Arguments s_buffer {W} _.
Arguments s_cursor {W} _.
Arguments s_starved {W} _.

Section setters.
Context {W : Type}.
Implicit Types s : session W.
Definition put_world (v : W) s : session W :=
  mkSession v (s_config s) (s_display s) (s_sequence s) (s_observation s) (s_workload s) (s_manifest s) (s_prepared s)
    (s_pending s) (s_reported s) (s_diagnosed s) (s_commands s) (s_deadline s) (s_started s) (s_passed s)
    (s_next_due s) (s_stop s) (s_transport s) (s_evidence s) (s_stats s) (s_name s) (s_cdc s) (s_failed_identity s)
    (s_cwd s) (s_history s) (s_console s) (s_buffer s) (s_cursor s) (s_starved s).
Definition put_display (v : string) s : session W :=
  mkSession (s_world s) (s_config s) v (s_sequence s) (s_observation s) (s_workload s) (s_manifest s) (s_prepared s)
    (s_pending s) (s_reported s) (s_diagnosed s) (s_commands s) (s_deadline s) (s_started s) (s_passed s)
    (s_next_due s) (s_stop s) (s_transport s) (s_evidence s) (s_stats s) (s_name s) (s_cdc s) (s_failed_identity s)
    (s_cwd s) (s_history s) (s_console s) (s_buffer s) (s_cursor s) (s_starved s).
Definition put_sequence (v : RequestSequence) s : session W :=
  mkSession (s_world s) (s_config s) (s_display s) v (s_observation s) (s_workload s) (s_manifest s) (s_prepared s)
    (s_pending s) (s_reported s) (s_diagnosed s) (s_commands s) (s_deadline s) (s_started s) (s_passed s)
    (s_next_due s) (s_stop s) (s_transport s) (s_evidence s) (s_stats s) (s_name s) (s_cdc s) (s_failed_identity s)
    (s_cwd s) (s_history s) (s_console s) (s_buffer s) (s_cursor s) (s_starved s).
Definition put_observation (v : ProcessorObservationState) s : session W :=
  mkSession (s_world s) (s_config s) (s_display s) (s_sequence s) v (s_workload s) (s_manifest s) (s_prepared s)
    (s_pending s) (s_reported s) (s_diagnosed s) (s_commands s) (s_deadline s) (s_started s) (s_passed s)
    (s_next_due s) (s_stop s) (s_transport s) (s_evidence s) (s_stats s) (s_name s) (s_cdc s) (s_failed_identity s)
    (s_cwd s) (s_history s) (s_console s) (s_buffer s) (s_cursor s) (s_starved s).
Definition put_workload (v : WorkloadRuntimeState) s : session W :=
  mkSession (s_world s) (s_config s) (s_display s) (s_sequence s) (s_observation s) v (s_manifest s) (s_prepared s)
    (s_pending s) (s_reported s) (s_diagnosed s) (s_commands s) (s_deadline s) (s_started s) (s_passed s)
    (s_next_due s) (s_stop s) (s_transport s) (s_evidence s) (s_stats s) (s_name s) (s_cdc s) (s_failed_identity s)
    (s_cwd s) (s_history s) (s_console s) (s_buffer s) (s_cursor s) (s_starved s).
Definition put_manifest (v : option WorkloadManifest) s : session W :=
  mkSession (s_world s) (s_config s) (s_display s) (s_sequence s) (s_observation s) (s_workload s) v (s_prepared s)
    (s_pending s) (s_reported s) (s_diagnosed s) (s_commands s) (s_deadline s) (s_started s) (s_passed s)
    (s_next_due s) (s_stop s) (s_transport s) (s_evidence s) (s_stats s) (s_name s) (s_cdc s) (s_failed_identity s)
    (s_cwd s) (s_history s) (s_console s) (s_buffer s) (s_cursor s) (s_starved s).
Definition put_prepared (v : bool) s : session W :=
  mkSession (s_world s) (s_config s) (s_display s) (s_sequence s) (s_observation s) (s_workload s) (s_manifest s) v
    (s_pending s) (s_reported s) (s_diagnosed s) (s_commands s) (s_deadline s) (s_started s) (s_passed s)
    (s_next_due s) (s_stop s) (s_transport s) (s_evidence s) (s_stats s) (s_name s) (s_cdc s) (s_failed_identity s)
    (s_cwd s) (s_history s) (s_console s) (s_buffer s) (s_cursor s) (s_starved s).
Definition put_pending (v : bool) s : session W :=
  mkSession (s_world s) (s_config s) (s_display s) (s_sequence s) (s_observation s) (s_workload s) (s_manifest s)
    (s_prepared s) v (s_reported s) (s_diagnosed s) (s_commands s) (s_deadline s) (s_started s) (s_passed s)
    (s_next_due s) (s_stop s) (s_transport s) (s_evidence s) (s_stats s) (s_name s) (s_cdc s) (s_failed_identity s)
    (s_cwd s) (s_history s) (s_console s) (s_buffer s) (s_cursor s) (s_starved s).
Definition put_reported (v : option (Z * Z * Z)) s : session W :=
  mkSession (s_world s) (s_config s) (s_display s) (s_sequence s) (s_observation s) (s_workload s) (s_manifest s)
    (s_prepared s) (s_pending s) v (s_diagnosed s) (s_commands s) (s_deadline s) (s_started s) (s_passed s)
    (s_next_due s) (s_stop s) (s_transport s) (s_evidence s) (s_stats s) (s_name s) (s_cdc s) (s_failed_identity s)
    (s_cwd s) (s_history s) (s_console s) (s_buffer s) (s_cursor s) (s_starved s).
Definition put_diagnosed (v : option (Z * Z * Z * Z)) s : session W :=
  mkSession (s_world s) (s_config s) (s_display s) (s_sequence s) (s_observation s) (s_workload s) (s_manifest s)
    (s_prepared s) (s_pending s) (s_reported s) v (s_commands s) (s_deadline s) (s_started s) (s_passed s)
    (s_next_due s) (s_stop s) (s_transport s) (s_evidence s) (s_stats s) (s_name s) (s_cdc s) (s_failed_identity s)
    (s_cwd s) (s_history s) (s_console s) (s_buffer s) (s_cursor s) (s_starved s).
Definition put_commands (v : list string) s : session W :=
  mkSession (s_world s) (s_config s) (s_display s) (s_sequence s) (s_observation s) (s_workload s) (s_manifest s)
    (s_prepared s) (s_pending s) (s_reported s) (s_diagnosed s) v (s_deadline s) (s_started s) (s_passed s)
    (s_next_due s) (s_stop s) (s_transport s) (s_evidence s) (s_stats s) (s_name s) (s_cdc s) (s_failed_identity s)
    (s_cwd s) (s_history s) (s_console s) (s_buffer s) (s_cursor s) (s_starved s).
Definition put_deadline (v : option Z) s : session W :=
  mkSession (s_world s) (s_config s) (s_display s) (s_sequence s) (s_observation s) (s_workload s) (s_manifest s)
    (s_prepared s) (s_pending s) (s_reported s) (s_diagnosed s) (s_commands s) v (s_started s) (s_passed s)
    (s_next_due s) (s_stop s) (s_transport s) (s_evidence s) (s_stats s) (s_name s) (s_cdc s) (s_failed_identity s)
    (s_cwd s) (s_history s) (s_console s) (s_buffer s) (s_cursor s) (s_starved s).
Definition put_started (v : bool) s : session W :=
  mkSession (s_world s) (s_config s) (s_display s) (s_sequence s) (s_observation s) (s_workload s) (s_manifest s)
    (s_prepared s) (s_pending s) (s_reported s) (s_diagnosed s) (s_commands s) (s_deadline s) v (s_passed s)
    (s_next_due s) (s_stop s) (s_transport s) (s_evidence s) (s_stats s) (s_name s) (s_cdc s) (s_failed_identity s)
    (s_cwd s) (s_history s) (s_console s) (s_buffer s) (s_cursor s) (s_starved s).
Definition put_passed (v : option bool) s : session W :=
  mkSession (s_world s) (s_config s) (s_display s) (s_sequence s) (s_observation s) (s_workload s) (s_manifest s)
    (s_prepared s) (s_pending s) (s_reported s) (s_diagnosed s) (s_commands s) (s_deadline s) (s_started s) v
    (s_next_due s) (s_stop s) (s_transport s) (s_evidence s) (s_stats s) (s_name s) (s_cdc s) (s_failed_identity s)
    (s_cwd s) (s_history s) (s_console s) (s_buffer s) (s_cursor s) (s_starved s).
Definition put_next_due (v : Z) s : session W :=
  mkSession (s_world s) (s_config s) (s_display s) (s_sequence s) (s_observation s) (s_workload s) (s_manifest s)
    (s_prepared s) (s_pending s) (s_reported s) (s_diagnosed s) (s_commands s) (s_deadline s) (s_started s)
    (s_passed s) v (s_stop s) (s_transport s) (s_evidence s) (s_stats s) (s_name s) (s_cdc s) (s_failed_identity s)
    (s_cwd s) (s_history s) (s_console s) (s_buffer s) (s_cursor s) (s_starved s).
Definition put_stop (v : bool) s : session W :=
  mkSession (s_world s) (s_config s) (s_display s) (s_sequence s) (s_observation s) (s_workload s) (s_manifest s)
    (s_prepared s) (s_pending s) (s_reported s) (s_diagnosed s) (s_commands s) (s_deadline s) (s_started s)
    (s_passed s) (s_next_due s) v (s_transport s) (s_evidence s) (s_stats s) (s_name s) (s_cdc s)
    (s_failed_identity s) (s_cwd s) (s_history s) (s_console s) (s_buffer s) (s_cursor s) (s_starved s).
Definition put_transport (v : option string) s : session W :=
  mkSession (s_world s) (s_config s) (s_display s) (s_sequence s) (s_observation s) (s_workload s) (s_manifest s)
    (s_prepared s) (s_pending s) (s_reported s) (s_diagnosed s) (s_commands s) (s_deadline s) (s_started s)
    (s_passed s) (s_next_due s) (s_stop s) v (s_evidence s) (s_stats s) (s_name s) (s_cdc s) (s_failed_identity s)
    (s_cwd s) (s_history s) (s_console s) (s_buffer s) (s_cursor s) (s_starved s).
Definition put_evidence (v : SessionEvidence) s : session W :=
  mkSession (s_world s) (s_config s) (s_display s) (s_sequence s) (s_observation s) (s_workload s) (s_manifest s)
    (s_prepared s) (s_pending s) (s_reported s) (s_diagnosed s) (s_commands s) (s_deadline s) (s_started s)
    (s_passed s) (s_next_due s) (s_stop s) (s_transport s) v (s_stats s) (s_name s) (s_cdc s) (s_failed_identity s)
    (s_cwd s) (s_history s) (s_console s) (s_buffer s) (s_cursor s) (s_starved s).
Definition put_stats (v : HeartbeatStats) s : session W :=
  mkSession (s_world s) (s_config s) (s_display s) (s_sequence s) (s_observation s) (s_workload s) (s_manifest s)
    (s_prepared s) (s_pending s) (s_reported s) (s_diagnosed s) (s_commands s) (s_deadline s) (s_started s)
    (s_passed s) (s_next_due s) (s_stop s) (s_transport s) (s_evidence s) v (s_name s) (s_cdc s) (s_failed_identity s)
    (s_cwd s) (s_history s) (s_console s) (s_buffer s) (s_cursor s) (s_starved s).
Definition put_name (v : string) s : session W :=
  mkSession (s_world s) (s_config s) (s_display s) (s_sequence s) (s_observation s) (s_workload s) (s_manifest s)
    (s_prepared s) (s_pending s) (s_reported s) (s_diagnosed s) (s_commands s) (s_deadline s) (s_started s)
    (s_passed s) (s_next_due s) (s_stop s) (s_transport s) (s_evidence s) (s_stats s) v (s_cdc s)
    (s_failed_identity s) (s_cwd s) (s_history s) (s_console s) (s_buffer s) (s_cursor s) (s_starved s).
Definition put_cdc (v : CdcDisplayStream) s : session W :=
  mkSession (s_world s) (s_config s) (s_display s) (s_sequence s) (s_observation s) (s_workload s) (s_manifest s)
    (s_prepared s) (s_pending s) (s_reported s) (s_diagnosed s) (s_commands s) (s_deadline s) (s_started s)
    (s_passed s) (s_next_due s) (s_stop s) (s_transport s) (s_evidence s) (s_stats s) (s_name s) v
    (s_failed_identity s) (s_cwd s) (s_history s) (s_console s) (s_buffer s) (s_cursor s) (s_starved s).
Definition put_failed_identity (v : bool) s : session W :=
  mkSession (s_world s) (s_config s) (s_display s) (s_sequence s) (s_observation s) (s_workload s) (s_manifest s)
    (s_prepared s) (s_pending s) (s_reported s) (s_diagnosed s) (s_commands s) (s_deadline s) (s_started s)
    (s_passed s) (s_next_due s) (s_stop s) (s_transport s) (s_evidence s) (s_stats s) (s_name s) (s_cdc s) v (s_cwd s)
    (s_history s) (s_console s) (s_buffer s) (s_cursor s) (s_starved s).
Definition put_cwd (v : string) s : session W :=
  mkSession (s_world s) (s_config s) (s_display s) (s_sequence s) (s_observation s) (s_workload s) (s_manifest s)
    (s_prepared s) (s_pending s) (s_reported s) (s_diagnosed s) (s_commands s) (s_deadline s) (s_started s)
    (s_passed s) (s_next_due s) (s_stop s) (s_transport s) (s_evidence s) (s_stats s) (s_name s) (s_cdc s)
    (s_failed_identity s) v (s_history s) (s_console s) (s_buffer s) (s_cursor s) (s_starved s).
Definition put_history (v : CommandHistory) s : session W :=
  mkSession (s_world s) (s_config s) (s_display s) (s_sequence s) (s_observation s) (s_workload s) (s_manifest s)
    (s_prepared s) (s_pending s) (s_reported s) (s_diagnosed s) (s_commands s) (s_deadline s) (s_started s)
    (s_passed s) (s_next_due s) (s_stop s) (s_transport s) (s_evidence s) (s_stats s) (s_name s) (s_cdc s)
    (s_failed_identity s) (s_cwd s) v (s_console s) (s_buffer s) (s_cursor s) (s_starved s).
Definition put_console (v : ConsoleStatus) s : session W :=
  mkSession (s_world s) (s_config s) (s_display s) (s_sequence s) (s_observation s) (s_workload s) (s_manifest s)
    (s_prepared s) (s_pending s) (s_reported s) (s_diagnosed s) (s_commands s) (s_deadline s) (s_started s)
    (s_passed s) (s_next_due s) (s_stop s) (s_transport s) (s_evidence s) (s_stats s) (s_name s) (s_cdc s)
    (s_failed_identity s) (s_cwd s) (s_history s) v (s_buffer s) (s_cursor s) (s_starved s).
Definition put_buffer (v : list Z) s : session W :=
  mkSession (s_world s) (s_config s) (s_display s) (s_sequence s) (s_observation s) (s_workload s) (s_manifest s)
    (s_prepared s) (s_pending s) (s_reported s) (s_diagnosed s) (s_commands s) (s_deadline s) (s_started s)
    (s_passed s) (s_next_due s) (s_stop s) (s_transport s) (s_evidence s) (s_stats s) (s_name s) (s_cdc s)
    (s_failed_identity s) (s_cwd s) (s_history s) (s_console s) v (s_cursor s) (s_starved s).
Definition put_cursor (v : Z) s : session W :=
  mkSession (s_world s) (s_config s) (s_display s) (s_sequence s) (s_observation s) (s_workload s) (s_manifest s)
    (s_prepared s) (s_pending s) (s_reported s) (s_diagnosed s) (s_commands s) (s_deadline s) (s_started s)
    (s_passed s) (s_next_due s) (s_stop s) (s_transport s) (s_evidence s) (s_stats s) (s_name s) (s_cdc s)
    (s_failed_identity s) (s_cwd s) (s_history s) (s_console s) (s_buffer s) v (s_starved s).
Definition put_starved (v : bool) s : session W :=
  mkSession (s_world s) (s_config s) (s_display s) (s_sequence s) (s_observation s) (s_workload s) (s_manifest s)
    (s_prepared s) (s_pending s) (s_reported s) (s_diagnosed s) (s_commands s) (s_deadline s) (s_started s)
    (s_passed s) (s_next_due s) (s_stop s) (s_transport s) (s_evidence s) (s_stats s) (s_name s) (s_cdc s)
    (s_failed_identity s) (s_cwd s) (s_history s) (s_console s) (s_buffer s) (s_cursor s) v.
End setters.

(** One entry of a Host directory: [stat] may fail. *)
Record dir_entry := mkDirEntry { de_name : string; de_is_dir : bool; de_size : option Z }.

Class SessionWorld (W : Type) := {
  usb_read : Z → io W bytes;
  usb_write : bytes → io W Z;
  usb_monotonic : W → W * Z;
  usb_sleep : Z → W → W;
  relay : attachment → bytes → string → Z → io W document;  (** [broker_client.exchange] *)
  cdc_read : io W bytes;                             (** [connection.read(connection.in_waiting)] *)
  random_bits : Z → W → W * Z;
  wall_clock : W → W * string;
  broker_pending : W → W * list BrokerExchangeRequest;
  broker_control : W → W * option BrokerControlRequest;  (** [controls.get_nowait()] *)
  broker_answer : nat → document → W → W;            (** [future.set_result] *)
  broker_publish : document → W → W;
  cdc_write : bytes → io W unit;
  cdc_flush : io W unit;
  cdc_read_some : Z → io W bytes;                    (** [connection.read(n)] *)
  keyboard :: Terminal W;
  interrupted : W → W * bool;                        (** a Control-C has been delivered *)
  stdout_isatty : W → bool;
  terminal_attributes : W → list Z;                  (** [termios.tcgetattr] *)
  set_cbreak : W → W;
  set_attributes : list Z → W → W;
  owner_stop : W → W;                                (** [owner_broker.stop()] *)
  hid_close : W → W;                                 (** both closings ignore errors *)
  cdc_close : W → W;
  save_evidence : bytes → document → W → W;          (** the two files of [evidence.write] *)
  (** The Host's files; an [OSError] is its text. *)
  file_bytes : W → string → bytes + string;          (** [Path(name).read_bytes()] *)
  write_file : string → bytes → io W unit;
  resolve_path : W → string → string + string;       (** [resolve(strict=True)] *)
  path_exists : W → string → bool;
  path_is_dir : W → string → bool;
  directory_entries : W → string → list dir_entry + string;
  home_path : W → string;
  (** [pathlib] and [str.casefold] *)
  os_sep : string;
  path_text : string → string;                       (** [str(Path(name))] *)
  expanduser : string → string;
  is_absolute : string → bool;
  path_join : string → string → string;              (** [base / path] *)
  path_parent : string → string;
  path_name : string → string;
  os_expanduser : string → string;                   (** [os.path.expanduser] *)
  casefold : string → string;
  unicode :: UnicodeTable;
  rich :: RichLibrary;
  dumps_indented : document → string;                (** [json.dumps(x, indent=2)] *)
  float_repr : spec_float → string;                  (** [repr(x)] *)
  float_fixed1 : spec_float → string;                (** [x] with one decimal *)
  float_ms : json → result Z;                        (** [float(x)] of a latency, in milliseconds *)
}.

Section session.
Context (fuel : nat) (fixed1 : Z → string).
Context {W : Type} `{SessionWorld W}.
Abbreviation run := (io (session W)).

(** ** Access to the outside *)

Definition outside {A} (m : io W A) : run A := λ s,
  let '(w, r) := m (s_world s) in (put_world w s, r).
Definition outside_total {A} (m : W → W * A) : run A := outside (λ w, let '(w, a) := m w in (w, Ok a)).
Definition outside_do (f : W → W) : run unit := modify (λ s, put_world (f (s_world s)) s).
Definition when (b : bool) (m : run unit) : run unit := if b then m else mret tt.
(** A loop that takes fuel.  Running out of fuel is no outcome of the code: it is
    noted in [s_starved], and ends the run with what is no exception of Python. *)
Definition in_time {A} (m : run (option A)) : run A :=
  r ← m;
  match r with
  | Some a => mret a
  | None => _ ← modify (put_starved true); raise OutOfFuel
  end.

Definition monotonic_now : run Z := outside_total usb_monotonic.
Definition timestamp : run string := outside_total wall_clock.
Definition on_evidence {A} (m : io SessionEvidence A) : run A := λ s,
  let '(e, r) := m (s_evidence s) in (put_evidence e s, r).
Definition evidence_failure (operation reason : string) (details : document) : run unit :=
  now ← timestamp;
  modify (λ s, put_evidence (Evidence.failure now operation reason details (s_evidence s)) s).
Definition expected_processor (s : session W) : option string :=
  if String.eqb (c_processor (s_config s)) "auto" then None else Some (c_processor (s_config s)).

(** ** The console *)

Definition on_console (f : ConsoleStatus → ConsoleStatus) : run unit := modify (λ s, put_console (f (s_console s)) s).
(** [print(text)] *)
Definition console_print (text : string) : run unit := on_console (write (text +:+ newline)).
(** [console.render(...)] with the line that is being edited *)
Definition redraw : run unit := λ s,
  let '(c, r) := render (s_buffer s) (Some (s_cursor s)) (s_console s) in (put_console c s, r).
Definition print_event (text : string) : run unit :=
  _ ← on_console (λ c, write_event text (clear c));
  interactive ← gets (λ s, c_interactive (s_config s));
  when interactive redraw.
Definition update_console_runtime : run unit :=
  w ← gets s_workload;
  on_console (set_runtime (lifecycle_name w) (clock_name w) (cycles w) (processor_state w)).

Definition _broker_runtime_state (transport_error : option string) : string :=
  match transport_error with None => "OWNER_ACTIVE" | Some _ => "FAULT" end.

Definition _native_probe_unavailable (error : option string) : bool :=
  match error with Some text => str_ends "status is not OK: 4" text | None => false end.

(** ** The CDC stream *)

Definition cdc_line (line : string) : run unit :=
  _ ← (if str_starts "[WORKLOAD COMPLETED]" line then
         _ ← modify (λ s, put_workload (mark_idle (s_workload s)) s);
         _ ← modify (put_prepared false);
         _ ← modify (put_pending true);
         update_console_runtime
       else when (str_starts "[WORKLOAD FAULT]" line || str_starts "[WORKLOAD TIMEOUT]" line)
              (modify (put_pending true)));
  interactive ← gets (λ s, c_interactive (s_config s));
  display ← gets s_display;
  when (interactive && negb (String.eqb display "quiet")) (print_event line).

Fixpoint cdc_lines (lines : list string) : run unit :=
  match lines with
  | [] => mret tt
  | line :: lines => _ ← cdc_line line; cdc_lines lines
  end.

(** Attached sessions have no [connection], no [hid_device] and no [owner_broker]. *)
Definition owns (s : session W) : bool := bool_decide (c_attached (s_config s) = None).

Definition drain_cdc : run unit :=
  s ← gets (λ s, s);
  if bool_decide (is_Some (s_transport s)) || negb (owns s) then mret tt else
  catch_os_error
    (chunk ← outside cdc_read;
     when (truthy (len chunk))
       (_ ← modify (λ s, put_evidence (capture chunk (s_evidence s)) s);
        s ← gets (λ s, s);
        let '(cdc, lines) := feed chunk (s_cdc s) in
        _ ← modify (put_cdc cdc);
        cdc_lines lines))
    (λ exc, modify (put_transport (Some ("USB CDC disconnected: " +:+ exc)))).

(** ** The exchange *)

#[export] Instance session_hid : HidWorld (session W) := {|
  hid_read := λ n, outside (usb_read n);
  hid_write := λ b, outside (usb_write b);
  monotonic := λ s, let '(w, t) := usb_monotonic (s_world s) in (put_world w s, t);
  service_transport := _ ← drain_cdc; gets s_transport;
  sleep := λ ms s, put_world (usb_sleep ms (s_world s)) s;
|}.

#[export] Instance session_serial : SerialWorld (session W) := {|
  serial_write := λ b, outside (cdc_write b);
  serial_flush := outside cdc_flush;
  serial_read := λ n, outside (cdc_read_some n);
  serial_monotonic := λ s, let '(w, t) := usb_monotonic (s_world s) in (put_world w s, t);
  serial_sleep := λ ms s, put_world (usb_sleep ms (s_world s)) s;
|}.

(** The exchange through the broker of the owner *)
Definition relay_exchange (at_ : attachment) (request : Message) : run (option Message * Z * option string) :=
  began ← monotonic_now;
  catch_classes exchange_error
    (encoded ← lift (encode request);
     timeout ← gets (λ s, c_timeout (s_config s));
     response ← outside (relay at_ encoded (dec (at_pid at_) +:+ "-" +:+ dec (sequence request)) timeout);
     latency ← lift (float_ms (default (JFloat fzero) (str_get "latency_ms" response)));
     if negb (jtruthy (jget "ok" response))
     then mret (None, latency, Some (jstr_or float_repr (jget "error" response) "broker exchange failed")) else
     reply_hex ← lift (jitem "reply_hex" response);
     candidate ← lift (match bytes_fromhex (jstr float_repr reply_hex) with
                       | Some b => Ok b
                       | None => Raise (ValueError "non-hexadecimal number found in fromhex() arg")
                       end);
     expected ← gets expected_processor;
     m ← lift (validate_device_reply candidate request expected);
     mret (Some m, latency, None))
    (λ exc,
     let text := "Host broker disconnected: " +:+ exc in
     _ ← modify (put_transport (Some text));
     now ← monotonic_now;
     mret (None, now - began, Some text)).

(** The exchange over HID *)
Definition hid_exchange (request : Message) : run (option Message * Z * option string) :=
  expected ← gets expected_processor;
  timeout ← gets (λ s, c_timeout (s_config s));
  r ← in_time (exchange_hid_request fuel request timeout expected);
  _ ← when (match error r with Some text => str_starts "USB HID disconnected:" text | None => false end)
        (modify (put_transport (error r)));
  mret (reply r, latency_ms r, error r).

Definition session_exchange (request : Message) : run (option Message * Z * option string) :=
  attached ← gets (λ s, c_attached (s_config s));
  match attached with
  | Some at_ => relay_exchange at_ request
  | None => hid_exchange request
  end.

Definition defer_periodic_probe (s : session W) : session W :=
  let '(w, t) := usb_monotonic (s_world s) in
  put_next_due (t + c_interval (s_config s)) (put_world w s).

#[export] Instance session_channel : RequestExchange (session W) := {|
  exchange := session_exchange;
  on_activity := defer_periodic_probe;
|}.

(** The services use the session's request counter; the exchange does not. *)
Definition with_services {A} (m : io (client (session W)) A) : run A := λ s,
  let '(c, r) := m (mkClient s (s_sequence s)) in (put_sequence (c_sequence c) (world c), r).

(** ** The workload state *)

Definition set_observed (p : string) (o : ProcessorObservationState) : ProcessorObservationState :=
  mkObservation (o_boot_id o) (o_cpu_sequence o) (o_command_sequence o) (Some p) (connected o).

(** [PROCESSOR_NAMES[key]]; the key may be [None]. *)
Definition name_of (key : option string) : result string :=
  match key with
  | None => Raise (KeyError "None")
  | Some k => match str_get k PROCESSOR_NAMES with
              | Some n => Ok n
              | None => Raise (KeyError (py_repr k))
              end
  end.

Definition observe_diagnostics : run unit :=
  w ← gets s_workload;
  if negb (z_in (lifecycle w) [6; 7]) then modify (put_diagnosed None) else
  let key := (workload_id w, lifecycle w, cycles w, completion_reason w) in
  seen ← gets s_diagnosed;
  when (negb (bool_decide (seen = Some key)))
    (_ ← modify (put_diagnosed (Some key));
     '(diagnostic, error) ← with_services (read_diagnostics (workload_id w));
     match diagnostic with
     | Some d =>
         w ← gets s_workload;
         if (d_lifecycle d =? lifecycle w) && (d_cycles d =? cycles w) && (d_completion_reason d =? completion_reason w) then
           now ← timestamp;
           _ ← on_evidence (retain_diagnostics now d);
           text ← lift (diagnostics_format d);
           print_event text
         else evidence_failure "diagnostics" "executor changed after fault status" []
     | None =>
         _ ← evidence_failure "diagnostics" (str_or (default EmptyString error) "diagnostics unavailable") [];
         print_event ("diagnostics: " +:+ default "None"%string error)
     end).

Definition observe_identity : run unit :=
  w ← gets s_workload;
  processor ← lift (runtime_processor w);
  match processor with
  | None => mret tt
  | Some p =>
      o ← gets s_observation;
      when (negb (bool_decide (o_processor o = Some p)))
        (_ ← modify (put_observation (set_observed p o));
         name ← lift (name_of (Some p));
         _ ← modify (put_name name);
         _ ← on_console (set_processor p);
         print_event ("[PROCESSOR IDENTITY] " +:+ name +:+ " (firmware boot AAD16, retained identity)"))
  end.

Definition report_result : run unit :=
  w ← gets s_workload;
  when (structured_result w)
    (let key := (workload_id w, lifecycle w, completion_reason w) in
     reported ← gets s_reported;
     when (z_in (lifecycle w) [5; 6; 7] && negb (bool_decide (reported = Some key)))
       (_ ← print_event ("WORKLOAD RESULT: " +:+ (if passed w then "PASS" else "FAIL")
              +:+ " reason=" +:+ completion_reason_name w +:+ " cycles=" +:+ dec (cycles w)
              +:+ " processor_signature=" +:+ hex_upper 4 (processor_signature w));
        _ ← when (truthy (len (native_output w)))
              (print_event ("Native result output: " +:+ native_output_text w));
        modify (put_reported (Some key)))).

Definition accept_workload_state : run unit :=
  now ← timestamp;
  w ← gets s_workload;
  _ ← on_evidence (observe_workload now w);
  _ ← observe_diagnostics;
  _ ← modify (λ s, put_prepared (prepared_runtime_available (s_workload s)) s);
  _ ← observe_identity;
  _ ← report_result;
  update_console_runtime.

#[export] Instance session_host : WorkloadHost (session W) := {|
  counter := s_sequence;
  set_counter := put_sequence;
  workload_of := s_workload;
  set_workload := put_workload;
  state_changed := accept_workload_state;
|}.

(** The verbose lines of a transaction *)
Fixpoint accepted_lines (description : string) (total : Z) (index : Z) (latencies : list Z) : run unit :=
  match latencies with
  | [] => mret tt
  | latency :: latencies =>
      _ ← print_event (description +:+ ": record " +:+ dec index +:+ "/" +:+ dec total +:+ " accepted ("
                       +:+ fixed1 latency +:+ " ms)");
      accepted_lines description total (index + 1) latencies
  end.

Definition perform_workload_transaction (records : list Message) (description : string) (announce : bool) : run bool :=
  result ← transact records;
  if negb (success result) then
    _ ← evidence_failure description (str_or (default EmptyString (tr_error result)) "workload transaction failed")
          [("failed_record", jopt JInt (failed_index result)); ("record_count", JInt (count result))]%string;
    _ ← print_event (description +:+ ": FAILED at record " +:+ default "None"%string (option_map dec (failed_index result))
                     +:+ "/" +:+ dec (count result) +:+ ": " +:+ default "None"%string (tr_error result));
    mret false
  else
    display ← gets s_display;
    _ ← when (String.eqb display "verbose") (accepted_lines description (len records) 1 (latencies_ms result));
    w ← gets s_workload;
    let accepted := str_in description ["workload run"; "workload restart"; "workload stop"]%string in
    _ ← when announce
          (print_event (description +:+ ": " +:+ (if accepted then "ACCEPTED" else "PASS") +:+ " ("
             +:+ dec (len records) +:+ " records)" +:+ newline +:+ "  workload_id=" +:+ dec (workload_id w)
             +:+ " state=" +:+ lifecycle_name w +:+ " detail=" +:+ dec (detail w) +:+ " clock=" +:+ clock_name w
             +:+ " cycles=" +:+ dec (cycles w) +:+ " processor=" +:+ processor_state w));
    mret true.

(** ** The prepared runtime *)

Definition heartbeat_request (seq : Z) : run Message :=
  nonce ← outside_total (random_bits 64);
  p ← lift (heartbeat_payload seq nonce);
  mret (request_message TYPE_HEARTBEAT seq p).

Definition ensure_prepared_runtime_initialized : run bool :=
  w ← gets s_workload;
  o ← gets s_observation;
  if has_bit (processor_flags w) PROCESSOR_FLAG_PREPARED_RUNTIME_INITIALIZED && bool_decide (is_Some (o_processor o))
  then mret true else
  seq ← gets (λ s, value (s_sequence s));
  request ← heartbeat_request seq;
  '(reply, latency, error) ← session_exchange request;
  match reply with
  | None =>
      if _native_probe_unavailable error then
        _ ← modify (put_prepared false);
        _ ← modify (λ s, put_observation (mark_disconnected (s_observation s)) s);
        _ ← update_console_runtime;
        _ ← print_event ("[NATIVE PROBE SUSPENDED] prepared responder did not "
                         +:+ "complete; workload control remains available");
        mret false
      else
        _ ← print_event ("processor identity probe: FAILED: " +:+ default "None"%string error);
        mret false
  | Some r =>
      match witness_decode (payload r) with
      | Raise (ValueError exc) =>
          _ ← print_event ("processor identity probe: invalid native proof: " +:+ exc);
          mret false
      | Raise e => raise e
      | Ok witness =>
          _ ← modify (λ s, put_sequence (advance_after seq (s_sequence s)) s);
          _ ← modify (λ s, put_observation (accept_witness witness (s_observation s)) s);
          name ← lift (name_of (witness_processor witness));
          _ ← modify (put_name name);
          _ ← on_console (set_processor (default EmptyString (witness_processor witness)));
          _ ← modify (λ s, put_stats (stats_accept (float_of_Z latency) (s_stats s)) s);
          _ ← modify (λ s, put_workload (mark_prepared_runtime_initialized (s_workload s)) s);
          _ ← modify (put_prepared true);
          _ ← modify defer_periodic_probe;
          _ ← print_event ("processor identity probe: PASS (" +:+ name +:+ ", boot_id=" +:+ dec (boot_id witness)
                           +:+ ", cpu_seq=" +:+ dec (cpu_sequence witness) +:+ ")");
          mret true
      end
  end.

(** ** The broker's clients *)

Definition broker_snapshot (s : session W) : document :=
  let d := snapshot_as_dict (mkSnapshot (_broker_runtime_state (s_transport s)) (c_processor (s_config s))
             (value (s_sequence s)) (s_observation s) (s_workload s)) in
  d ++ [("probe_completed", JInt (completed (s_stats s))); ("probe_lost", JInt (lost (s_stats s)));
        ("probe_last_ms", JFloat (last_ms (s_stats s)))]%string.

Definition workload_types : list Z :=
  [TYPE_WORKLOAD_BEGIN; TYPE_WORKLOAD_DATA; TYPE_WORKLOAD_COMMIT; TYPE_WORKLOAD_CONTROL].

(** The result that goes into the future of one exchange *)
Definition serve_exchange (record : bytes) : run document := λ s,
  let body : run document :=
    request ← lift (decode record);
    '(reply, latency, error) ← session_exchange request;
    match reply with
    | None => mret [("ok", JBool false); ("error", jopt JStr error); ("latency_ms", JFloat (float_of_Z latency))]%string
    | Some r =>
        _ ← when (z_in (message_type request) workload_types)
              (w ← gets s_workload;
               w ← lift (update_from_payload (payload r) w);
               _ ← modify (put_workload w);
               _ ← modify (λ s, put_sequence (advance_after (sequence request) (s_sequence s)) s);
               _ ← modify (λ s, put_prepared (prepared_runtime_available (s_workload s)) s);
               accept_workload_state);
        encoded ← lift (encode r);
        mret [("ok", JBool true); ("reply_hex", JStr (bytes_hex encoded)); ("latency_ms", JFloat (float_of_Z latency))]%string
    end in
  match body s with
  | (s, Raise (ValueError exc)) | (s, Raise (RuntimeError exc)) =>
      (s, Ok [("ok", JBool false); ("error", JStr exc); ("latency_ms", JFloat fzero)]%string)
  | r => r
  end.

Fixpoint serve_exchanges (requests : list BrokerExchangeRequest) : run unit :=
  match requests with
  | [] => mret tt
  | r :: requests =>
      d ← serve_exchange (x_record r);
      _ ← outside_do (broker_answer (x_future r) d);
      serve_exchanges requests
  end.

(** One control: the evidence, and whether the runtime is leaving *)
Definition serve_control (c : BrokerControlRequest) : run (bytes * bool) :=
  seq ← gets (λ s, value (s_sequence s));
  if String.eqb (c_command c) "status" then
    e ← in_time (send_status_request fuel (Broker.c_timeout c)); mret (e, false)
  else if String.eqb (c_command c) "bootloader" then
    _ ← in_time (exchange_hid_runtime_control fuel RUNTIME_CONTROL_ENTER_BOOTLOADER seq (Broker.c_timeout c));
    mret ([], true)
  else if String.eqb (c_command c) "reboot" then
    _ ← in_time (exchange_hid_runtime_control fuel RUNTIME_CONTROL_REBOOT seq (Broker.c_timeout c));
    mret ([], true)
  else raise (RuntimeError ("unsupported CDC control: " +:+ c_command c)).

(** The body of the loop over the controls *)
Definition control_served (c : BrokerControlRequest) : run unit :=
  '(d, leaving) ← catch_classes os_runtime_error
     ('(e, leaving) ← serve_control c;
      _ ← modify (λ s, put_evidence (capture e (s_evidence s)) s);
      mret ([("ok", JBool true); ("evidence_hex", JStr (bytes_hex e))]%string, leaving))
     (λ exc, mret ([("ok", JBool false); ("error", JStr exc)]%string, false));
  _ ← outside_do (broker_answer (c_future c) d);
  when leaving (_ ← outside_do (usb_sleep 50); modify (put_stop true)).

(** [while True: get_nowait()]: clients may go on queueing, so the loop takes fuel. *)
Fixpoint serve_controls (n : nat) : run (option unit) :=
  match n with
  | O => mret None
  | S n =>
      request ← outside_total broker_control;
      match request with
      | None => mret (Some tt)
      | Some c => _ ← control_served c; serve_controls n
      end
  end.

Definition publish_snapshot : run unit :=
  s ← gets (λ s, s);
  when (owns s) (outside_do (broker_publish (broker_snapshot s))).

Definition service_broker_requests : run unit :=
  owner ← gets owns;
  when (owner : bool)
    (requests ← outside_total broker_pending;
     _ ← serve_exchanges requests;
     _ ← in_time (serve_controls fuel);
     publish_snapshot).
End session.
