(* ===== verification/Commands.v ===== *)
(** * The session's commands (host/rp86/session.py)

    One definition per branch of the command chain in [persistent_monitor].
    [Continue] is the [continue] statement; [Proceed] goes on to the native
    request part of the turn, with the request the command asks for, if any.
    Paths are texts; [pathlib] is part of [SessionWorld]. *)

From S2P Require Import Prelude Struct PyText Json Protocol Core Memory Mailbox Workload RuntimeState Diagnostics.
From S2P Require Import Timeout Filesystem RequestChannel ServiceClient WorkloadClient Broker Console Transport Evidence Shell.
From S2P Require Import Session.
From Stdlib Require Import SpecFloat Ascii.

Inductive after := Continue | Proceed (request : option (Z * bytes)).

(** ** Texts *)

(** [f"{s:>n}"] *)
Definition rjust (n : nat) (s : string) : string :=
  String.string_of_list_ascii (replicate (n - String.length s) " "%char) +:+ s.

Definition lines_of (l : list string) : string := str_join newline l.

(** [b.hex(" ")] *)
Definition hex_spaced (b : bytes) : string := str_join " " (map hex_of_byte b).

(** Strict decoding succeeds where replacement changes nothing. *)
Definition utf8_valid (b : bytes) : bool := bool_decide (encode_utf8 (decode_utf8_replace b) = b).

Definition internal_sram_line : string := "  Memory     INTERNAL SRAM 00000-3FFFF 256 KiB".

(** The middle dot of the status text, in UTF-8 *)
Definition middle_dot : string := of_octets [Byte.xc2; Byte.xb7].

Definition _format_runtime_top (processor_name : string) (processor_identified : bool) (w : WorkloadRuntimeState)
    (manifest : option WorkloadManifest) : string :=
  let state_name := workload_state_name (lifecycle w) in
  let workload_text :=
    if z_in (lifecycle w) [1; 2]
    then state_name +:+ " id=" +:+ dec (workload_id w) +:+ " size=" +:+ dec (detail w) +:+ " bytes"
    else state_name +:+ " id=" +:+ dec (workload_id w) +:+ " detail=" +:+ dec (detail w) in
  let clock := default (unknown (clock_mode w)) (z_get (clock_mode w) CLOCK_MODE_NAMES) in
  let processor_clock := if z_in (clock_mode w) [0; 1] then "@ 1.000 MHz"%string else "[" +:+ clock +:+ "]" in
  let execution_state := processor_execution_state (clock_mode w) (processor_flags w) in
  lines_of (["Physical processor runtime top";
     "  Processor  " +:+ processor_name +:+ " " +:+ middle_dot +:+ " " +:+ execution_state +:+ " " +:+ processor_clock;
     "  Identity   " +:+ (if processor_identified then "NATIVE AAD 16 IDENTIFIED" else "NOT PROBED");
     "  Workload   " +:+ workload_text;
     "  Clock mode " +:+ clock;
     "  Bus cycles " +:+ dec (cycles w);
     "  Processor " +:+ execution_state]%string
   ++ match manifest with
      | Some m => ["  Load       0x" +:+ hex_upper 5 (load_address m) +:+ " entry=" +:+ hex_upper 4 (entry_segment m)
                   +:+ ":" +:+ hex_upper 4 (entry_offset m)]
      | None => []
      end
   ++ [internal_sram_line; "  PSRAM      NOT AVAILABLE (optional expansion)";
       "  flash:     RP-FLASH FAT16 AVAILABLE"; "  sd:        NOT AVAILABLE"]%string).

Definition info_text : string := lines_of
  ["Negotiated capabilities:";
   "  native probe DIAGNOSTIC / PREPARED RUNTIME ONLY";
   "  console    bounded 14-byte command exchange";
   "  workload   INTERNAL SRAM GENERAL EXECUTION AVAILABLE";
   "  memory     INTERNAL SRAM read / write / load / save";
   "  mailbox    HOST / PHYSICAL PROCESSOR SHARED";
   "  filesystem RP-FLASH ls / df / cat / put";
   "  storage    flash: FAT16 AVAILABLE";
   "  sd         NOT AVAILABLE";
   "  trace      STOPPED GENERAL-EXECUTOR SNAPSHOT"]%string.

Definition timeout_asdict (t : WorkloadTimeout) : document :=
  [("timeout_ms", JInt (timeout_ms t)); ("remaining_ms", JInt (remaining_ms t));
   ("workload_id", JInt (t_workload_id t)); ("boot_id", JInt (t_boot_id t)); ("armed", JInt (armed t))]%string.

Definition upload_text (manifest : WorkloadManifest) (image : bytes) : string := lines_of
  ["Native workload upload"%string;
   "  image   " +:+ dec (len image) +:+ " bytes";
   "  address 0x" +:+ hex_upper 5 (load_address manifest);
   "  entry   " +:+ hex_upper 4 (entry_segment manifest) +:+ ":" +:+ hex_upper 4 (entry_offset manifest);
   "  clock   " +:+ (if negb (truthy (Z.land (m_flags manifest) 0x18)) then "AUTO"
                     else if truthy (Z.land (m_flags manifest) 0x08) then "FREE-RUNNING" else "CLOCK-STEPPED");
   "  CRC32   " +:+ hex_upper 8 (image_crc32 manifest)].

Definition mem_usage : string := lines_of
  ["Usage:"; "  mem read <address> [length]"; "  mem write <address> <byte>...";
   "  mem load <Host file> <address>"; "  mem save <address> <length> <Host file>"]%string.

(** [values] of [mem write] *)
Definition two_hex (token : string) : bool :=
  match ascii_list token with
  | [a; b] => bool_decide (is_Some (hex_value a)) && bool_decide (is_Some (hex_value b))
  | _ => false
  end.
Fixpoint mem_values (tokens : list string) : result (list Z) :=
  match tokens with
  | [] => Ok []
  | token :: tokens =>
      value ← py_int (if two_hex token then 16 else 0) token;
      if negb ((0 <=? value) && (value <=? 0xFF)) then Raise (ValueError ("byte out of range: " +:+ token)) else
      values ← mem_values tokens;
      Ok (value :: values)
  end.

Definition value_or_os_error (e : exn) : option string :=
  match e with OSError text | ValueError text => Some text | _ => None end.
Definition value_error_text (e : exn) : option string :=
  match e with ValueError text => Some text | _ => None end.

(** The order of a Host listing: directories first, then the folded names *)
Definition text_leb (a b : string) : bool := match String.compare a b with Gt => false | _ => true end.
Definition entry_leb (fold : string → string) (a b : dir_entry) : bool :=
  match de_is_dir a, de_is_dir b with
  | true, false => true
  | false, true => false
  | _, _ => text_leb (fold (de_name a)) (fold (de_name b))
  end.
Fixpoint insert_by {A} (leb : A → A → bool) (x : A) (l : list A) : list A :=
  match l with
  | [] => [x]
  | y :: l => if leb x y then x :: y :: l else y :: insert_by leb x l
  end.
(** [sorted]: equal elements stay in their order *)
Definition sort_by {A} (leb : A → A → bool) (l : list A) : list A := foldr (insert_by leb) [] l.

Section commands.
Context (fuel : nat) (fixed1 : Z → string).
Context {W : Type} `{SessionWorld W}.
Abbreviation run := (io (session W)).

#[local] Instance commands_channel : RequestExchange (session W) := session_channel fuel.
#[local] Instance commands_host : WorkloadHost (session W) := session_host fuel.
Abbreviation perform := (perform_workload_transaction fuel fixed1).

(** A service that loops *)
Definition service {A} (m : io (client (session W)) (option A)) : run A := in_time (with_services m).

Definition say (text : string) : run after := _ ← print_event text; mret Continue.
Definition report (text : string) : run after := _ ← print_event text; mret (Proceed None).
Definition error_text (error : option string) : string := default "None"%string error.
Definition sequence_now : run Z := gets (λ s, value (s_sequence s)).

(** ** Host paths *)

(** A drive is one ASCII letter and a colon. *)
Definition backslash : string := "\".
(** [len(path) == 2 and path[0].isalpha() and path[1] == COLON] *)
Definition is_drive (path : string) : bool :=
  match text_of path with [d; 58] => char_alpha d | _ => false end.
Definition host_list_path (path base : string) : string :=
  let path := if is_drive path then path +:+ os_sep else path in
  let result := expanduser (path_text path) in
  if negb (is_absolute result) then path_join base result else result.

Definition entry_line (e : dir_entry) : string :=
  rjust 10 (if de_is_dir e then "<DIR>"
            else match de_size e with Some n => rjust 10 (dec n) | None => "<ERR>" end) +:+ "  " +:+ de_name e.

Definition format_host_directory (path base : string) (w : W) : result string :=
  let directory := host_list_path path base in
  if negb (path_exists w directory) then Raise (ValueError ("Host path does not exist: " +:+ path)) else
  if negb (path_is_dir w directory) then Raise (ValueError ("Host path is not a directory: " +:+ path)) else
  match directory_entries w directory with
  | inr exc => Raise (ValueError ("cannot list Host directory " +:+ path +:+ ": " +:+ exc))
  | inl entries =>
      let lines := map entry_line (sort_by (entry_leb casefold) entries) in
      Ok ("Directory of Host " +:+ directory +:+ newline
          +:+ (match lines with [] => "<empty>"%string | _ => lines_of lines end))
  end.

(** [token[: n]] in characters; a negative [n] counts from the end. *)
Definition text_prefix (n : Z) (token : string) : string :=
  let t := text_of token in
  utf8_text (slice 0 (if n <? 0 then Z.max 0 (len t + n) else n) t).

(** The parent directory, the prefix of the wanted names and the text before them *)
Definition host_base (token candidate_path : string) : string * string * string :=
  if str_ends "/" token || str_ends backslash token then (candidate_path, EmptyString, token)
  else if is_drive token then (candidate_path, EmptyString, token +:+ os_sep)
  else
    let prefix := path_name candidate_path in
    (path_parent candidate_path, prefix,
     if String.eqb prefix EmptyString then token
     else text_prefix (len (text_of token) - len (text_of prefix)) token).

(** The Host candidates of [complete_shell_input] *)
Definition host_matches (w : W) (base_directory token : string) : list string :=
  let candidate_path := host_list_path (os_expanduser (str_or token ".")) base_directory in
  let '(parent, prefix, base) := host_base token candidate_path in
  let parent := if String.eqb parent EmptyString then "."%string else parent in
  let entries := match directory_entries w parent with
                 | inl entries => sort_by (λ a b, text_leb (casefold (de_name a)) (casefold (de_name b))) entries
                 | inr _ => []
                 end in
  let separator := if has_char "\" base then backslash else if has_char "/" base then "/"%string else os_sep in
  entries ≫= λ e,
    if str_starts (casefold prefix) (casefold (de_name e))
    then [base +:+ de_name e +:+ (if de_is_dir e then separator else EmptyString)] else [].

Definition read_host (path : string) : run bytes := λ s,
  (s, match file_bytes (s_world s) path with inl b => Ok b | inr exc => Raise (OSError exc) end).

(** ** The commands *)

Definition help_command (arguments : list string) : run after :=
  match command_help (head arguments) with
  | Ok text => report text
  | Raise (ValueError exc) => report exc
  | Raise e => raise e
  end.

Definition pwd_command (arguments : list string) : run after :=
  match arguments with
  | [] => cwd ← gets s_cwd; report cwd
  | _ => report "Usage: pwd"
  end.

Definition cd_command (arguments : list string) : run after :=
  if 1 <? len arguments then say "Usage: cd [<Host path>]" else
  home ← gets (λ s, home_path (s_world s));
  let requested := default home (head arguments) in
  if is_device_path requested
  then say "cd: device volumes are addressed explicitly; use flash:/ or sd:/" else
  s ← gets (λ s, s);
  match resolve_path (s_world s) (host_list_path requested (s_cwd s)) with
  | inr exc => say ("cd: " +:+ exc)
  | inl candidate =>
      if negb (path_is_dir (s_world s) candidate)
      then say ("cd: Host path is not a directory: " +:+ requested)
      else _ ← modify (put_cwd candidate); report candidate
  end.

Definition status_command : run after :=
  w ← gets s_workload;
  seq ← sequence_now;
  record ← lift (control_record "status" (workload_id w) seq);
  accepted ← perform [record] "workload status" true;
  if negb (accepted : bool) then mret Continue else
  s ← gets (λ s, s);
  say (_format_runtime_top (s_name s) (bool_decide (is_Some (o_processor (s_observation s))))
         (s_workload s) (s_manifest s)).

Definition timeout_command (arguments : list string) : run after :=
  match parse_timeout arguments with
  | Raise (ValueError exc) => say ("timeout: " +:+ exc)
  | Raise e => raise e
  | Ok timeout =>
      '(setting, error) ← with_services (execution_timeout timeout);
      match setting with
      | None =>
          _ ← evidence_failure "execution timeout" (str_or (default EmptyString error) "unavailable") [];
          report ("timeout: " +:+ error_text error)
      | Some setting =>
          let operation := if bool_decide (timeout = None) then "get"%string else "set"%string in
          _ ← modify (λ s, put_evidence (Evidence.record
                ([("event", JStr "execution_timeout"); ("operation", JStr operation)]%string
                 ++ timeout_asdict setting) (s_evidence s)) s);
          report (timeout_format setting)
      end
  end.

Definition trace_save (diagnostic : BusDiagnostics) (name : string) : run unit :=
  catch_classes (λ e, match e with OSError text => Some text | _ => None end)
    (cwd ← gets s_cwd;
     let destination := host_list_path name cwd in
     d ← lift (diagnostics_as_dict diagnostic);
     _ ← outside (write_file destination (encode_utf8 (dumps_indented d +:+ newline)));
     print_event ("trace saved: " +:+ destination))
    (λ exc, _ ← evidence_failure "trace save" exc []; print_event ("trace save: " +:+ exc)).

Definition trace_command (arguments : list string) : run after :=
  if match arguments with
     | [] => false
     | word :: _ => negb (String.eqb word "save") || negb (len arguments =? 2)
     end
  then say "usage: trace [save <host-file>]; live capture controls are unavailable" else
  '(diagnostic, error) ← with_services (read_diagnostics 0);
  match diagnostic with
  | None =>
      _ ← evidence_failure "trace" (str_or (default EmptyString error) "diagnostics unavailable") [];
      say ("trace: " +:+ error_text error)
  | Some diagnostic =>
      now ← timestamp;
      _ ← on_evidence (retain_diagnostics now diagnostic);
      text ← lift (diagnostics_format diagnostic);
      _ ← print_event text;
      _ ← match arguments with
          | [_; name] => trace_save diagnostic name
          | _ => mret tt
          end;
      mret (Proceed None)
  end.

Definition probe_command : run after :=
  seq ← sequence_now;
  nonce ← outside_total (random_bits 64);
  p ← lift (heartbeat_payload seq nonce);
  mret (Proceed (Some (TYPE_HEARTBEAT, p))).
(** [if regression_workload:] *)
Definition regression_on (s : session W) : bool :=
  match c_regression (s_config s) with Some (String _ _) => true | _ => false end.
Definition fail_regression : run unit :=
  on ← gets regression_on;
  when on (_ ← modify (put_passed (Some false)); modify (put_stop true)).

(** The [try] part of [load] *)
Definition load_source (arguments : list string) : run (Z * (WorkloadManifest * bytes * list Message)) :=
  transfer_id ← outside_total (random_bits 32);
  loaded ←
    match arguments with
    | source :: _ =>
        if is_device_path source then
          '(encoded, error) ← service (read_file fuel source);
          match encoded with
          | None => raise (ValueError (str_or (default EmptyString error) "device read failed"))
          | Some encoded => seq ← sequence_now; lift (workload_from_bytes encoded arguments transfer_id seq)
          end
        else
          s ← gets (λ s, s);
          lift (workload_from_command (file_bytes (s_world s)) path_text arguments transfer_id (value (s_sequence s)))
    | [] =>
        s ← gets (λ s, s);
        lift (workload_from_command (file_bytes (s_world s)) path_text [] transfer_id (value (s_sequence s)))
    end;
  mret (transfer_id, loaded).

(** An active processor is stopped first; the records are then numbered again.
    [None]: the stop was refused. *)
Definition load_stop (transfer_id : Z) (manifest : WorkloadManifest) (image : bytes) (records : list Message)
  : run (option (list Message)) :=
  w ← gets s_workload;
  if negb (workload_upload_requires_stop (lifecycle w)) then mret (Some records) else
  _ ← print_event "load: stopping active processor";
  seq ← sequence_now;
  record ← lift (control_record "stop" (workload_id w) seq);
  stopped ← perform [record] "workload stop" true;
  if negb (stopped : bool) then _ ← fail_regression; mret None else
  seq ← sequence_now;
  records ← lift (upload_records manifest image transfer_id seq);
  mret (Some records).

Definition load_upload (source : string) (manifest : WorkloadManifest) (records : list Message) : run unit :=
  uploaded ← perform records "workload upload" true;
  if (uploaded : bool) then
    _ ← modify (put_manifest (Some manifest));
    modify (λ s, put_evidence (bind_workload (workload_id (s_workload s)) source manifest (s_evidence s)) s)
  else fail_regression.

Definition load_command (arguments : list string) : run after :=
  loaded ← catch_classes value_error_text (l ← load_source arguments; mret (Some l))
    (λ exc,
      _ ← evidence_failure "load" exc [("source", jopt JStr (head arguments))]%string;
      _ ← print_event ("load: " +:+ exc);
      _ ← fail_regression;
      mret None);
  match loaded with
  | None => mret Continue
  | Some (transfer_id, (manifest, image, records)) =>
      _ ← print_event (upload_text manifest image);
      records ← load_stop transfer_id manifest image records;
      match records with
      | None => mret Continue
      | Some records => _ ← load_upload (default EmptyString (head arguments)) manifest records; mret Continue
      end
  end.

(** [run], [stop] and [restart] *)
Definition control_command (name : string) : run after :=
  w ← gets s_workload;
  ready ← (if str_in name ["run"; "restart"]%string
              && negb (has_bit (processor_flags w) PROCESSOR_FLAG_PREPARED_RUNTIME_INITIALIZED)
           then ensure_prepared_runtime_initialized fuel else mret true);
  if negb (ready : bool)
  then _ ← evidence_failure name "prepared runtime initialization failed" []; mret Continue else
  seq ← sequence_now;
  record ← lift (control_record name 0 seq);
  accepted ← perform [record] ("workload " +:+ name) true;
  on ← gets regression_on;
  _ ← (if on && negb accepted then _ ← modify (put_passed (Some false)); modify (put_stop true)
       else when (on && String.eqb name "run") (modify (put_started true)));
  mret Continue.

(** [send] and [calc] *)
Definition send_command (arguments : list string) : run after :=
  let text := str_join " " arguments in
  if String.eqb text EmptyString then say "Usage: send <text>" else
  match (match calculator_payload arguments with
         | Raise (ValueError _) => Ok (encode_utf8 text)
         | r => r
         end) with
  | Raise e => raise e
  | Ok p => if 14 <? len p then report "Command rejected: current native mailbox consumes at most 14 bytes"
            else mret (Proceed (Some (TYPE_COMMAND, p)))
  end.

Definition calc_command (arguments : list string) : run after :=
  match calculator_payload arguments with
  | Raise (ValueError exc) => say ("calc: " +:+ exc)
  | Raise e => raise e
  | Ok p => mret (Proceed (Some (TYPE_COMMAND, p)))
  end.

(** ** Files *)

Definition listed_line (e : ListEntry) : string :=
  rjust 10 (if directory e then "<DIR>" else rjust 10 (dec (e_size e))) +:+ "  " +:+ Filesystem.name e.

Definition ls_command (arguments : list string) : run after :=
  if 1 <? len arguments then say "Usage: ls [flash:/path|<Host path>]" else
  let path := default "flash:/"%string (head arguments) in
  if negb (is_device_path path) then
    s ← gets (λ s, s);
    match format_host_directory path (s_cwd s) (s_world s) with
    | Ok text => say text
    | Raise (ValueError exc) => say ("ls: " +:+ exc)
    | Raise e => raise e
    end
  else
    '(entries, error) ← service (read_directory fuel path);
    match entries with
    | None => say ("ls: " +:+ error_text error)
    | Some entries =>
        say ("Directory of " +:+ path +:+ newline
             +:+ (match entries with [] => "<empty>"%string | _ => lines_of (map listed_line entries) end))
    end.

Definition filesystem_names : list (Z * string) := [(1, "FAT12"); (2, "FAT16"); (3, "FAT32"); (4, "exFAT")]%string.

Definition df_text (path : string) (disk : DiskFree) : string :=
  path +:+ "  label=" +:+ str_or (label disk) "<none>" +:+ "  type="
  +:+ default (dec (filesystem_type disk)) (z_get (filesystem_type disk) filesystem_names) +:+ newline
  +:+ "  total=" +:+ dec (total_kib disk) +:+ " KiB  used=" +:+ dec (total_kib disk - free_kib disk)
  +:+ " KiB  free=" +:+ dec (free_kib disk) +:+ " KiB" +:+ newline
  +:+ "  cluster=" +:+ dec (cluster_bytes disk) +:+ " bytes  erase=" +:+ dec (erase_bytes disk) +:+ " bytes".

Definition df_command (arguments : list string) : run after :=
  if 1 <? len arguments then say "Usage: df [flash:]" else
  let path := default "flash:"%string (head arguments) in
  seq ← sequence_now;
  match df_request path seq with
  | Raise (ValueError exc) => say ("df: " +:+ exc)
  | Raise e => raise e
  | Ok request =>
      '(reply, error) ← with_services (filesystem_request request);
      match reply with
      | None => say ("df: " +:+ error_text error)
      | Some reply =>
          match parse_df reply request with
          | Raise (ValueError exc) => say ("df: invalid device reply: " +:+ exc)
          | Raise e => raise e
          | Ok disk => say (df_text path disk)
          end
      end
  end.

Definition cat_text (content : bytes) : string :=
  let rendered := if utf8_valid content then of_octets content
                  else "Binary data (hex):" +:+ newline +:+ hex_spaced content in
  str_or rendered "<empty>".

Definition cat_command (arguments : list string) : run after :=
  match arguments with
  | [path] =>
      '(content, error) ← service (read_file fuel path);
      match content with
      | None => say ("cat: " +:+ error_text error)
      | Some content => say (cat_text content)
      end
  | _ => say "Usage: cat <flash:/file>"
  end.

(** The records of [put]: the text that reports the first failure, if any *)
Fixpoint put_records (total index : Z) (records : list Message) : run bool :=
  match records with
  | [] => mret true
  | record :: records =>
      '(_, failed) ← with_services (filesystem_request record);
      match failed with
      | Some failed =>
          _ ← print_event ("put: FAILED at record " +:+ dec index +:+ "/" +:+ dec total +:+ ": " +:+ failed);
          mret false
      | None => put_records total (index + 1) records
      end
  end.

Definition put_usage : string := lines_of
  ["Usage: put <host-file> <flash:/path>"; "Example: put README.md flash:/README.TXT"]%string.

Definition put_command (arguments : list string) : run after :=
  match arguments with
  | [source; target] =>
      cwd ← gets s_cwd;
      let host_path := host_list_path source cwd in
      prepared ← catch_classes value_or_os_error
        (content ← read_host host_path;
         transfer ← outside_total (random_bits 32);
         seq ← sequence_now;
         records ← lift (write_records target content transfer seq);
         mret (Some (content, records)))
        (λ exc, _ ← print_event (lines_of ["put: " +:+ exc; "Use an existing Host file, for example:"%string;
                                           "  put README.md flash:/README.TXT"%string]);
                mret None);
      match prepared with
      | None => mret Continue
      | Some (content, records) =>
          passed ← put_records (len records) 1 records;
          _ ← when passed (print_event ("put: PASS  " +:+ host_path +:+ " -> " +:+ target +:+ "  ("
                +:+ dec (len content) +:+ " bytes, " +:+ dec (len records) +:+ " records)"));
          mret Continue
      end
  | _ => say put_usage
  end.
(** ** Memory *)

Definition mem_read (words : list string) : run unit :=
  match words with
  | a :: rest =>
      address ← lift (py_int 0 a);
      length ← lift (match rest with l :: _ => py_int 0 l | [] => Ok 16 end);
      if length <=? 0 then raise (ValueError "length must be positive") else
      '(content, error) ← service (read_memory fuel address length);
      print_event (match content with
                   | None => "mem read: " +:+ error_text error
                   | Some content => format_memory_dump address content
                   end)
  | [] => mret tt
  end.

Definition mem_write (a : string) (tokens : list string) : run unit :=
  address ← lift (py_int 0 a);
  values ← lift (mem_values tokens);
  let data := map byte.of_Z values in
  error ← with_services (write_memory address data);
  print_event (match error with
               | Some (String _ _ as e) => "mem write: " +:+ e
               | _ => "mem write: PASS  " +:+ dec (len data) +:+ " bytes at 0x" +:+ hex_upper 5 address
               end).

Definition mem_load (file a : string) : run unit :=
  cwd ← gets s_cwd;
  let source := host_list_path file cwd in
  address ← lift (py_int 0 a);
  data ← read_host source;
  error ← with_services (write_memory address data);
  print_event (match error with
               | Some (String _ _ as e) => "mem load: " +:+ e
               | _ => "mem load: PASS  " +:+ source +:+ " -> 0x" +:+ hex_upper 5 address
                      +:+ " (" +:+ dec (len data) +:+ " bytes)"
               end).

Definition mem_save (a l file : string) : run unit :=
  address ← lift (py_int 0 a);
  length ← lift (py_int 0 l);
  cwd ← gets s_cwd;
  let destination := host_list_path file cwd in
  '(content, error) ← service (read_memory fuel address length);
  match content with
  | None => print_event ("mem save: " +:+ error_text error)
  | Some content =>
      _ ← outside (write_file destination content);
      print_event ("mem save: PASS  0x" +:+ hex_upper 5 address +:+ "+" +:+ dec length +:+ " -> " +:+ destination)
  end.

Definition mem_operation (operation : string) (words : list string) : run unit :=
  if String.eqb operation "read" && z_in (len words) [1; 2] then mem_read words else
  match words with
  | a :: (_ :: _ as tokens) =>
      if String.eqb operation "write" then mem_write a tokens else
      match tokens with
      | [b] => if String.eqb operation "load" then mem_load a b
               else raise (ValueError "arguments do not match the selected operation")
      | [b; c] => if String.eqb operation "save" then mem_save a b c
                  else raise (ValueError "arguments do not match the selected operation")
      | _ => raise (ValueError "arguments do not match the selected operation")
      end
  | _ => raise (ValueError "arguments do not match the selected operation")
  end.

Definition mem_command (arguments : list string) : run after :=
  match arguments with
  | operation :: words =>
      if negb (str_in operation ["read"; "write"; "load"; "save"]%string) then say mem_usage else
      _ ← catch_classes value_or_os_error (mem_operation operation words)
            (λ exc, print_event ("mem " +:+ operation +:+ ": " +:+ exc));
      mret Continue
  | [] => say mem_usage
  end.

(** ** The mailbox *)

(** The commit records: the last [failed] *)
Fixpoint mailbox_send (records : list Message) : run (option string) :=
  match records with
  | [] => mret None
  | record :: records =>
      '(reply, failed) ← with_services (memory_request record);
      match reply with
      | None => mret failed
      | Some _ => match records with [] => mret failed | _ => mailbox_send records end
      end
  end.

(** The polling loop: the header of the answer, or the failure that ended it *)
Fixpoint mailbox_poll (turns : nat) (deadline generation : Z) (failed : option string)
  : run (option (option MailboxHeader * option string)) :=
  match turns with
  | O => mret None
  | S turns =>
      now ← monotonic_now;
      if negb (now <? deadline) then mret (Some (None, failed)) else
      '(raw, failed) ← service (read_memory fuel MAILBOX_BASE 32);
      match raw with
      | None => mret (Some (None, failed))
      | Some raw =>
          match mailbox_decode raw with
          | Raise (ValueError exc) => mret (Some (None, Some exc))
          | Raise e => raise e
          | Ok candidate =>
              if (mb_owner candidate =? 1) && (mb_generation candidate =? generation)
              then mret (Some (Some candidate, failed))
              else _ ← outside_do (usb_sleep 10); mailbox_poll turns deadline generation failed
          end
      end
  end.

(** After the commit *)
Definition mailbox_wait (generation : Z) : run (option (option MailboxHeader * option string)) :=
  now ← monotonic_now;
  timeout ← gets (λ s, c_timeout (s_config s));
  mailbox_poll fuel (now + timeout) generation None.
Definition mailbox_answer (generation : Z) : run string :=
  '(header, failed) ← in_time (mailbox_wait generation);
  match header with
  | None => mret ("mailbox: " +:+ str_or (default EmptyString failed) "processor response timeout")
  | Some header =>
      if negb (mb_status header =? 3)
      then mret ("mailbox: processor returned status=" +:+ dec (mb_status header)) else
      '(result, failed) ← service (read_memory fuel (MAILBOX_BASE + 32) (response_length header));
      match result with
      | None => mret ("mailbox: " +:+ error_text failed)
      | Some result => mret ("mailbox: PASS generation=" +:+ dec generation
                             +:+ " processor=" +:+ decode_utf8_replace result)
      end
  end.

Definition mailbox_exchange (request_data : bytes) : run string :=
  '(raw, error) ← service (read_memory fuel MAILBOX_BASE 32);
  match raw with
  | None => mret ("mailbox: " +:+ error_text error)
  | Some raw =>
      match mailbox_decode raw with
      | Raise (ValueError exc) => mret ("mailbox: " +:+ exc)
      | Raise e => raise e
      | Ok header =>
          if negb (mb_owner header =? 1) then
            mret ("mailbox: busy (owner=" +:+ dec (mb_owner header) +:+ ", generation="
                  +:+ dec (mb_generation header) +:+ ")") else
          let generation := next_seq (mb_generation header) in
          seq ← sequence_now;
          match mailbox_commit_records request_data generation seq with
          | Raise (ValueError exc) => mret ("mailbox: " +:+ exc)
          | Raise e => raise e
          | Ok records =>
              failed ← mailbox_send records;
              match failed with
              | Some failed => mret ("mailbox: " +:+ failed)
              | None => mailbox_answer generation
              end
          end
      end
  end.

Definition mailbox_command (arguments : list string) : run after :=
  match arguments with
  | [] => say "Usage: mailbox <text>"
  | _ =>
      let request_data := encode_utf8 (str_join " " arguments) in
      if MAILBOX_DATA_SIZE <? len request_data
      then say ("mailbox: request exceeds " +:+ dec MAILBOX_DATA_SIZE +:+ " bytes")
      else text ← mailbox_exchange request_data; say text
  end.

(** ** The chain *)

Definition quiet_command : run after :=
  _ ← modify (put_display "quiet"); report "Runtime display: quiet (errors and command results only)".
Definition verbose_command : run after := _ ← modify (put_display "verbose"); report "Runtime display: verbose".
Definition console_text : string :=
  "Console is active. Use: send <text>" +:+ newline +:+ "Current native mailbox payload limit: 14 bytes".

Definition perform_command (command : ShellCommand) : run after :=
  let name := Shell.name (spec command) in
  let arguments := Shell.arguments command in
  if String.eqb name "quit" then _ ← modify (put_stop true); mret Continue
  else if String.eqb name "help" then help_command arguments
  else if String.eqb name "pwd" then pwd_command arguments
  else if String.eqb name "cd" then cd_command arguments
  else if str_in name ["status"; "top"]%string then status_command
  else if String.eqb name "info" then report info_text
  else if String.eqb name "timeout" then timeout_command arguments
  else if String.eqb name "trace" then trace_command arguments
  else if String.eqb name "quiet" then quiet_command
  else if String.eqb name "verbose" then verbose_command
  else if String.eqb name "probe" then probe_command
  else if String.eqb name "load" then load_command arguments
  else if str_in name ["run"; "stop"; "restart"]%string then control_command name
  else if String.eqb name "console" then report console_text
  else if String.eqb name "send" then send_command arguments
  else if String.eqb name "calc" then calc_command arguments
  else if String.eqb name "ls" then ls_command arguments
  else if String.eqb name "df" then df_command arguments
  else if String.eqb name "cat" then cat_command arguments
  else if String.eqb name "put" then put_command arguments
  else if String.eqb name "mem" then mem_command arguments
  else if String.eqb name "mailbox" then mailbox_command arguments
  else report (unavailable_message command).

(** A line: it is remembered, parsed and performed. *)
Definition perform_line (line : string) : run after :=
  _ ← modify (λ s, put_history (remember line (s_history s)) s);
  match parse_command line with
  | Raise (ValueError exc) => say exc
  | Raise e => raise e
  | Ok None => mret Continue
  | Ok (Some command) => perform_command command
  end.
End commands.
