(* ===== verification/Monitor.v ===== *)
(** * The session: startup, loop and verdict (host/rp86/session.py)

    [session_start] opens the devices, or attaches to the broker of the process
    that owns them.  [persistent_monitor] starts from its state, asks the device
    for its status, runs turns until the session stops and then closes:
    it writes the evidence and returns the exit code.  A turn serves the broker
    and the CDC stream, follows a regression, performs a command and sends a
    native request.  [None] is a session that still runs after the given number
    of turns.  An interactive session reads its commands from the line editor of
    [Console], with the history and the completion of [Shell]; a Control-C is
    seen when the session looks at the keyboard.

    The theorems show what a passing exit code certifies, that the exit code
    and the written summary agree, and that a regression run ends. *)

From S2P Require Import Prelude Struct PyText Json Protocol Core Memory Mailbox Workload RuntimeState Diagnostics.
From S2P Require Import Timeout Filesystem RequestChannel ServiceClient WorkloadClient Broker Console Transport Evidence Shell.
From S2P Require Import Session Commands.
From Stdlib Require Import SpecFloat.

Definition set_connected (o : ProcessorObservationState) : ProcessorObservationState :=
  mkObservation (o_boot_id o) (o_cpu_sequence o) (o_command_sequence o) (o_processor o) true.

Definition count_lost (s : HeartbeatStats) : HeartbeatStats :=
  mkStats (completed s) (lost s + 1) (last_ms s) (minimum_ms s) (maximum_ms s) (total_ms s).

(** The event that was recorded last is still the caller's object. *)
Definition update_event (f : document → document) (e : SessionEvidence) : SessionEvidence :=
  mkEvidence (captured e) (alter f (pred (length (events e))) (events e)) (workload_results e) (errors e)
    (bus_diagnostics e) (_image e) (_image_workload_id e) (_last_terminal e).
Definition witness_fields (w : NativeServiceWitness) (d : document) : document :=
  jset "native_processor" (jopt JStr (witness_processor w))
    (jset "command_sequence" (JInt (command_sequence w))
      (jset "cpu_sequence" (JInt (cpu_sequence w)) (jset "boot_id" (JInt (boot_id w)) d)))%string.

(** The completion counter of a witness did not advance. *)
Definition stale_witness (o : ProcessorObservationState) (w : NativeServiceWitness) : option string :=
  match o_cpu_sequence o with
  | Some previous =>
      if bool_decide (witness_processor w = o_processor o) && bool_decide (o_boot_id o = Some (boot_id w)) then
        let delta := mask32 (cpu_sequence w - previous) in
        if (delta =? 0) || (0x80000000 <=? delta)
        then Some ("stale native completion counter: " +:+ dec (cpu_sequence w) +:+ " after " +:+ dec previous)
        else None
      else None
  | None => None
  end.

(** What happens outside before the session runs *)
Class SessionOpening (W : Type) := {
  opening_usb :: UsbHost W;
  process_id : W → Z;
  started_now : W → W * (string * string);           (** [datetime.now()]: ISO format and time stamp *)
  make_directory : string → io W unit;               (** [mkdir(parents=True, exist_ok=True)] *)
  discover_records : io W (list BrokerRecord);       (** [discover_brokers()] *)
  broker_hello : attachment → io W document;         (** [broker_client.hello()] *)
  owner_start : string → string → io W unit;         (** [DeviceBroker(device_id, processor)], [start()] *)
  open_cdc : string → io W unit;                     (** [serial.Serial(port, ...)] *)
  raise_dtr : io W unit;
  close_cdc : io W unit;                             (** [connection.close()] *)
}.

Section monitor.
Context (fuel : nat) (fixed1 : Z → string).
Context {W : Type} `{SessionWorld W}.
Abbreviation run := (io (session W)).
#[local] Instance monitor_channel : RequestExchange (session W) := session_channel fuel.
Abbreviation perform := (perform_workload_transaction fuel fixed1).

(** ** The native request *)

Definition on_event (f : document → document) : run unit :=
  modify (λ s, put_evidence (update_event f (s_evidence s)) s).

Definition identity_text (previous : option string) (name : string) : run string :=
  match previous with
  | None =>
      expected ← gets expected_processor;
      mret (if bool_decide (expected = None)
            then name +:+ " (native AAD 16) automatically identified"
            else name +:+ " (native AAD 16) matches Host declaration")
  | Some _ =>
      old ← lift (name_of previous);
      mret ("changed from " +:+ old +:+ " to " +:+ name +:+ " (native AAD 16)")
  end.

Definition accept_native (witness : NativeServiceWitness) : run unit :=
  previous ← gets (λ s, o_processor (s_observation s));
  _ ← modify (λ s, put_observation (accept_witness witness (s_observation s)) s);
  _ ← on_event (witness_fields witness);
  when (negb (bool_decide (witness_processor witness = previous)))
    (name ← lift (name_of (witness_processor witness));
     _ ← modify (put_name name);
     _ ← on_console (set_processor (default EmptyString (witness_processor witness)));
     text ← identity_text previous name;
     print_event ("[PROCESSOR IDENTITY] " +:+ text)).

Definition reply_text (r : Message) : run string :=
  if z_in (message_type r) [TYPE_WORKLOAD_RESULT; TYPE_WORKLOAD_STATUS] then mret "WORKLOAD REQUEST OK"%string else
  witness ← lift (witness_decode (payload r));
  if negb (ascii_only (Protocol.text witness))
  then raise (ValueError "'ascii' codec can't decode the native text") else
  let text := of_octets (Protocol.text witness) in
  processor ← gets (λ s, o_processor (s_observation s));
  mret (if bool_decide (processor = Some "intel-8086"%string) && str_starts "V30 " text
        then "8086 " +:+ str_removeprefix "V30 " text else text).

Definition native_passed (request_type seq latency : Z) (is_command : bool) (r : Message) : run unit :=
  _ ← when (request_type =? TYPE_HEARTBEAT)
        (_ ← modify (λ s, put_stats (stats_accept (float_of_Z latency) (s_stats s)) s);
         modify (λ s, put_observation (set_connected (s_observation s)) s));
  display ← gets s_display;
  when (String.eqb display "verbose" || is_command)
    (text ← reply_text r;
     print_event ("[" +:+ dec3 seq +:+ "] " +:+ text +:+ "  latency=" +:+ fixed1 latency +:+ " ms")).

Definition native_failed (request_type seq latency : Z) (is_command : bool) (error : option string) : run unit :=
  let ending := "  latency=" +:+ fixed1 latency +:+ " ms  error=" +:+ default "None"%string error in
  if (request_type =? TYPE_HEARTBEAT) && _native_probe_unavailable error then
    _ ← modify (put_prepared false);
    _ ← modify (λ s, put_observation (mark_disconnected (s_observation s)) s);
    _ ← on_event (jset "native_probe_unavailable" (JBool true));
    _ ← update_console_runtime;
    display ← gets s_display;
    when (String.eqb display "verbose" || is_command)
      (print_event ("[NATIVE PROBE UNAVAILABLE] prepared responder "
                    +:+ "did not complete; workload control remains available"))
  else if request_type =? TYPE_HEARTBEAT then
    _ ← modify (λ s, put_stats (count_lost (s_stats s)) s);
    _ ← modify (λ s, put_observation (mark_disconnected (s_observation s)) s);
    name ← gets s_name;
    print_event ("[" +:+ dec3 seq +:+ "] " +:+ name +:+ " NATIVE PROBE FAILED" +:+ ending)
  else print_event ("[" +:+ dec3 seq +:+ "] HOST REQUEST FAILED" +:+ ending).

Definition native_event (request_type seq latency : Z) (reply : option Message) (error : option string) : document :=
  [("sequence", JInt seq); ("request_type", JInt request_type); ("latency_ms", JFloat (float_of_Z latency));
   ("passed", JBool (bool_decide (is_Some reply))); ("error", jopt JStr error)]%string.

Definition native_request (request_type : Z) (request_payload : bytes) (is_command : bool) : run unit :=
  seq ← gets (λ s, value (s_sequence s));
  '(reply, latency, error) ← session_exchange fuel (request_message request_type seq request_payload);
  _ ← modify (λ s, put_evidence (Evidence.record (native_event request_type seq latency reply error) (s_evidence s)) s);
  _ ← match reply with
      | None => native_failed request_type seq latency is_command error
      | Some r =>
          witness ← lift (witness_decode (payload r));
          observation ← gets s_observation;
          match stale_witness observation witness with
          | Some stale => native_failed request_type seq latency is_command (Some stale)
          | None => _ ← accept_native witness; native_passed request_type seq latency is_command r
          end
      end;
  interactive ← gets (λ s, c_interactive (s_config s));
  _ ← when interactive redraw;
  _ ← modify (λ s, put_sequence (advance_after (value (s_sequence s)) (s_sequence s)) s);
  _ ← modify defer_periodic_probe;
  publish_snapshot.

(** The part of a turn after the command *)
Definition native_part (asked : option (Z * bytes)) : run unit :=
  now ← monotonic_now;
  s ← gets (λ s, s);
  match asked with
  | Some (request_type, p) => native_request request_type p true
  | None =>
      if (s_next_due s <=? now) && c_native_probe (s_config s) && s_prepared s then
        nonce ← outside_total (random_bits 64);
        p ← lift (heartbeat_payload (value (s_sequence s)) nonce);
        native_request TYPE_HEARTBEAT p false
      else
        _ ← when (s_next_due s <=? now) (modify (put_next_due (now + c_interval (s_config s))));
        outside_do (usb_sleep 20)
  end.

(** ** The regression *)

Definition status_transaction (workload : Z) (description : string) (announce : bool) : run bool :=
  seq ← gets (λ s, value (s_sequence s));
  record ← lift (control_record "status" workload seq);
  perform [record] description announce.

Definition refresh (description : string) : run unit :=
  id ← gets (λ s, workload_id (s_workload s));
  _ ← status_transaction id description false;
  mret tt.

Definition end_regression (passed : bool) (reason : option string) (text : string) : run bool :=
  _ ← modify (put_passed (Some passed));
  _ ← match reason with
      | Some reason => evidence_failure "physical regression" reason []
      | None => mret tt
      end;
  _ ← print_event ("PHYSICAL REGRESSION: " +:+ text);
  _ ← modify (put_stop true);
  mret true.

(** Whether the regression ended the turn *)
Definition regression_turn : run bool :=
  s ← gets (λ s, s);
  let w := s_workload s in
  if s_started s && w_completed w then
    if physical_regression_passed w then end_regression true None "PASS"
    else end_regression false (Some (str_join "; " (regression_failure_reasons w)))
           "FAIL (invalid result, completion, or processor identity)"
  else if s_started s && z_in (lifecycle w) [6; 7] then
    end_regression false (Some (completion_reason_name w)) ("FAIL (" +:+ completion_reason_name w +:+ ")")
  else
    match s_deadline s with
    | None => mret false
    | Some deadline =>
        now ← monotonic_now;
        if deadline <=? now
        then end_regression false (Some "regression deadline expired"%string) "FAIL (timeout)"
        else mret false
    end.

(** ** The command of a turn *)

Definition remote_path (token : string) : string :=
  match split_slash (ascii_list token) with
  | Some (parent, _) => String.string_of_list_ascii parent
  | None => token +:+ "/"
  end.
Definition remote_completion_entries (token : string) : run (list (string * bool)) :=
  '(entries, error) ← service (read_directory fuel (remote_path token));
  match entries with
  | None => _ ← print_event ("completion: " +:+ default "None"%string error); mret []
  | Some entries => mret (map (λ e, (Filesystem.name e, directory e)) entries)
  end.

(** The line before the cursor is completed as far as it is unambiguous. *)
Definition complete_line : run unit :=
  s ← gets (λ s, s);
  let before_cursor := utf8_text (slice 0 (s_cursor s) (s_buffer s)) in
  let after_cursor := slice_from (s_cursor s) (s_buffer s) in
  let token := completion_token before_cursor in
  entries ← (if is_device_path token then remote_completion_entries token else mret []);
  s ← gets (λ s, s);
  let '(completed_prefix, candidates) :=
    complete_shell_input (host_matches (s_world s) (s_cwd s)) before_cursor entries in
  _ ← modify (put_buffer (text_of completed_prefix ++ after_cursor));
  _ ← modify (put_cursor (len (text_of completed_prefix)));
  _ ← modify (λ s, put_history (edit (utf8_text (s_buffer s)) (s_history s)) s);
  when (1 <? len candidates)
    (print_event ("Completions:" +:+ newline +:+ "  " +:+ str_join (newline +:+ "  ") candidates)).

Definition clear_screen : run unit :=
  _ ← on_console clear;
  tty ← gets (λ s, stdout_isatty (s_world s));
  when (tty : bool) (on_console (write (escape "[2J" +:+ escape "[H"))).

(** [command_history.move(command_buffer, history_delta)] *)
Definition browse_history (delta : Z) : run unit :=
  s ← gets (λ s, s);
  '(history, line) ← lift (move (utf8_text (s_buffer s)) delta (s_history s));
  _ ← modify (put_history history);
  _ ← modify (put_buffer (text_of line));
  modify (put_cursor (len (text_of line))).

(** What follows a look at the keyboard *)
Definition line_edited (r : terminal_result) : run unit :=
  _ ← modify (λ s, put_cursor (t_cursor r) (put_buffer (t_buffer r) s));
  _ ← when (t_clear_requested r) clear_screen;
  _ ← when (truthy (t_history_delta r)) (browse_history (t_history_delta r));
  _ ← (if t_tab_requested r then complete_line
       else when (t_changed r && bool_decide (t_command r = None) && (t_history_delta r =? 0))
              (modify (λ s, put_history (edit (utf8_text (s_buffer s)) (s_history s)) s)));
  when (t_changed r || truthy (t_history_delta r) || t_tab_requested r) redraw.

(** [None] is a Control-C. *)
Definition next_command : run (option (option string)) :=
  commands ← gets s_commands;
  match commands with
  | command :: commands => _ ← modify (put_commands commands); mret (Some (Some command))
  | [] =>
      interactive ← gets (λ s, c_interactive (s_config s));
      if negb interactive then mret (Some None) else
      interrupt ← outside_total interrupted;
      if (interrupt : bool) then mret None else
      s ← gets (λ s, s);
      r ← in_time (outside (_read_terminal_command fuel (s_buffer s) (s_cursor s)));
      _ ← line_edited r;
      mret (Some (option_map utf8_text (t_command r)))
  end.

(** ** A turn *)

Definition command_part : run unit :=
  command ← next_command;
  match command with
  | None => modify (put_stop true)
  | Some None => native_part None
  | Some (Some line) =>
      outcome ← perform_line fuel fixed1 line;
      match outcome with
      | Continue => mret tt
      | Proceed asked => native_part asked
      end
  end.

Definition follow_workload : run unit :=
  pending ← gets s_pending;
  _ ← when pending (_ ← modify (put_pending false); refresh "workload completion status");
  s ← gets (λ s, s);
  when (s_started s && negb (w_completed (s_workload s)))
    (now ← monotonic_now;
     due ← gets s_next_due;
     when (due <=? now) (refresh "workload regression status")).

Definition turn : run unit :=
  _ ← service_broker_requests fuel;
  _ ← drain_cdc;
  transport ← gets s_transport;
  match transport with
  | Some text => _ ← print_event text; modify (put_stop true)
  | None =>
      _ ← follow_workload;
      ended ← regression_turn;
      if (ended : bool) then mret tt else command_part
  end.

(** [while not stop and (rounds == 0 or completed + lost < rounds)] *)
Definition running (s : session W) : bool :=
  negb (s_stop s) && ((c_rounds (s_config s) =? 0)
                      || (completed (s_stats s) + lost (s_stats s) <? c_rounds (s_config s))).

(** [false]: still running after the turns *)
Fixpoint monitor_loop (turns : nat) : run bool :=
  on ← gets running;
  if negb (on : bool) then mret true else
  match turns with
  | O => mret false
  | S turns => _ ← turn; monitor_loop turns
  end.

(** ** The start *)

Definition report_identity (failed : bool) (declared observed : string) : run unit :=
  when failed
    (_ ← evidence_failure "processor identity assertion" ("expected " +:+ declared +:+ ", observed " +:+ observed) [];
     _ ← print_event ("processor identity assertion: FAILED: expected " +:+ declared
                      +:+ ", observed " +:+ observed);
     modify (put_stop true)).

Definition refuse_regression (refused : bool) : run unit :=
  on ← gets regression_on;
  when (on && refused)
    (_ ← evidence_failure "physical regression" "startup status or firmware processor identity unavailable" [];
     _ ← print_event ("PHYSICAL REGRESSION: FAIL "
                      +:+ "(startup status or firmware processor identity unavailable)");
     _ ← modify (put_passed (Some false));
     _ ← modify (put_commands []);
     modify (put_stop true)).

Definition banner : run unit :=
  s ← gets (λ s, s);
  if c_interactive (s_config s) then
    _ ← console_print (newline +:+ "[RP86 PHYSICAL PROCESSOR RUNTIME]");
    _ ← console_print "Host runtime shell: type help for the complete command framework.";
    _ ← console_print ("RP2350 owns transport and lifecycle; native probes are diagnostic." +:+ newline);
    _ ← console_print ("Terminal renderer: " +:+ renderer_name (s_console s) +:+ newline);
    redraw
  else
    when (regression_on s)
      (_ ← console_print (newline +:+ "[RP86 PHYSICAL REGRESSION]");
       console_print ("Workload = " +:+ default EmptyString (c_regression (s_config s)))).

Definition startup : run unit :=
  _ ← banner;
  startup_ok ← status_transaction 0 "attached runtime" true;
  _ ← when (negb startup_ok) (modify (put_prepared false));
  w ← gets s_workload;
  processor ← lift (runtime_processor w);
  expected ← gets expected_processor;
  let failed := bool_decide (is_Some expected) && negb (bool_decide (processor = expected)) in
  _ ← modify (put_failed_identity failed);
  _ ← report_identity failed (default EmptyString expected) (str_or (default EmptyString processor) "UNPROVEN");
  refuse_regression (negb startup_ok || negb (processor_identified w) || failed).

(** [posix_terminal_state]: a terminal on POSIX is read key by key. *)
Definition enter_cbreak : run (option (list Z)) :=
  s ← gets (λ s, s);
  if c_interactive (s_config s) && posix (s_world s) && isatty (s_world s)
  then _ ← outside_do set_cbreak; mret (Some (terminal_attributes (s_world s)))
  else mret None.

(** [except (OSError, RuntimeError, ...)]: what was opened is closed again. *)
Definition give_back `{SessionOpening W} (connected : bool) (e : exn) : io W document :=
  match os_runtime_error e with
  | None => raise e
  | Some _ => _ ← (if connected then close_cdc else mret tt); _ ← modify owner_stop; raise e
  end.
(** The owner's devices *)
Definition open_devices `{SessionOpening W} (port : string) (serial_number : option string) : io W document := λ w,
  match open_cdc port w with
  | (w, Raise e) => give_back false e w
  | (w, Ok _) =>
      match (_ ← raise_dtr; open_hid serial_number) w with
      | (w, Raise e) => give_back true e w
      | r => r
      end
  end.

(** [broker_client] and [hid_identity] *)
Definition open_session `{SessionOpening W} (port : string) (serial_number : option string) (processor : string)
    (record : option BrokerRecord) : io W (option attachment * document) :=
  match record with
  | Some record =>
      pid ← gets process_id;
      token ← (λ w, let '(w, t) := random_bits 32 w in (w, Ok t));
      let at_ := mkAttachment record ("pid-" +:+ dec pid +:+ "-" +:+ str_lower (hex_upper 8 token)) pid in
      hello ← broker_hello at_;
      if negb (jtruthy (jget "ok" hello))
      then raise (RuntimeError ("broker handshake failed: " +:+ jstr float_repr (jget "error" hello)))
      else mret (Some at_, [("serial", JStr (device_id record)); ("transport", JStr "localhost-broker");
                            ("tcp_port", JInt (tcp_port record)); ("udp_port", JInt (udp_port record))]%string)
  | None =>
      let device_id := str_or (default EmptyString serial_number) port in
      records ← discover_records;
      active ← lift (select_broker records (Some device_id));
      match active with
      | Some _ => raise (RuntimeError ("device " +:+ device_id +:+ " already has an active broker"))
      | None =>
          _ ← owner_start device_id processor;
          identity ← open_devices port serial_number;
          mret (None, identity)
      end
  end.

(** The arguments with what the start adds to them *)
Definition opened (started : string) (paths : string * string) (attached : option attachment) (identity : document)
    (c : config) : config :=
  mkConfig (Session.c_timeout c) (c_interval c) (c_interactive c) (c_rounds c) (c_processor c) (c_native_probe c)
    (c_regression c) (c_regression_timeout c) started paths.1 paths.2 identity attached.

(** [SessionEvidence.create(output_dir, started)] *)
Definition create_evidence `{SessionOpening W} (output_dir timestamp : string) : io W (string * string) :=
  _ ← make_directory output_dir;
  let '(raw, json) := evidence_paths timestamp in
  mret (path_join output_dir raw, path_join output_dir json).

(** The local variables at the start; [processor] may be unknown.  The last
    fields of the arguments are set here. *)
Definition session_start `{SessionOpening W} (cfg : config) (display : string) (sequence : Z) (cwd : string)
    (output_dir port : string) (serial_number : option string) (record : option BrokerRecord) : io W (session W) :=
  _ ← _serial_module;
  started ← (λ w, let '(w, x) := started_now w in (w, Ok x));
  paths ← create_evidence output_dir started.2;
  console ← gets (λ w, console_init (c_processor cfg) (negb (String.eqb display "plain")) (stdout_isatty w) []);
  name ← lift (name_of (Some (c_processor cfg)));
  let regression := match c_regression cfg with Some (String _ _ as r) => Some r | _ => None end in
  let commands := match regression with
                  | Some r => ["load " +:+ quote_word r; "run"%string]
                  | None => []
                  end in
  let clock : io W Z := λ w, let '(w, t) := usb_monotonic w in (w, Ok t) in
  deadline ← match regression with
             | Some _ => t ← clock; mret (Some (t + c_regression_timeout cfg))
             | None => mret None
             end;
  next_due ← clock;
  '(attached, identity) ← open_session port serial_number (c_processor cfg) record;
  w ← gets (λ w, w);
  mret (mkSession w (opened started.1 paths attached identity cfg) display (sequence_init sequence) observation_init
        runtime_init None true false None None commands deadline false None next_due false None evidence_init stats_init
        name cdc_init false cwd history_init console [] 0 false).

(** ** The end *)

(** [native_probe and not (completed > 0 and lost == 0)] *)
Definition probes_failed (s : session W) : bool :=
  c_native_probe (s_config s) && negb ((0 <? completed (s_stats s)) && (lost (s_stats s) =? 0)).
(** [regression_workload and regression_passed is not True] *)
Definition regression_failed (s : session W) : bool :=
  regression_on s && negb (bool_decide (s_passed s = Some true)).

Definition failure_reasons (s : session W) : list json :=
  match s_transport s with Some text => [JStr text] | None => [] end
  ++ (if s_failed_identity s then [JStr "processor identity assertion failed"] else [])
  ++ (if probes_failed s then [JStr "native probe acceptance failed"] else [])
  ++ (if regression_failed s
      then [match last (errors (s_evidence s)) with
            | Some error => jget "reason" error
            | None => JStr "physical regression did not complete successfully"
            end]
      else []).

Definition probe_summary (stats : HeartbeatStats) : json :=
  JObj [("completed", JInt (completed stats)); ("lost", JInt (lost stats));
        ("latency_ms", JObj
          [("last", JFloat (last_ms stats));
           ("minimum", JFloat (if truthy (completed stats) then minimum_ms stats else fzero));
           ("average", JFloat (average_ms stats));
           ("maximum", JFloat (maximum_ms stats))])]%string.

Definition session_summary (finished : string) (s : session W) : result document :=
  workload ← workload_snapshot (s_workload s) (s_evidence s);
  let o := s_observation s in
  Ok [("schema", JStr "rp86.runtime-session/v1");
      ("started", JStr (c_started (s_config s)));
      ("finished", JStr finished);
      ("workload", JObj workload);
      ("failure_reasons", JList (failure_reasons s));
      ("clock_hz", JInt 1000000);
      ("processor", JStr (c_processor (s_config s)));
      ("processor_name", JStr (s_name s));
      ("boot_id", jopt JInt (o_boot_id o));
      ("cpu_sequence", jopt JInt (o_cpu_sequence o));
      ("command_sequence", jopt JInt (o_command_sequence o));
      ("native_processor", jopt JStr (o_processor o));
      ("hid_identity", JObj (c_identity (s_config s)));
      ("native_probe", probe_summary (s_stats s));
      ("transport_error", jopt JStr (s_transport s));
      ("physical_regression",
         if regression_on s then
           JObj [("workload", jopt JStr (c_regression (s_config s)));
                 ("result_marker", JBool (passed (s_workload s)));
                 ("completed", JBool (w_completed (s_workload s)));
                 ("passed", jopt JBool (s_passed s))]%string
         else JNull);
      ("passed", JBool (bool_decide (failure_reasons s = [])))]%string.

Definition closing_lines (s : session W) : list string :=
  ("RP86 runtime session closed: processor=" +:+ s_name s)
  :: (if c_native_probe (s_config s)
      then ["Native diagnostic probes: completed=" +:+ dec (completed (s_stats s)) +:+ " lost=" +:+ dec (lost (s_stats s))
            +:+ " avg=" +:+ float_fixed1 (average_ms (s_stats s)) +:+ " ms"]
      else [])
  ++ ["Raw CDC evidence = " +:+ c_raw_path (s_config s); "Session JSON     = " +:+ c_json_path (s_config s)].

(** The [finally] block *)
Definition close (terminal : option (list Z)) : run unit :=
  _ ← match terminal with Some attributes => outside_do (set_attributes attributes) | None => mret tt end;
  _ ← on_console clear;
  _ ← drain_cdc;
  owner ← gets owns;
  _ ← when (owner : bool) (_ ← outside_do owner_stop; _ ← outside_do hid_close; outside_do cdc_close);
  finished ← timestamp;
  s ← gets (λ s, s);
  summary ← lift (session_summary finished s);
  let '(log, document) := evidence_write summary (c_raw_path (s_config s)) (s_evidence s) in
  _ ← outside_do (save_evidence log document);
  on_console (λ c, foldl (λ c line, write (line +:+ newline) c) c (closing_lines s)).

Definition exit_code (s : session W) : Z :=
  match s_transport s with
  | Some _ => TRANSPORT_EXIT
  | None => if s_failed_identity s then VALIDATION_EXIT
            else if probes_failed s then VALIDATION_EXIT
            else if regression_failed s then VALIDATION_EXIT
            else PASS_EXIT
  end.

(** The [try] statement: an exception is raised again after the [finally] block. *)
Definition loop_and_close (turns : nat) (terminal : option (list Z)) : run (option Z) := λ s,
  match monitor_loop turns s with
  | (s, Ok false) => (s, Ok None)
  | (s, Ok true) => (_ ← close terminal; code ← gets exit_code; mret (Some code)) s
  | (s, Raise e) => (_ ← close terminal; raise e) s
  end.

Definition persistent_monitor (turns : nat) : run (option Z) :=
  _ ← startup; terminal ← enter_cbreak; loop_and_close turns terminal.
End monitor.
