(* ===== verification/Preserve.v ===== *)
(** * Preservation: what the session's operations leave true

    A [triple] is a statement of partial correctness about code that may raise:
    the invariant survives in both cases, and a returned value satisfies the
    postcondition.  The lemmas give one rule per construct of the monad and
    then one per service, so that an invariant of the session is established
    by giving its behaviour on the primitive operations ([SessionInvariant]):
    every procedure, command and turn of the session then preserves it. *)

From S2P Require Import Prelude Struct PyText Json Protocol Core Memory Mailbox Workload RuntimeState Diagnostics.
From S2P Require Import Timeout Filesystem RequestChannel ServiceClient WorkloadClient Broker Console Transport Evidence Shell.
From S2P Require Import Session Commands Monitor.
From Stdlib Require Import SpecFloat.

Create HintDb keep.

(** ** Triples *)

Definition triple {W A} (P : W → Prop) (m : io W A) (Q : A → Prop) : Prop :=
  ∀ w, P w → match m w with
             | (w', Ok a) => P w' ∧ Q a
             | (w', Raise _) => P w'
             end.
Definition keeps {W A} (P : W → Prop) (m : io W A) : Prop := triple P m (λ _, True).

Lemma triple_run {W A} (P : W → Prop) (m : io W A) Q w w' r :
  triple P m Q → P w → m w = (w', r) → P w' ∧ (∀ a, r = Ok a → Q a).
Proof. intros Ht Hw E. specialize (Ht w Hw). rewrite E in Ht. destruct r; naive_solver. Qed.

Lemma keeps_run {W A} (P : W → Prop) (m : io W A) w w' r :
  keeps P m → P w → m w = (w', r) → P w'.
Proof. intros Hk Hw E. by destruct (triple_run P m _ w w' r Hk Hw E). Qed.

Lemma triple_keeps {W A} (P : W → Prop) (m : io W A) Q : triple P m Q → keeps P m.
Proof. intros Ht w Hw. specialize (Ht w Hw). destruct (m w) as [w' []]; naive_solver. Qed.

Lemma keeps_intro {W A} (P : W → Prop) (m : io W A) : (∀ w, P w → P (m w).1) → keeps P m.
Proof. intros Hm w Hw. specialize (Hm w Hw). by destruct (m w) as [w' []]. Qed.

Lemma triple_bind {W A B} (P : W → Prop) (m : io W A) (f : A → io W B) Q R :
  triple P m Q → (∀ a, Q a → triple P (f a) R) → triple P (m ≫= f) R.
Proof.
  intros Hm Hf w Hw. unfold mbind, io_bind. specialize (Hm w Hw).
  destruct (m w) as [w' [a|e]]; [|done]. destruct Hm as [Hp Hq]. exact (Hf a Hq w' Hp).
Qed.
Lemma keeps_bind {W A B} (P : W → Prop) (m : io W A) (f : A → io W B) :
  keeps P m → (∀ a, keeps P (f a)) → keeps P (m ≫= f).
Proof. intros Hm Hf. eapply triple_bind; [exact Hm|]. intros a _. exact (Hf a). Qed.

Lemma keeps_ret {W A} (P : W → Prop) (a : A) : keeps P (mret a : io W A).
Proof. by intros w. Qed.
Lemma keeps_raise {W A} (P : W → Prop) e : keeps P (raise e : io W A).
Proof. by intros w. Qed.
Lemma keeps_lift {W A} (P : W → Prop) (r : result A) : keeps P (lift r : io W A).
Proof. intros w. by destruct r. Qed.
Lemma keeps_gets {W A} (P : W → Prop) (f : W → A) : keeps P (gets f).
Proof. by intros w. Qed.
(** What is read is read in a state where the invariant holds. *)
Lemma triple_see {W A B} (P : W → Prop) (f : W → A) (k : A → io W B) Q :
  (∀ w, P w → triple P (k (f w)) Q) → triple P (gets f ≫= k) Q.
Proof. intros Hk w Hw. exact (Hk w Hw w Hw). Qed.
Lemma keeps_see {W A B} (P : W → Prop) (f : W → A) (k : A → io W B) :
  (∀ w, P w → keeps P (k (f w))) → keeps P (gets f ≫= k).
Proof. apply triple_see. Qed.
Lemma keeps_modify {W} (P : W → Prop) f : (∀ w, P w → P (f w)) → keeps P (modify f).
Proof. intros Hf w Hw. cbn. auto. Qed.
Lemma keeps_classes {W A} (P : W → Prop) classes (m : io W A) handler :
  keeps P m → (∀ text, keeps P (handler text)) → keeps P (catch_classes classes m handler).
Proof.
  intros Hm Hh w Hw. unfold catch_classes. specialize (Hm w Hw).
  destruct (m w) as [w' [a|e]]; [done|]. destruct (classes e); [by apply Hh|done].
Qed.
Lemma keeps_os_error {W A} (P : W → Prop) (m : io W A) handler :
  keeps P m → (∀ text, keeps P (handler text)) → keeps P (catch_os_error m handler).
Proof.
  intros Hm Hh w Hw. unfold catch_os_error. specialize (Hm w Hw).
  destruct (m w) as [w' [a|[]]]; try done. by apply Hh.
Qed.
#[export] Hint Resolve keeps_ret keeps_raise keeps_lift keeps_gets keeps_bind keeps_classes keeps_os_error : keep.

(** One construct at a time: the head of the code decides the rule. *)
Ltac keep_step :=
  match goal with
  | |- keeps _ (_ ≫= _) => apply keeps_bind
  | |- keeps _ (match ?x with _ => _ end) => destruct x
  | |- keeps _ (catch_classes _ _ _) => apply keeps_classes
  | |- keeps _ (catch_os_error _ _) => apply keeps_os_error
  | |- keeps _ (modify _) => apply keeps_modify
  | |- ∀ _, _ => intros ?
  | |- keeps _ _ => solve [auto with keep nocore]
  | |- _ => solve [auto with keep nocore]
  end.
Ltac keep := cbv zeta; repeat (keep_step; cbv zeta).

(** ** The services *)

(** The counter is a non-zero 32-bit number. *)
Definition counter_ok (q : RequestSequence) : Prop := 1 <= value q < 2 ^ 32.
Lemma advance_ok n q : counter_ok (advance_after n q).
Proof. apply next_seq_range. Qed.

Section services.
Context {W : Type} `{RequestExchange W} (P : W → Prop).
Hypothesis exchange_keeps : ∀ request, keeps P (exchange request).
Hypothesis activity_keeps : ∀ w, P w → P (on_activity w).
Let PC (c : client W) : Prop := P (world c) ∧ counter_ok (c_sequence c).

Lemma keeps_on_world {A} (m : io W A) : keeps P m → keeps PC (on_world m).
Proof.
  intros Hm c [Hc Hq]. unfold on_world. specialize (Hm _ Hc).
  destruct (m (world c)) as [w []]; unfold PC in *; naive_solver.
Qed.

Lemma keeps_service_exchange request : keeps PC (service_exchange request).
Proof.
  unfold service_exchange. apply keeps_bind; [by apply keeps_on_world|].
  keep; unfold PC in *; cbn in *; split_and?; first [apply advance_ok | naive_solver].
Qed.
Hint Resolve keeps_service_exchange : keep.

Lemma keeps_filesystem_request request : keeps PC (filesystem_request request).
Proof. unfold filesystem_request. keep. Qed.
Lemma keeps_read_diagnostics id : keeps PC (read_diagnostics id).
Proof. unfold read_diagnostics, sequence_value. keep. Qed.
Lemma keeps_execution_timeout t : keeps PC (execution_timeout t).
Proof. unfold execution_timeout, sequence_value. keep. Qed.
Lemma keeps_memory_request request : keeps PC (memory_request request).
Proof. unfold memory_request. keep. Qed.
Hint Resolve keeps_filesystem_request keeps_memory_request : keep.

Lemma keeps_read_memory fuel address length : keeps PC (read_memory fuel address length).
Proof.
  unfold read_memory. generalize (@nil byte). induction fuel as [|fuel IH]; intros content;
    cbn [read_memory_loop]; unfold sequence_value; keep.
Qed.
Lemma keeps_write_memory address data : keeps PC (write_memory address data).
Proof.
  assert (∀ records, keeps PC (write_memory_records records)) as Hw.
  { induction records as [|r records IH]; cbn [write_memory_records]; keep. }
  unfold write_memory, sequence_value. keep.
Qed.
Lemma keeps_read_directory fuel path : keeps PC (read_directory fuel path).
Proof.
  unfold read_directory. generalize 0 (@nil ListEntry). induction fuel as [|fuel IH]; intros cursor entries;
    cbn [read_directory_loop]; unfold sequence_value; keep.
Qed.
Lemma keeps_read_file fuel path : keeps PC (read_file fuel path).
Proof.
  unfold read_file. generalize 0 (@None Z) (@nil byte). induction fuel as [|fuel IH]; intros offset total content;
    cbn [read_file_loop]; unfold sequence_value; keep.
Qed.
End services.

(** ** The HID exchange *)

Section hid.
Context {W : Type} `{HidWorld W} (P : W → Prop).
Hypothesis read_keeps : ∀ n, keeps P (hid_read n).
Hypothesis write_keeps : ∀ b, keeps P (hid_write b).
Hypothesis clock_keeps : keeps P now.
Hypothesis transport_keeps : keeps P service_transport.
Hypothesis pause_keeps : ∀ ms, keeps P (pause ms).
Hint Resolve read_keeps write_keeps clock_keeps transport_keeps pause_keeps : keep.

Lemma keeps_drain_input fuel : keeps P (drain_input fuel).
Proof. induction fuel as [|fuel IH]; cbn [drain_input]; keep. Qed.
Lemma keeps_drain_transport fuel deadline : keeps P (drain_transport fuel deadline).
Proof. induction fuel as [|fuel IH]; cbn [drain_transport]; keep. Qed.
Hint Resolve keeps_drain_input keeps_drain_transport : keep.

Lemma keeps_receive fuel request expected began deadline stale :
  keeps P (receive fuel request expected began deadline stale).
Proof. revert stale. induction fuel as [|fuel IH]; intros stale; cbn [receive]; keep. Qed.
Hint Resolve keeps_receive : keep.

Lemma keeps_exchange_hid fuel request timeout expected :
  keeps P (exchange_hid_request fuel request timeout expected).
Proof. unfold exchange_hid_request. keep. Qed.

Lemma keeps_runtime_control fuel operation sequence timeout :
  keeps P (exchange_hid_runtime_control fuel operation sequence timeout).
Proof.
  assert (∀ began n, keeps P (await_ack n operation sequence began timeout)) as Ha.
  { intros began. induction n as [|n IH]; cbn [await_ack]; keep. }
  unfold exchange_hid_runtime_control. keep.
Qed.
End hid.

(** ** CDC requests *)

Section serial.
Context {W : Type} `{SerialWorld W} (P : W → Prop).
Hypothesis write_keeps : ∀ b, keeps P (serial_write b).
Hypothesis flush_keeps : keeps P serial_flush.
Hypothesis read_keeps : ∀ n, keeps P (serial_read n).
Hypothesis clock_keeps : keeps P serial_now.
Hypothesis sleep_keeps : ∀ ms w, P w → P (serial_sleep ms w).
Hint Resolve write_keeps flush_keeps read_keeps clock_keeps sleep_keeps : keep.

Lemma keeps_await_reply fuel check lost expired began timeout received :
  keeps P (await_reply fuel check lost expired began timeout received).
Proof.
  revert received. induction fuel as [|fuel IH]; intros received; cbn [await_reply]; keep.
  intros w Hw. specialize (read_keeps 4096 w Hw). destruct (serial_read 4096 w) as [w1 [chunk|e]].
  - destruct read_keeps as [Hw1 _].
    match goal with |- context [mbind ?k ?m w1] => assert (keeps P (mbind k m)) as Hk end; [keep|by apply Hk].
  - destruct e; try done.
    match goal with |- context [mbind ?k ?m w1] => assert (keeps P (mbind k m)) as Hk end; [keep|by apply Hk].
Qed.

Lemma keeps_cdc_request fuel request check lost expired timeout :
  keeps P (cdc_request fuel request check lost expired timeout).
Proof. pose proof keeps_await_reply. unfold cdc_request. keep. Qed.
End serial.

(** ** Opening a device *)

Section opening.
Context {W : Type} `{UsbHost W} (P : W → Prop).

Lemma keeps_serial_module : keeps P _serial_module.
Proof. unfold _serial_module. keep. Qed.
Lemma keeps_open_hid serial :
  keeps P hid_enumerate → (∀ path, keeps P (open_path path)) → keeps P (open_hid serial).
Proof. intros. unfold open_hid, list_hid_devices, _hid_module. keep. Qed.
End opening.

(** ** The line editor *)

Section editor.
Context {W : Type} `{Terminal W} `{UnicodeTable} (P : W → Prop).
Hypothesis ready_keeps : ∀ ms w, P w → P (ready ms w).1.
Hypothesis getch_keeps : ∀ w, P w → P (getch w).1.

Lemma keeps_key_ready ms : keeps P (key_ready ms).
Proof. intros w Hw. unfold key_ready. specialize (ready_keeps ms w Hw). by destruct (ready ms w). Qed.
Lemma keeps_key_get : keeps P key_get.
Proof. intros w Hw. unfold key_get. specialize (getch_keeps w Hw). by destruct (getch w). Qed.
Hint Resolve keeps_key_ready keeps_key_get : keep.

Lemma keeps_read_terminal fuel buffer cursor : keeps P (_read_terminal_command fuel buffer cursor).
Proof.
  assert (∀ n b c ch cl, keeps P (posix_loop n b c ch cl)) as Hp.
  { induction n as [|n IH]; intros; cbn [posix_loop]; keep. }
  assert (∀ n b c ch cl, keeps P (nt_loop n b c ch cl)) as Hn.
  { induction n as [|n IH]; intros; cbn [nt_loop]; keep. }
  unfold _read_terminal_command. keep.
Qed.
End editor.

(** ** Workload transactions *)

Section transactions.
Context {W : Type} `{RequestExchange W} `{WorkloadHost W} (P : W → Prop) (G : Message → Prop).
Hypothesis exchange_triple : ∀ request,
  triple P (exchange request) (λ '(reply, _, _), ∀ m, reply = Some m → G m).
Hypothesis activity_keeps : ∀ w, P w → P (on_activity w).
Hypothesis counter_keeps : ∀ n q w, P w → P (set_counter (advance_after n q) w).
Hypothesis update_keeps : ∀ m state w,
  P w → G m → update_from_payload (payload m) (workload_of w) = Ok state → P (set_workload state w).
Hypothesis changed_keeps : keeps P state_changed.

Lemma keeps_transact records : keeps P (transact records).
Proof.
  unfold transact. generalize (len records) 1 (@nil Z). intros total.
  induction records as [|request records IH]; intros index latencies w Hw; cbn [transact_loop].
  { split; auto. }
  specialize (exchange_triple request w Hw).
  destruct (exchange request w) as [w1 [[[[m|] lat] err]|e]]; [|naive_solver..].
  destruct exchange_triple as [Hw1 Hm]. specialize (Hm m eq_refl).
  pose proof (counter_keeps (sequence request) (counter w1) w1 Hw1) as Hw2.
  destruct (update_from_payload _ _) as [state|[]] eqn:Hu; try done.
  pose proof (changed_keeps _ (update_keeps m state _ Hw2 Hm Hu)) as Hc.
  destruct (state_changed _) as [w3 [u|e]]; [|done]. apply IH, Hc.
Qed.
End transactions.

(** ** Invariants of the session *)

Section session_invariant.
Context (fuel : nat) (fixed1 : Z → string).
Context {W : Type} `{SessionWorld W}.
Abbreviation run := (io (session W)).

(** What the operations of the outside do to it, for an owner of the device and
    for a session that is attached to one *)
Inductive effect (own : bool) : (W → W) → Prop :=
| effect_read n : own = true → effect own (λ w, (usb_read n w).1)
| effect_write b : own = true → effect own (λ w, (usb_write b w).1)
| effect_cdc : own = true → effect own (λ w, (cdc_read w).1)
| effect_pending : own = true → effect own (λ w, (broker_pending w).1)
| effect_control : own = true → effect own (λ w, (broker_control w).1)
| effect_answer f d : own = true → effect own (broker_answer f d)
| effect_publish d : own = true → effect own (broker_publish d)
| effect_cdc_write b : own = true → effect own (λ w, (cdc_write b w).1)
| effect_cdc_flush : own = true → effect own (λ w, (cdc_flush w).1)
| effect_cdc_some n : own = true → effect own (λ w, (cdc_read_some n w).1)
| effect_owner_stop : own = true → effect own owner_stop
| effect_hid_close : own = true → effect own hid_close
| effect_cdc_close : own = true → effect own cdc_close
| effect_relay a b i t : own = false → effect own (λ w, (relay a b i t w).1)
| effect_clock : effect own (λ w, (usb_monotonic w).1)
| effect_sleep ms : effect own (usb_sleep ms)
| effect_random n : effect own (λ w, (random_bits n w).1)
| effect_time : effect own (λ w, (wall_clock w).1)
| effect_interrupt : effect own (λ w, (interrupted w).1)
| effect_ready ms : effect own (λ w, (ready ms w).1)
| effect_getch : effect own (λ w, (getch w).1)
| effect_save b d : effect own (save_evidence b d)
| effect_file p b : effect own (λ w, (write_file p b w).1).

(** Only around the loop: the terminal is read key by key. *)
Inductive mode_effect : (W → W) → Prop :=
| mode_cbreak : mode_effect set_cbreak
| mode_back a : mode_effect (set_attributes a).

Definition owner_of (cfg : config) : bool := bool_decide (c_attached cfg = None).

(** The fields an invariant may speak about are unchanged. *)
Definition same_core (s s' : session W) : Prop :=
  s_world s' = s_world s ∧ s_config s' = s_config s ∧ s_workload s' = s_workload s
  ∧ s_passed s' = s_passed s ∧ s_commands s' = s_commands s ∧ s_deadline s' = s_deadline s
  ∧ s_failed_identity s' = s_failed_identity s ∧ s_sequence s' = s_sequence s ∧ s_starved s' = s_starved s.

Definition expected_of (cfg : config) : option string :=
  if String.eqb (c_processor cfg) "auto" then None else Some (c_processor cfg).

(** [m] came from the broker of the owner, in a response that answers the request. *)
Definition relayed (a : attachment) (request : Message) (expected : option string) (m : Message) : Prop :=
  ∃ w w' encoded id timeout response text candidate,
    encode request = Ok encoded ∧ relay a encoded id timeout w = (w', Ok response)
    ∧ jtruthy (jget "ok" response) = true
    ∧ jitem "reply_hex" response = Ok text ∧ bytes_fromhex (jstr float_repr text) = Some candidate
    ∧ validate_device_reply candidate request expected = Ok m.

(** [m] was read from the device in answer to some request, or came from the
    broker of the process that owns it. *)
Definition reported_by_device (cfg : config) (m : Message) : Prop :=
  ∃ request, match c_attached cfg with
             | None => genuine (W := session W) request (expected_of cfg) m
             | Some a => relayed a request (expected_of cfg) m
             end.

Lemma hid_exchange_genuine request s s' m lat err :
  hid_exchange fuel request s = (s', Ok (Some m, lat, err)) →
  genuine (W := session W) request (expected_of (s_config s)) m.
Proof.
  unfold hid_exchange, in_time. intros E. io_inv.
  rename select (exchange_hid_request _ _ _ _ _ = _) into Hx. rename select (option ExchangeResult) into o.
  destruct o as [r|]; io_inv. rename select (reply _ = Some m) into Hm. apply exchange_honest in Hx.
  unfold honest in Hx. rewrite Hm in Hx. by destruct Hx as [_ Hg].
Qed.

(** A control that came from the broker's queue *)
Definition queued (c : BrokerControlRequest) : Prop := ∃ w w' : W, broker_control w = (w', Some c).

(** The loops of a session that take fuel *)
Inductive loops (cfg : config) : ∀ {A}, run (option A) → Prop :=
| loop_exchange request expected : owner_of cfg = true →
    loops cfg (exchange_hid_request fuel request (c_timeout cfg) expected)
| loop_status c : owner_of cfg = true → queued c → loops cfg (send_status_request fuel (Broker.c_timeout c))
| loop_runtime_control c operation sequence : owner_of cfg = true → queued c →
    loops cfg (exchange_hid_runtime_control fuel operation sequence (Broker.c_timeout c))
| loop_controls : owner_of cfg = true → loops cfg (serve_controls fuel fuel)
| loop_memory address length : loops cfg (with_services (W := W)
    (read_memory (H := session_channel fuel) fuel address length))
| loop_directory path : loops cfg (with_services (W := W) (read_directory (H := session_channel fuel) fuel path))
| loop_file path : loops cfg (with_services (W := W) (read_file (H := session_channel fuel) fuel path))
| loop_mailbox generation : loops cfg (mailbox_wait fuel generation)
| loop_editor buffer cursor : c_interactive cfg = true →
    loops cfg (outside (_read_terminal_command fuel buffer cursor)).

Class SessionInvariant (cfg : config) (P : session W → Prop) := {
  inv_config : ∀ s, P s → s_config s = cfg;
  inv_world : ∀ f s, effect (owner_of cfg) f → P s → P (put_world (f (s_world s)) s);
  inv_frame : ∀ s s', same_core s s' → P s → P s';
  inv_idle : ∀ s, P s → P (put_workload (mark_idle (s_workload s)) s);
  inv_prepared : ∀ s, P s → P (put_workload (mark_prepared_runtime_initialized (s_workload s)) s);
  inv_update : ∀ s m w, P s → reported_by_device cfg m →
    update_from_payload (payload m) (s_workload s) = Ok w → P (put_workload w s);
  inv_failed : ∀ s, P s → P (put_passed (Some false) s);
  inv_counter : ∀ s, P s → counter_ok (s_sequence s);
  inv_advance : ∀ s q, P s → counter_ok q → P (put_sequence q s);
  inv_starved : ∀ A (m : run (option A)) s s', loops cfg m → P s → P s' → m s = (s', Ok None) → P (put_starved true s');
}.

Context (cfg : config) (P : session W → Prop) `{!SessionInvariant cfg P}.

Lemma keeps_frame (f : session W → session W) : (∀ s, same_core s (f s)) → keeps P (modify f).
Proof. intros Hf. apply keeps_modify. intros s. apply inv_frame, Hf. Qed.

Abbreviation own := (owner_of cfg).

Lemma keeps_outside {A} (m : io W A) : effect own (λ w, (m w).1) → keeps P (outside m).
Proof.
  intros He. apply keeps_intro. intros s Hs. unfold outside.
  pose proof (inv_world _ s He Hs) as Hw. cbn in Hw. by destruct (m (s_world s)).
Qed.
Lemma keeps_outside_total {A} (f : W → W * A) : effect own (λ w, (f w).1) → keeps P (outside_total f).
Proof.
  intros He. apply keeps_intro. intros s Hs. unfold outside_total, outside.
  pose proof (inv_world _ s He Hs) as Hw. cbn in Hw. by destruct (f (s_world s)).
Qed.
Lemma keeps_outside_do f : effect own f → keeps P (outside_do f).
Proof. intros He. apply keeps_modify. intros s. by apply inv_world. Qed.
Lemma keeps_when b m : keeps P m → keeps P (when b m).
Proof. intros. unfold when. keep. Qed.
Lemma keeps_on_evidence {A} (m : io SessionEvidence A) : keeps P (on_evidence m).
Proof.
  apply keeps_intro. intros s Hs. unfold on_evidence. destruct (m (s_evidence s)) as [e r].
  eapply inv_frame; [|exact Hs]. done.
Qed.


Hint Constructors effect : keep.
Hint Resolve keeps_outside keeps_outside_total keeps_outside_do keeps_when keeps_on_evidence : keep.
Hint Extern 1 (P _) => first [apply inv_idle | apply inv_prepared | apply inv_failed | apply inv_advance; [|apply advance_ok]]; assumption : keep.

(** [keep], with the frame rule for assignments *)
Ltac skeep :=
  cbv zeta;
  repeat (first [ match goal with |- keeps _ (modify _) => apply keeps_frame; intros; solve [repeat split; reflexivity] end
                | match goal with |- keeps _ (when _ _) => apply keeps_when end
                | keep_step ]; cbv zeta).

Lemma owns_own s : P s → owns s = own.
Proof. intros Hs. unfold owns. by rewrite (inv_config s Hs). Qed.
(** The two cases, wherever the code asks for them *)
Lemma keeps_owner {A} (k : bool → run A) : (∀ b, own = b → keeps P (k b)) → keeps P (gets owns ≫= k).
Proof. intros Hk. apply keeps_see. intros s Hs. rewrite (owns_own s Hs). by apply Hk. Qed.

Lemma keeps_console f : keeps P (on_console f).
Proof. unfold on_console. skeep. Qed.
Lemma keeps_redraw : keeps P redraw.
Proof.
  apply keeps_intro. intros s Hs. unfold redraw. destruct (render _ _ _) as [c r]. by eapply inv_frame; [|exact Hs].
Qed.
Hint Resolve keeps_console keeps_redraw : keep.
Lemma keeps_print text : keeps P (print_event text).
Proof. unfold print_event. skeep. Qed.
Lemma keeps_console_print text : keeps P (console_print text).
Proof. apply keeps_console. Qed.
Lemma keeps_update_console : keeps P update_console_runtime.
Proof. unfold update_console_runtime. skeep. Qed.
Lemma keeps_timestamp : keeps P timestamp.
Proof. unfold timestamp. skeep. Qed.
Lemma keeps_monotonic : keeps P monotonic_now.
Proof. unfold monotonic_now. skeep. Qed.
Hint Resolve keeps_print keeps_console_print keeps_update_console keeps_timestamp keeps_monotonic : keep.
Lemma keeps_evidence_failure operation reason details : keeps P (evidence_failure operation reason details).
Proof. unfold evidence_failure. skeep. Qed.
Hint Resolve keeps_evidence_failure : keep.

Lemma keeps_cdc_lines lines : keeps P (cdc_lines lines).
Proof.
  induction lines as [|line lines IH]; cbn [cdc_lines]; [skeep|]. unfold cdc_line.
  apply keeps_bind; [|by intros]. apply keeps_bind; [|skeep].
  case_match; skeep.
Qed.
Hint Resolve keeps_cdc_lines : keep.
Lemma keeps_drain_cdc : keeps P drain_cdc.
Proof.
  unfold drain_cdc. apply keeps_see. intros s Hs. rewrite (owns_own s Hs). destruct own eqn:Ho; [skeep|].
  rewrite orb_true_r. apply keeps_ret.
Qed.
Hint Resolve keeps_drain_cdc : keep.

Lemma defer_keeps s : P s → P (defer_periodic_probe s).
Proof.
  intros Hs. unfold defer_periodic_probe. pose proof (inv_world _ s (effect_clock _) Hs) as Hw. cbn in Hw.
  destruct (usb_monotonic (s_world s)) as [w t]. eapply inv_frame; [|exact Hw]. done.
Qed.
Lemma keeps_defer : keeps P (modify defer_periodic_probe).
Proof. apply keeps_modify, defer_keeps. Qed.
Hint Resolve keeps_defer defer_keeps : keep.

Lemma clock_run_keeps {A} (f : Z → A) :
  keeps P (λ s, let '(s, t) := let '(w, t) := usb_monotonic (s_world s) in (put_world w s, t) in (s, Ok (f t))).
Proof.
  apply keeps_intro. intros s Hs. pose proof (inv_world _ s (effect_clock _) Hs) as Hw.
  cbn in Hw. by destruct (usb_monotonic (s_world s)).
Qed.
Lemma sleep_keeps ms s : P s → P (put_world (usb_sleep ms (s_world s)) s).
Proof. apply (inv_world (usb_sleep ms)). constructor. Qed.

Section owner.
Hypothesis Hown : own = true.

Ltac by_hid := cbn; first [intros; skeep; fail | exact (clock_run_keeps id) | intros ms; apply keeps_modify, sleep_keeps].
Lemma exchange_hid_keeps request timeout expected : keeps P (exchange_hid_request fuel request timeout expected).
Proof. apply keeps_exchange_hid; by_hid. Qed.
Lemma runtime_control_keeps operation sequence timeout :
  keeps P (exchange_hid_runtime_control fuel operation sequence timeout).
Proof. apply keeps_runtime_control; by_hid. Qed.
Lemma status_request_keeps timeout : keeps P (send_status_request fuel timeout).
Proof.
  apply keeps_cdc_request; cbn; try (intros; skeep; fail); [exact (clock_run_keeps id)|exact sleep_keeps].
Qed.
End owner.

Lemma keeps_in_time {A} (m : run (option A)) : loops cfg m → keeps P m → keeps P (in_time m).
Proof.
  intros Hl Hm s Hs. unfold in_time, mbind, io_bind, modify, raise. specialize (Hm s Hs).
  destruct (m s) as [s' [[a|]|e]] eqn:E; [done| |done]. destruct Hm as [Hs' _]. cbn. by eapply inv_starved.
Qed.
Hint Resolve runtime_control_keeps status_request_keeps : keep.

(** A reply of the exchange comes from the device, or through the owner's broker. *)
Lemma hid_exchange_run request s s' r :
  own = true → P s → hid_exchange fuel request s = (s', r) →
  P s' ∧ ∀ m lat err, r = Ok (Some m, lat, err) → genuine (W := session W) request (expected_of cfg) m.
Proof.
  intros Ho Hs E. split.
  { refine (keeps_run P _ s s' r _ Hs E). unfold hid_exchange. pose proof (exchange_hid_keeps Ho).
    apply keeps_bind; [skeep|]. intros expected. apply keeps_see. intros t Ht. rewrite (inv_config _ Ht).
    apply keeps_bind; [|skeep]. apply keeps_in_time; [by constructor|done]. }
  intros m lat err ->. apply hid_exchange_genuine in E. by rewrite (inv_config _ Hs) in E.
Qed.
Lemma relay_exchange_run a request s s' r :
  own = false → P s → relay_exchange a request s = (s', r) →
  P s' ∧ ∀ m lat err, r = Ok (Some m, lat, err) → relayed a request (expected_of cfg) m.
Proof.
  intros Ho Hs E. split.
  { refine (keeps_run P _ s s' r _ Hs E). unfold relay_exchange. skeep. }
  intros m lat err ->. unfold relay_exchange in E. io_step.
  rename select (monotonic_now s = _) into Hn. rename select (catch_classes _ _ _ _ = _) into Hc.
  apply catch_ok in Hc as [Hc|(s1 & e & text & _ & _ & Hc)]; [|io_inv].
  do 4 io_step. case_match eqn:Hok; [by io_inv|]. apply negb_false_iff in Hok. io_inv.
  rename select (outside _ _ = _) into Hx. rename select (validate_device_reply _ _ _ = _) into Hv.
  assert (s_config s' = cfg) as Hc.
  { transitivity (s_config s); [|by apply inv_config]. unfold outside, monotonic_now, outside_total, outside in *.
    destruct (usb_monotonic (s_world s)) as [w1 t]. injection Hn as <- _. destruct (relay _ _ _ _ _) as [w2 x]. by injection Hx as <- _. }
  unfold expected_processor in Hv. rewrite Hc in Hv. unfold outside in Hx. destruct (relay _ _ _ _ _) as [w2 x] eqn:Hr.
  injection Hx as _ ->. destruct (bytes_fromhex _) as [b|] eqn:Hb; [|done]. rename select (Ok _ = Ok x12) into Hx; injection Hx as ->.
  by eexists _, _, _, _, _, _, _, _.
Qed.
Lemma triple_exchange request :
  triple P (session_exchange fuel request) (λ '(reply, _, _), ∀ m, reply = Some m → reported_by_device cfg m).
Proof.
  intros s Hs. destruct (session_exchange fuel request s) as [s' r] eqn:E. unfold session_exchange in E.
  unfold mbind, io_bind, gets in E. rewrite (inv_config _ Hs) in E.
  assert (P s' ∧ ∀ m lat err, r = Ok (Some m, lat, err) → reported_by_device cfg m) as [Hs' Hr].
  { unfold reported_by_device. unfold owner_of in *. destruct (c_attached cfg) as [a|] eqn:Ha.
    - apply relay_exchange_run in E as [? Hm]; [|unfold owner_of; by rewrite Ha|done]. split; [done|]. eauto.
    - apply hid_exchange_run in E as [? Hm]; [|unfold owner_of; by rewrite Ha|done]. split; [done|]. eauto. }
  destruct r as [[[reply lat] err]|e]; [|done]. split; [done|]. intros m ->. by eapply Hr.
Qed.
Lemma keeps_session_exchange request : keeps P (session_exchange fuel request).
Proof. eapply triple_keeps, triple_exchange. Qed.
Hint Resolve keeps_session_exchange : keep.

(** *** Services and transactions *)

Lemma keeps_with_services {A} (m : io (client (session W)) A) :
  keeps (λ c, P (world c) ∧ counter_ok (c_sequence c)) m → keeps P (with_services m).
Proof.
  intros Hm s Hs. unfold with_services.
  specialize (Hm (mkClient s (s_sequence s)) (conj Hs (inv_counter _ Hs))).
  destruct (m _) as [c [a|e]]; [destruct Hm as [[??] _]; split; [|done]|destruct Hm]; by apply inv_advance.
Qed.
Lemma keeps_service {A} (m : io (client (session W)) (option A)) :
  loops cfg (with_services m) →
  keeps (λ c, P (world c) ∧ counter_ok (c_sequence c)) m → keeps P (service m).
Proof. intros Hl Hm. unfold service. apply keeps_in_time; [done|]. by apply keeps_with_services. Qed.

(** Every service uses the session's exchange and its callback. *)
Ltac by_service lemma := apply lemma; [exact keeps_session_exchange | exact defer_keeps].
Hint Extern 1 (keeps _ (with_services (read_diagnostics _))) =>
  apply keeps_with_services; by_service @keeps_read_diagnostics : keep.
Hint Extern 1 (keeps _ (with_services (execution_timeout _))) =>
  apply keeps_with_services; by_service @keeps_execution_timeout : keep.
Hint Extern 1 (keeps _ (with_services (filesystem_request _))) =>
  apply keeps_with_services; by_service @keeps_filesystem_request : keep.
Hint Extern 1 (keeps _ (with_services (memory_request _))) =>
  apply keeps_with_services; by_service @keeps_memory_request : keep.
Hint Extern 1 (keeps _ (with_services (write_memory _ _))) =>
  apply keeps_with_services; by_service @keeps_write_memory : keep.
Hint Extern 1 (keeps _ (service (read_memory _ _ _))) =>
  apply keeps_service; [constructor|]; by_service @keeps_read_memory : keep.
Hint Extern 1 (keeps _ (service (read_directory _ _))) =>
  apply keeps_service; [constructor|]; by_service @keeps_read_directory : keep.
Hint Extern 1 (keeps _ (service (read_file _ _))) =>
  apply keeps_service; [constructor|]; by_service @keeps_read_file : keep.

Lemma keeps_memory_service address length : keeps P (service (read_memory (H := session_channel fuel) fuel address length)).
Proof. auto with keep. Qed.

Lemma keeps_accept_workload_state : keeps P (accept_workload_state fuel).
Proof.
  unfold accept_workload_state, observe_diagnostics, observe_identity, report_result. skeep.
Qed.
Hint Resolve keeps_accept_workload_state : keep.

Lemma keeps_perform records description announce :
  keeps P (perform_workload_transaction fuel fixed1 records description announce).
Proof.
  assert (∀ total latencies index, keeps P (accepted_lines fixed1 description total index latencies)) as Hl.
  { intros total. induction latencies as [|l ls IH]; intros index; cbn [accepted_lines]; skeep. }
  unfold perform_workload_transaction. apply keeps_bind; [|skeep].
  apply (keeps_transact P (reported_by_device cfg)).
  - exact triple_exchange.
  - exact defer_keeps.
  - intros n q s Hs. apply inv_advance; [done|apply advance_ok].
  - intros m state s. apply inv_update.
  - exact keeps_accept_workload_state.
Qed.
Hint Resolve keeps_perform : keep.

Lemma keeps_ensure_prepared : keeps P (ensure_prepared_runtime_initialized fuel).
Proof.
  unfold ensure_prepared_runtime_initialized, heartbeat_request. skeep.
Qed.
Hint Resolve keeps_ensure_prepared : keep.

(** *** The broker *)

(** The workload state is overwritten with what the device reported. *)
Lemma keeps_report {A} m (k : run A) :
  reported_by_device cfg m → keeps P k →
  keeps P (w ← gets s_workload; w ← lift (update_from_payload (payload m) w); _ ← modify (put_workload w); k).
Proof.
  intros Hm Hk s Hs. unfold mbind, io_bind, gets, lift, modify.
  destruct (update_from_payload _ _) as [w|e] eqn:Hu; [|done]. apply Hk. by eapply inv_update.
Qed.

Lemma keeps_serve_exchange record : keeps P (serve_exchange fuel record).
Proof.
  unfold serve_exchange. set (body := mbind _ _). assert (keeps P body) as Hb.
  { subst body. apply keeps_bind; [skeep|]. intros request.
    eapply triple_bind; [apply triple_exchange|]. intros [[[m|] lat] err] Hm; [|apply keeps_ret].
    specialize (Hm m eq_refl). apply keeps_bind; [|skeep]. apply keeps_when, keeps_report; [done|]. skeep. }
  intros s Hs. specialize (Hb s Hs). destruct (body s) as [s' [d|[]]]; naive_solver.
Qed.
Hint Resolve keeps_serve_exchange : keep.

Lemma keeps_publish : keeps P publish_snapshot.
Proof. unfold publish_snapshot. apply keeps_see. intros s Hs. rewrite (owns_own s Hs). destruct own eqn:Ho; [skeep|apply keeps_ret]. Qed.
Hint Resolve keeps_publish : keep.

(** A control is one of the queue. *)
Lemma triple_control : own = true → triple P (outside_total broker_control) (λ r, ∀ c, r = Some c → queued c).
Proof.
  intros Ho s Hs. unfold outside_total, outside. pose proof (inv_world _ s (effect_control _ Ho) Hs) as Hw.
  cbn in Hw. destruct (broker_control (s_world s)) as [w r] eqn:E. split; [done|]. intros c ->. by eexists _, _.
Qed.
Lemma keeps_control_served c : own = true → queued c → keeps P (control_served fuel c).
Proof.
  intros Ho Hq. assert (keeps P (in_time (send_status_request fuel (Broker.c_timeout c)))) as Hs
    by (apply keeps_in_time; [by constructor|by apply status_request_keeps]).
  assert (∀ op seq, keeps P (in_time (exchange_hid_runtime_control fuel op seq (Broker.c_timeout c)))) as Hr
    by (intros op seq; apply keeps_in_time; [by constructor|by apply runtime_control_keeps]).
  unfold control_served, serve_control. skeep.
Qed.
Lemma keeps_controls n : own = true → keeps P (serve_controls fuel n).
Proof.
  intros Ho. induction n as [|n IH]; cbn [serve_controls]; [skeep|].
  eapply triple_bind; [by apply triple_control|]. intros [c|] Hq; [|apply keeps_ret].
  apply keeps_bind; [apply keeps_control_served; auto|by intros].
Qed.

Lemma keeps_broker_requests : keeps P (service_broker_requests fuel).
Proof.
  unfold service_broker_requests. apply keeps_owner. intros [] Ho; [|apply keeps_ret].
  assert (∀ requests, keeps P (serve_exchanges fuel requests)) as He.
  { induction requests as [|r requests IH]; cbn [serve_exchanges]; skeep. }
  assert (keeps P (in_time (serve_controls fuel fuel))) as Hc
    by (apply keeps_in_time; [by constructor|by apply keeps_controls]).
  skeep.
Qed.
Hint Resolve keeps_broker_requests : keep.

(** *** The commands *)

Lemma keeps_say text : keeps P (say text).
Proof. unfold say. skeep. Qed.
Lemma keeps_say_on text : keeps P (report text).
Proof. unfold report. skeep. Qed.
Lemma keeps_sequence_now : keeps P sequence_now.
Proof. unfold sequence_now. skeep. Qed.
Lemma keeps_fail_regression : keeps P fail_regression.
Proof. unfold fail_regression. skeep. Qed.
Lemma keeps_read_host path : keeps P (read_host path).
Proof. apply keeps_intro. done. Qed.
Hint Resolve keeps_say keeps_say_on keeps_sequence_now keeps_fail_regression keeps_read_host : keep.

Lemma keeps_load arguments : keeps P (load_command fuel fixed1 arguments).
Proof. unfold load_command, load_source, load_stop, load_upload. skeep. Qed.

Lemma keeps_control name : keeps P (control_command fuel fixed1 name).
Proof. unfold control_command. skeep. Qed.

Lemma keeps_status_timeout_trace arguments :
  keeps P (status_command fuel fixed1) ∧ keeps P (timeout_command fuel arguments)
  ∧ keeps P (trace_command fuel arguments).
Proof. unfold status_command, timeout_command, trace_command, trace_save. split_and!; skeep. Qed.

Lemma keeps_host_commands arguments :
  keeps P (help_command arguments) ∧ keeps P (pwd_command arguments) ∧ keeps P (cd_command arguments).
Proof. unfold help_command, pwd_command, cd_command. split_and!; skeep. Qed.

Lemma keeps_native_commands arguments :
  keeps P probe_command ∧ keeps P (send_command arguments) ∧ keeps P (calc_command arguments).
Proof. unfold probe_command, send_command, calc_command. split_and!; skeep. Qed.

Lemma keeps_file_commands arguments :
  keeps P (ls_command fuel arguments) ∧ keeps P (df_command fuel arguments) ∧ keeps P (cat_command fuel arguments)
  ∧ keeps P (put_command fuel arguments).
Proof.
  assert (∀ total records index, keeps P (put_records fuel total index records)) as Hp.
  { intros total. induction records as [|r records IH]; intros index; cbn [put_records]; skeep. }
  unfold ls_command, df_command, cat_command, put_command. split_and!; skeep.
Qed.

Lemma keeps_mem arguments : keeps P (mem_command fuel arguments).
Proof. unfold mem_command, mem_operation, mem_read, mem_write, mem_load, mem_save. skeep. Qed.

Lemma keeps_mailbox arguments : keeps P (mailbox_command fuel arguments).
Proof.
  assert (∀ records, keeps P (mailbox_send fuel records)) as Hs.
  { induction records as [|r records IH]; cbn [mailbox_send]; skeep. }
  assert (∀ turns deadline generation failed, keeps P (mailbox_poll fuel turns deadline generation failed)) as Hp.
  { induction turns as [|turns IH]; intros; cbn [mailbox_poll]; skeep. }
  assert (∀ generation, keeps P (in_time (mailbox_wait fuel generation))) as Hw.
  { intros generation. apply keeps_in_time; [constructor|]. unfold mailbox_wait. skeep. }
  unfold mailbox_command, mailbox_exchange, mailbox_answer. skeep.
Qed.
Hint Resolve keeps_load keeps_control keeps_mem keeps_mailbox : keep.

Lemma keeps_perform_line line : keeps P (perform_line fuel fixed1 line).
Proof.
  unfold perform_line. apply keeps_bind; [skeep|]. intros _.
  destruct (parse_command line) as [[c|]|[]]; [|skeep..].
  unfold perform_command, quiet_command, verbose_command.
  pose proof (keeps_status_timeout_trace (Shell.arguments c)) as (?&?&?).
  pose proof (keeps_host_commands (Shell.arguments c)) as (?&?&?).
  pose proof (keeps_native_commands (Shell.arguments c)) as (?&?&?).
  pose proof (keeps_file_commands (Shell.arguments c)) as (?&?&?&?).
  skeep.
Qed.
Hint Resolve keeps_perform_line : keep.

(** *** A turn *)

Lemma keeps_native_request type p is_command : keeps P (native_request fuel fixed1 type p is_command).
Proof.
  unfold native_request, native_passed, native_failed, accept_native, reply_text, identity_text, on_event. skeep.
Qed.
Hint Resolve keeps_native_request : keep.
Lemma keeps_native_part asked : keeps P (native_part fuel fixed1 asked).
Proof. unfold native_part. skeep. Qed.
Hint Resolve keeps_native_part : keep.

Lemma keeps_status_transaction workload description announce :
  keeps P (status_transaction fuel fixed1 workload description announce).
Proof. unfold status_transaction. skeep. Qed.
Hint Resolve keeps_status_transaction : keep.
Lemma keeps_follow_workload : keeps P (follow_workload fuel fixed1).
Proof. unfold follow_workload, refresh. skeep. Qed.
Hint Resolve keeps_follow_workload : keep.

Lemma keeps_complete_line : keeps P (complete_line fuel).
Proof. unfold complete_line, remote_completion_entries. skeep. Qed.
Hint Resolve keeps_complete_line : keep.
Lemma keeps_line_edited r : keeps P (line_edited fuel r).
Proof. unfold line_edited, clear_screen, browse_history. skeep. Qed.
Lemma keeps_editor buffer cursor : keeps P (outside (_read_terminal_command fuel buffer cursor)).
Proof.
  intros s Hs. unfold outside.
  destruct (_read_terminal_command fuel buffer cursor (s_world s)) as [w r] eqn:E.
  refine ((λ Hw : P (put_world w s), _) _); [by destruct r|].
  refine (keeps_run (λ w, P (put_world w s)) _ (s_world s) w r _ _ E); [|by destruct s].
  apply keeps_read_terminal; intros ? **; [apply (inv_world _ (put_world _ s) (effect_ready _ _))|
    apply (inv_world _ (put_world _ s) (effect_getch _))]; done.
Qed.
Hint Resolve keeps_line_edited keeps_editor : keep.

Lemma end_regression_run passed reason text s :
  P (put_passed (Some passed) s) → P (end_regression passed reason text s).1.
Proof.
  intros Hs. unfold end_regression. set (rest := λ _ : unit, mbind _ _).
  assert (keeps P (rest tt)) as Hr by (subst rest; cbv beta; skeep).
  specialize (Hr _ Hs). change (P (rest tt (put_passed (Some passed) s)).1).
  destruct (rest tt _) as [s' []]; naive_solver.
Qed.

Lemma keeps_report_identity failed declared observed : keeps P (report_identity failed declared observed).
Proof. unfold report_identity. skeep. Qed.

(** What a turn and the start need besides *)
Hypothesis passed_keeps : ∀ s, P s → physical_regression_passed (s_workload s) = true → P (put_passed (Some true) s).
Hypothesis cleared_keeps : ∀ s, P s → P (put_commands [] s).
Hypothesis commands_keep : ∀ s l, P s → P (put_commands l s).

Lemma keeps_regression_turn : keeps P regression_turn.
Proof.
  apply keeps_intro. intros s Hs. unfold regression_turn. cbv zeta.
  change (((gets (λ s : session W, s)) ≫= ?f) s) with (f s s). cbv beta.
  case_match; [case_match|case_match; [|case_match]]; try by apply end_regression_run; auto; apply inv_failed.
  - assert (keeps P monotonic_now) as Hm by auto with keep. specialize (Hm s Hs).
    unfold mbind, io_bind. destruct (monotonic_now s) as [s' [t|e]]; [|done].
    destruct Hm as [Hm _]. case_match; [|done]. by apply end_regression_run, inv_failed.
  - done.
Qed.
Hint Resolve keeps_regression_turn : keep.

Lemma keeps_refuse_regression refused : keeps P (refuse_regression refused).
Proof. unfold refuse_regression. skeep; auto. Qed.
Lemma keeps_next_command : keeps P (next_command fuel).
Proof.
  unfold next_command. apply keeps_bind; [skeep|]. intros [|command commands]; [|skeep; auto].
  apply keeps_see. intros s Hs. rewrite (inv_config _ Hs). destruct (c_interactive cfg) eqn:Hi; cbn [negb]; [|skeep].
  assert (∀ b c, keeps P (in_time (outside (_read_terminal_command fuel b c)))) as He
    by (intros b c; apply keeps_in_time; [by constructor|apply keeps_editor]).
  skeep.
Qed.
Hint Resolve keeps_next_command : keep.
Lemma keeps_turn : keeps P (turn fuel fixed1).
Proof. unfold turn, command_part. skeep. Qed.
Hint Resolve keeps_turn : keep.
Lemma keeps_monitor_loop turns : keeps P (monitor_loop fuel fixed1 turns).
Proof. induction turns as [|turns IH]; cbn [monitor_loop]; skeep. Qed.

(** Everything but the terminal *)
Lemma keeps_close : keeps P (close None).
Proof.
  unfold close. apply keeps_bind; [skeep|]. intros _. apply keeps_bind; [skeep|]. intros _.
  apply keeps_bind; [skeep|]. intros _. apply keeps_owner. intros [] Ho; cbn [when]; skeep.
Qed.

Hypothesis mode_keeps : ∀ f s, mode_effect f → P s → P (put_world (f (s_world s)) s).

Lemma keeps_mode f : mode_effect f → keeps P (outside_do f).
Proof. intros Hf. apply keeps_modify. intros s. by apply mode_keeps. Qed.
Hint Resolve keeps_mode : keep.
Hint Constructors mode_effect : keep.
Lemma keeps_closing terminal : keeps P (close terminal).
Proof.
  destruct terminal as [a|]; [|apply keeps_close].
  intros s Hs. exact (keeps_close _ (mode_keeps _ s (mode_back a) Hs)).
Qed.
Lemma keeps_enter_cbreak : keeps P enter_cbreak.
Proof. unfold enter_cbreak. skeep. Qed.
Hint Resolve keeps_monitor_loop keeps_closing keeps_enter_cbreak keeps_refuse_regression keeps_report_identity : keep.

Lemma keeps_banner : keeps P banner.
Proof. unfold banner. skeep. Qed.
Hint Resolve keeps_banner : keep.

Hypothesis identity_keeps : ∀ s b, P s → P (put_failed_identity b s).

Lemma keeps_startup : keeps P (startup fuel fixed1).
Proof. unfold startup. skeep; auto. Qed.

Lemma keeps_loop_and_close turns terminal : keeps P (loop_and_close fuel fixed1 turns terminal).
Proof.
  intros s Hs. unfold loop_and_close. pose proof (keeps_monitor_loop turns s Hs) as Hl.
  assert (∀ (A : Type) (k : run A), keeps P k → keeps P (_ ← close terminal; k)) as Hk.
  { intros A k Hk. apply keeps_bind; [auto with keep|by intros]. }
  destruct (monitor_loop fuel fixed1 turns s) as [s1 [[]|e]].
  - apply Hk; [skeep|apply Hl].
  - done.
  - apply Hk; [skeep|apply Hl].
Qed.
Lemma keeps_persistent_monitor turns : keeps P (persistent_monitor fuel fixed1 turns).
Proof.
  unfold persistent_monitor. apply keeps_bind; [apply keeps_startup|]. intros _.
  apply keeps_bind; [apply keeps_enter_cbreak|]. intros terminal. apply keeps_loop_and_close.
Qed.
End session_invariant.
