(* ===== verification/Finite.v ===== *)
(** * The loops of a session end

    [TimedWorld] says that time passes, [FiniteSession] that the device and the
    broker give finitely many answers, and that the broker's clients queue
    finitely many controls, whose timeouts are bounded.  Then enough fuel rules
    out that a loop of the session is cut short: [fed] is an invariant of every
    operation, and in such a state no loop of [loops] runs out of fuel. *)

From S2P Require Import Prelude Struct PyText Json Protocol Core Memory Mailbox Workload RuntimeState Diagnostics.
From S2P Require Import Timeout Filesystem RequestChannel ServiceClient WorkloadClient Broker Console Transport Evidence Shell.
From S2P Require Import Session Commands Monitor Preserve.
From Stdlib Require Import SpecFloat.

(** Time does not go back, and sleeping takes its time. *)
Class TimedWorld (W : Type) `{SessionWorld W} := {
  clock_of : W → Z;
  mode_law : ∀ f w, mode_effect f → clock_of w <= clock_of (f w);
  effect_law : ∀ own f w, effect own f → clock_of w <= clock_of (f w);
  reading_law : ∀ w, (usb_monotonic w).2 = clock_of (usb_monotonic w).1;
  sleeping_law : ∀ ms w, 0 <= ms → clock_of w + ms <= clock_of (usb_sleep ms w);
}.

Class FiniteSession (W : Type) `{TimedWorld W} := {
  answers : W → nat;        (** reports of the device and responses of the owner's broker, still to come *)
  controls : W → nat;       (** controls that clients still queue *)
  control_limit : Z;        (** the longest timeout they ask for, in milliseconds *)
  finite_effect : ∀ own f w, effect own f → (answers (f w) ≤ answers w)%nat ∧ (controls (f w) ≤ controls w)%nat;
  finite_mode : ∀ f w, mode_effect f → (answers (f w) ≤ answers w)%nat ∧ (controls (f w) ≤ controls w)%nat;
  report_law : ∀ n w w' b, usb_read n w = (w', Ok b) → b ≠ [] → (answers w' < answers w)%nat;
  relay_law : ∀ a b i t w w' d, relay a b i t w = (w', Ok d) → (answers w' < answers w)%nat;
  control_law : ∀ w w' c, broker_control w = (w', Some c) →
    (controls w' < controls w)%nat ∧ ∀ began t, within began (Broker.c_timeout c) t = true → t <= began + control_limit;
}.

Section finite.
Context (fuel : nat) {W : Type} `{FiniteSession W}.
Abbreviation run := (io (session W)).

(** ** The exchange *)

Lemma keeps_printing (w : W) text : keeps (λ s, s_world s = w) (print_event text).
Proof.
  assert (∀ f, keeps (λ s, s_world s = w) (on_console (W := W) f)) as Hc by (intros f; by apply keeps_modify).
  assert (keeps (λ s, s_world s = w) (redraw (W := W))) as Hr.
  { apply keeps_intro. intros s Hs. unfold redraw. by destruct (render _ _ _). }
  unfold print_event, when. keep.
Qed.
Lemma keeps_lines_world (w : W) lines : keeps (λ s, s_world s = w) (cdc_lines lines).
Proof.
  pose proof (keeps_printing w).
  assert (keeps (λ s, s_world s = w) (update_console_runtime (W := W))) as Hu
    by (unfold update_console_runtime, on_console; keep).
  induction lines as [|line lines IH]; cbn [cdc_lines]; unfold cdc_line, when; keep; done.
Qed.
Lemma outside_bind {A B} (m : io W A) (k : A → run B) s :
  (outside m ≫= k) s = let '(w, r) := m (s_world s) in
                       match r with Ok a => k a (put_world w s) | Raise e => (put_world w s, Raise e) end.
Proof. unfold mbind, io_bind, outside. by destruct (m (s_world s)). Qed.

(** Draining the stream is one read of it, at most. *)
Lemma drain_cdc_world (s : session W) :
  s_world (drain_cdc s).1 = s_world s ∨ s_world (drain_cdc s).1 = (cdc_read (s_world s)).1.
Proof.
  unfold drain_cdc. change ((gets ?f ≫= ?k) s) with (k (f s) s). cbv beta. case_match; [by left|]. right.
  unfold catch_os_error. rewrite outside_bind. destruct (cdc_read (s_world s)) as [w [chunk|[]]]; try done. cbn [fst].
  set (rest := when _ _). assert (keeps (λ s, s_world s = w) rest) as Hk.
  { subst rest. pose proof (keeps_lines_world w). unfold when. keep; done. }
  specialize (Hk (put_world w s) eq_refl). destruct (rest _) as [s' [u|[]]]; naive_solver.
Qed.

#[export] Program Instance session_finite : FiniteWorld (session W) := {|
  RequestChannel.clock := λ s, clock_of (s_world s);
  RequestChannel.pending := λ s, answers (s_world s);
|}.
Next Obligation.
  intros s s' t E. cbn in *. pose proof (reading_law (s_world s)). pose proof (effect_law true _ (s_world s) (effect_clock _)).
  pose proof (finite_effect true _ (s_world s) (effect_clock _)) as [? _]. cbn in *.
  destruct (usb_monotonic (s_world s)) as [w u]. simplify_eq. by cbn in *.
Qed.
Next Obligation.
  intros s ms Hms. cbn. split; [by apply sleeping_law|]. by apply (finite_effect true (usb_sleep ms)); constructor.
Qed.
Next Obligation.
  intros n s s' r E. cbn in *. unfold outside in E.
  pose proof (effect_law true _ (s_world s) (effect_read _ n eq_refl)).
  pose proof (finite_effect true _ (s_world s) (effect_read _ n eq_refl)) as [? _]. cbn in *.
  destruct (usb_read n (s_world s)) as [w u] eqn:Er. simplify_eq. cbn in *. split_and!; [done..|].
  intros b -> Hb. by eapply report_law.
Qed.
Next Obligation.
  intros b s s' r E. cbn in *. unfold outside in E.
  pose proof (effect_law true _ (s_world s) (effect_write _ b eq_refl)).
  pose proof (finite_effect true _ (s_world s) (effect_write _ b eq_refl)) as [? _]. cbn in *.
  destruct (usb_write b (s_world s)) as [w u] eqn:Er. by simplify_eq.
Qed.
Next Obligation.
  intros s s' r E. cbn in *. unfold mbind, io_bind, gets in E. pose proof (drain_cdc_world s) as Hw.
  pose proof (effect_law true _ (s_world s) (effect_cdc _ eq_refl)).
  pose proof (finite_effect true _ (s_world s) (effect_cdc _ eq_refl)) as [? _].
  destruct (drain_cdc s) as [s1 [u|e]]; simplify_eq; cbn in *; destruct Hw as [->| ->]; by auto with lia.
Qed.
(** Every reply costs an answer, over HID and through the owner's broker. *)
Lemma hid_exchange_costs request s s' m ms error :
  hid_exchange fuel request s = (s', Ok (Some m, ms, error)) → (answers (s_world s') < answers (s_world s))%nat.
Proof.
  unfold hid_exchange, in_time. intros E. io_inv. rename select (exchange_hid_request _ _ _ _ _ = _) into Hx.
  rename select (option ExchangeResult) into o. destruct o as [r|]; io_inv. rename select (when _ _ _ = _) into Hw.
  apply exchange_costs in Hx; [|congruence]. cbn in Hx. unfold when in Hw. case_match; io_inv; exact Hx.
Qed.
Lemma relay_exchange_costs a request s s' m ms error :
  relay_exchange a request s = (s', Ok (Some m, ms, error)) → (answers (s_world s') < answers (s_world s))%nat.
Proof.
  unfold relay_exchange. intros E. io_step. rename select (monotonic_now s = _) into Hn.
  rename select (catch_classes _ _ _ _ = _) into Hc. apply catch_ok in Hc as [Hc|(s1 & e & text & _ & _ & Hc)]; [|io_inv].
  do 4 io_step. case_match; io_inv. rename select (outside _ _ = _) into Hx.
  pose proof (finite_effect true _ (s_world s) (effect_clock _)) as [Hl _].
  unfold monotonic_now, outside_total, outside in *. cbn in Hl.
  destruct (usb_monotonic (s_world s)) as [w1 t]. injection Hn as <- _. destruct (relay _ _ _ _ _) as [w2 x] eqn:Hr.
  injection Hx as <- ->. apply relay_law in Hr. cbn in *. lia.
Qed.
Lemma session_exchange_costs request s s' m ms error :
  session_exchange fuel request s = (s', Ok (Some m, ms, error)) → (answers (s_world s') < answers (s_world s))%nat.
Proof.
  unfold session_exchange. intros E. io_step. unfold gets in *. simplify_eq. case_match.
  - by eapply relay_exchange_costs.
  - by eapply hid_exchange_costs.
Qed.
Lemma activity_answers (s : session W) : (answers (s_world (defer_periodic_probe s)) ≤ answers (s_world s))%nat.
Proof.
  unfold defer_periodic_probe. pose proof (finite_effect true _ (s_world s) (effect_clock _)) as [Hl _]. cbn in Hl.
  by destruct (usb_monotonic (s_world s)).
Qed.

(** ** What every operation preserves: time, and the controls to come *)

Record paced (cfg : config) (c : Z) (k : nat) (s : session W) : Prop := {
  pa_config : s_config s = cfg;
  pa_clock : c <= clock_of (s_world s);
  pa_controls : (controls (s_world s) ≤ k)%nat;
  pa_counter : counter_ok (s_sequence s);
}.
#[export] Instance paced_invariant cfg c k : SessionInvariant fuel cfg (paced cfg c k).
Proof.
  split.
  - by intros s [].
  - intros f s Hf []. pose proof (effect_law _ f (s_world s) Hf). pose proof (finite_effect _ f (s_world s) Hf).
    split; try done; cbn; lia.
  - intros s s' (Hw & Hc & _ & _ & _ & _ & _ & Hq & _) []. split; congruence.
  - intros s []. by split.
  - intros s []. by split.
  - intros s m w [] _ _. by split.
  - intros s []. by split.
  - by intros s [].
  - intros s q [] ?. by split.
  - intros A m s s' _ _ [] _. by split.
Qed.

(** ** The loops *)

(** With fuel for the answers, a request's timeout and the controls to come, and
    without a keyboard *)
Record fed (cfg : config) (s : session W) : Prop := {
  fe_config : s_config s = cfg;
  fe_counter : counter_ok (s_sequence s);
  fe_quiet : c_interactive cfg = false;
  fe_answers : (answers (s_world s) + Z.to_nat (Z.max (Session.c_timeout cfg) control_limit + 1) + 51 < fuel)%nat;
  fe_controls : (controls (s_world s) < fuel)%nat;
  fe_starved : s_starved s = false;
}.

Lemma with_services_none {A} (m : io (client (session W)) (option A)) s s' :
  with_services m s = (s', Ok None) → ∃ c', m (mkClient s (s_sequence s)) = (c', Ok None).
Proof. unfold with_services. destruct (m _) as [c' r]. intros [= _ ->]. by eexists. Qed.

Lemma controls_end n s s' cfg c :
  owner_of cfg = true → paced cfg c (controls (s_world s)) s → (controls (s_world s) < n)%nat →
  serve_controls fuel n s ≠ (s', Ok None).
Proof.
  intros Ho. revert s. induction n as [|n IH]; intros s Hs Hn E; [lia|]. cbn [serve_controls] in E. io_step.
  rename select (outside_total _ _ = _) into Hc. eapply (triple_run (paced cfg c (controls (s_world s)))) in Hc as Hq;
    [|eapply triple_control; [apply paced_invariant|done]|exact Hs]. destruct Hq as [Hp Hq]. specialize (Hq _ eq_refl).
  case_match; io_inv; subst. unfold outside_total, outside in Hc.
  destruct (broker_control (s_world s)) as [w r] eqn:Er. injection Hc as <- ->. apply control_law in Er as [Hlt _].
  rename select (control_served _ _ _ = _) into Hd.
  assert (paced cfg c (controls w) (put_world w s)) as Hp2 by (destruct Hp; by split).
  eapply (keeps_run (paced cfg c (controls w))) in Hd; [|eapply keeps_control_served; [apply paced_invariant|done|by apply Hq]|exact Hp2].
  eapply IH; [|..|eassumption]; destruct Hd; [by split|lia].
Qed.

Lemma monotonic_reading (s s' : session W) t : monotonic_now s = (s', Ok t) → t = clock_of (s_world s').
Proof.
  unfold monotonic_now, outside_total, outside. pose proof (reading_law (s_world s)) as Hr.
  destruct (usb_monotonic (s_world s)) as [w u]. intros [= <- <-]. exact Hr.
Qed.
Lemma mailbox_polls_end turns deadline generation failed cfg c k s s' :
  paced cfg c k s → (Z.to_nat (deadline - c) < turns)%nat →
  mailbox_poll fuel turns deadline generation failed s ≠ (s', Ok None).
Proof.
  revert c failed s. induction turns as [|turns IH]; intros c failed s Hs Hn E; [lia|]. cbn [mailbox_poll] in E.
  io_step. rename select (monotonic_now _ = _) into Hm. apply monotonic_reading in Hm as Ht.
  eapply (keeps_run (paced cfg c k)) in Hm; [|eapply keeps_monotonic, paced_invariant|exact Hs].
  case_match eqn:Hd; [by io_inv|]. io_step. rename select (service _ _ = _) into Hr.
  eapply (keeps_run (paced cfg c k)) in Hr; [|eapply keeps_memory_service, paced_invariant|exact Hm].
  apply negb_false_iff in Hd. destruct Hm as [_ Hc _ _].
  repeat case_match; io_inv. rename select (outside_do _ _ = _) into Hp. unfold outside_do, modify in Hp. injection Hp as <- _.
  eapply (IH (c + 10)); [| |eassumption]; [|lia].
  destruct Hr as [? Hc' ? ?]. pose proof (sleeping_law 10 (s_world x1) ltac:(lia)). pose proof (effect_sleep true 10) as He.
  pose proof (finite_effect _ _ (s_world x1) He) as [_ ?]. split; try done; cbn in *; lia.
Qed.

Lemma services_end s (c : client (session W)) : world c = s → (answers (s_world s) < fuel)%nat →
  (∀ address length c', read_memory (H := session_channel fuel) fuel address length c ≠ (c', Ok None))
  ∧ (∀ path c', read_directory (H := session_channel fuel) fuel path c ≠ (c', Ok None))
  ∧ (∀ path c', read_file (H := session_channel fuel) fuel path c ≠ (c', Ok None)).
Proof.
  intros <- Hf. pose proof session_exchange_costs. pose proof activity_answers. set (left := λ t : session W, answers (s_world t)).
  split_and!; intros; [eapply (read_memory_ends left)|eapply (read_directory_ends left)|eapply (read_file_ends left)]; done.
Qed.

(** ** No loop is cut short *)

Lemma status_requests_end (s s' : session W) timeout :
  (∀ began t, within began timeout t = true → t <= began + control_limit) → (Z.to_nat (control_limit + 1) < fuel)%nat →
  send_status_request fuel timeout s ≠ (s', Ok None).
Proof.
  intros Hl Hf. apply (cdc_request_ends timeout control_limit Hl (λ s : session W, clock_of (s_world s))); [..|done]; cbn.
  - intros t. pose proof (reading_law (s_world t)). pose proof (effect_law true _ (s_world t) (effect_clock _)).
    cbv beta in *. destruct (usb_monotonic (s_world t)). by cbn in *.
  - intros n t. pose proof (effect_law true _ (s_world t) (effect_cdc_some _ n eq_refl)).
    cbv beta in *. unfold outside.
    by destruct (cdc_read_some n (s_world t)).
  - intros ms t. apply sleeping_law.
Qed.

Lemma fed_loops_end cfg A (m : run (option A)) : loops fuel cfg m → ∀ s s', fed cfg s → m s ≠ (s', Ok None).
Proof.
  intros Hm s s' [Hcfg Hq Hquiet Ha Hc _].
  destruct (services_end s (mkClient s (s_sequence s)) eq_refl ltac:(lia)) as (Hread & Hlist & Hfile).
  destruct Hm as [request expected Ho|c Ho (w & w' & Hx)|c op seq Ho (w & w' & Hx)|Ho|a l|path|path|generation|b cur Hi].
  - apply exchange_ends. cbn. lia.
  - apply control_law in Hx as [_ Hx]. apply status_requests_end; [done|lia].
  - apply control_law in Hx as [_ Hx]. apply (runtime_control_ends _ _ Hx). cbn. lia.
  - eapply controls_end; [done|by split|done].
  - intros E. apply with_services_none in E as [c' E]. by eapply Hread.
  - intros E. apply with_services_none in E as [c' E]. by eapply Hlist.
  - intros E. apply with_services_none in E as [c' E]. by eapply Hfile.
  - unfold mailbox_wait. intros E. io_step. rename select (monotonic_now _ = _) into Hm. apply monotonic_reading in Hm as Ht. subst.
    eapply (keeps_run (paced (s_config s) (clock_of (s_world s)) (controls (s_world s)))) in Hm as Hp;
      [|eapply keeps_monotonic, paced_invariant|by split].
    refine (mailbox_polls_end fuel (clock_of (s_world x) + Session.c_timeout (s_config x)) generation None (s_config s)
              (clock_of (s_world x)) (controls (s_world s)) x s' _ _ _);
      [| |match goal with E : (gets _ ≫= _) x = _ |- _ => exact E end].
    + destruct Hp. by split.
    + rewrite (pa_config _ _ _ _ Hp). lia.
  - congruence.
Qed.

(** Every operation of the session keeps it fed. *)
#[export] Instance fed_invariant cfg : SessionInvariant fuel cfg (fed cfg).
Proof.
  split.
  - by intros s [].
  - intros f s Hf []. pose proof (finite_effect _ f (s_world s) Hf). split; try done; cbn; lia.
  - intros s s' (Hw & Hc & _ & _ & _ & _ & _ & Hq & Hf) []. split; congruence.
  - intros s []. by split.
  - intros s []. by split.
  - intros s m w [] _ _. by split.
  - intros s []. by split.
  - by intros s [].
  - intros s q [] ?. by split.
  - intros A m s s' Hm Hs _ E. by eapply fed_loops_end in E.
Qed.
Lemma fed_mode cfg f (s : session W) : mode_effect f → fed cfg s → fed cfg (put_world (f (s_world s)) s).
Proof. intros Hf []. pose proof (finite_mode f (s_world s) Hf). split; try done; cbn; lia. Qed.
End finite.
