(* ===== verification/Verdict.v ===== *)
(** * What the verdict of a session certifies (host/rp86/session.py)

    The invariant [evident]: every workload state the session holds is one the
    device reported (up to the two flag bits the Host sets itself), and a
    regression that passed was reported as passed by the device.  It holds at
    the start and every operation preserves it, so a passing exit code can be
    traced back to replies that were read from the device.  The file also
    shows that the exit code and the written summary never disagree, and that
    a regression run without a terminal ends. *)

From S2P Require Import Prelude Struct PyText Json Protocol Core Memory Mailbox Workload RuntimeState Diagnostics.
From S2P Require Import Timeout Filesystem RequestChannel ServiceClient WorkloadClient Broker Console Transport Evidence Shell.
From S2P Require Import Session Commands Monitor Preserve Finite.
From Stdlib Require Import SpecFloat.

Lemma sequence_init_ok v : counter_ok (sequence_init v).
Proof.
  unfold counter_ok, sequence_init. cbn. pose proof (mask32_range v). destruct (Z.eqb_spec (mask32 v) 0); lia.
Qed.

Section verdict.
Context (fuel : nat) (fixed1 : Z → string).
Context {W : Type} `{SessionWorld W}.

(** A state that the device reported *)
Definition device_state (cfg : config) (st : WorkloadRuntimeState) : Prop :=
  ∃ m, reported_by_device (W := W) cfg m ∧ from_payload (payload m) = Ok st.

(** Up to [mark_idle] and [mark_prepared_runtime_initialized] *)
Definition attested (cfg : config) (w : WorkloadRuntimeState) : Prop :=
  ∃ st flags, (st = runtime_init ∨ device_state cfg st) ∧ w = with_processor_flags flags st.

Record evident (cfg : config) (failed : bool) (s : session W) : Prop := {
  ev_config : s_config s = cfg;
  ev_failed : s_failed_identity s = failed;
  ev_workload : attested cfg (s_workload s);
  ev_passed : s_passed s = Some true → ∃ st, device_state cfg st ∧ physical_regression_passed st = true;
  ev_counter : counter_ok (s_sequence s);
}.

Lemma attested_flags cfg w flags : attested cfg w → attested cfg (with_processor_flags flags w).
Proof. intros (st & f & Hst & ->). exists st, flags. split; [done|]. by destruct st. Qed.

Lemma evident_same cfg failed s s' :
  s_config s' = s_config s → s_failed_identity s' = s_failed_identity s → s_workload s' = s_workload s →
  s_passed s' = s_passed s → s_sequence s' = s_sequence s → evident cfg failed s → evident cfg failed s'.
Proof. intros E1 E2 E3 E4 E5 []. split; [congruence..|by rewrite E3|by rewrite E4|by rewrite E5]. Qed.

#[export] Instance evident_invariant cfg failed : SessionInvariant fuel cfg (evident cfg failed).
Proof.
  split.
  - by intros s [].
  - intros f s _. by apply evident_same.
  - intros s s' (_ & ? & ? & ? & _ & _ & ? & ? & _). by apply evident_same.
  - intros s []. split; try done. by apply attested_flags.
  - intros s []. split; try done. by apply attested_flags.
  - intros s m w [] Hm Hu. split; try done. cbn. exists w, (processor_flags w). split; [|by destruct w].
    right. exists m. split; [done|]. unfold update_from_payload in Hu.
    destruct (from_payload _) as [st|] eqn:E; [|done]. cbn in Hu. injection Hu as <-. by destruct st.
  - intros s []. by split.
  - by intros s [].
  - intros s q [] ?. by split.
  - intros A m s s' _ _ [] _. by split.
Qed.

(** The device reported the pass that the session reports. *)
Lemma attested_pass cfg w :
  attested cfg w → physical_regression_passed w = true →
  ∃ st, device_state cfg st ∧ physical_regression_passed st = true.
Proof.
  intros (st & f & [->|Hst] & ->) Hp; [discriminate Hp|]. exists st. split; [done|]. by destruct st.
Qed.
Lemma attested_processor cfg w p :
  attested cfg w → runtime_processor w = Ok (Some p) →
  ∃ st, device_state cfg st ∧ runtime_processor st = Ok (Some p).
Proof.
  intros (st & f & [->|Hst] & ->) Hp; [discriminate Hp|]. exists st. split; [done|]. by destruct st.
Qed.

Lemma evident_passed cfg failed s :
  evident cfg failed s → physical_regression_passed (s_workload s) = true → evident cfg failed (put_passed (Some true) s).
Proof. intros [] Hp. split; try done. intros _. by eapply attested_pass. Qed.
Lemma evident_commands cfg failed s l : evident cfg failed s → evident cfg failed (put_commands l s).
Proof. by apply evident_same. Qed.

(** *** The start *)

(** The flag that the identity assertion sets, and what its absence means *)
Lemma startup_evident cfg s s' :
  evident cfg false s → startup fuel fixed1 s = (s', Ok tt) →
  ∃ failed, evident cfg failed s'
    ∧ (failed = false → ∀ p, expected_of cfg = Some p →
         ∃ st, device_state cfg st ∧ runtime_processor st = Ok (Some p)).
Proof.
  intros Hs E. unfold startup in E. io_inv. cbv zeta in *. io_inv.
  rename select (banner _ = _) into R0.
  eapply (keeps_run (evident cfg false)) in R0; [|eapply keeps_banner, _|exact Hs]. clear Hs. rename R0 into Hs.
  rename select (status_transaction _ _ _ _ _ _ = _) into R1. rename select (when _ _ _ = _) into R2.
  rename select (report_identity _ _ _ _ = _) into R3. rename select (refuse_regression _ _ = _) into R4.
  eapply (keeps_run (evident cfg false)) in R1; [|eapply keeps_status_transaction, _|exact Hs].
  eapply (keeps_run (evident cfg false)) in R2; [|apply keeps_when, keeps_modify; intros ?; by apply evident_same|exact R1].
  rename select (runtime_processor _ = Ok _) into R6. set (failed := bool_decide _ && _) in *. exists failed. split.
  - match goal with _ : report_identity _ _ _ (put_failed_identity _ ?t) = _ |- _ =>
      assert (evident cfg failed (put_failed_identity failed t)) as R5 by (destruct R2; by split) end.
    eapply (keeps_run (evident cfg failed)) in R3; [|eapply keeps_report_identity, _|exact R5].
    eapply (keeps_run (evident cfg failed)) in R4; [exact R4| |exact R3].
    eapply keeps_refuse_regression; [apply _|]. intros ?. apply evident_commands.
  - intros Hf p Hp. destruct R2 as [Hc _ Hw _ _]. eapply attested_processor; [exact Hw|].
    subst failed. unfold expected_processor in Hf. unfold expected_of in Hp. rewrite Hc, Hp in Hf.
    cbn in Hf. apply negb_false_iff, bool_decide_eq_true in Hf. by rewrite R6, Hf.
Qed.

(** A session that ends: what ran before *)
Lemma monitor_shape turns s s' code :
  persistent_monitor fuel fixed1 turns s = (s', Ok (Some code)) →
  ∃ s1 terminal s2 s3, startup fuel fixed1 s = (s1, Ok tt) ∧ enter_cbreak s1 = (s2, Ok terminal)
    ∧ monitor_loop fuel fixed1 turns s2 = (s3, Ok true) ∧ close terminal s3 = (s', Ok tt) ∧ code = exit_code s'.
Proof.
  unfold persistent_monitor. intros E. io_step. io_step. unfold loop_and_close in *.
  destruct (monitor_loop _ _ _ _) as [t [[]|e]] eqn:El; [|done|by io_inv]. io_inv.
  repeat match goal with u : () |- _ => destruct u end. by eexists _, _, _, _.
Qed.

Lemma evident_mode cfg failed f s :
  mode_effect f → evident cfg failed s → evident cfg failed (put_world (f (s_world s)) s).
Proof. intros _. by apply evident_same. Qed.

(** The whole session: the final state is evident, and the code is its exit code. *)
Lemma monitor_evident cfg turns s s' code :
  evident cfg false s → persistent_monitor fuel fixed1 turns s = (s', Ok (Some code)) →
  code = exit_code s'
  ∧ ∃ failed, evident cfg failed s'
    ∧ (failed = false → ∀ p, expected_of cfg = Some p →
         ∃ st, device_state cfg st ∧ runtime_processor st = Ok (Some p)).
Proof.
  intros Hs E. apply monitor_shape in E as (s1 & terminal & s2 & s3 & E1 & E2 & E3 & E4 & ->). split; [done|].
  destruct (startup_evident cfg s s1 Hs E1) as (failed & He & Hi). exists failed. split; [|done].
  eapply (keeps_run (evident cfg failed)) in E2; [|apply keeps_enter_cbreak, evident_mode|exact He].
  eapply (keeps_run (evident cfg failed)) in E3;
    [|eapply keeps_monitor_loop; [apply _|apply evident_passed|apply evident_commands]|exact E2].
  eapply (keeps_run (evident cfg failed)) in E4; [exact E4|eapply keeps_closing; [apply _|apply evident_mode]|exact E3].
Qed.

(** The start: the arguments with what was opened, and nothing observed yet *)
Lemma start_shape `{SessionOpening W} cfg display sequence cwd output port serial record (w w' : W) s :
  session_start cfg display sequence cwd output port serial record w = (w', Ok s) →
  (∃ started paths attached identity, s_config s = opened started paths attached identity cfg)
  ∧ s_failed_identity s = false ∧ s_workload s = runtime_init ∧ s_passed s = None ∧ counter_ok (s_sequence s).
Proof.
  unfold session_start. intros E. io_inv. case_match; io_inv; cbn;
    (split; [by eexists _, _, _, _|]); by split_and!; [..|apply sequence_init_ok].
Qed.
Lemma start_evident `{SessionOpening W} cfg display sequence cwd output port serial record (w w' : W) s :
  session_start cfg display sequence cwd output port serial record w = (w', Ok s) → evident (s_config s) false s.
Proof.
  intros E. destruct (start_shape _ _ _ _ _ _ _ _ _ _ _ E) as (_ & Hf & Hw & Hp & Hc).
  split; [done|done| |by rewrite Hp|done]. exists runtime_init, 0. rewrite Hw. by split; [left|].
Qed.

Lemma exit_pass (s : session W) :
  exit_code s = PASS_EXIT →
  s_transport s = None ∧ s_failed_identity s = false ∧ probes_failed s = false ∧ regression_failed s = false.
Proof. unfold exit_code. by repeat case_match. Qed.
End verdict.

(** C1: a session that exits with the passing code kept its USB connection;
    the device itself reported the declared processor, if one was declared; a
    requested native probe was answered at least once and never lost; and a
    regression passed because the device, in a reply read from it to a request
    of this session, reported a completed workload with every mark of a
    physical pass. *)
Theorem pass_exit_certified {W} `{SessionWorld W} `{SessionOpening W} fuel fixed1 cfg display sequence cwd output port serial
    record (w w' : W) turns s s' :
  session_start cfg display sequence cwd output port serial record w = (w', Ok s) →
  persistent_monitor fuel fixed1 turns s = (s', Ok (Some PASS_EXIT)) →
  s_transport s' = None
  ∧ (∀ p, expected_of cfg = Some p → ∃ st, device_state (s_config s) st ∧ runtime_processor st = Ok (Some p))
  ∧ (c_native_probe cfg = true → 0 < completed (s_stats s') ∧ lost (s_stats s') = 0)
  ∧ (regression_on s' = true → ∃ st, device_state (s_config s) st ∧ physical_regression_passed st = true).
Proof.
  intros Hs E. destruct (start_shape _ _ _ _ _ _ _ _ _ _ _ Hs) as ((started & paths & attached & identity & Hcfg) & _).
  apply start_evident in Hs. destruct (monitor_evident _ _ _ _ _ _ _ Hs E) as (Hc & failed & He & Hi).
  destruct (exit_pass s' (eq_sym Hc)) as (Ht & Hf & Hp & Hr). destruct He as [Hs' Hfail Hw Hpass _].
  split; [done|]. split; [|split].
  - intros p Ep. apply Hi; [congruence|]. by rewrite Hcfg.
  - intros Hn. unfold probes_failed in Hp. rewrite Hs', Hcfg in Hp. cbn in Hp. rewrite Hn in Hp. cbn in Hp. lia.
  - intros Hon. apply Hpass. unfold regression_failed in Hr. rewrite Hon in Hr. cbn in Hr.
    by apply negb_false_iff, bool_decide_eq_true in Hr.
Qed.

(** ** A regression run ends *)

(** What [TimedWorld] says of the session, of the opening *)
Inductive opening_effect {W} `{SessionOpening W} : (W → W) → Prop :=
| opening_discover : opening_effect (λ w, (discover_records w).1)
| opening_hello a : opening_effect (λ w, (broker_hello a w).1)
| opening_start d p : opening_effect (λ w, (owner_start d p w).1)
| opening_cdc p : opening_effect (λ w, (open_cdc p w).1)
| opening_dtr : opening_effect (λ w, (raise_dtr w).1)
| opening_enumerate : opening_effect (λ w, (hid_enumerate w).1)
| opening_path p : opening_effect (λ w, (open_path p w).1)
| opening_started : opening_effect (λ w, (started_now w).1)
| opening_directory d : opening_effect (λ w, (make_directory d w).1)
| opening_close : opening_effect (λ w, (close_cdc w).1).
Class TimedOpening (W : Type) `{TimedWorld W} `{SessionOpening W} := {
  opening_law : ∀ f w, opening_effect f → clock_of w <= clock_of (f w);
}.

Section opening.
Context {W : Type} `{TimedOpening W} (c : Z).
Let late (w : W) : Prop := c <= clock_of w.

Lemma late_opening {A} (m : io W A) : opening_effect (λ w, (m w).1) → keeps late m.
Proof. intros Hm. apply keeps_intro. intros w Hw. pose proof (opening_law _ w Hm). unfold late in *. cbn in *. lia. Qed.
Lemma late_effect own f w : effect own f → late w → late (f w).
Proof. intros Hf Hw. pose proof (effect_law own f w Hf). unfold late in *. lia. Qed.
#[local] Hint Resolve late_opening : keep.
#[local] Hint Constructors opening_effect : keep.

Lemma keeps_open port serial processor record : keeps late (open_session port serial processor record).
Proof.
  assert (∀ connected e, keeps late (give_back connected e)) as Hback.
  { intros connected e. unfold give_back. keep. by apply (late_effect true owner_stop); [constructor|]. }
  assert (∀ s, keeps late (open_devices port s)) as Hopen.
  { intros s w Hw. unfold open_devices. pose proof (late_opening (open_cdc port) (opening_cdc port) w Hw) as Hc.
    destruct (open_cdc port w) as [w1 [u|e]]; [destruct Hc as [Hc _]|by apply (Hback false e w1)].
    assert (keeps late (_ ← raise_dtr; open_hid s)) as Hd
      by (keep; apply keeps_open_hid; auto with keep). specialize (Hd w1 Hc).
    destruct ((_ ← raise_dtr; open_hid s) w1) as [w2 [d|e]]; [done|by apply (Hback true e w2)]. }
  unfold open_session. keep. apply keeps_intro. intros w Hw. pose proof (late_effect true _ w (effect_random _ 32) Hw) as Hr.
  cbn in Hr. by destruct (random_bits 32 w).
Qed.
End opening.

Section ending.
Context (fuel : nat) (fixed1 : Z → string).
Context {W : Type} `{TimedWorld W}.

(** No earlier than [c], with at most [n] commands to go and the deadline [d] *)
Record timed (cfg : config) (c : Z) (n : nat) (d : Z) (s : session W) : Prop := {
  ti_config : s_config s = cfg;
  ti_clock : c <= clock_of (s_world s);
  ti_commands : (length (s_commands s) ≤ n)%nat;
  ti_deadline : s_deadline s = Some d;
  ti_counter : counter_ok (s_sequence s);
}.

#[export] Instance timed_invariant cfg c n d : SessionInvariant fuel cfg (timed cfg c n d).
Proof.
  split.
  - by intros s [].
  - intros f s Hf []. split; try done. cbn. etransitivity; [eassumption|]. by eapply effect_law.
  - intros s s' (Hw & Hc & _ & _ & Hl & Hd & _ & Hq & _) []. split; congruence.
  - intros s []. by split.
  - intros s []. by split.
  - intros s m w [] _ _. by split.
  - intros s []. by split.
  - by intros s [].
  - intros s q [] ?. by split.
  - intros A m s s' _ _ [] _. by split.
Qed.

Lemma timed_mode cfg c n d f (s : session W) :
  mode_effect f → timed cfg c n d s → timed cfg c n d (put_world (f (s_world s)) s).
Proof. intros Hf []. split; try done. cbn. etransitivity; [eassumption|]. by apply mode_law. Qed.
Lemma timed_passed cfg c n d (s : session W) :
  timed cfg c n d s → physical_regression_passed (s_workload s) = true → timed cfg c n d (put_passed (Some true) s).
Proof. intros [] _. by split. Qed.
Lemma timed_cleared cfg c n d (s : session W) : timed cfg c n d s → timed cfg c n d (put_commands [] s).
Proof. intros []. split; try done. cbn. lia. Qed.

Lemma regression_turn_ends cfg c n d s s' ended :
  timed cfg c n d s → regression_turn s = (s', Ok ended) →
  if ended : bool then s_stop s' = true else timed cfg c n d s' ∧ c < d.
Proof.
  intros Hs E. assert (timed cfg c n d s') as Hs'.
  { eapply (keeps_run (timed cfg c n d)); [|exact Hs|exact E].
    eapply keeps_regression_turn; [apply _|apply timed_passed]. }
  unfold regression_turn, end_regression in E. rewrite (io_bind_ok (gets _)) in E.
  destruct E as (s1 & s2 & [= <- <-] & E). cbv zeta in E. rewrite (ti_deadline _ _ _ _ _ Hs) in E.
  repeat case_match; io_inv; try done.
  all: match goal with Hm : (if ?x then _ else _) _ = (_, Ok _) |- _ => destruct x eqn:?; io_inv end; try done.
  rename select (monotonic_now _ = _) into Hm. apply monotonic_reading in Hm.
  destruct Hs' as [? Hc ? ? ?]. split; [by split|lia].
Qed.

Lemma sleep_turn cfg c n d s s' :
  c_native_probe cfg = false → timed cfg c n d s → native_part fuel fixed1 None s = (s', Ok tt) →
  timed cfg (c + 20) n d s'.
Proof.
  intros Hn Hs E. unfold native_part in E. io_step.
  rename select (monotonic_now _ = _) into R1. eapply (keeps_run (timed cfg c n d)) in R1;
    [|eapply keeps_monotonic, _|exact Hs].
  rewrite (io_bind_ok (gets _)) in *. destruct H2 as (s1 & s2 & [= <- <-] & E).
  rewrite (ti_config _ _ _ _ _ R1), Hn, andb_false_r in E. cbn [andb] in E. io_inv.
  rename select (when _ _ _ = _) into R2. eapply (keeps_run (timed cfg c n d)) in R2; [| |exact R1].
  2:{ apply keeps_when, keeps_modify. intros t []. by split. }
  unfold outside_do in *. io_inv. destruct R2 as [? Hc ? ? ?]. split; try done. cbn.
  match goal with |- context [usb_sleep 20 ?w] => pose proof (sleeping_law 20 w ltac:(lia)) end. lia.
Qed.

Lemma command_part_progress cfg c n d s s' :
  c_interactive cfg = false → c_native_probe cfg = false →
  timed cfg c n d s → command_part fuel fixed1 s = (s', Ok tt) →
  timed cfg c (pred n) d s' ∧ n ≠ O ∨ timed cfg (c + 20) n d s'.
Proof.
  intros Hi Hn Hs E. unfold command_part, next_command in E. io_inv.
  destruct (s_commands _) as [|line rest] eqn:Hl; io_inv.
  - rewrite (ti_config _ _ _ _ _ Hs), Hi in *. cbn [negb] in *. io_inv. right. by eapply sleep_turn.
  - left. pose proof (ti_commands _ _ _ _ _ Hs) as Hlen. rewrite Hl in Hlen. cbn in Hlen.
    split; [|lia].
    match goal with _ : perform_line _ _ _ ?t = _ |- _ => assert (timed cfg c (pred n) d t) as Ht end.
    { destruct Hs. split; try done. cbn. lia. }
    rename select (perform_line _ _ _ _ = _) into R1.
    eapply (keeps_run (timed cfg c (pred n) d)) in R1; [|eapply keeps_perform_line, _|exact Ht].
    case_match; io_inv; [done|]. rename select (native_part _ _ _ _ = _) into R2.
    eapply (keeps_run (timed cfg c (pred n) d)) in R2; [exact R2|eapply keeps_native_part, _|exact R1].
Qed.

(** Without a terminal and native probes, a turn that goes on took one of the
    commands or slept. *)
Lemma turn_progress cfg c n d s s' :
  c_interactive cfg = false → c_native_probe cfg = false →
  timed cfg c n d s → turn fuel fixed1 s = (s', Ok tt) →
  s_stop s' = true ∨ c < d ∧ (timed cfg c (pred n) d s' ∧ n ≠ O ∨ timed cfg (c + 20) n d s').
Proof.
  intros Hi Hn Hs E. unfold turn in E. io_inv.
  rename select (service_broker_requests _ _ = _) into R1. rename select (drain_cdc _ = _) into R2.
  eapply (keeps_run (timed cfg c n d)) in R1; [|eapply keeps_broker_requests, _|exact Hs].
  eapply (keeps_run (timed cfg c n d)) in R2; [|eapply keeps_drain_cdc, _|exact R1].
  case_match; io_inv; [by left|].
  rename select (follow_workload _ _ _ = _) into R3. rename select (regression_turn _ = _) into R4.
  eapply (keeps_run (timed cfg c n d)) in R3; [|eapply keeps_follow_workload, _|exact R2].
  pose proof (regression_turn_ends _ _ _ _ _ _ _ R3 R4) as R5.
  case_match; io_inv; [by left|]. destruct R5 as [R5 Hlt]. right. split; [done|].
  by eapply command_part_progress.
Qed.

Definition turns_needed (c : Z) (n : nat) (d : Z) : nat := S (n + Z.to_nat ((d - c + 19) / 20)).

Lemma monitor_loop_ends cfg c n d turns s :
  c_interactive cfg = false → c_native_probe cfg = false →
  timed cfg c n d s → (turns_needed c n d ≤ turns)%nat →
  (monitor_loop fuel fixed1 turns s).2 ≠ Ok false.
Proof.
  intros Hi Hn. revert c n s. induction turns as [|turns IH]; intros c n s Hs Ht; [unfold turns_needed in Ht; lia|].
  cbn [monitor_loop]. intros E.
  destruct ((gets running ≫= _) s) as [s' r] eqn:Er. cbn in E. subst r. io_inv.
  case_match; io_inv. rename select (turn _ _ _ = _) into R. rename select (monitor_loop _ _ _ _ = _) into R'.
  match type of R with turn _ _ _ = (?t, Ok ?u) => destruct u; rename t into s1 end.
  destruct (turn_progress _ _ _ _ _ _ Hi Hn Hs R) as [Hstop|[Hlt Hp]].
  { assert (running s1 = false) as Hr by (unfold running; by rewrite Hstop).
    destruct turns; cbn in R'; unfold mbind, io_bind, gets in R'; rewrite Hr in R'; discriminate R'. }
  assert (∃ c' n', timed cfg c' n' d s1 ∧ (turns_needed c' n' d ≤ turns)%nat) as (c' & n' & Ht' & Hle).
  { unfold turns_needed in *. destruct Hp as [[Hp Hn0]|Hp]; [exists c, (pred n)|exists (c + 20), n].
    - split; [done|]. lia.
    - split; [done|]. assert ((d - (c + 20) + 19) / 20 = (d - c + 19) / 20 - 1) as ->.
      { replace (d - (c + 20) + 19) with ((d - c + 19) + (-1) * 20) by lia. rewrite Z.div_add by lia. lia. }
      pose proof (Z.div_le_lower_bound (d - c + 19) 20 1). lia. }
  apply (IH c' n' s1 Ht' Hle). by rewrite R'.
Qed.

Lemma startup_timed cfg c n d s s' :
  timed cfg c n d s → startup fuel fixed1 s = (s', Ok tt) → timed cfg c n d s'.
Proof.
  intros Hs E. refine (keeps_run _ (startup fuel fixed1) s s' (Ok tt) _ Hs E).
  eapply keeps_startup; [apply _|intros ?; apply timed_cleared|]. intros t b []. by split.
Qed.

Lemma clock_step (u v : W) y :
  (let '(w, t) := usb_monotonic u in (w, Ok t)) = (v, Ok y) → y = clock_of v ∧ clock_of u <= clock_of v.
Proof.
  pose proof (reading_law u) as Hr. pose proof (effect_law true _ u (effect_clock _)) as Hl.
  cbn in Hl. destruct (usb_monotonic u) as [w t]. intros [= <- <-]. by cbn in *.
Qed.
Lemma start_timed `{!SessionOpening W} `{!TimedOpening W} cfg display sequence cwd output port serial record w w' s :
  session_start cfg display sequence cwd output port serial record w = (w', Ok s) → regression_on s = true →
  ∃ c, timed (s_config s) c 2 (c + c_regression_timeout cfg) s.
Proof.
  clear fuel fixed1. unfold session_start. intros E Hon. io_inv.
  rename select (open_session _ _ _ _ _ = _) into Ho. case_match. io_inv. unfold regression_on in Hon. cbn in Hon.
  destruct (c_regression cfg) as [[|ch r]|]; try discriminate Hon. io_inv.
  repeat match goal with Hc : (let '(_, _) := usb_monotonic _ in _) = _ |- _ => apply clock_step in Hc as [? ?] end. subst.
  eexists. split; cbn; [done| |lia|reflexivity|apply sequence_init_ok].
  by refine (keeps_run _ _ _ _ _ (keeps_open _ _ _ _ _) _ Ho).
Qed.
End ending.

(** The session does not starve. *)
Lemma start_fed {W} `{FiniteSession W} `{SessionOpening W} fuel cfg display sequence cwd output port serial record (w w' : W) s :
  session_start cfg display sequence cwd output port serial record w = (w', Ok s) → c_interactive cfg = false →
  (answers (s_world s) + Z.to_nat (Z.max (Session.c_timeout cfg) control_limit + 1) + 51 < fuel)%nat →
  (controls (s_world s) < fuel)%nat → fed fuel (s_config s) s.
Proof.
  intros Hs Hi Ha Hc. destruct (start_shape _ _ _ _ _ _ _ _ _ _ _ Hs) as ((started & paths & attached & identity & Hcfg) & _ & _ & _ & Hq).
  split; try done; try (by rewrite Hcfg). unfold session_start in Hs. io_inv. case_match; by io_inv.
Qed.
Lemma fed_run {W} `{FiniteSession W} fuel fixed1 cfg turns (s s' : session W) r :
  fed fuel cfg s → persistent_monitor fuel fixed1 turns s = (s', r) → s_starved s' = false.
Proof.
  intros Hs E. refine (fe_starved fuel cfg s' (keeps_run (fed fuel cfg) _ s s' r _ Hs E)).
  eapply keeps_persistent_monitor; [apply fed_invariant|intros ? [] _; by split|intros ? []; by split
    |intros ? ? []; by split|intros ? ?; by apply fed_mode|intros ? ? []; by split].
Qed.

(** C2: a regression run without a terminal and without native probes is over
    after at most one turn per command and one per 20 ms of the regression
    timeout, and no turn goes on for ever: whatever the device, the owner's broker
    and the clients do, when they give finitely many answers and queue finitely
    many controls of bounded timeouts, the session ends and no loop on the way is
    cut short.  The fuel that is enough is a bound for the waiting and polling of
    each single exchange, read or control. *)
Theorem regression_terminates {W} `{FiniteSession W} `{SessionOpening W} `{!TimedOpening W} fuel fixed1 cfg display sequence
    cwd output port serial record (w w' : W) turns s :
  session_start cfg display sequence cwd output port serial record w = (w', Ok s) → regression_on s = true →
  c_interactive cfg = false → c_native_probe cfg = false →
  (answers (s_world s) + Z.to_nat (Z.max (Session.c_timeout cfg) control_limit + 1) + 51 < fuel)%nat →
  (controls (s_world s) < fuel)%nat →
  (3 + Z.to_nat ((c_regression_timeout cfg + 19) / 20) ≤ turns)%nat →
  let '(s', r) := persistent_monitor fuel fixed1 turns s in r ≠ Ok None ∧ s_starved s' = false.
Proof.
  intros Hs Hon Hi Hn Ha Hc Ht. pose proof (start_fed fuel _ _ _ _ _ _ _ _ _ _ _ Hs Hi Ha Hc) as Hfed.
  destruct (start_shape _ _ _ _ _ _ _ _ _ _ _ Hs) as ((started & paths & attached & identity & Hcfg) & _).
  eapply start_timed in Hs as (c & Htm); [|exact Hon..].
  destruct (persistent_monitor fuel fixed1 turns s) as [s' r] eqn:Em. split; [|by eapply fed_run]. intros ->.
  unfold persistent_monitor in Em. io_step. rename x into s1. destruct x0.
  rename select (startup _ _ _ = _) into R. eapply startup_timed in R; [|exact Htm].
  io_step. rename x into s2. rename select (enter_cbreak _ = _) into Rc. rename select (loop_and_close _ _ _ _ _ = _) into Rl.
  eapply (keeps_run (timed (s_config s) c 2 (c + c_regression_timeout cfg))) in Rc;
    [|apply keeps_enter_cbreak, timed_mode|exact R].
  unfold loop_and_close in Rl.
  refine (monitor_loop_ends fuel fixed1 (s_config s) _ _ _ turns s2 _ _ Rc _ _); [by rewrite Hcfg..| |].
  - unfold turns_needed. replace (c + c_regression_timeout cfg - c + 19) with (c_regression_timeout cfg + 19) by lia. lia.
  - destruct (monitor_loop fuel fixed1 turns s2) as [s3 [[]|e]]; io_inv. done.
Qed.

(** ** The exit code and the written evidence *)

Lemma exit_code_reasons {W} (s : session W) : exit_code s = PASS_EXIT ↔ failure_reasons s = [].
Proof.
  unfold exit_code, failure_reasons. destruct (s_transport s); [done|].
  destruct (s_failed_identity s); [done|]. destruct (probes_failed s); [done|]. by destruct (regression_failed s).
Qed.

Lemma summary_fields {W} finished (s : session W) d raw :
  session_summary finished s = Ok d →
  jget "passed" (evidence_write d raw (s_evidence s)).2 = JBool (bool_decide (failure_reasons s = []))
  ∧ jget "failure_reasons" (evidence_write d raw (s_evidence s)).2 = JList (failure_reasons s).
Proof.
  unfold session_summary. intros E. apply bind_ok in E as (workload & _ & E). injection E as <-.
  unfold evidence_write, jget. cbn [snd]. rewrite !str_get_jset_ne by done. done.
Qed.

(** The last writes of a session *)
Lemma close_shape {W} `{SessionWorld W} terminal (s s' : session W) :
  close terminal s = (s', Ok tt) →
  ∃ t finished d c, session_summary finished t = Ok d
    ∧ s' = let '(log, document) := evidence_write d (c_raw_path (s_config t)) (s_evidence t) in
           put_console c (put_world (save_evidence log document (s_world t)) t).
Proof.
  unfold close. intros Hc. do 9 io_step. rename select (session_summary _ _ = Ok _) into Hs.
  destruct (evidence_write _ _ _) as [log document] eqn:Hw. unfold outside_do, on_console in *. io_inv.
  eexists _, _, _, _. rewrite Hw. by split.
Qed.

(** C3: a session that ends writes its evidence last, and the evidence agrees
    with the exit code: the summary says passed exactly when the code is the
    passing one, its failure reasons are empty exactly then, and the raw log is
    every octet captured from the CDC stream. *)
Theorem exit_matches_summary {W} `{SessionWorld W} fuel fixed1 turns (s s' : session W) code :
  persistent_monitor fuel fixed1 turns s = (s', Ok (Some code)) →
  ∃ w log d, s_world s' = save_evidence log d w
    ∧ log = captured (s_evidence s')
    ∧ jget "passed" d = JBool (code =? PASS_EXIT)
    ∧ (code = PASS_EXIT ↔ jget "failure_reasons" d = JList []).
Proof.
  intros E. apply monitor_shape in E as (s1 & terminal & s2 & s3 & _ & _ & _ & Hc & ->).
  apply close_shape in Hc as (t & finished & d & c & Hs & ->).
  set (written := evidence_write d (c_raw_path (s_config t)) (s_evidence t)).
  pose proof (summary_fields _ _ _ (c_raw_path (s_config t)) Hs) as [Hp Hf]. fold written in Hp, Hf.
  pose proof (exit_code_reasons t) as Hx. exists (s_world t), written.1, written.2. rewrite Hp, Hf.
  match goal with |- context [exit_code ?u] => change (exit_code u) with (exit_code t) end.
  split; [done|]. split; [done|].
  split; [f_equal; match goal with |- _ = (?c =? _) => destruct (Z.eqb_spec c PASS_EXIT) end; case_bool_decide; naive_solver|].
  rewrite Hx. split; [by intros ->|by intros [=]].
Qed.

(** ** The request counter *)

Record counted {W} (cfg : config) (s : session W) : Prop := {
  co_config : s_config s = cfg;
  co_counter : counter_ok (s_sequence s);
}.

#[export] Instance counted_invariant {W} `{SessionWorld W} fuel cfg : SessionInvariant fuel cfg (counted (W := W) cfg).
Proof.
  split.
  - by intros s [].
  - intros f s _ []. by split.
  - intros s s' (_ & Hc & _ & _ & _ & _ & _ & Hq & _) []. split; congruence.
  - intros s []. by split.
  - intros s []. by split.
  - intros s m w [] _ _. by split.
  - intros s []. by split.
  - by intros s [].
  - intros s q [] ?. by split.
  - intros A m s s' _ _ [] _. by split.
Qed.

(** whatever the user, the broker's clients and the device do, after any
    number of turns and also when the session ends with an exception, the
    request counter is a non-zero 32-bit number, as the record format needs. *)
Theorem session_counter_bounds {W} `{SessionWorld W} `{SessionOpening W} fuel fixed1 cfg display sequence cwd output port serial
    record (w w' : W) turns s :
  session_start cfg display sequence cwd output port serial record w = (w', Ok s) →
  1 <= value (s_sequence (persistent_monitor fuel fixed1 turns s).1) < 2 ^ 32.
Proof.
  intros Hs. apply start_evident in Hs. assert (counted (s_config s) s) as Hc by (destruct Hs; by split).
  destruct (persistent_monitor fuel fixed1 turns s) as [s' r] eqn:E. cbn [fst].
  eapply (keeps_run (counted (s_config s))) in E; [exact (co_counter _ _ E)| |exact Hc].
  eapply keeps_persistent_monitor; [apply _|intros ? [] _; by split|intros ? []; by split|..].
  { intros ? ? []; by split. }
  { intros ? ? _ []. by split. }
  intros ? ? []. by split.
Qed.

(** ** A session that is attached to the owner *)

(** What an attached session does when it starts *)
Inductive attach_effect {W} `{SessionOpening W} : (W → W) → Prop :=
| attach_hello a : attach_effect (λ w, (broker_hello a w).1)
| attach_started : attach_effect (λ w, (started_now w).1)
| attach_directory d : attach_effect (λ w, (make_directory d w).1).

(** A part of the outside that clocks, the terminal, files and requests to the
    owner's broker leave alone *)
Definition apart {W X} `{SessionWorld W} `{SessionOpening W} (part : W → X) : Prop :=
  (∀ f w, effect false f → part (f w) = part w) ∧ (∀ f w, mode_effect f → part (f w) = part w)
  ∧ ∀ f w, attach_effect f → part (f w) = part w.

Record aloof {W X} `{SessionWorld W} (part : W → X) (x : X) (cfg : config) (s : session W) : Prop := {
  al_config : s_config s = cfg;
  al_part : part (s_world s) = x;
  al_counter : counter_ok (s_sequence s);
}.

Lemma aloof_invariant {W X} `{SessionWorld W} fuel (part : W → X) x cfg :
  (∀ f w, effect (owner_of cfg) f → part (f w) = part w) → SessionInvariant fuel cfg (aloof part x cfg).
Proof.
  intros Hpart. split.
  - by intros s [].
  - intros f s Hf []. split; try done. cbn. by rewrite Hpart.
  - intros s s' (Hw & Hc & _ & _ & _ & _ & _ & Hq & _) []. split; congruence.
  - intros s []. by split.
  - intros s []. by split.
  - intros s m w [] _ _. by split.
  - intros s []. by split.
  - by intros s [].
  - intros s q [] ?. by split.
  - intros A m s s' _ _ [] _. by split.
Qed.
(** What does not concern the outside *)
Lemma aloof_same {W X} `{SessionWorld W} (part : W → X) x cfg (f : session W → session W) s :
  s_world (f s) = s_world s → s_config (f s) = s_config s → s_sequence (f s) = s_sequence s →
  aloof part x cfg s → aloof part x cfg (f s).
Proof. intros E1 E2 E3 []. split; congruence. Qed.

Section attached.
Context {W X : Type} `{SessionWorld W} `{SessionOpening W} (part : W → X) (x : X).
Hypothesis Hpart : apart part.
Let here (w : W) : Prop := part w = x.

Lemma here_effect {A} (m : io W A) f : (∀ w, (m w).1 = f w) → effect false f → keeps here m.
Proof. intros Em Hf. apply keeps_intro. intros w Hw. unfold here in *. rewrite Em, (proj1 Hpart f w Hf). exact Hw. Qed.

Lemma here_attach {A} (m : io W A) f : (∀ w, (m w).1 = f w) → attach_effect f → keeps here m.
Proof.
  intros Em Hf. apply keeps_intro. intros w Hw. unfold here in *. rewrite Em, (proj2 (proj2 Hpart) f w Hf). exact Hw.
Qed.

Lemma here_open port serial processor record : keeps here (open_session port serial processor (Some record)).
Proof.
  assert (∀ at_, keeps here (broker_hello at_)) as Hhello
    by (intros at_; by eapply here_attach; [|constructor]).
  unfold open_session. keep.
  apply (here_effect _ (λ w, (random_bits 32 w).1)); [|constructor]. intros w. by destruct (random_bits 32 w).
Qed.

Lemma here_start cfg display sequence cwd output port serial record :
  triple here (session_start cfg display sequence cwd output port serial (Some record))
    (λ s, aloof part x (s_config s) s ∧ owner_of (s_config s) = false).
Proof.
  intros w Hw. destruct (session_start _ _ _ _ _ _ _ _ w) as [w' r] eqn:E.
  assert (keeps here (λ w : W, let '(w, t) := usb_monotonic w in (w, Ok t))) as Hc.
  { apply (here_effect _ (λ w, (usb_monotonic w).1)); [|constructor]. intros u. by destruct (usb_monotonic u). }
  assert (keeps here (λ w : W, let '(w, t) := started_now w in (w, Ok t))) as Hn.
  { apply (here_attach _ (λ w, (started_now w).1)); [|constructor]. intros u. by destruct (started_now u). }
  assert (∀ d, keeps here (make_directory d)) as Hd by (intros d; by eapply here_attach; [|constructor]).
  assert (here w') as Hw'.
  { refine (keeps_run here _ w w' r _ Hw E). pose proof (here_open port serial (c_processor cfg) record).
    pose proof (keeps_serial_module here). unfold session_start, create_evidence. keep. }
  destruct r as [s|]; [|done]. split; [done|].
  destruct (start_shape _ _ _ _ _ _ _ _ _ _ _ E) as (_ & _ & _ & _ & Hq).
  unfold session_start in E. io_inv. case_match. io_inv. cbn in Hq, Hw'. split; [by split|].
  rename select (open_session _ _ _ _ _ = _) into Ho. unfold open_session in Ho. io_inv. case_match; by io_inv.
Qed.
End attached.

(** C4: a session that is attached to the broker of another process leaves the
    device to it: from its start to its end, also when it ends with an
    exception, it does not touch anything but clocks, the terminal, files and
    requests to that broker; the USB connection, the device lock and the queues of the
    broker are as they were. *)
Theorem attached_leaves_device {W X} `{SessionWorld W} `{SessionOpening W} (part : W → X) fuel fixed1 cfg display
    sequence cwd output port serial record (w w' : W) turns s :
  apart part → session_start cfg display sequence cwd output port serial (Some record) w = (w', Ok s) →
  part (s_world (persistent_monitor fuel fixed1 turns s).1) = part w.
Proof.
  intros Hpart E. destruct (triple_run _ _ _ _ _ _ (here_start part (part w) Hpart _ _ _ _ _ _ _ _) eq_refl E) as [_ Hs].
  destruct (Hs s eq_refl) as [Hal Hown].
  destruct (persistent_monitor fuel fixed1 turns s) as [s' r] eqn:Em. cbn [fst].
  eapply (keeps_run (aloof part (part w) (s_config s))) in Em; [exact (al_part _ _ _ _ Em)| |exact Hal].
  eapply keeps_persistent_monitor; [by apply aloof_invariant; rewrite Hown; apply Hpart|..];
    try (intros; by apply aloof_same).
  intros f t Hf []. split; try done. cbn. by rewrite (proj1 (proj2 Hpart)).
Qed.

(** ** The terminal *)

Section terminal.
Context (fuel : nat) (fixed1 : Z → string).
Context {W : Type} `{SessionWorld W}.
Hypothesis effect_spares : ∀ own f (w : W), effect own f → terminal_attributes (f w) = terminal_attributes w.
Hypothesis attributes_set : ∀ a (w : W), terminal_attributes (set_attributes a w) = a.
Abbreviation with_terminal := (aloof (terminal_attributes (W := W))).
#[local] Instance terminal_invariant x cfg : SessionInvariant fuel cfg (with_terminal x cfg).
Proof using effect_spares. apply aloof_invariant. intros f w. apply effect_spares. Qed.

(** The loop and the [finally] block, whatever the mode of the terminal is *)
Lemma loop_gives_back x y cfg turns terminal s s' r :
  with_terminal y cfg s → terminal = Some x ∨ terminal = None ∧ x = y →
  loop_and_close fuel fixed1 turns terminal s = (s', r) → r ≠ Ok None → with_terminal x cfg s'.
Proof.
  intros Hs Ht E Hr. unfold loop_and_close in E.
  assert (keeps (with_terminal y cfg) (monitor_loop fuel fixed1 turns)) as Hl.
  { eapply keeps_monitor_loop; [apply _|..]; intros; by apply aloof_same. }
  assert (∀ (A : Type) (k : io (session W) A), (∀ t, (k t).1 = t) → ∀ s0 s1 r0, with_terminal y cfg s0 →
    (_ ← close terminal; k) s0 = (s1, r0) → with_terminal x cfg s1) as Hclose.
  { intros A k Hk s0 s1 r0 Hs0 Ec.
    assert (∃ t, close terminal s0 = close None t ∧ with_terminal x cfg t) as (t & Et & Ht0).
    { destruct Ht as [->|[-> ->]]; [|by exists s0].
      exists (put_world (set_attributes x (s_world s0)) s0). split; [done|]. destruct Hs0. split; try done. apply attributes_set. }
    unfold mbind, io_bind in Ec. rewrite Et in Ec. destruct (close None t) as [u ru] eqn:Eu.
    eapply (keeps_run (with_terminal x cfg)) in Eu; [|eapply keeps_close, _|exact Ht0].
    destruct ru as [a|e]; [|by injection Ec as <- _]. specialize (Hk u). rewrite Ec in Hk. by cbn in Hk; subst. }
  destruct (monitor_loop fuel fixed1 turns s) as [s1 [[]|e]] eqn:El;
    (eapply (keeps_run (with_terminal y cfg)) in El; [|exact Hl|exact Hs]).
  - by eapply Hclose in E.
  - injection E as <- <-. by destruct Hr.
  - by eapply Hclose in E.
Qed.

Lemma enter_cbreak_run (s : session W) :
  enter_cbreak s = (s, Ok None)
  ∨ enter_cbreak s = (put_world (set_cbreak (s_world s)) s, Ok (Some (terminal_attributes (s_world s)))).
Proof. unfold enter_cbreak, mbind, io_bind, gets. case_match; [by right|by left]. Qed.

Lemma session_gives_back x cfg turns s s' r :
  with_terminal x cfg s → persistent_monitor fuel fixed1 turns s = (s', r) → r ≠ Ok None → with_terminal x cfg s'.
Proof.
  intros Hs E Hr. unfold persistent_monitor, mbind, io_bind in E.
  destruct (startup fuel fixed1 s) as [s1 r1] eqn:E1.
  eapply (keeps_run (with_terminal x cfg)) in E1; [| |exact Hs].
  2:{ eapply keeps_startup; [apply _|..]; intros; by apply aloof_same. }
  destruct r1 as [u|e]; [|by injection E as <- _]. destruct (enter_cbreak_run s1) as [E2|E2]; rewrite E2 in E.
  - eapply loop_gives_back in E; [exact E|exact E1|by right|done].
  - destruct E1 as [Hc <- Hq]. eapply loop_gives_back in E; [exact E|by split|by left|done].
Qed.
End terminal.

(** C6: a session gives the terminal back: however it ends, with an exit code
    or with an exception, the attributes of the terminal are those it found,
    although it reads its commands key by key in between. *)
Theorem terminal_given_back {W} `{SessionWorld W} `{SessionOpening W} fuel fixed1 cfg display sequence cwd output port serial
    record (w w' : W) turns s s' r :
  (∀ own f (u : W), effect own f → terminal_attributes (f u) = terminal_attributes u) →
  (∀ a (u : W), terminal_attributes (set_attributes a u) = a) →
  session_start cfg display sequence cwd output port serial record w = (w', Ok s) →
  persistent_monitor fuel fixed1 turns s = (s', r) → r ≠ Ok None →
  terminal_attributes (s_world s') = terminal_attributes (s_world s).
Proof.
  intros He Ha Hs E Hr. apply start_evident in Hs as []. symmetry in E.
  eapply (session_gives_back fuel fixed1 He Ha) in Hr; [exact (al_part _ _ _ _ Hr)|by split|by symmetry].
Qed.
