(* ===== verification/Bench.v ===== *)
(** * A simulated bench for the session

    One Host with one simulated device: a clock, a queue of HID reports, the
    device's workload state, a table of Host files and a number of answers the
    device still gives.  It satisfies the laws of [TimedWorld] and of
    [FiniteSession].  The examples run whole sessions on it: the theorems of
    [Verdict] are applied to them, so that their hypotheses are seen to hold. *)

From S2P Require Import Prelude Struct PyText Json Protocol Core Memory Mailbox Workload RuntimeState Diagnostics.
From S2P Require Import Timeout Filesystem RequestChannel ServiceClient WorkloadClient Broker Console Transport Evidence Shell.
From S2P Require Import Session Commands Monitor Preserve Finite Verdict.
From Stdlib Require Import SpecFloat.

Record bench := mkBench {
  b_clock : Z;
  b_reports : list bytes;
  b_state : WorkloadRuntimeState;
  b_after_run : WorkloadRuntimeState;   (** the state that [run] leads to *)
  b_witness : NativeServiceWitness;     (** the answer to a probe *)
  b_files : list (string * bytes);
  b_typed : list Z;   (** the characters that are waiting; then Control-C *)
  b_saved : option (bytes * document);
  b_mode : list Z;    (** the attributes of the terminal *)
  b_budget : nat;     (** the answers it still gives *)
}.

Definition bench_status (st : WorkloadRuntimeState) : bytes :=
  pack_bytes STRUCTURED_STATUS (status_values st (replicate (16 - length (native_output st)) Byte.x00)).

Definition with_lifecycle (l : Z) (st : WorkloadRuntimeState) : WorkloadRuntimeState :=
  mkRuntime (workload_id st) l (detail st) (clock_mode st) (cycles st) (processor_flags st) (result_flags st)
    (completion_reason st) (processor_signature st) (native_output st) (structured_result st).

(** The reply to a request, and the state after it *)
Definition bench_reply (w : bench) (request : Message) : WorkloadRuntimeState * Message :=
  let status_reply st := (st, mkMessage TYPE_WORKLOAD_STATUS (sequence request) (bench_status st) 0 STATUS_OK PROTOCOL_VERSION) in
  if message_type request =? TYPE_HEARTBEAT then
    (b_state w, mkMessage TYPE_HEARTBEAT (sequence request)
                  (match witness_encode (b_witness w) with Ok p => p | Raise _ => [] end) 0 STATUS_OK PROTOCOL_VERSION)
  else if message_type request =? TYPE_WORKLOAD_COMMIT then status_reply (with_lifecycle 2 (b_state w))
  else if (message_type request =? TYPE_WORKLOAD_CONTROL)
          && bytes_eqb (slice 0 1 (payload request)) [byte.of_Z WORKLOAD_CONTROL_RUN]
  then status_reply (b_after_run w)
  else status_reply (b_state w).

Definition bench_write (report : bytes) (w : bench) : bench :=
  match decode (slice_from 1 report), b_budget w with
  | Ok request, S budget =>
      let '(st, reply) := bench_reply w request in
      mkBench (b_clock w) (b_reports w ++ match encode reply with Ok r => [Byte.x00 :: r] | Raise _ => [] end)
        st (b_after_run w) (b_witness w) (b_files w) (b_typed w) (b_saved w) (b_mode w) budget
  | _, _ => w
  end.

Definition bench_read (w : bench) : bench * result bytes :=
  match b_reports w with
  | [] => (w, Ok [])
  | r :: rs => (mkBench (b_clock w) rs (b_state w) (b_after_run w) (b_witness w) (b_files w) (b_typed w) (b_saved w) (b_mode w) (b_budget w), Ok r)
  end.
Definition bench_sleep (ms : Z) (w : bench) : bench :=
  mkBench (b_clock w + Z.max 0 ms) (b_reports w) (b_state w) (b_after_run w) (b_witness w) (b_files w) (b_typed w) (b_saved w) (b_mode w) (b_budget w).
Definition bench_getch (w : bench) : bench * list Z :=
  match b_typed w with
  | [] => (w, [])
  | k :: ks => (mkBench (b_clock w) (b_reports w) (b_state w) (b_after_run w) (b_witness w) (b_files w) ks (b_saved w)
                  (b_mode w) (b_budget w), [k])
  end.
Definition bench_mode (mode : list Z) (w : bench) : bench :=
  mkBench (b_clock w) (b_reports w) (b_state w) (b_after_run w) (b_witness w) (b_files w) (b_typed w) (b_saved w) mode (b_budget w).
Definition bench_save (log : bytes) (d : document) (w : bench) : bench :=
  mkBench (b_clock w) (b_reports w) (b_state w) (b_after_run w) (b_witness w) (b_files w) (b_typed w) (Some (log, d)) (b_mode w) (b_budget w).

(** The owner's broker: the device answers at once. *)
Definition bench_relay (record : bytes) (w : bench) : bench * result document :=
  match decode record, b_budget w with
  | Ok request, S budget =>
      let '(st, reply) := bench_reply w request in
      (mkBench (b_clock w) (b_reports w) st (b_after_run w) (b_witness w) (b_files w) (b_typed w) (b_saved w) (b_mode w) budget,
       Ok [("ok", JBool true); ("reply_hex", JStr (bytes_hex (match encode reply with Ok r => r | Raise _ => [] end)));
           ("latency_ms", JFloat fzero)]%string)
  | Raise e, _ => (w, Raise e)
  | _, O => (w, Raise (OSError "timed out"))
  end.

#[export] Instance bench_keyboard : Terminal bench := {|
  isatty := λ _, true; posix := λ _, true;
  ready := λ _ w, (w, match b_typed w with [] => false | _ => true end);
  getch := bench_getch;
|}.
#[export] Instance bench_unicode : UnicodeTable :=
  {| printable_above := λ _, true; alpha_above := λ _, true; upper := str_upper |}.
#[export] Instance bench_rich : RichLibrary :=
  {| rich_installed := false; rich_capture := λ _, EmptyString; rich_rule := fst; rich_print := fst |}.

(** The parent directory and the name of a path *)
Definition bench_parent (path : string) : string :=
  match split_slash (ascii_list path) with
  | Some ([_], _) => "/"
  | Some (base, _) => String.string_of_list_ascii (take (pred (length base)) base)
  | None => "."
  end.
Definition bench_name (path : string) : string :=
  match split_slash (ascii_list path) with Some (_, name) => String.string_of_list_ascii name | None => path end.

#[export] Instance bench_world : SessionWorld bench := {|
  usb_read := λ _ w, bench_read w;
  usb_write := λ b w, (bench_write b w, Ok (len b));
  usb_monotonic := λ w, (w, b_clock w);
  usb_sleep := bench_sleep;
  relay := λ _ record _ _, bench_relay record;
  cdc_read := λ w, (w, Ok []);
  random_bits := λ _ w, (w, 5);
  wall_clock := λ w, (w, "2025-01-01T00:00:00"%string);
  broker_pending := λ w, (w, []);
  broker_control := λ w, (w, None);
  broker_answer := λ _ _ w, w;
  broker_publish := λ _ w, w;
  cdc_write := λ _ w, (w, Ok tt);
  cdc_flush := λ w, (w, Ok tt);
  cdc_read_some := λ _ w, (w, Ok []);
  keyboard := bench_keyboard;
  interrupted := λ w, (w, match b_typed w with [] => true | _ => false end);
  stdout_isatty := λ _, true;
  terminal_attributes := b_mode;
  set_cbreak := bench_mode [0];
  set_attributes := bench_mode;
  owner_stop := λ w, w; hid_close := λ w, w; cdc_close := λ w, w;
  save_evidence := bench_save;
  file_bytes := λ w name, match str_get name (b_files w) with Some b => inl b | None => inr "no such file"%string end;
  write_file := λ _ _ w, (w, Ok tt);
  resolve_path := λ _ p, inl p;
  path_exists := λ _ _, true;
  path_is_dir := λ _ _, true;
  directory_entries := λ _ d,
    if String.eqb d "/work" then inl [mkDirEntry "boot.P86W" false (Some 512); mkDirEntry "notes" true None]
    else inl [mkDirEntry "tmp" true None; mkDirEntry "work" true None];
  home_path := λ _, "/home"%string;
  os_sep := "/"%string;
  path_text := λ p, p;
  expanduser := λ p, p;
  is_absolute := str_starts "/";
  path_join := λ b p, if String.eqb p "." then b else b +:+ "/" +:+ p;
  path_parent := bench_parent;
  path_name := bench_name;
  os_expanduser := λ p, p;
  unicode := bench_unicode;
  rich := bench_rich;
  casefold := str_lower;
  dumps_indented := λ _, EmptyString;
  float_repr := λ _, EmptyString;
  float_fixed1 := λ _, EmptyString;
  float_ms := λ _, Ok 0;
|}.

#[export] Instance bench_usb : UsbHost bench := {|
  serial_installed := λ _, true;
  hid_installed := λ _, true;
  hid_enumerate := λ w, (w, Ok [mkHid USB_VID USB_PID None (Some "bench"%string) None None None None]);
  open_path := λ _ w, (w, Ok tt);
|}.
#[export] Instance bench_opening : SessionOpening bench := {|
  opening_usb := bench_usb;
  started_now := λ w, (w, ("2025-01-01T00:00:00", "20250101_000000"))%string;
  make_directory := λ _ w, (w, Ok tt);
  process_id := λ _, 42;
  discover_records := λ w, (w, Ok []);
  broker_hello := λ _ w, (w, Ok [("ok", JBool true)]%string);
  owner_start := λ _ _ w, (w, Ok tt);
  open_cdc := λ _ w, (w, Ok tt);
  raise_dtr := λ w, (w, Ok tt);
  close_cdc := λ w, (w, Ok tt);
|}.

#[export] Instance bench_timed : TimedWorld bench.
Proof.
  refine {| clock_of := b_clock |}.
  - intros f w []; cbn; lia.
  - intros own f w []; cbn; unfold bench_read, bench_write, bench_relay, bench_getch; repeat case_match; cbn; lia.
  - done.
  - intros ms w ?. cbn. lia.
Defined.
#[export] Instance bench_timed_opening : TimedOpening bench.
Proof. refine {| opening_law := _ |}. intros f w []; cbn; lia. Defined.

(** A reply that waits, and those to come; no client queues a control. *)
#[export] Instance bench_finite : FiniteSession bench.
Proof.
  refine {| answers := λ w, (length (b_reports w) + b_budget w)%nat; controls := λ _, O; control_limit := 0 |}.
  - intros own f w []; cbn; unfold bench_read, bench_write, bench_relay, bench_getch; repeat case_match; cbn;
      rewrite ?length_app; repeat case_match; cbn in *; simplify_eq;
      repeat match goal with E : b_reports w = _ |- _ => rewrite E; clear E; cbn end; lia.
  - intros f w []; cbn; lia.
  - intros n w w' b. cbn. unfold bench_read. destruct (b_reports w) eqn:E; intros [= <- <-]; cbn; [done|]. rewrite ?E. cbn. lia.
  - intros a b i t w w' d. cbn. unfold bench_relay. destruct (decode b); [|done]. destruct (b_budget w) eqn:E; [done|].
    destruct (bench_reply w a0) as [st reply]. intros [= <- _]. cbn. lia.
  - done.
Defined.

Definition idle_state : WorkloadRuntimeState :=
  mkRuntime 0 0 0 1 0 2 8 0 PROCESSOR_SIGNATURE_INTEL_8086 [] true.
Definition pass_state : WorkloadRuntimeState :=
  mkRuntime 1 5 0 1 1234 3 11 2 PROCESSOR_SIGNATURE_INTEL_8086 (lit "RESULT: PASS") true.
Definition fault_state : WorkloadRuntimeState :=
  mkRuntime 1 5 0 1 1234 3 8 2 PROCESSOR_SIGNATURE_INTEL_8086 (lit "RESULT: FAIL") true.

Definition native_witness (flags : Z) : NativeServiceWitness := mkWitness TYPE_HEARTBEAT 7 41 1 HEARTBEAT_REPLY flags 1.
Definition bench_at (after_run : WorkloadRuntimeState) (flags : Z) (typed : string) : bench :=
  mkBench 1000 [] idle_state after_run (native_witness flags) [("t.bin"%string, sample_image)] (chars typed) None [3; 1] 100.
Definition regression_config : config :=
  mkConfig 100 1000 false 0 "intel-8086" false (Some "t.bin"%string) 2000 "start" "raw.log" "session.json" [] None.

Definition bench_turns : nat := 103.

(** ** The theorems on the bench *)

Definition bench_open (record : option BrokerRecord) (after_run : WorkloadRuntimeState) (flags : Z) (cfg : config)
  (typed : string) : bench * result (session bench) :=
  session_start cfg "normal" 1 "/work" "logs" "COM1" None record (bench_at after_run flags typed).
Abbreviation bench_start := (bench_open None).

Definition bench_runs (start : bench * result (session bench)) (turns : nat) : result (option Z) * bool :=
  match start.2 with
  | Ok s => let '(s', r) := persistent_monitor 200 dec turns s in (r, regression_on s')
  | Raise e => (Raise e, false)
  end.

Example pass_exit_certified_witness :
  ∃ w s s', bench_start pass_state NATIVE_PROCESSOR_INTEL_8086 regression_config EmptyString = (w, Ok s)
    ∧ persistent_monitor 200 dec bench_turns s = (s', Ok (Some PASS_EXIT))
    ∧ ∃ st, device_state (W := bench) (s_config s) st ∧ physical_regression_passed st = true.
Proof.
  pose proof (eq_refl (bench_runs (bench_start pass_state NATIVE_PROCESSOR_INTEL_8086 regression_config EmptyString) bench_turns)) as Eb.
  destruct (bench_start pass_state NATIVE_PROCESSOR_INTEL_8086 regression_config EmptyString) as [w [s|]] eqn:Es; [|vm_compute in Es; discriminate Es].
  destruct (persistent_monitor 200 dec bench_turns s) as [s' r] eqn:Er.
  assert (r = Ok (Some PASS_EXIT) ∧ regression_on s' = true) as [-> Hon].
  { rewrite <- Es in Eb at 2. unfold bench_runs in Eb at 1. cbn [snd] in Eb. rewrite Er in Eb.
    vm_compute in Eb. injection Eb as Hr Hon. split; [exact Hr|exact Hon]. }
  exists w, s, s'. split; [done|]. split; [exact Er|].
  unfold bench_open in Es.
  apply (pass_exit_certified (W := bench) 200 dec regression_config "normal" 1 "/work" "logs" "COM1" None None
           (bench_at pass_state NATIVE_PROCESSOR_INTEL_8086 EmptyString) w bench_turns s s' Es Er).
  exact Hon.
Defined.

Example regression_terminates_witness :
  ∃ w s, bench_start runtime_init NATIVE_PROCESSOR_INTEL_8086 regression_config EmptyString = (w, Ok s)
    ∧ let '(s', r) := persistent_monitor 260 dec bench_turns s in r ≠ Ok None ∧ s_starved s' = false.
Proof.
  destruct (bench_start runtime_init NATIVE_PROCESSOR_INTEL_8086 regression_config EmptyString) as [w [s|]] eqn:Es; [|vm_compute in Es; discriminate Es].
  exists w, s. split; [done|]. unfold bench_open in Es.
  apply (regression_terminates (W := bench) 260 dec regression_config "normal" 1 "/work" "logs" "COM1" None None
           (bench_at runtime_init NATIVE_PROCESSOR_INTEL_8086 EmptyString) w bench_turns s Es).
  - vm_compute in Es. by injection Es as _ <-.
  - reflexivity.
  - reflexivity.
  - vm_compute in Es. injection Es as _ <-. vm_compute. lia.
  - cbn. lia.
  - vm_compute. lia.
Defined.

Example exit_matches_summary_witness :
  ∃ w0 s s' w log d, bench_start fault_state NATIVE_PROCESSOR_INTEL_8086 regression_config EmptyString = (w0, Ok s)
    ∧ persistent_monitor 200 dec bench_turns s = (s', Ok (Some VALIDATION_EXIT))
    ∧ s_world s' = save_evidence log d w ∧ jget "passed" d = JBool false.
Proof.
  pose proof (eq_refl (bench_runs (bench_start fault_state NATIVE_PROCESSOR_INTEL_8086 regression_config EmptyString) bench_turns)) as Eb.
  destruct (bench_start fault_state NATIVE_PROCESSOR_INTEL_8086 regression_config EmptyString) as [w0 [s|]] eqn:Es; [|vm_compute in Es; discriminate Es].
  destruct (persistent_monitor 200 dec bench_turns s) as [s' r] eqn:Er.
  assert (r = Ok (Some VALIDATION_EXIT)) as ->.
  { rewrite <- Es in Eb at 2. unfold bench_runs in Eb at 1. cbn [snd] in Eb. rewrite Er in Eb.
    vm_compute in Eb. by injection Eb as Hr _. }
  destruct (exit_matches_summary (W := bench) 200 dec bench_turns s s' VALIDATION_EXIT Er) as (w & log & d & Hw & _ & Hp & _).
  exists w0, s, s', w, log, d. split_and!; [done..|exact Hp].
Defined.

(** ** What the evidence says of a stale probe

    The device answers two probes with the same completion counter. *)

Definition interactive_config : config :=
  mkConfig 100 1000 true 0 "auto" false None 0 "start" "raw.log" "session.json" [] None.
Definition enter_key : string := of_octets [CR].
Definition two_probes : string := "probe" +:+ enter_key +:+ "probe" +:+ enter_key +:+ "quit" +:+ enter_key.

Definition probe_outcome (start : bench * result (session bench)) : result (option Z) * (Z * Z) * list (json * json) :=
  match start.2 with
  | Ok s => let '(s', r) := persistent_monitor 200 dec 10 s in
            (r, (completed (s_stats s'), lost (s_stats s')),
             map (λ e, (jget "passed" e, jget "error" e)) (events (s_evidence s')))
  | Raise e => (Raise e, (0, 0), [])
  end.

(** The second probe is counted as lost, and its recorded event still says that
    it passed without an error. *)
Example stale_probe_event :
  probe_outcome (bench_start pass_state NATIVE_PROCESSOR_INTEL_8086 interactive_config two_probes)
  = (Ok (Some PASS_EXIT), (1, 1), [(JBool true, JNull); (JBool true, JNull)]).
Proof. vm_compute. reflexivity. Qed.

(** A probe that is answered without a processor identity, after the firmware
    reported one, ends the session with an exception of the name table. *)
Example unidentified_probe_raises :
  (probe_outcome (bench_start pass_state 0 interactive_config two_probes)).1.1 = Raise (KeyError "None").
Proof. vm_compute. reflexivity. Qed.

Example session_counter_bounds_witness :
  ∃ w s, bench_start pass_state NATIVE_PROCESSOR_INTEL_8086 interactive_config two_probes = (w, Ok s)
    ∧ 1 <= value (s_sequence (persistent_monitor 200 dec 10 s).1) < 2 ^ 32.
Proof.
  destruct (bench_start pass_state NATIVE_PROCESSOR_INTEL_8086 interactive_config two_probes) as [w [s|]] eqn:Es;
    [|vm_compute in Es; discriminate Es].
  exists w, s. split; [done|]. unfold bench_open in Es.
  exact (session_counter_bounds (W := bench) 200 dec interactive_config "normal" 1 "/work" "logs" "COM1" None None
           (bench_at pass_state NATIVE_PROCESSOR_INTEL_8086 two_probes) w 10 s Es).
Defined.

(** ** A client of the owner *)

Definition bench_record : BrokerRecord := mkBrokerRecord "bench" 4000 4001 7 "intel-8086".

(** The regression passes through the broker as it does on the device. *)
Example attached_regression :
  bench_runs (bench_open (Some bench_record) pass_state NATIVE_PROCESSOR_INTEL_8086 regression_config EmptyString) bench_turns
  = (Ok (Some PASS_EXIT), true).
Proof. vm_compute. reflexivity. Qed.

Example attached_leaves_device_witness :
  ∃ w s, bench_open (Some bench_record) pass_state NATIVE_PROCESSOR_INTEL_8086 regression_config EmptyString = (w, Ok s)
    ∧ b_reports (s_world (persistent_monitor 200 dec bench_turns s).1) = [].
Proof.
  destruct (bench_open (Some bench_record) pass_state NATIVE_PROCESSOR_INTEL_8086 regression_config EmptyString) as [w [s|]] eqn:Es;
    [|vm_compute in Es; discriminate Es].
  exists w, s. split; [done|]. unfold bench_open in Es.
  apply (attached_leaves_device (W := bench) b_reports 200 dec regression_config "normal" 1 "/work" "logs" "COM1" None bench_record
           (bench_at pass_state NATIVE_PROCESSOR_INTEL_8086 EmptyString) w bench_turns s); [|exact Es].
  split; [|split; by intros f u []]. intros f u Hf. destruct Hf; cbn; try done; try discriminate; unfold bench_relay, bench_getch; by repeat case_match.
Defined.

(** ** The terminal and the line *)

Example terminal_given_back_witness :
  ∃ w s s' r, bench_start pass_state NATIVE_PROCESSOR_INTEL_8086 interactive_config two_probes = (w, Ok s)
    ∧ persistent_monitor 200 dec 10 s = (s', r) ∧ c_interactive (s_config s) = true ∧ b_mode (s_world s') = [3; 1].
Proof.
  destruct (bench_start pass_state NATIVE_PROCESSOR_INTEL_8086 interactive_config two_probes) as [w [s|]] eqn:Es;
    [|vm_compute in Es; discriminate Es].
  assert (b_mode (s_world s) = [3; 1] ∧ c_interactive (s_config s) = true) as [Hm Hi]
    by (vm_compute in Es; by injection Es as _ <-).
  destruct (persistent_monitor 200 dec 10 s) as [s' r] eqn:Er.
  assert (r ≠ Ok None) as Hr.
  { intros ->. pose proof (eq_refl (probe_outcome (bench_start pass_state NATIVE_PROCESSOR_INTEL_8086 interactive_config two_probes)).1.1) as Eb.
    rewrite Es in Eb at 2. unfold probe_outcome in Eb at 2. cbn [snd fst] in Eb. rewrite Er in Eb. vm_compute in Eb. discriminate Eb. }
  exists w, s, s', r. split; [done|]. split; [done|]. split; [exact Hi|]. rewrite <- Hm. unfold bench_open in Es.
  change (terminal_attributes (s_world s') = terminal_attributes (s_world s)).
  apply (terminal_given_back (W := bench) 200 dec interactive_config "normal" 1 "/work" "logs" "COM1" None None
           (bench_at pass_state NATIVE_PROCESSOR_INTEL_8086 two_probes) w 10 s s' r);
    [|done|exact Es|exact Er|exact Hr].
  intros own f u Hf. destruct Hf; cbn; try done; unfold bench_read, bench_write, bench_relay, bench_getch; by repeat case_match.
Defined.

Definition bench_here : bench := bench_at pass_state NATIVE_PROCESSOR_INTEL_8086 EmptyString.

(** Tab after a blank completes the name of the current directory among its
    siblings, not what the directory holds: the name of [.] is the directory's. *)
Example empty_token_completion :
  complete_shell_input (host_matches bench_here "/work") "cat " [] = ("cat work/"%string, ["work/"%string])
  ∧ complete_shell_input (host_matches bench_here "/work") "cat n" [] = ("cat notes/"%string, ["notes/"%string]).
Proof. vm_compute. split; reflexivity. Qed.

(** A line that is typed, completed, browsed and edited; the session was left by
    Control-C. *)
Example edited_session :
  let typed := "pwd" +:+ enter_key +:+ "st" +:+ of_octets [Byte.x09] +:+ "x" +:+ of_octets [Byte.x7f] +:+ enter_key +:+ "cat b" +:+ of_octets [Byte.x09] in
  match bench_start pass_state NATIVE_PROCESSOR_INTEL_8086 interactive_config typed with
  | (_, Ok s) => let '(s', r) := persistent_monitor 200 dec 10 s in
      (r, _entries (s_history s'), utf8_text (s_buffer s'), s_cursor s')
  | (_, Raise e) => (Raise e, [], EmptyString, 0)
  end = (Ok (Some PASS_EXIT), ["pwd"; "st"]%string, "cat boot.P86W"%string, 13).
Proof. vm_compute. reflexivity. Qed.
