(* ===== verification/Attached.v ===== *)
(** * A session attached to the owner of the device (host/rp86/session.py)

    What one process asks through the broker and what the other answers are
    composed here: [relay_exchange] of the attached session on the document that
    [serve_exchange] of the owner's session puts into the future.  An attached
    session sees exactly the replies that the owner read from the device. *)

From S2P Require Import Prelude Struct PyText Json Protocol Core Workload RuntimeState RequestChannel ServiceClient.
From S2P Require Import WorkloadClient Broker Console Transport Shell Session Commands Monitor Preserve Verdict Bench.
From Stdlib Require Import SpecFloat.

Section attached.
Context (fuel : nat).
Context {W V : Type} `{SessionWorld W} `{SessionWorld V}.

(** What the owner answers to a request: an error, or the reply of its exchange *)
Definition served (request : Message) (s : session W) (d : document) : Prop :=
  jget "ok" d = JBool false
  ∨ ∃ s1 r lat err encoded, session_exchange fuel request s = (s1, Ok (Some r, lat, err)) ∧ encode r = Ok encoded
      ∧ d = [("ok", JBool true); ("reply_hex", JStr (bytes_hex encoded)); ("latency_ms", JFloat (float_of_Z lat))]%string.

Lemma serve_exchange_served request record s s' d :
  encode request = Ok record → serve_exchange fuel record s = (s', Ok d) → served request s d.
Proof.
  intros He E. unfold serve_exchange in E. rewrite (decode_encode _ _ He) in E.
  match type of E with match ?m s with _ => _ end = _ => destruct (m s) as [t [x|[]]] eqn:Eb end;
    try discriminate E; try (left; by injection E as _ <-).
  injection E as -> ->. rewrite io_bind_ok in Eb. destruct Eb as (t & m & [= <- <-] & Eb).
  io_step. rename x into s1. destruct x0 as [[[r|] lat] err]; io_inv; [|by left].
  right. by eexists s1, r, lat, err, _.
Qed.

(** The exchange of the attached session, when the broker's answer arrives *)
Definition hears (at_ : attachment) (request : Message) (record : bytes) (d : document) (c : session V) : Prop :=
  encode request = Ok record
  ∧ ∃ v', relay at_ record (dec (at_pid at_) +:+ "-" +:+ dec (sequence request)) (Session.c_timeout (s_config c))
            (usb_monotonic (s_world c)).1 = (v', Ok d).

(** What it makes of the answer *)
Definition heard (d : document) (request : Message) (expected : option string)
  : result (option Message * Z * option string) :=
  latency ← float_ms (default (JFloat fzero) (str_get "latency_ms" d));
  if negb (jtruthy (jget "ok" d))
  then Ok (None, latency, Some (jstr_or float_repr (jget "error" d) "broker exchange failed")) else
  reply_hex ← jitem "reply_hex" d;
  candidate ← match bytes_fromhex (jstr float_repr reply_hex) with
              | Some b => Ok b
              | None => Raise (ValueError "non-hexadecimal number found in fromhex() arg")
              end;
  m ← validate_device_reply candidate request expected;
  Ok (Some m, latency, None).

(** The handler of [exchange] *)
Ltac caught e :=
  cbn [exchange_error]; try (destruct (exchange_error e); [|by eexists]);
  unfold modify, mret, io_ret; cbn; destruct (usb_monotonic _); by eexists _, _.

Lemma relay_heard at_ request record d (c : session V) :
  hears at_ request record d c →
  ∃ c1, match heard d request (expected_processor c) with
        | Ok a => relay_exchange at_ request c = (c1, Ok a)
        | Raise e => match exchange_error e with
                     | Some text => ∃ l, relay_exchange at_ request c
                                         = (c1, Ok (None, l, Some ("Host broker disconnected: " +:+ text)))
                     | None => relay_exchange at_ request c = (c1, Raise e)
                     end
        end.
Proof.
  intros (Hr & v' & Hv).
  unfold relay_exchange, heard, monotonic_now, outside_total, outside, mbind, io_bind, result_bind, gets, lift, catch_classes.
  destruct (usb_monotonic (s_world c)) as [v1 t]. cbn [fst s_world put_world] in *. rewrite Hr. cbn [s_config put_world].
  rewrite Hv. cbn [put_world s_config].
  destruct (float_ms _) as [latency|e]; [|by caught e]. destruct (negb _); [by eexists|].
  destruct (jitem _ _) as [text|e]; [|by caught e].
  destruct (bytes_fromhex _) as [candidate|]; [|by caught (ValueError "")].
  change (expected_processor (put_world v' (put_world v1 c))) with (expected_processor c).
  destruct (validate_device_reply _ _ _) as [m|e]; [by eexists|by caught e].
Qed.

Lemma reply_record r encoded report request expected m :
  encode r = Ok encoded → report = encoded → validate_device_reply report request expected = Ok m → m = r.
Proof.
  intros He -> Hv. apply device_reply_iff in Hv as [(b & Hn & Hd) _].
  rewrite (normalize_plain encoded) in Hn by (by eapply encode_len). injection Hn as <-.
  rewrite (decode_encode _ _ He) in Hd. by injection Hd.
Qed.
Lemma reply_accepted r encoded request expected :
  encode r = Ok encoded → answers request expected r → validate_device_reply encoded request expected = Ok r.
Proof.
  intros He Ha. apply device_reply_iff. split; [|done]. exists encoded.
  split; [apply normalize_plain; by eapply encode_len|by apply decode_encode].
Qed.

Lemma heard_reply encoded lat request expected :
  heard [("ok", JBool true); ("reply_hex", JStr (bytes_hex encoded)); ("latency_ms", JFloat (float_of_Z lat))]%string
    request expected
  = (latency ← float_ms (JFloat (float_of_Z lat)); m ← validate_device_reply encoded request expected; Ok (Some m, latency, None)).
Proof.
  unfold heard. cbn. destruct (float_ms _); [|done]. cbn. by rewrite fromhex_hex.
Qed.

Lemma owner_genuine request (s : session W) s1 m lat err :
  c_attached (s_config s) = None → session_exchange fuel request s = (s1, Ok (Some m, lat, err)) →
  genuine (W := session W) request (expected_of (s_config s)) m.
Proof.
  intros Ho E. unfold session_exchange in E. rewrite io_bind_ok in E. destruct E as (t & a & [= <- <-] & E).
  rewrite Ho in E. by eapply hid_exchange_genuine.
Qed.
End attached.

(** C5: a session attached to the broker works with the device as its owner
    does.  When the owner serves a request of the attached session and its
    answer arrives, a reply that the attached session gets is the one that the
    owner's exchange returned, read from the device and answering the request;
    and when the owner answers with a reply, an attached session that expects the
    same processor gets it, with the owner's latency. *)
Theorem attached_exchange_transparent {W V} `{SessionWorld W} `{SessionWorld V} fuel at_ request record (s s' : session W) d
    (c : session V) :
  c_attached (s_config s) = None →
  serve_exchange fuel record s = (s', Ok d) → hears at_ request record d c →
  (∀ c' m lat err, relay_exchange at_ request c = (c', Ok (Some m, lat, err)) →
     genuine (W := session W) request (expected_of (s_config s)) m
     ∧ ∃ s1 lat' err', session_exchange fuel request s = (s1, Ok (Some m, lat', err')))
  ∧ (∀ s1 m lat err l, session_exchange fuel request s = (s1, Ok (Some m, lat, err)) → jget "ok" d ≠ JBool false →
       expected_processor c = expected_processor s → float_ms (W := V) (JFloat (float_of_Z lat)) = Ok l →
       ∃ c', relay_exchange at_ request c = (c', Ok (Some m, l, None))).
Proof.
  intros Ho Hd Hh. destruct (relay_heard _ _ _ _ _ Hh) as (c1 & Hc). pose proof Hh as (Hr & _).
  pose proof (serve_exchange_served fuel _ _ _ _ _ Hr Hd) as Hs. split.
  - intros c' m lat err E. destruct Hs as [Hf|(s1 & r & lat' & err' & encoded & Hx & He & ->)].
    + unfold heard in Hc. rewrite Hf in Hc. destruct (float_ms _) as [l|e]; cbn in Hc; [congruence|].
      destruct (exchange_error e); [destruct Hc as (? & Hc)|]; congruence.
    + rewrite heard_reply in Hc. destruct (float_ms _) as [l|e]; cbn in Hc;
        [destruct (validate_device_reply _ _ _) as [x|e] eqn:Hv; cbn in Hc|];
        try (destruct (exchange_error e); [destruct Hc as (? & Hc)|]; congruence).
      assert (x = m) as -> by congruence. apply (reply_record _ _ _ _ _ _ He eq_refl) in Hv as ->.
      split; [by eapply owner_genuine|eauto].
  - intros s1 m lat err l Hx Hok Hexp Hl.
    destruct Hs as [Hf|(s2 & r & lat' & err' & encoded & Hx' & He & ->)]; [done|].
    rewrite Hx in Hx'. injection Hx' as <- <- <- <-.
    pose proof (owner_genuine _ _ _ _ _ _ _ Ho Hx) as (w & w' & report & _ & _ & Ha).
    rewrite heard_reply, Hl, Hexp in Hc. cbn in Hc. change (expected_processor s) with (expected_of (s_config s)) in Hc. rewrite (reply_accepted _ _ _ _ He Ha) in Hc. by exists c1.
Qed.

(** An owner on the bench, and a session on the same bench that is attached to it *)
Definition status_request : Message := request_message TYPE_WORKLOAD_CONTROL 9 [byte.of_Z WORKLOAD_CONTROL_STATUS].
Definition bench_session (record : option BrokerRecord) : option (session bench) :=
  match (bench_open record idle_state NATIVE_PROCESSOR_INTEL_8086 regression_config EmptyString).2 with
  | Ok s => Some s
  | Raise _ => None
  end.

Example attached_exchange_transparent_witness :
  ∃ s c at_ c' m, bench_session None = Some s ∧ bench_session (Some bench_record) = Some c
    ∧ c_attached (s_config c) = Some at_ ∧ relay_exchange at_ status_request c = (c', Ok (Some m, 0, None)).
Proof.
  destruct (bench_session None) as [s|] eqn:Es; [|vm_compute in Es; discriminate Es].
  destruct (bench_session (Some bench_record)) as [c|] eqn:Ec; [|vm_compute in Ec; discriminate Ec].
  destruct (c_attached (s_config c)) as [at_|] eqn:Ea;
    [|exfalso; vm_compute in Ec; injection Ec as <-; discriminate Ea].
  destruct (encode status_request) as [record|] eqn:Er; [|vm_compute in Er; discriminate Er].
  destruct (session_exchange 200 status_request s) as [s1 [[[[m|] lat] err]|]] eqn:Ex;
    [|exfalso; vm_compute in Es; injection Es as <-; vm_compute in Ex; discriminate Ex..].
  destruct (serve_exchange 200 record s) as [s' [d|]] eqn:Ed;
    [|exfalso; vm_compute in Es, Er; injection Es as <-; injection Er as <-; vm_compute in Ed; discriminate Ed].
  assert (c_attached (s_config s) = None ∧ expected_processor c = expected_processor s ∧ jget "ok" d = JBool true
          ∧ hears at_ status_request record d c) as (Ho & He & Hk & Hh).
  { vm_compute in Es, Ec, Er. injection Es as <-. injection Ec as <-. injection Er as <-.
    vm_compute in Ea. injection Ea as <-. vm_compute in Ed. injection Ed as _ <-.
    split; [reflexivity|]. split; [reflexivity|]. split; [reflexivity|]. split; [vm_compute; reflexivity|].
    eexists. vm_compute. reflexivity. }
  destruct (proj2 (attached_exchange_transparent (W := bench) (V := bench) 200 at_ status_request record s s' d c Ho Ed Hh)
              s1 m lat err 0 Ex) as (c' & Hc); [by rewrite Hk|done|done|].
  exists s, c, at_, c', m. by split_and!.
Defined.
